(** * The rule-based record pipeline of the data-processor demo

    A shallow embedding of [FunctionalUtils], [BaseRule], the five rules
    (Include, Exclude, Sort, Limit, Transform), [RuleRegistry] and
    [DataProcessor], followed by the properties stated about them.

    Conventions of the embedding.
    - A JavaScript value is a tree ([value]); an object is the list of its own
      enumerable properties in property order, an array the list of its
      elements.  The numbers of the data are the integers ([Z]): there is no
      NaN and no fraction among them; the readings of the clock are
      rationals.
    - A property read finds own properties only: the members every object
      inherits ([toString], [hasOwnProperty], ...) are not found, and a
      prototype is not kept.  The two places where the code meets them are
      written out: a call of [hasOwnProperty] goes to the own property of
      that name when the object has one, and a write under the key
      [__proto__] that is no own property makes none.  Data none of whose
      keys and texts is the name of an inherited member is called plain
      ([names_free]).
    - A function value is a name ([VFun f]); what the function does is given
      by the platform ([call_function], and [call_method] when it is called as
      a method), together with the built-ins whose result depends on the
      engine ([parseFloat], [localeCompare], ...).
    - Code that can throw returns an [outcome]; code that also writes to the
      console returns the entries written next to it ([M]).
    - In the first part ([Module Tree]) a value is the tree of its content.
      The second part ([Module Store]) keeps objects in a store and values as
      references, for the statements about sharing and mutation. *)

From Stdlib Require Import ZArith List String Ascii Bool Arith Lia.
From Stdlib Require Import Permutation Sorted DecimalString DecimalZ.
From Stdlib Require Import QArith Qround.
Close Scope Q_scope.
Import ListNotations.

Local Open Scope list_scope.
Local Open Scope string_scope.

Module Tree.

(** ** Values *)

#[warnings="-register-all"]
Inductive value : Type :=
| VUndefined
| VNull
| VBool (b : bool)
| VNum (n : Z)
| VStr (s : string)
| VArr (items : list value)
| VObj (fields : list (string * value))
| VFun (f : nat).

(** Induction over values that reaches the elements of arrays and the
    property values of objects. *)
Section value_induction.
Variable P : value -> Prop.
Hypothesis Hundef : P VUndefined.
Hypothesis Hnull : P VNull.
Hypothesis Hbool : forall b, P (VBool b).
Hypothesis Hnum : forall n, P (VNum n).
Hypothesis Hstr : forall s, P (VStr s).
Hypothesis Harr : forall items, Forall P items -> P (VArr items).
Hypothesis Hobj : forall fields, Forall (fun kv => P (snd kv)) fields -> P (VObj fields).
Hypothesis Hfun : forall f, P (VFun f).

Fixpoint value_nested_ind (v : value) : P v :=
  match v with
  | VUndefined => Hundef
  | VNull => Hnull
  | VBool b => Hbool b
  | VNum n => Hnum n
  | VStr s => Hstr s
  | VArr items =>
      Harr items
        ((fix go (l : list value) : Forall P l :=
            match l with
            | [] => Forall_nil P
            | x :: r => Forall_cons x (value_nested_ind x) (go r)
            end) items)
  | VObj fields =>
      Hobj fields
        ((fix go (l : list (string * value)) : Forall (fun kv => P (snd kv)) l :=
            match l with
            | [] => Forall_nil _
            | kv :: r => Forall_cons kv (value_nested_ind (snd kv)) (go r)
            end) fields)
  | VFun f => Hfun f
  end.
End value_induction.

(** Thrown values: an [Error] object (with the name of its class and its
    message) or any other value. *)
Inductive exn : Type :=
| JsError (name message : string)
| JsThrow (v : value).

Inductive outcome (A : Type) : Type :=
| Ok (a : A)
| Throw (e : exn).
Arguments Ok {A} a.
Arguments Throw {A} e.

Definition rbind {A B} (r : outcome A) (k : A -> outcome B) : outcome B :=
  match r with
  | Ok a => k a
  | Throw e => Throw e
  end.

Definition TypeError {A} (message : string) : outcome A :=
  Throw (JsError "TypeError" message).

Definition Error {A} (message : string) : outcome A :=
  Throw (JsError "Error" message).

(** [array.map(f)] for an [f] that can throw: the first throw ends the map. *)
Definition map_outcome {A B} (f : A -> outcome B) : list A -> outcome (list B) :=
  fix each (l : list A) : outcome (list B) :=
    match l with
    | [] => Ok []
    | x :: rest =>
        rbind (f x) (fun y => rbind (each rest) (fun ys => Ok (y :: ys)))
    end.

(** ** Strings *)

Definition string_of_Z (n : Z) : string := NilZero.string_of_int (Z.to_int n).

Fixpoint join (sep : string) (l : list string) : string :=
  match l with
  | [] => ""
  | [s] => s
  | s :: r => s ++ sep ++ join sep r
  end.

(** [s.split(c)] for a one-character separator: the pieces between the
    occurrences of [c]; never empty. *)
Fixpoint split_on (c : ascii) (s : string) : list string :=
  match s with
  | EmptyString => [""]
  | String a r =>
      if Ascii.eqb a c then "" :: split_on c r
      else match split_on c r with
           | [] => [String a ""]
           | p :: ps => String a p :: ps
           end
  end.

(** The array index a property key denotes, when it is the canonical decimal
    form of a natural number. *)
Definition array_index (key : string) : option nat :=
  match NilZero.uint_of_string key with
  | Some u =>
      let n := Nat.of_uint u in
      if String.eqb (NilZero.string_of_uint (Nat.to_uint n)) key then Some n else None
  | None => None
  end.

Fixpoint chars (s : string) : list string :=
  match s with
  | EmptyString => []
  | String a r => String a "" :: chars r
  end.

(** ** Primitive operations of the language *)

Definition truthy (v : value) : bool :=
  match v with
  | VUndefined | VNull => false
  | VBool b => b
  | VNum n => negb (n =? 0)%Z
  | VStr s => negb (String.eqb s "")
  | VArr _ | VObj _ | VFun _ => true
  end.

Definition typeof (v : value) : string :=
  match v with
  | VUndefined => "undefined"
  | VNull => "object"
  | VBool _ => "boolean"
  | VNum _ => "number"
  | VStr _ => "string"
  | VArr _ | VObj _ => "object"
  | VFun _ => "function"
  end.

Definition isArray (v : value) : bool :=
  match v with VArr _ => true | _ => false end.

Definition is_undefined (v : value) : bool :=
  match v with VUndefined => true | _ => false end.

(** [v == null] *)
Definition is_nullish (v : value) : bool :=
  match v with VUndefined | VNull => true | _ => false end.

Fixpoint assoc {A} (key : string) (fields : list (string * A)) : option A :=
  match fields with
  | [] => None
  | (k, v) :: r => if String.eqb k key then Some v else assoc key r
  end.

(** [v[key]] on a value that is neither [undefined] nor [null]: own
    properties of objects, elements and [length] of arrays and strings. *)
Definition get_prop (v : value) (key : string) : value :=
  match v with
  | VObj fields => match assoc key fields with Some x => x | None => VUndefined end
  | VArr items =>
      if String.eqb key "length" then VNum (Z.of_nat (List.length items))
      else match array_index key with
           | Some i => nth i items VUndefined
           | None => VUndefined
           end
  | VStr s =>
      if String.eqb key "length" then VNum (Z.of_nat (String.length s))
      else match array_index key with
           | Some i => match nth_error (chars s) i with
                       | Some c => VStr c
                       | None => VUndefined
                       end
           | None => VUndefined
           end
  | _ => VUndefined
  end.

(** [v[key]] or [v.key] on any value: reading a property of [undefined] or
    [null] throws. *)
Definition get_member (v : value) (key : string) : outcome value :=
  if is_nullish v
  then TypeError ("Cannot read properties of " ++
                  (match v with VNull => "null" | _ => "undefined" end) ++
                  " (reading '" ++ key ++ "')")
  else Ok (get_prop v key).

(** [String(v)] *)
Fixpoint ToString (v : value) : string :=
  match v with
  | VUndefined => "undefined"
  | VNull => "null"
  | VBool true => "true"
  | VBool false => "false"
  | VNum n => string_of_Z n
  | VStr s => s
  | VArr items =>
      join ","
        ((fix each (l : list value) : list string :=
            match l with
            | [] => []
            | x :: r => (if is_nullish x then "" else ToString x) :: each r
            end) items)
  | VObj _ => "[object Object]"
  | VFun _ => "function"
  end.

(** ** The platform

    Built-ins whose result is fixed by the engine and not by this program, and
    the behaviour of the function values that occur in a configuration. *)
Class Platform : Type := {
  (** [parseFloat(s)]; [None] is NaN. *)
  parseFloat : string -> option Z;
  (** [a.localeCompare(b, undefined, {numeric: true, sensitivity: 'base'})] *)
  localeCompare : string -> string -> Z;
  (** [Number(s)] for a string; [None] is NaN. *)
  StringToNumber : string -> option Z;
  (** [f(arg)] for the function value [VFun f]. *)
  call_function : nat -> value -> outcome value;
  (** [this.m(arg)] where the method [m] is the function value [VFun f]. *)
  call_method : nat -> value -> value -> outcome value;
  (** [JSON.stringify(v, null, 2)] *)
  JSON_stringify : value -> string
}.

(** ** The console *)

Inductive console_arg : Type :=
| CText (s : string)
| CError (e : exn)
| CList (l : list string).

Inductive console_entry : Type :=
| console_warn (args : list console_arg)
| console_log (args : list console_arg).

(** A computation that writes to the console and then returns or throws. *)
Definition M (A : Type) : Type := (list console_entry * outcome A)%type.

Definition ret {A} (a : A) : M A := ([], Ok a).
Definition throw {A} (e : exn) : M A := ([], Throw e).
Definition lift {A} (r : outcome A) : M A := ([], r).
Definition warn (args : list console_arg) : M unit := ([console_warn args], Ok tt).

Definition bind {A B} (m : M A) (k : A -> M B) : M B :=
  match m with
  | (out, Ok a) => let (out', r) := k a in ((out ++ out')%list, r)
  | (out, Throw e) => (out, Throw e)
  end.

(** [try { m } catch (error) { handler(error) }] *)
Definition try_catch {A} (m : M A) (handler : exn -> M A) : M A :=
  match m with
  | (out, Ok a) => (out, Ok a)
  | (out, Throw e) => let (out', r) := handler e in ((out ++ out')%list, r)
  end.

Declare Scope js_scope.
Delimit Scope js_scope with js.
Notation "x <- m ;; k" := (bind m (fun x => k))
  (at level 61, m at next level, right associativity) : js_scope.
Notation "m ;;; k" := (bind m (fun _ => k))
  (at level 61, right associativity) : js_scope.
Notation "x <~ r ;; k" := (rbind r (fun x => k))
  (at level 61, r at next level, right associativity) : js_scope.

(** ** Arrays *)

(** [Object.entries(v)]: throws on [undefined] and [null]. *)
Definition index_entries (l : list value) : list (string * value) :=
  combine (map (fun i => string_of_Z (Z.of_nat i)) (seq 0 (List.length l))) l.

Definition Object_entries (v : value) : outcome (list (string * value)) :=
  match v with
  | VUndefined | VNull => TypeError "Cannot convert undefined or null to object"
  | VObj fields => Ok fields
  | VArr items => Ok (index_entries items)
  | VStr s => Ok (index_entries (map VStr (chars s)))
  | _ => Ok []
  end.

Definition Object_keys (v : value) : outcome (list string) :=
  rbind (Object_entries v) (fun es => Ok (map fst es)).

Section builtins.
Context {platform : Platform}.

(** [Number(v)] and the integer an index argument stands for; NaN counts
    as 0. *)
Definition ToNumber (v : value) : option Z :=
  match v with
  | VUndefined => None
  | VNull => Some 0%Z
  | VBool b => Some (if b then 1 else 0)%Z
  | VNum n => Some n
  | VStr s => StringToNumber s
  | VArr _ | VObj _ => StringToNumber (ToString v)
  | VFun _ => None
  end.

Definition ToIntegerOrInfinity (v : value) : Z :=
  match ToNumber v with Some n => n | None => 0%Z end.

(** [items.slice(start, end)]; an [undefined] end is the length. *)
Definition clamp_index (len rel : Z) : Z :=
  if (rel <? 0)%Z then Z.max (len + rel) 0 else Z.min rel len.

Definition Array_slice {A} (items : list A) (start end_ : value) : list A :=
  let len := Z.of_nat (List.length items) in
  let k := clamp_index len (ToIntegerOrInfinity start) in
  let final := if is_undefined end_ then len
               else clamp_index len (ToIntegerOrInfinity end_) in
  firstn (Z.to_nat (Z.max (final - k) 0)) (skipn (Z.to_nat k) items).

(** [Object.prototype.hasOwnProperty]: whether [key] is an own property of
    the target. *)
Definition own_property (target : value) (key : string) : bool :=
  match target with
  | VObj fields => match assoc key fields with Some _ => true | None => false end
  | VArr items =>
      String.eqb key "length" ||
      match array_index key with
      | Some i => (i <? List.length items)%nat
      | None => false
      end
  | VStr s =>
      String.eqb key "length" ||
      match array_index key with
      | Some i => (i <? String.length s)%nat
      | None => false
      end
  | _ => false
  end.

(** [target.hasOwnProperty(key)], where the source writes the target as
    [callee].  The method is looked up on the target: an object that has an
    own property [hasOwnProperty] answers with that property (called when it is
    a function, a [TypeError] when it is not); every other value answers with
    the method it inherits. *)
Definition hasOwnProperty (callee : string) (target : value) (key : string)
  : outcome bool :=
  match target with
  | VUndefined | VNull =>
      TypeError ("Cannot read properties of " ++ ToString target ++
                 " (reading 'hasOwnProperty')")
  | VObj fields =>
      match assoc "hasOwnProperty" fields with
      | None => Ok (own_property target key)
      | Some (VFun f) =>
          rbind (call_method f target (VStr key)) (fun answer => Ok (truthy answer))
      | Some _ => TypeError (callee ++ ".hasOwnProperty is not a function")
      end
  | _ => Ok (own_property target key)
  end.

(** The comparison [Array.prototype.sort] makes between two elements:
    [undefined] goes last without the comparator being asked. *)
Definition SortCompare (comparefn : value -> value -> outcome Z) (x y : value) : outcome Z :=
  match x, y with
  | VUndefined, VUndefined => Ok 0%Z
  | VUndefined, _ => Ok 1%Z
  | _, VUndefined => Ok (-1)%Z
  | _, _ => comparefn x y
  end.

(** [Array.prototype.sort] is a stable sort (ECMAScript 2019).  For a
    comparator that is a consistent comparison of the elements the standard
    fixes the result, whatever the engine does: the elements in ascending
    order, those that compare equal in the order they had ([stable_sort]: an
    element is placed before the first element it does not compare greater
    than). *)
Fixpoint sort_insert {A} (cmp : A -> A -> outcome Z) (x : A) (l : list A) : outcome (list A) :=
  match l with
  | [] => Ok [x]
  | y :: r =>
      rbind (cmp x y) (fun c =>
        if (c <=? 0)%Z then Ok (x :: y :: r)
        else rbind (sort_insert cmp x r) (fun r' => Ok (y :: r')))
  end.

Fixpoint stable_sort {A} (cmp : A -> A -> outcome Z) (l : list A) : outcome (list A) :=
  match l with
  | [] => Ok []
  | x :: r => rbind (stable_sort cmp r) (sort_insert cmp x)
  end.

(** A consistent comparison of the elements of [l]: every comparison returns
    a number, an element compares equal to itself, to compare equal is
    symmetric, and to compare equal, less and greater are transitive. *)
Definition consistent_at {A} (cmp : A -> A -> outcome Z) (a b c : A) : bool :=
  match cmp a a, cmp a b, cmp b a, cmp b c, cmp a c with
  | Ok aa, Ok ab, Ok ba, Ok bc, Ok ac =>
      (aa =? 0)%Z
      && implb (ab =? 0)%Z (ba =? 0)%Z
      && implb ((ab =? 0)%Z && (bc =? 0)%Z) (ac =? 0)%Z
      && implb ((ab <? 0)%Z && (bc <? 0)%Z) (ac <? 0)%Z
      && implb ((0 <? ab)%Z && (0 <? bc)%Z) (0 <? ac)%Z
  | _, _, _, _, _ => false
  end.

Definition consistent_on {A} (cmp : A -> A -> outcome Z) (l : list A) : bool :=
  forallb (fun a => forallb (fun b => forallb (consistent_at cmp a b) l) l) l.

(** For a comparator that is not a consistent comparison of the elements the
    standard leaves the order to the engine.  V8 sorts the elements that are
    not [undefined] with TimSort and puts the [undefined] ones after them.  An
    array of fewer than 64 elements is one run of TimSort: the run the array
    starts with is found ([CountAndMakeRun]: it descends when the second
    element compares less than the first, and a descending run is reversed),
    and the elements after it are inserted one by one at the place a binary
    search finds ([BinaryInsertionSort]).  Longer arrays, which V8 sorts in
    several runs that it merges, are sorted as one run here as well. *)
Fixpoint run_extends {A} (cmp : A -> A -> outcome Z) (isDescending : bool)
    (previousElement : A) (l : list A) : outcome (list A * list A) :=
  match l with
  | [] => Ok ([], [])
  | currentElement :: rest =>
      rbind (cmp currentElement previousElement) (fun order =>
        if (if isDescending then (0 <=? order)%Z else (order <? 0)%Z)
        then Ok ([], l)
        else rbind (run_extends cmp isDescending currentElement rest) (fun rr =>
               Ok (currentElement :: fst rr, snd rr)))
  end.

(** The run and the elements after it. *)
Definition CountAndMakeRun {A} (cmp : A -> A -> outcome Z) (l : list A)
  : outcome (list A * list A) :=
  match l with
  | elementHigh :: elementLow :: rest =>
      rbind (cmp elementLow elementHigh) (fun order =>
        let isDescending := (order <? 0)%Z in
        rbind (run_extends cmp isDescending elementLow rest) (fun rr =>
          let run := elementHigh :: elementLow :: fst rr in
          Ok (if isDescending then rev run else run, snd rr)))
  | _ => Ok (l, [])
  end.

(** The binary search for the place of [pivot] between [left] and [right];
    the distance between the two at least halves at every step, so that
    [steps], the length of the run, is more steps than the search takes. *)
Fixpoint insertion_point {A} (cmp : A -> A -> outcome Z) (pivot : A) (run : list A)
    (steps left right : nat) : outcome nat :=
  match steps with
  | O => Ok left
  | S steps' =>
      if (left <? right)%nat then
        let mid := (left + Nat.div2 (right - left))%nat in
        rbind (cmp pivot (nth mid run pivot)) (fun order =>
          if (order <? 0)%Z then insertion_point cmp pivot run steps' left mid
          else insertion_point cmp pivot run steps' (S mid) right)
      else Ok left
  end.

Fixpoint BinaryInsertionSort {A} (cmp : A -> A -> outcome Z) (run rest : list A)
  : outcome (list A) :=
  match rest with
  | [] => Ok run
  | pivot :: rest' =>
      rbind (insertion_point cmp pivot run (List.length run) 0 (List.length run))
            (fun left =>
         BinaryInsertionSort cmp (firstn left run ++ pivot :: skipn left run) rest')
  end.

Definition TimSort {A} (cmp : A -> A -> outcome Z) (l : list A) : outcome (list A) :=
  rbind (CountAndMakeRun cmp l) (fun rr => BinaryInsertionSort cmp (fst rr) (snd rr)).

(** [array.sort(comparefn)], for the elements of an array; [compare] is
    [SortCompare comparefn], and [undefined] tells the elements that are
    [undefined]. *)
Definition sort_elements {A} (undefined : A -> bool) (compare comparefn : A -> A -> outcome Z)
    (items : list A) : outcome (list A) :=
  if consistent_on compare items then stable_sort compare items
  else rbind (TimSort comparefn (filter (fun x => negb (undefined x)) items))
             (fun sorted => Ok (sorted ++ filter undefined items)%list).

Definition Array_sort (comparefn : value -> value -> outcome Z) (items : list value)
  : outcome (list value) :=
  sort_elements is_undefined (SortCompare comparefn) comparefn items.

End builtins.

(** ** FunctionalUtils *)

Module FunctionalUtils.
Section with_platform.
Context {platform : Platform}.

(** The loop of [deepClone] over the properties of [obj], in property order:

    [for (const key in obj) if (obj.hasOwnProperty(key))
       clonedObj[key] = deepClone(obj[key])]

    The properties are assigned to a new object in the order they have in
    [obj], and so have that order in the clone.  The assignment under the key
    [__proto__] makes no own property of the new object (it sets its
    prototype, which the embedding does not keep). *)
Definition clone_properties (own : string -> outcome bool) (clone : value -> outcome value)
  : list (string * value) -> outcome (list (string * value)) :=
  fix each (l : list (string * value)) : outcome (list (string * value)) :=
    match l with
    | [] => Ok []
    | (key, x) :: rest =>
        rbind (own key) (fun has =>
          if has
          then rbind (clone x) (fun x' =>
               rbind (each rest) (fun rest' =>
                 Ok (if String.eqb key "__proto__" then rest' else (key, x') :: rest')))
          else each rest)
    end.

(** [deepClone]: primitives and functions are returned as they are, arrays
    and objects are rebuilt. *)
Fixpoint deepClone (obj : value) : outcome value :=
  match obj with
  | VArr items => rbind (map_outcome deepClone items) (fun items' => Ok (VArr items'))
  | VObj fields =>
      rbind (clone_properties (hasOwnProperty "obj" obj) deepClone fields)
            (fun fields' => Ok (VObj fields'))
  | _ => Ok obj
  end.

(** [getNestedProperty]:

    [path.split('.').reduce((current, key) =>
        (current && current[key] !== undefined) ? current[key] : defaultValue, obj)] *)

Definition getNestedProperty_step (defaultValue current : value) (key : string) : value :=
  if truthy current && negb (is_undefined (get_prop current key))
  then get_prop current key
  else defaultValue.

Definition getNestedProperty (obj : value) (path : string) (defaultValue : value) : value :=
  fold_left (getNestedProperty_step defaultValue) (split_on "."%char path) obj.

(** [getNestedProperty] with the path as the caller passed it: a path that
    is not a string has no [split]. *)
Definition getNestedProperty_of (obj path defaultValue : value) : outcome value :=
  match path with
  | VStr p => Ok (getNestedProperty obj p defaultValue)
  | VUndefined | VNull => TypeError "Cannot read properties of undefined (reading 'split')"
  | _ => TypeError "path.split is not a function"
  end.

Definition naturalSort (a b : value) : Z :=
  let aStr := ToString a in
  let bStr := ToString b in
  match parseFloat aStr, parseFloat bStr with
  | Some aNum, Some bNum => (aNum - bNum)%Z
  | _, _ => localeCompare aStr bStr
  end.

Fixpoint multiKeyComparator (keys : list value) (a b : value) : outcome Z :=
  match keys with
  | [] => Ok 0%Z
  | key :: rest =>
      rbind (getNestedProperty_of a key VUndefined) (fun aVal =>
      rbind (getNestedProperty_of b key VUndefined) (fun bVal =>
        let result := naturalSort aVal bVal in
        if negb (result =? 0)%Z then Ok result
        else multiKeyComparator rest a b))
  end.

(** [sort(comparator, array)] = [[...array].sort(comparator)] *)
Definition sort (comparator : value -> value -> outcome Z) (array : list value)
  : outcome (list value) :=
  Array_sort comparator array.

(** [pipe(...fns)(value)] = [fns.reduce((acc, fn) => fn(acc), value)] *)
Definition pipe {A} (fns : list (A -> A)) (v : A) : A :=
  fold_left (fun acc fn => fn acc) fns v.

(** [take(n, array)] = [array.slice(0, n)], [skip(n, array)] = [array.slice(n)] *)
Definition take {A} (n : value) (array : list A) : list A :=
  Array_slice array (VNum 0) n.

Definition skip {A} (n : value) (array : list A) : list A :=
  Array_slice array n VUndefined.

(** [compose(...fns)(value)] = [fns.reduceRight((acc, fn) => fn(acc), value)] *)
Definition compose {A} (fns : list (A -> A)) (v : A) : A :=
  fold_right (fun fn acc => fn acc) v fns.

End with_platform.
End FunctionalUtils.

(** ** Property writes

    The code writes properties only on objects it has just built; the
    result of the write is the object after it.  Arrays hold their elements
    only: a property of another name stored on an array is not kept. *)

Definition is_index_key (key : string) : bool :=
  match array_index key with Some _ => true | None => false end.

(** Own properties come in property order: array-index keys in ascending
    order first, then the other keys in the order of their creation. *)
Fixpoint insert_index_key {A} (i : nat) (key : string) (x : A)
    (fields : list (string * A)) : list (string * A) :=
  match fields with
  | [] => [(key, x)]
  | (k, v) :: r =>
      match array_index k with
      | Some j => if (j <? i)%nat then (k, v) :: insert_index_key i key x r
                  else (key, x) :: (k, v) :: r
      | None => (key, x) :: (k, v) :: r
      end
  end.

Fixpoint replace_field {A} (key : string) (x : A) (fields : list (string * A))
  : list (string * A) :=
  match fields with
  | [] => []
  | (k, v) :: r => if String.eqb k key then (k, x) :: r
                   else (k, v) :: replace_field key x r
  end.

Definition obj_set {A} (fields : list (string * A)) (key : string) (x : A)
  : list (string * A) :=
  match assoc key fields with
  | Some _ => replace_field key x fields
  | None =>
      match array_index key with
      | Some i => insert_index_key i key x fields
      | None => (fields ++ [(key, x)])%list
      end
  end.

Definition obj_delete {A} (fields : list (string * A)) (key : string)
  : list (string * A) :=
  filter (fun kv => negb (String.eqb (fst kv) key)) fields.

Fixpoint list_set {A} (hole : A) (l : list A) (i : nat) (x : A) : list A :=
  match i, l with
  | O, [] => [x]
  | O, _ :: r => x :: r
  | S n, [] => hole :: list_set hole [] n x
  | S n, y :: r => y :: list_set hole r n x
  end.

(** [target[key] = x] in strict mode.  On an object that has no own property
    [__proto__] the assignment under that key makes none: it sets the
    prototype, which the embedding does not keep. *)
Definition set_member (target : value) (key : string) (x : value) : outcome value :=
  match target with
  | VUndefined | VNull =>
      TypeError ("Cannot set properties of " ++ ToString target ++
                 " (setting '" ++ key ++ "')")
  | VObj fields =>
      if String.eqb key "__proto__" && negb (own_property target key)
      then Ok target
      else Ok (VObj (obj_set fields key x))
  | VArr items =>
      match array_index key with
      | Some i => Ok (VArr (list_set VUndefined items i x))
      | None => Ok target
      end
  | VFun _ => Ok target
  | _ => TypeError ("Cannot create property '" ++ key ++ "' on " ++
                    typeof target ++ " '" ++ ToString target ++ "'")
  end.

(** [delete target[key]] in strict mode, for a target that is an object or
    an array (an element that is deleted reads as [undefined]). *)
Definition delete_member (target : value) (key : string) : outcome value :=
  match target with
  | VObj fields => Ok (VObj (obj_delete fields key))
  | VArr items =>
      if String.eqb key "length"
      then TypeError "Cannot delete property 'length' of [object Array]"
      else match array_index key with
           | Some i => Ok (if (i <? List.length items)%nat
                           then VArr (list_set VUndefined items i VUndefined) else target)
           | None => Ok target
           end
  | _ => Ok target
  end.

Definition is_space (c : ascii) : bool :=
  let n := nat_of_ascii c in
  ((9 <=? n) && (n <=? 13) || (n =? 32))%nat.

Fixpoint trim_start (s : string) : string :=
  match s with
  | EmptyString => EmptyString
  | String c r => if is_space c then trim_start r else s
  end.

Fixpoint trim_end (s : string) : string :=
  match s with
  | EmptyString => EmptyString
  | String c r =>
      match trim_end r with
      | EmptyString => if is_space c then EmptyString else String c EmptyString
      | r' => String c r'
      end
  end.

(** [s.trim()] *)
Definition trim (s : string) : string := trim_end (trim_start s).

(** Indexed [forEach]: the element with its index as the messages print it. *)
Definition with_index {A} (l : list A) : list (string * A) :=
  combine (map (fun i => string_of_Z (Z.of_nat i)) (seq 0 (List.length l))) l.

(** ** Inherited members

    The members every plain object inherits from [Object.prototype].  A read
    [o[key]] of one of these names on an object that has no own property [key]
    finds the inherited member, which is truthy; the functions below that test
    [o[key]] before they create an entry take that into account. *)
Definition Object_prototype_members : list string :=
  [ "constructor"; "__defineGetter__"; "__defineSetter__"; "hasOwnProperty";
    "__lookupGetter__"; "__lookupSetter__"; "isPrototypeOf"; "propertyIsEnumerable";
    "toString"; "valueOf"; "__proto__"; "toLocaleString" ].

Definition inherited (key : string) : bool :=
  existsb (String.eqb key) Object_prototype_members.

(** [array.reduce(reducer, initialValue)] with a reducer that can throw *)
Fixpoint reduceM {A B} (reducer : B -> A -> outcome B) (array : list A) (acc : B)
  : outcome B :=
  match array with
  | [] => Ok acc
  | item :: rest => rbind (reducer acc item) (reduceM reducer rest)
  end.

(** ** FunctionalUtils, continued: the functions that write properties *)

Module Utils.

(** [setNestedProperty]: the [reduce] over the keys writes into the clone.
    [current] is the object the walk has reached; a write below it is a write
    in it, so the step returns [current] after the writes of the steps that
    follow.  Before the last key, [current[key] = current[key] || {}]; at the
    last key, [current[key] = value]. *)
Fixpoint setNestedProperty_reduce (current : value) (keys : list string) (x : value)
  : outcome value :=
  match keys with
  | [] => Ok current
  | key :: rest =>
      match rest with
      | [] => set_member current key x
      | _ :: _ =>
          rbind (get_member current key) (fun old =>
          rbind (set_member current key (if truthy old then old else VObj []))
                (fun current' =>
          rbind (setNestedProperty_reduce (get_prop current' key) rest x) (fun child =>
          set_member current' key child)))
      end
  end.

Section with_platform.
Context {platform : Platform}.

Definition setNestedProperty (obj : value) (path : string) (x : value) : outcome value :=
  let keys := split_on "."%char path in
  rbind (FunctionalUtils.deepClone obj) (fun result =>
  setNestedProperty_reduce result keys x).

End with_platform.

(** [groupBy(keyFn, array)]: the groups are the properties of an object, each
    an array; [groups[key]] on a key that is not an own property finds an
    inherited member when there is one, and that has no [push]. *)
Definition groupBy_reducer (keyFn : value -> outcome value)
    (groups : list (string * list value)) (item : value)
  : outcome (list (string * list value)) :=
  rbind (keyFn item) (fun key =>
    let k := ToString key in
    match assoc k groups with
    | Some members => Ok (obj_set groups k (members ++ [item])%list)
    | None =>
        if inherited k then TypeError "groups[key].push is not a function"
        else Ok (obj_set groups k [item])
    end).

Definition groupBy (keyFn : value -> outcome value) (array : value) : outcome value :=
  match array with
  | VArr items =>
      rbind (reduceM (groupBy_reducer keyFn) items []) (fun groups =>
        Ok (VObj (map (fun kg => (fst kg, VArr (snd kg))) groups)))
  | VUndefined => TypeError "Cannot read properties of undefined (reading 'reduce')"
  | VNull => TypeError "Cannot read properties of null (reading 'reduce')"
  | _ => TypeError "array.reduce is not a function"
  end.

(** [memoize(fn)]: one call of the memoized function on the cache as it is,
    and the cache after it.  [stringify] is [JSON.stringify]; the cache is a
    [Map] from the text of the arguments to the result. *)
Definition memoized (stringify : value -> string) (fn : list value -> outcome value)
    (cache : list (string * value)) (args : list value)
  : list (string * value) * outcome value :=
  let key := stringify (VArr args) in
  match assoc key cache with
  | Some result => (cache, Ok result)
  | None =>
      match fn args with
      | Ok result => ((cache ++ [(key, result)])%list, Ok result)
      | Throw e => (cache, Throw e)
      end
  end.

End Utils.

(** ** BaseRule *)

Record ValidationResult : Type := {
  isValid : bool;
  errors : list string;
  warnings : list string
}.

Definition validation (errs warns : list string) : ValidationResult :=
  {| isValid := (List.length errs =? 0)%nat; errors := errs; warnings := warns |}.

(** What every rule offers: the fields set by the constructor and the two
    methods a rule overrides. *)
Record Rule : Type := {
  name : string;
  type : string;
  priority : Z;
  validate : value -> outcome ValidationResult;
  execute : value -> value -> M value
}.

Module BaseRule.
Section with_platform.
Context {platform : Platform}.

(** The class itself: priority 0, every configuration valid, [execute] left
    to the subclass. *)
Definition rule (name type : string) : Rule :=
  {| name := name;
     type := type;
     priority := 0;
     validate := fun _ => Ok (validation [] []);
     execute := fun _ _ =>
       throw (JsError "Error" ("Rule " ++ name ++ " must implement execute method")) |}.

(** [a === b] as far as values show it: equal primitives and the same
    function.  Two arrays or two objects are the same reference or not, which
    a value does not tell; [deepEquals] then compares them part by part, which
    accepts a reference compared with itself. *)
Definition strict_equals (a b : value) : bool :=
  match a, b with
  | VUndefined, VUndefined => true
  | VNull, VNull => true
  | VBool x, VBool y => Bool.eqb x y
  | VNum x, VNum y => (x =? y)%Z
  | VStr x, VStr y => String.eqb x y
  | VFun x, VFun y => (x =? y)%nat
  | _, _ => false
  end.

Fixpoint deepEquals (value1 value2 : value) {struct value1} : bool :=
  if strict_equals value1 value2 then true
  else if is_nullish value1 || is_nullish value2 then strict_equals value1 value2
  else if negb (String.eqb (typeof value1) (typeof value2)) then false
  else
    match value1, value2 with
    | VArr items1, VArr items2 =>
        if negb (List.length items1 =? List.length items2)%nat then false
        else
          (fix every (l1 l2 : list value) : bool :=
             match l1 with
             | [] => true
             | item :: r1 => deepEquals item (hd VUndefined l2) && every r1 (tl l2)
             end) items1 items2
    | VObj fields1, VObj fields2 =>
        if negb (List.length fields1 =? List.length fields2)%nat then false
        else
          (fix every (l : list (string * value)) : bool :=
             match l with
             | [] => true
             | (key, v1) :: r =>
                 existsb (String.eqb key) (map fst fields2)
                 && deepEquals v1 (get_prop value2 key)
                 && every r
             end) fields1
    | _, _ => false
    end.

(** [Object.entries(criterion).every(([key, value]) =>
       deepEquals(getNestedProperty(record, key), value))] *)
Definition matchesSingleCriterion (record criterion : value) : outcome bool :=
  rbind (Object_entries criterion) (fun entries =>
    Ok (forallb (fun kv =>
          deepEquals (FunctionalUtils.getNestedProperty record (fst kv) VUndefined) (snd kv))
        entries)).

(** [criteria.some(criterion => matchesSingleCriterion(record, criterion))] *)
Fixpoint some_criterion (record : value) (criteria : list value) : outcome bool :=
  match criteria with
  | [] => Ok false
  | criterion :: rest =>
      rbind (matchesSingleCriterion record criterion) (fun b =>
        if b then Ok true else some_criterion record rest)
  end.

Definition matchesRecord (record criteria : value) : outcome bool :=
  match criteria with
  | VArr items => some_criterion record items
  | _ => matchesSingleCriterion record criteria
  end.

Definition validateCriteriaConfig (config : value) (ruleName : string) : ValidationResult :=
  if negb (truthy config) then
    validation [ruleName ++ " rule requires configuration"] []
  else if negb (isArray config) && negb (String.eqb (typeof config) "object") then
    validation [ruleName ++ " rule configuration must be an array or object"] []
  else
    match config with
    | VArr items =>
        validation
          (flat_map (fun ix =>
             if negb (String.eqb (typeof (snd ix)) "object") || strict_equals (snd ix) VNull
             then [ruleName ++ " rule criteria[" ++ fst ix ++ "] must be an object"]
             else []) (with_index items))
          (if (List.length items =? 0)%nat
           then [ruleName ++ " rule has empty criteria array"] else [])
    | VObj fields =>
        validation []
          (if (List.length fields =? 0)%nat
           then [ruleName ++ " rule has empty criteria object"] else [])
    | _ => validation [] []
    end.

(** [data.filter(predicate)] with a predicate that can throw *)
Fixpoint filterM {A} (predicate : A -> outcome bool) (data : list A)
  : outcome (list A) :=
  match data with
  | [] => Ok []
  | record :: rest =>
      rbind (predicate record) (fun keep =>
      rbind (filterM predicate rest) (fun rest' =>
        Ok (if keep then record :: rest' else rest')))
  end.

End with_platform.
End BaseRule.

(** ** Include and Exclude *)

Module IncludeRule.
Section with_platform.
Context {platform : Platform}.

Definition validate (config : value) : outcome ValidationResult :=
  Ok (BaseRule.validateCriteriaConfig config "Include").

Definition execute (data config : value) : outcome value :=
  match data with
  | VArr records =>
      rbind (BaseRule.filterM (fun record => BaseRule.matchesRecord record config) records)
            (fun kept => Ok (VArr kept))
  | _ => Error "Include rule requires data to be an array"
  end.

Definition rule : Rule :=
  Build_Rule "Include" "include" 1 validate (fun data config => lift (execute data config)).

End with_platform.
End IncludeRule.

Module ExcludeRule.
Section with_platform.
Context {platform : Platform}.

Definition validate (config : value) : outcome ValidationResult :=
  Ok (BaseRule.validateCriteriaConfig config "Exclude").

Definition execute (data config : value) : outcome value :=
  match data with
  | VArr records =>
      rbind (BaseRule.filterM
               (fun record => rbind (BaseRule.matchesRecord record config)
                                    (fun b => Ok (negb b))) records)
            (fun kept => Ok (VArr kept))
  | _ => Error "Exclude rule requires data to be an array"
  end.

Definition rule : Rule :=
  Build_Rule "Exclude" "exclude" 2 validate (fun data config => lift (execute data config)).

End with_platform.
End ExcludeRule.

(** ** Sort *)

Module SortRule.
Section with_platform.
Context {platform : Platform}.

Definition validate (config : value) : outcome ValidationResult :=
  Ok (if negb (truthy config) then
        validation ["Sort rule requires configuration"] []
      else
        match config with
        | VStr s =>
            validation (if String.eqb (trim s) "" then ["Sort rule key cannot be empty"] else []) []
        | VArr keys =>
            validation
              (flat_map (fun ix =>
                 match snd ix with
                 | VStr key =>
                     if String.eqb (trim key) ""
                     then ["Sort rule key[" ++ fst ix ++ "] cannot be empty"] else []
                 | _ => ["Sort rule key[" ++ fst ix ++ "] must be a string"]
                 end) (with_index keys))
              (if (List.length keys =? 0)%nat then ["Sort rule has empty keys array"] else [])
        | _ => validation ["Sort rule configuration must be a string or array of strings"] []
        end).

(** [Array.isArray(config) ? config : [config]] *)
Definition keys (config : value) : list value :=
  match config with VArr ks => ks | _ => [config] end.

Definition execute (data config : value) : outcome value :=
  match data with
  | VArr records =>
      let comparator := FunctionalUtils.multiKeyComparator (keys config) in
      rbind (FunctionalUtils.sort comparator records) (fun sorted => Ok (VArr sorted))
  | _ => Error "Sort rule requires data to be an array"
  end.

Definition rule : Rule :=
  Build_Rule "Sort" "sortBy" 10 validate (fun data config => lift (execute data config)).

End with_platform.
End SortRule.

(** ** Limit *)

Module LimitRule.
Section with_platform.
Context {platform : Platform}.

(** [Number.isInteger(v)]: every number of the embedding is an integer. *)
Definition isInteger (v : value) : bool :=
  match v with VNum _ => true | _ => false end.

Definition is_negative (v : value) : bool :=
  match v with VNum n => (n <? 0)%Z | _ => false end.

Definition is_zero (v : value) : bool :=
  match v with VNum n => (n =? 0)%Z | _ => false end.

Definition validate (config : value) : outcome ValidationResult :=
  Ok (if is_nullish config then
        validation ["Limit rule requires configuration"] []
      else if String.eqb (typeof config) "number" then
        validation
          (if negb (isInteger config) || is_negative config
           then ["Limit rule count must be a non-negative integer"] else [])
          (if is_zero config
           then ["Limit rule count is 0, will return empty result"] else [])
      else if String.eqb (typeof config) "object" then
        let count := get_prop config "count" in
        let offset := get_prop config "offset" in
        validation
          ((if is_nullish count then ["Limit rule object must have count property"]
            else if negb (isInteger count) || is_negative count
                 then ["Limit rule count must be a non-negative integer"] else [])
           ++
           (if negb (is_nullish offset) && (negb (isInteger offset) || is_negative offset)
            then ["Limit rule offset must be a non-negative integer"] else []))%list
          (if is_zero count
           then ["Limit rule count is 0, will return empty result"] else [])
      else
        validation ["Limit rule configuration must be a number or object with count/offset"] []).

Definition execute (data config : value) : outcome value :=
  match data with
  | VArr records =>
      rbind (if String.eqb (typeof config) "number" then Ok (config, VNum 0)
             else rbind (get_member config "count") (fun count =>
                  rbind (get_member config "offset") (fun o =>
                    Ok (count, if truthy o then o else VNum 0))))
            (fun co =>
               let count := fst co in
               let offset := snd co in
               Ok (VArr (FunctionalUtils.pipe
                           [FunctionalUtils.skip offset; FunctionalUtils.take count]
                           records)))
  | _ => Error "Limit rule requires data to be an array"
  end.

Definition rule : Rule :=
  Build_Rule "Limit" "limit" 20 validate (fun data config => lift (execute data config)).

End with_platform.
End LimitRule.

(** ** Transform *)

Module TransformRule.
Section with_platform.
Context {platform : Platform}.

Definition validate (config : value) : outcome ValidationResult :=
  Ok (if negb (truthy config) || negb (String.eqb (typeof config) "object") then
        {| isValid := false;
           errors := ["Transform rule requires configuration object"];
           warnings := [] |}
      else
        let fields := get_prop config "fields" in
        let computed := get_prop config "computed" in
        let rename := get_prop config "rename" in
        validation
          (List.app
           (if is_nullish fields then []
            else match fields with
                 | VArr items =>
                     flat_map (fun ix =>
                       if negb (String.eqb (typeof (snd ix)) "string")
                       then ["Transform rule fields[" ++ fst ix ++ "] must be a string"]
                       else []) (with_index items)
                 | _ => ["Transform rule fields must be an array"]
                 end)
          (List.app
           (if is_nullish computed then []
            else if negb (String.eqb (typeof computed) "object")
                 then ["Transform rule computed must be an object"]
                 else match Object_entries computed with
                      | Ok entries =>
                          flat_map (fun kv =>
                            if negb (String.eqb (typeof (snd kv)) "function")
                               && negb (String.eqb (typeof (snd kv)) "string")
                            then ["Transform rule computed." ++ fst kv ++
                                  " must be a function or string expression"]
                            else []) entries
                      | Throw _ => []
                      end)
           (if is_nullish rename then []
            else if negb (String.eqb (typeof rename) "object")
                 then ["Transform rule rename must be an object"] else [])))
          []).

(** The placeholder [{{fieldPath}}] at the start of [s], for the pattern
    [/\{\{([^}]+)\}\}/]: the field path and the length of the match. *)
Fixpoint until_brace (s : string) : string * string :=
  match s with
  | EmptyString => (EmptyString, EmptyString)
  | String c r =>
      if Ascii.eqb c "}"%char then (EmptyString, s)
      else let (body, rest) := until_brace r in (String c body, rest)
  end.

Definition match_placeholder (s : string) : option (string * nat) :=
  match s with
  | String "{" (String "{" r) =>
      match until_brace r with
      | (EmptyString, _) => None
      | (body, String "}" (String "}" _)) => Some (body, 4 + String.length body)
      | _ => None
      end
  | _ => None
  end.

Definition placeholder_value (record : value) (fieldPath : string) : string :=
  let value := FunctionalUtils.getNestedProperty record (trim fieldPath) VUndefined in
  if negb (is_nullish value) then ToString value else "".

(** [template.replace(/\{\{([^}]+)\}\}/g, ...)]: [skip] counts the
    characters of the current match that are still to be passed over. *)
Fixpoint replace_placeholders (replacement : string -> string) (s : string) (skip : nat)
  : string :=
  match s with
  | EmptyString => EmptyString
  | String c r =>
      match skip with
      | S n => replace_placeholders replacement r n
      | O =>
          match match_placeholder s with
          | Some (fieldPath, len) =>
              replacement fieldPath ++ replace_placeholders replacement r (len - 1)
          | None => String c (replace_placeholders replacement r 0)
          end
      end
  end.

Definition evaluateStringTemplate (template : string) (record : value) : string :=
  replace_placeholders (placeholder_value record) template 0.

(** [config.fields.forEach(field => { ... selectedFields[field] = value })] *)
Fixpoint select_fields (record : value) (fields : list value) (selectedFields : value)
  : outcome value :=
  match fields with
  | [] => Ok selectedFields
  | field :: rest =>
      rbind (FunctionalUtils.getNestedProperty_of record field VUndefined) (fun value =>
      rbind (if negb (is_undefined value)
             then set_member selectedFields (ToString field) value
             else Ok selectedFields) (fun selectedFields' =>
        select_fields record rest selectedFields'))
  end.

(** One entry of [config.computed]: the computation runs on the record the
    rule was given; whatever is thrown inside the [try] is caught. *)
Definition compute_field (record result : value) (key : string) (computation : value)
  : M value :=
  try_catch
    (bind (lift (match computation with
                 | VFun f => call_function f record
                 | VStr template => Ok (VStr (evaluateStringTemplate template record))
                 | _ => Ok VUndefined
                 end)) (fun value =>
     lift (set_member result key value)))
    (fun error =>
       bind (warn [CText ("Error computing field " ++ key ++ ":"); CError error]) (fun _ =>
       lift (set_member result key VNull))).

Fixpoint compute_fields (record result : value) (entries : list (string * value))
  : M value :=
  match entries with
  | [] => ret result
  | (key, computation) :: rest =>
      bind (compute_field record result key computation) (fun result' =>
        compute_fields record result' rest)
  end.

(** One entry of [config.rename]. *)
Definition rename_field (result : value) (oldKey : string) (newKey : value)
  : outcome value :=
  rbind (hasOwnProperty "result" result oldKey) (fun has =>
    if has
    then rbind (set_member result (ToString newKey) (get_prop result oldKey))
               (fun result' => delete_member result' oldKey)
    else Ok result).

Fixpoint rename_fields (result : value) (entries : list (string * value))
  : outcome value :=
  match entries with
  | [] => Ok result
  | (oldKey, newKey) :: rest =>
      rbind (rename_field result oldKey newKey) (fun result' =>
        rename_fields result' rest)
  end.

Definition transformRecord (record config : value) : M value :=
  bind (lift (FunctionalUtils.deepClone record)) (fun result =>
  (* Select specific fields *)
  bind (lift (rbind (get_member config "fields") (fun fields =>
          if truthy fields then
            match fields with
            | VArr items => select_fields record items (VObj [])
            | _ => TypeError "config.fields.forEach is not a function"
            end
          else Ok result))) (fun result =>
  (* Add computed fields *)
  bind (let computed := get_prop config "computed" in
        if truthy computed then
          bind (lift (Object_entries computed)) (compute_fields record result)
        else ret result) (fun result =>
  (* Rename fields *)
  let rename := get_prop config "rename" in
  if truthy rename then
    lift (rbind (Object_entries rename) (rename_fields result))
  else ret result))).

(** [data.map(record => this.transformRecord(record, config))] *)
Fixpoint map_records (config : value) (records : list value) : M (list value) :=
  match records with
  | [] => ret []
  | record :: rest =>
      bind (transformRecord record config) (fun r =>
      bind (map_records config rest) (fun rs => ret (r :: rs)))
  end.

Definition execute (data config : value) : M value :=
  match data with
  | VArr records => bind (map_records config records) (fun rs => ret (VArr rs))
  | _ => throw (JsError "Error" "Transform rule requires data to be an array")
  end.

Definition rule : Rule :=
  Build_Rule "Transform" "transform" 15 validate execute.

End with_platform.
End TransformRule.

(** ** RuleRegistry

    The registry is the [Map] from rule type to rule instance, in insertion
    order; it is passed to the functions that read it. *)

Module RuleRegistry.
Section with_platform.
Context {platform : Platform}.

Definition registry : Type := list (string * Rule).

Fixpoint Map_get (rules : registry) (key : string) : option Rule :=
  match rules with
  | [] => None
  | (k, r) :: rest => if String.eqb k key then Some r else Map_get rest key
  end.

Definition Map_has (rules : registry) (key : string) : bool :=
  match Map_get rules key with Some _ => true | None => false end.

Fixpoint Map_set (rules : registry) (key : string) (r : Rule) : registry :=
  match rules with
  | [] => [(key, r)]
  | (k, r0) :: rest =>
      if String.eqb k key then (k, r) :: rest else (k, r0) :: Map_set rest key r
  end.

Definition registerRule (rules : registry) (ruleInstance : Rule) : M registry :=
  bind (if Map_has rules (type ruleInstance)
        then warn [CText ("Rule type '" ++ type ruleInstance ++
                          "' is already registered. Overwriting.")]
        else ret tt) (fun _ =>
  ([console_log [CText ("Registered rule: " ++ name ruleInstance ++
                        " (" ++ type ruleInstance ++ ")")]],
   Ok (Map_set rules (type ruleInstance) ruleInstance))).

(** [rules.get(type) || null]; [None] is [null]. *)
Definition getRule (rules : registry) (type : string) : option Rule :=
  Map_get rules type.

Definition hasRule (rules : registry) (type : string) : bool :=
  Map_has rules type.

Definition unregisterRule (rules : registry) (type : string) : registry :=
  filter (fun kr => negb (String.eqb (fst kr) type)) rules.

Definition executeRule (rules : registry) (type : string) (data config : value)
  : M value :=
  match getRule rules type with
  | None => throw (JsError "Error" ("Rule type '" ++ type ++ "' is not registered"))
  | Some rule =>
      (* Validate configuration *)
      bind (lift (validate rule config)) (fun validation =>
        if negb (isValid validation) then
          throw (JsError "Error"
                   ("Rule validation failed: " ++ join ", " (errors validation)))
        else
          (* Log warnings *)
          bind (if (0 <? List.length (warnings validation))%nat
                then warn [CText ("Rule warnings for " ++ type ++ ":");
                           CList (warnings validation)]
                else ret tt) (fun _ =>
          (* Execute rule *)
          execute rule data config))
  end.

(** The rules [autoRegisterRules] registers, in its order. *)
Definition builtin_rules : registry :=
  [ ("include", IncludeRule.rule);
    ("exclude", ExcludeRule.rule);
    ("sortBy", SortRule.rule);
    ("limit", LimitRule.rule);
    ("transform", TransformRule.rule) ].

Definition getAllRules (rules : registry) : list Rule := map snd rules.

Definition getRuleTypes (rules : registry) : list string := map fst rules.

Definition clearRules (rules : registry) : registry := [].

(** [Array.from(rules.values()).sort((a, b) => a.priority - b.priority)] *)
Definition getRulesByPriority (rules : registry) : outcome (list Rule) :=
  stable_sort (fun a b => Ok (priority a - priority b)%Z) (getAllRules rules).

(** [autoRegisterRules]: the rule classes that are available are registered
    in the order of the list [ruleClasses]. *)
Fixpoint registerRules (rules : registry) (instances : list Rule) : M registry :=
  match instances with
  | [] => ret rules
  | ruleInstance :: rest =>
      bind (registerRule rules ruleInstance) (fun rules' => registerRules rules' rest)
  end.

Definition autoRegisterRules (rules : registry) : M registry :=
  registerRules rules
    [IncludeRule.rule; ExcludeRule.rule; SortRule.rule; LimitRule.rule; TransformRule.rule].

End with_platform.
End RuleRegistry.

(** ** DataProcessor *)

Record Metadata : Type := {
  inputCount : value;
  outputCount : value;
  processingTime : Z;
  appliedRules : list value;
  error : option value
}.

Record ProcessingResult : Type := {
  result : value;
  metadata : Metadata
}.

Module DataProcessor.
Section with_platform.
Context {platform : Platform}.

(** [error.message] *)
Definition error_message (error : exn) : outcome value :=
  match error with
  | JsError _ message => Ok (VStr message)
  | JsThrow v => get_member v "message"
  end.

(** [getRule(type).priority] *)
Definition rule_priority (rules : RuleRegistry.registry) (type : string) : outcome Z :=
  match RuleRegistry.getRule rules type with
  | Some rule => Ok (priority rule)
  | None => TypeError "Cannot read properties of null (reading 'priority')"
  end.

(** The rules of the condition that are registered, sorted by priority. *)
Definition ruleEntries (rules : RuleRegistry.registry) (condition : value)
  : outcome (list (string * value)) :=
  rbind (Object_entries condition) (fun entries =>
    stable_sort
      (fun a b =>
         rbind (rule_priority rules (fst a)) (fun pa =>
         rbind (rule_priority rules (fst b)) (fun pb => Ok (pa - pb)%Z)))
      (filter (fun e => RuleRegistry.hasRule rules (fst e)) entries)).

Definition applied_rule (type : string) (config : value) (priority : Z) : value :=
  VObj [("type", VStr type); ("config", config); ("priority", VNum priority)].

(** The loop over the rule entries: each rule works on the result of the one
    before; what a rule throws is thrown again as an [Error] that names the
    rule. *)
Fixpoint execute_rules (rules : RuleRegistry.registry)
    (entries : list (string * value)) (result : value) (appliedRules : list value)
  : M (value * list value) :=
  match entries with
  | [] => ret (result, appliedRules)
  | (type, config) :: rest =>
      bind (try_catch
              (bind (RuleRegistry.executeRule rules type result config) (fun result' =>
               bind (lift (rule_priority rules type)) (fun p =>
               ret (result', (appliedRules ++ [applied_rule type config p])%list))))
              (fun error =>
                 bind (lift (error_message error)) (fun message =>
                 throw (JsError "Error"
                          ("Failed to execute " ++ type ++ " rule: " ++ ToString message)))))
           (fun ra => execute_rules rules rest (fst ra) (snd ra))
  end.

(** [Math.round(x)]: the integer nearest to [x], a half rounded up. *)
Definition Math_round (x : Q) : Z := Qfloor (x + (1 # 2)).

(** [processData(data, condition)]: the [try] block, the [catch] block, and
    the function; [startTime] and [endTime] are the two readings of the
    clock [performance.now()], in milliseconds and fractions of one. *)
Definition processData_try (rules : RuleRegistry.registry) (processingTime : Z)
    (data condition : value) : M ProcessingResult :=
  (* Validate inputs *)
  if negb (isArray data) then
    throw (JsError "Error" "Data must be an array")
  else if negb (truthy condition) || negb (String.eqb (typeof condition) "object") then
    throw (JsError "Error" "Condition must be an object")
  else
    (* Clone data to avoid mutations *)
    bind (lift (FunctionalUtils.deepClone data)) (fun result =>
    (* Get rules sorted by priority *)
    bind (lift (ruleEntries rules condition)) (fun entries =>
    (* Execute rules in priority order *)
    bind (execute_rules rules entries result []) (fun ra =>
    let result := fst ra in
    let appliedRules := snd ra in
    bind (lift (get_member result "length")) (fun outputCount =>
    ret {| result := result;
           metadata := {| inputCount := get_prop data "length";
                          outputCount := outputCount;
                          processingTime := processingTime;
                          appliedRules := appliedRules;
                          error := None |} |})))).

Definition processData_catch (processingTime : Z) (data : value) (error : exn)
  : M ProcessingResult :=
  bind (lift (error_message error)) (fun message =>
  ret {| result := VArr [];
         metadata := {| inputCount :=
                          if isArray data then get_prop data "length" else VNum 0;
                        outputCount := VNum 0;
                        processingTime := processingTime;
                        appliedRules := [];
                        error := Some message |} |}).

Definition processData (rules : RuleRegistry.registry) (startTime endTime : Q)
    (data condition : value) : M ProcessingResult :=
  let processingTime := Math_round (endTime - startTime) in
  try_catch (processData_try rules processingTime data condition)
            (processData_catch processingTime data).

(** [validateCondition(condition)] *)
Fixpoint validate_entries (rules : RuleRegistry.registry) (entries : list (string * value))
    (errs warns : list string) : outcome ValidationResult :=
  match entries with
  | [] => Ok (validation errs warns)
  | (type, config) :: rest =>
      match RuleRegistry.getRule rules type with
      | None => validate_entries rules rest (List.app errs ["Unknown rule type: " ++ type]) warns
      | Some rule =>
          rbind (validate rule config) (fun ruleValidation =>
            validate_entries rules rest
              (if negb (isValid ruleValidation)
               then List.app errs (map (fun err => type ++ ": " ++ err) (errors ruleValidation))
               else errs)
              (List.app warns (map (fun w => type ++ ": " ++ w) (warnings ruleValidation))))
      end
  end.

Definition validateCondition (rules : RuleRegistry.registry) (condition : value)
  : outcome ValidationResult :=
  if negb (truthy condition) || negb (String.eqb (typeof condition) "object") then
    Ok {| isValid := false; errors := ["Condition must be an object"]; warnings := [] |}
  else
    rbind (Object_entries condition) (fun entries =>
      validate_entries rules entries []
        (if (List.length entries =? 0)%nat then ["No rules specified in condition"] else [])).

(** A [Set] of strings, in insertion order. *)
Definition Set_add (s : list string) (key : string) : list string :=
  if existsb (String.eqb key) s then s else (s ++ [key])%list.

(** The double quote character, and [s.replace(/dquote/g, dquote dquote)] *)
Definition dquote : ascii := ascii_of_nat 34.

Fixpoint double_quotes (s : string) : string :=
  match s with
  | EmptyString => EmptyString
  | String c r =>
      if Ascii.eqb c dquote then String c (String c (double_quotes r))
      else String c (double_quotes r)
  end.

Definition quoted (s : string) : string := String dquote (s ++ String dquote "").

(** All unique field names *)
Definition collect_fields (data : list value) : list string :=
  fold_left
    (fun fields record =>
       if String.eqb (typeof record) "object" && negb (BaseRule.strict_equals record VNull)
       then match Object_keys record with
            | Ok keys => fold_left Set_add keys fields
            | Throw _ => fields
            end
       else fields)
    data [].

Definition csv_cell (record : value) (field : string) : outcome string :=
  rbind (get_member record field) (fun value =>
    if is_nullish value then Ok (quoted "")
    else Ok (quoted (double_quotes (ToString value)))).

Fixpoint mapM {A B} (f : A -> outcome B) (l : list A) : outcome (list B) :=
  match l with
  | [] => Ok []
  | x :: r => rbind (f x) (fun y => rbind (mapM f r) (fun ys => Ok (y :: ys)))
  end.

Definition convertToCSV (data : value) (delimiter : string) : outcome string :=
  match data with
  | VArr records =>
      if (List.length records =? 0)%nat then Ok ""
      else
        let fieldNames := collect_fields records in
        (* Create header row *)
        let header := join delimiter (map quoted fieldNames) in
        (* Create data rows *)
        rbind (mapM (fun record =>
                 rbind (mapM (csv_cell record) fieldNames) (fun cells =>
                   Ok (join delimiter cells))) records) (fun rows =>
        Ok (join (String (ascii_of_nat 10) "") (header :: rows)))
  | _ => Ok ""
  end.

Definition lower (c : ascii) : ascii :=
  let n := nat_of_ascii c in
  if ((65 <=? n) && (n <=? 90))%nat then ascii_of_nat (n + 32) else c.

Fixpoint toLowerCase (s : string) : string :=
  match s with
  | EmptyString => EmptyString
  | String c r => String (lower c) (toLowerCase r)
  end.

Definition value_of_result (r : ProcessingResult) : value :=
  let m := metadata r in
  VObj [("result", result r);
        ("metadata",
         VObj (List.app
                 [("inputCount", inputCount m);
                  ("outputCount", outputCount m);
                  ("processingTime", VNum (processingTime m));
                  ("appliedRules", VArr (appliedRules m))]
                 (match error m with Some e => [("error", e)] | None => [] end)))].

Definition exportResult (result : value) (format : string) : outcome string :=
  let f := toLowerCase format in
  if String.eqb f "json" then Ok (JSON_stringify result)
  else if String.eqb f "csv" then
    rbind (get_member result "result") (fun data => convertToCSV data ",")
  else if String.eqb f "tsv" then
    rbind (get_member result "result") (fun data =>
      convertToCSV data (String (ascii_of_nat 9) ""))
  else Error ("Unsupported export format: " ++ format).

(** [getDataStatistics(data)] *)
Definition field_type (v : value) : string :=
  if isArray v then "array" else typeof v.

(** One entry of a record: the field joins the set of fields, its type the
    set of types of the field. *)
Definition statistics_entry (stats : list string * list (string * list string))
    (kv : string * value) : outcome (list string * list (string * list string)) :=
  let fields := Set_add (fst stats) (fst kv) in
  let type := field_type (snd kv) in
  match assoc (fst kv) (snd stats) with
  | Some types => Ok (fields, obj_set (snd stats) (fst kv) (Set_add types type))
  | None =>
      if inherited (fst kv)
      then TypeError "stats.fieldTypes[key].add is not a function"
      else Ok (fields, obj_set (snd stats) (fst kv) (Set_add [] type))
  end.

Definition statistics_record (stats : list string * list (string * list string))
    (record : value) : outcome (list string * list (string * list string)) :=
  if String.eqb (typeof record) "object" && negb (BaseRule.strict_equals record VNull)
  then rbind (Object_entries record) (fun entries => reduceM statistics_entry entries stats)
  else Ok stats.

Definition getDataStatistics (data : value) : outcome value :=
  match data with
  | VArr records =>
      rbind (reduceM statistics_record records ([], [])) (fun stats =>
        Ok (VObj [("totalRecords", VNum (Z.of_nat (List.length records)));
                  ("fields", VArr (map VStr (fst stats)));
                  ("fieldTypes",
                   VObj (map (fun kt => (fst kt, VArr (map VStr (snd kt)))) (snd stats)));
                  ("sampleRecord",
                   let first := nth 0 records VUndefined in
                   if truthy first then first else VNull)]))
  | _ => Ok (VObj [("error", VStr "Data must be an array")])
  end.

(** [createPipeline(rules)(data)]: the condition is built from the rules,
    then [processData] runs. *)
Fixpoint pipeline_condition (rules : list value) (acc : value) : outcome value :=
  match rules with
  | [] => Ok acc
  | rule :: rest =>
      rbind (get_member rule "type") (fun type =>
      rbind (get_member rule "config") (fun config =>
      rbind (set_member acc (ToString type) config) (pipeline_condition rest)))
  end.

Definition createPipeline (registry : RuleRegistry.registry) (rules : value)
    (startTime endTime : Q) (data : value) : M ProcessingResult :=
  match rules with
  | VArr items =>
      bind (lift (pipeline_condition items (VObj []))) (fun condition =>
        processData registry startTime endTime data condition)
  | VUndefined =>
      lift (TypeError "Cannot read properties of undefined (reading 'reduce')")
  | VNull => lift (TypeError "Cannot read properties of null (reading 'reduce')")
  | _ => lift (TypeError "rules.reduce is not a function")
  end.

(** [batchProcess(datasets, condition)]: [clock i] gives the two readings of
    the clock during the call for the dataset of index [i]. *)
Fixpoint batch (rules : RuleRegistry.registry) (clock : nat -> Q * Q) (index : nat)
    (datasets : list value) (condition : value) : M (list ProcessingResult) :=
  match datasets with
  | [] => ret []
  | data :: rest =>
      bind (processData rules (fst (clock index)) (snd (clock index)) data condition)
           (fun r =>
      bind (batch rules clock (S index) rest condition) (fun rs => ret (r :: rs)))
  end.

Definition batchProcess (rules : RuleRegistry.registry) (clock : nat -> Q * Q)
    (datasets condition : value) : M (list ProcessingResult) :=
  match datasets with
  | VArr items => batch rules clock 0 items condition
  | VUndefined =>
      lift (TypeError "Cannot read properties of undefined (reading 'map')")
  | VNull => lift (TypeError "Cannot read properties of null (reading 'map')")
  | _ => lift (TypeError "datasets.map is not a function")
  end.

End with_platform.
End DataProcessor.

End Tree.
Export Tree.

(** * Objects in a store

    The same program with arrays and objects kept in a store and held by
    reference, so that two values can be the same object and a write can be told
    from a copy.  The configuration of a rule stays a tree ([value]): the
    rules only read it.  The console is left out.  A location is the index of
    a cell; a new object takes the next index, whatever the order in which an
    engine would create it and its parts. *)

Module Store.

Inductive ref_value : Type :=
| RUndefined
| RNull
| RBool (b : bool)
| RNum (n : Z)
| RStr (s : string)
| RFun (f : nat)
| RRef (l : nat).

Inductive cell : Type :=
| CArr (items : list ref_value)
| CObj (fields : list (string * ref_value)).

Definition store : Type := list cell.

(** A computation on the store that returns or throws. *)
Definition St (A : Type) : Type := store -> store * outcome A.

Definition ret {A} (a : A) : St A := fun h => (h, Ok a).
Definition throw {A} (e : exn) : St A := fun h => (h, Throw e).
Definition lift {A} (r : outcome A) : St A := fun h => (h, r).

Definition bind {A B} (m : St A) (k : A -> St B) : St B :=
  fun h =>
    match m h with
    | (h', Ok a) => k a h'
    | (h', Throw e) => (h', Throw e)
    end.

Definition try_catch {A} (m : St A) (handler : exn -> St A) : St A :=
  fun h =>
    match m h with
    | (h', Ok a) => (h', Ok a)
    | (h', Throw e) => handler e h'
    end.

(** Reading: the computation sees the store as it is. *)
Definition reading {A} (f : store -> outcome A) : St A := fun h => (h, f h).

Fixpoint mapS {A B} (f : A -> St B) (l : list A) : St (list B) :=
  match l with
  | [] => ret []
  | x :: r => bind (f x) (fun y => bind (mapS f r) (fun ys => ret (y :: ys)))
  end.

(** A new object *)
Definition alloc (c : cell) : St ref_value :=
  fun h => ((h ++ [c])%list, Ok (RRef (List.length h))).

Fixpoint update (h : store) (l : nat) (c : cell) : store :=
  match h, l with
  | [], _ => []
  | _ :: r, O => c :: r
  | c0 :: r, S n => c0 :: update r n c
  end.

(** The engine: the built-ins of part one on strings, [String(v)] for a value
    of the store, the functions of a configuration and the methods of the
    records ([this.m(arg)] is [call_method m this arg]), which may themselves
    read and write the store, and the depth of recursion the engine allows. *)
Class Host : Type := {
  engine : Platform;
  String_of : store -> ref_value -> string;
  call_function : nat -> ref_value -> St ref_value;
  call_method : nat -> ref_value -> ref_value -> St ref_value;
  stack_limit : nat
}.

Definition truthy (v : ref_value) : bool :=
  match v with
  | RUndefined | RNull => false
  | RBool b => b
  | RNum n => negb (n =? 0)%Z
  | RStr s => negb (String.eqb s "")
  | RFun _ | RRef _ => true
  end.

Definition is_undefined (v : ref_value) : bool :=
  match v with RUndefined => true | _ => false end.

Definition is_nullish (v : ref_value) : bool :=
  match v with RUndefined | RNull => true | _ => false end.

(** The elements of [v] when it is an array *)
Definition elements (h : store) (v : ref_value) : option (list ref_value) :=
  match v with
  | RRef l => match nth_error h l with
              | Some (CArr items) => Some items
              | _ => None
              end
  | _ => None
  end.

Definition get_prop (h : store) (v : ref_value) (key : string) : ref_value :=
  match v with
  | RRef l =>
      match nth_error h l with
      | Some (CObj fields) =>
          match assoc key fields with Some x => x | None => RUndefined end
      | Some (CArr items) =>
          if String.eqb key "length" then RNum (Z.of_nat (List.length items))
          else match array_index key with
               | Some i => nth i items RUndefined
               | None => RUndefined
               end
      | None => RUndefined
      end
  | RStr s =>
      if String.eqb key "length" then RNum (Z.of_nat (String.length s))
      else match array_index key with
           | Some i => match nth_error (chars s) i with
                       | Some c => RStr c
                       | None => RUndefined
                       end
           | None => RUndefined
           end
  | _ => RUndefined
  end.

(** [target[key] = x] in strict mode: the object [target] refers to is
    changed in place. *)
Definition set_member (target : ref_value) (key : string) (x : ref_value) : St unit :=
  fun h =>
    match target with
    | RUndefined | RNull =>
        (h, TypeError ("Cannot set properties of undefined (setting '" ++ key ++ "')"))
    | RRef l =>
        match nth_error h l with
        | Some (CObj fields) =>
            (* the key [__proto__], when it is no own property, names the
               prototype: the write makes no property *)
            if String.eqb key "__proto__"
               && match assoc key fields with Some _ => false | None => true end
            then (h, Ok tt)
            else (update h l (CObj (obj_set fields key x)), Ok tt)
        | Some (CArr items) =>
            match array_index key with
            | Some i => (update h l (CArr (list_set RUndefined items i x)), Ok tt)
            | None => (h, Ok tt)
            end
        | None => (h, Ok tt)
        end
    | RFun _ => (h, Ok tt)
    | _ => (h, TypeError ("Cannot create property '" ++ key ++ "'"))
    end.

(** [key] is an own property of [target] *)
Definition own_property (h : store) (target : ref_value) (key : string) : bool :=
  match target with
  | RRef l =>
      match nth_error h l with
      | Some (CObj fields) => match assoc key fields with Some _ => true | None => false end
      | Some (CArr items) =>
          String.eqb key "length" ||
          match array_index key with
          | Some i => (i <? List.length items)%nat
          | None => false
          end
      | None => false
      end
  | RStr s =>
      String.eqb key "length" ||
      match array_index key with
      | Some i => (i <? String.length s)%nat
      | None => false
      end
  | _ => false
  end.

Section methods.
Context {host : Host}.

(** [target.hasOwnProperty(key)], written [callee.hasOwnProperty(key)] in the
    source: the method is the own property [hasOwnProperty] of the object
    when it has one, and the inherited one, the test for an own property,
    otherwise. *)
Definition hasOwnProperty (callee : string) (target : ref_value) (key : string) : St bool :=
  fun h =>
    match target with
    | RUndefined | RNull =>
        (h, TypeError "Cannot read properties of undefined (reading 'hasOwnProperty')")
    | RRef l =>
        match nth_error h l with
        | Some (CObj fields) =>
            match assoc "hasOwnProperty" fields with
            | None => (h, Ok (own_property h target key))
            | Some (RFun f) =>
                bind (call_method f target (RStr key)) (fun answer => ret (truthy answer)) h
            | Some _ => (h, TypeError (callee ++ ".hasOwnProperty is not a function"))
            end
        | _ => (h, Ok (own_property h target key))
        end
    | _ => (h, Ok (own_property h target key))
    end.

End methods.

(** [delete target[key]] *)
Definition delete_member (target : ref_value) (key : string) : St unit :=
  fun h =>
    match target with
    | RRef l =>
        match nth_error h l with
        | Some (CObj fields) => (update h l (CObj (obj_delete fields key)), Ok tt)
        | Some (CArr items) =>
            if String.eqb key "length"
            then (h, TypeError "Cannot delete property 'length' of [object Array]")
            else match array_index key with
                 | Some i =>
                     if (i <? List.length items)%nat
                     then (update h l (CArr (list_set RUndefined items i RUndefined)), Ok tt)
                     else (h, Ok tt)
                 | None => (h, Ok tt)
                 end
        | None => (h, Ok tt)
        end
    | _ => (h, Ok tt)
    end.

Module FunctionalUtils.
Section with_host.
Context {host : Host}.

(** The loop [for (const key in obj)] of [deepClone] over the properties
    [obj] has when the loop starts: a property is cloned when
    [obj.hasOwnProperty(key)] says so, and the assignment of a clone to the key
    [__proto__] makes no property of the new object. *)
Definition clone_properties (own : string -> St bool) (clone : ref_value -> St ref_value)
  : list (string * ref_value) -> St (list (string * ref_value)) :=
  fix each (l : list (string * ref_value)) : St (list (string * ref_value)) :=
    match l with
    | [] => ret []
    | (key, x) :: rest =>
        bind (own key) (fun has =>
          if has
          then bind (clone x) (fun x' =>
               bind (each rest) (fun rest' =>
                 ret (if String.eqb key "__proto__" then rest' else (key, x') :: rest')))
          else each rest)
    end.

Fixpoint deepClone_at (depth : nat) (obj : ref_value) : St ref_value :=
  match obj with
  | RRef l =>
      match depth with
      | O => throw (JsError "RangeError" "Maximum call stack size exceeded")
      | S depth' =>
          fun h =>
            match nth_error h l with
            | Some (CArr items) =>
                bind (mapS (deepClone_at depth') items)
                     (fun items' => alloc (CArr items')) h
            | Some (CObj fields) =>
                bind (clone_properties (hasOwnProperty "obj" obj) (deepClone_at depth')
                        fields)
                     (fun fields' => alloc (CObj fields')) h
            | None => (h, Ok obj)
            end
      end
  | _ => ret obj
  end.

Definition deepClone (obj : ref_value) : St ref_value :=
  deepClone_at stack_limit obj.

Definition getNestedProperty_step (h : store) (defaultValue current : ref_value)
    (key : string) : ref_value :=
  if truthy current && negb (is_undefined (get_prop h current key))
  then get_prop h current key
  else defaultValue.

Definition getNestedProperty (h : store) (obj : ref_value) (path : string)
    (defaultValue : ref_value) : ref_value :=
  fold_left (getNestedProperty_step h defaultValue) (split_on "."%char path) obj.

Definition getNestedProperty_of (h : store) (obj : ref_value) (path : value)
    (defaultValue : ref_value) : outcome ref_value :=
  match path with
  | VStr p => Ok (getNestedProperty h obj p defaultValue)
  | VUndefined | VNull => TypeError "Cannot read properties of undefined (reading 'split')"
  | _ => TypeError "path.split is not a function"
  end.

Definition naturalSort (h : store) (a b : ref_value) : Z :=
  let aStr := String_of h a in
  let bStr := String_of h b in
  match @parseFloat engine aStr, @parseFloat engine bStr with
  | Some aNum, Some bNum => (aNum - bNum)%Z
  | _, _ => @localeCompare engine aStr bStr
  end.

Fixpoint multiKeyComparator (h : store) (keys : list value) (a b : ref_value)
  : outcome Z :=
  match keys with
  | [] => Ok 0%Z
  | key :: rest =>
      rbind (getNestedProperty_of h a key RUndefined) (fun aVal =>
      rbind (getNestedProperty_of h b key RUndefined) (fun bVal =>
        let result := naturalSort h aVal bVal in
        if negb (result =? 0)%Z then Ok result
        else multiKeyComparator h rest a b))
  end.

Definition SortCompare (comparefn : ref_value -> ref_value -> outcome Z)
    (x y : ref_value) : outcome Z :=
  match x, y with
  | RUndefined, RUndefined => Ok 0%Z
  | RUndefined, _ => Ok 1%Z
  | _, RUndefined => Ok (-1)%Z
  | _, _ => comparefn x y
  end.

(** [[...array].sort(comparator)]: the sorted elements, for a new array *)
Definition sort (comparator : ref_value -> ref_value -> outcome Z)
    (array : list ref_value) : outcome (list ref_value) :=
  sort_elements (fun x => match x with RUndefined => true | _ => false end)
    (SortCompare comparator) comparator array.

End with_host.
End FunctionalUtils.

Module BaseRule.

(** [value1 === value2] for a value of the store and a value of the
    configuration: an object of the store is never an object of the
    configuration. *)
Definition strict_equals (a : ref_value) (b : value) : bool :=
  match a, b with
  | RUndefined, VUndefined => true
  | RNull, VNull => true
  | RBool x, VBool y => Bool.eqb x y
  | RNum x, VNum y => (x =? y)%Z
  | RStr x, VStr y => String.eqb x y
  | RFun x, VFun y => (x =? y)%nat
  | _, _ => false
  end.

Fixpoint deepEquals (h : store) (value1 : ref_value) (value2 : value) {struct value2}
  : bool :=
  match value2 with
  | VArr items2 =>
      match elements h value1 with
      | Some items1 =>
          (List.length items1 =? List.length items2)%nat &&
          (fix every (l1 : list ref_value) (l2 : list value) : bool :=
             match l2 with
             | [] => true
             | item2 :: r2 =>
                 deepEquals h (hd RUndefined l1) item2 && every (tl l1) r2
             end) items1 items2
      | None => false
      end
  | VObj fields2 =>
      match value1 with
      | RRef l =>
          match nth_error h l with
          | Some (CObj fields1) =>
              (List.length fields1 =? List.length fields2)%nat &&
              forallb (fun kv1 =>
                 (fix find (l2 : list (string * value)) : bool :=
                    match l2 with
                    | [] => false
                    | (key2, v2) :: r2 =>
                        if String.eqb key2 (fst kv1) then deepEquals h (snd kv1) v2
                        else find r2
                    end) fields2) fields1
          | _ => false
          end
      | _ => false
      end
  | _ => strict_equals value1 value2
  end.

Section with_host.
Context {host : Host}.

Definition matchesSingleCriterion (h : store) (record : ref_value) (criterion : value)
  : outcome bool :=
  rbind (Object_entries criterion) (fun entries =>
    Ok (forallb (fun kv =>
          deepEquals h (FunctionalUtils.getNestedProperty h record (fst kv) RUndefined)
                     (snd kv))
        entries)).

Fixpoint some_criterion (h : store) (record : ref_value) (criteria : list value)
  : outcome bool :=
  match criteria with
  | [] => Ok false
  | criterion :: rest =>
      rbind (matchesSingleCriterion h record criterion) (fun b =>
        if b then Ok true else some_criterion h record rest)
  end.

Definition matchesRecord (h : store) (record : ref_value) (criteria : value)
  : outcome bool :=
  match criteria with
  | VArr items => some_criterion h record items
  | _ => matchesSingleCriterion h record criteria
  end.

End with_host.
End BaseRule.

(** The rules.  Each [execute] takes the data by reference and returns a
    reference. *)

Module IncludeRule.
Section with_host.
Context {host : Host}.

Definition execute (data : ref_value) (config : value) : St ref_value :=
  fun h =>
    match elements h data with
    | Some records =>
        match Tree.BaseRule.filterM
                (fun record => BaseRule.matchesRecord h record config) records with
        | Ok kept => alloc (CArr kept) h
        | Throw e => (h, Throw e)
        end
    | None => (h, Error "Include rule requires data to be an array")
    end.

End with_host.
End IncludeRule.

Module ExcludeRule.
Section with_host.
Context {host : Host}.

Definition execute (data : ref_value) (config : value) : St ref_value :=
  fun h =>
    match elements h data with
    | Some records =>
        match Tree.BaseRule.filterM
                (fun record => rbind (BaseRule.matchesRecord h record config)
                                     (fun b => Ok (negb b))) records with
        | Ok kept => alloc (CArr kept) h
        | Throw e => (h, Throw e)
        end
    | None => (h, Error "Exclude rule requires data to be an array")
    end.

End with_host.
End ExcludeRule.

Module SortRule.
Section with_host.
Context {host : Host}.

Definition execute (data : ref_value) (config : value) : St ref_value :=
  fun h =>
    match elements h data with
    | Some records =>
        let comparator :=
          FunctionalUtils.multiKeyComparator h (Tree.SortRule.keys config) in
        match FunctionalUtils.sort comparator records with
        | Ok sorted => alloc (CArr sorted) h
        | Throw e => (h, Throw e)
        end
    | None => (h, Error "Sort rule requires data to be an array")
    end.

End with_host.
End SortRule.

Module LimitRule.
Section with_host.
Context {host : Host}.

Definition execute (data : ref_value) (config : value) : St ref_value :=
  fun h =>
    match elements h data with
    | Some records =>
        match (if String.eqb (typeof config) "number" then Ok (config, VNum 0)
               else rbind (Tree.get_member config "count") (fun count =>
                    rbind (Tree.get_member config "offset") (fun o =>
                      Ok (count, if Tree.truthy o then o else VNum 0)))) with
        | Ok (count, offset) =>
            alloc (CArr (Tree.FunctionalUtils.pipe
                           [@Tree.FunctionalUtils.skip engine _ offset;
                            @Tree.FunctionalUtils.take engine _ count]
                           records)) h
        | Throw e => (h, Throw e)
        end
    | None => (h, Error "Limit rule requires data to be an array")
    end.

End with_host.
End LimitRule.

Module TransformRule.
Section with_host.
Context {host : Host}.

Definition placeholder_value (h : store) (record : ref_value) (fieldPath : string)
  : string :=
  let value := FunctionalUtils.getNestedProperty h record (trim fieldPath) RUndefined in
  if negb (is_nullish value) then String_of h value else "".

Definition evaluateStringTemplate (h : store) (template : string) (record : ref_value)
  : string :=
  Tree.TransformRule.replace_placeholders (placeholder_value h record) template 0.

Fixpoint select_fields (record : ref_value) (fields : list value)
    (selectedFields : ref_value) : St unit :=
  match fields with
  | [] => ret tt
  | field :: rest =>
      bind (reading (fun h => FunctionalUtils.getNestedProperty_of h record field RUndefined))
           (fun value =>
      bind (if negb (is_undefined value)
            then set_member selectedFields (ToString field) value
            else ret tt) (fun _ =>
        select_fields record rest selectedFields))
  end.

Definition compute_field (record result : ref_value) (key : string) (computation : value)
  : St unit :=
  try_catch
    (bind (match computation with
           | VFun f => call_function f record
           | VStr template =>
               reading (fun h => Ok (RStr (evaluateStringTemplate h template record)))
           | _ => ret RUndefined
           end) (fun value =>
     set_member result key value))
    (fun error => set_member result key RNull).

Fixpoint compute_fields (record result : ref_value) (entries : list (string * value))
  : St unit :=
  match entries with
  | [] => ret tt
  | (key, computation) :: rest =>
      bind (compute_field record result key computation) (fun _ =>
        compute_fields record result rest)
  end.

Definition rename_field (result : ref_value) (oldKey : string) (newKey : value)
  : St unit :=
  bind (hasOwnProperty "result" result oldKey) (fun has =>
    if has
    then bind (reading (fun h => Ok (get_prop h result oldKey))) (fun v =>
         bind (set_member result (ToString newKey) v) (fun _ =>
         delete_member result oldKey))
    else ret tt).

Fixpoint rename_fields (result : ref_value) (entries : list (string * value))
  : St unit :=
  match entries with
  | [] => ret tt
  | (oldKey, newKey) :: rest =>
      bind (rename_field result oldKey newKey) (fun _ => rename_fields result rest)
  end.

Definition transformRecord (record : ref_value) (config : value) : St ref_value :=
  bind (FunctionalUtils.deepClone record) (fun result =>
  (* Select specific fields *)
  bind (bind (lift (Tree.get_member config "fields")) (fun fields =>
          if Tree.truthy fields then
            match fields with
            | VArr items =>
                bind (alloc (CObj [])) (fun selectedFields =>
                bind (select_fields record items selectedFields) (fun _ =>
                ret selectedFields))
            | _ => lift (TypeError "config.fields.forEach is not a function")
            end
          else ret result)) (fun result =>
  (* Add computed fields *)
  bind (let computed := Tree.get_prop config "computed" in
        if Tree.truthy computed then
          bind (lift (Object_entries computed)) (compute_fields record result)
        else ret tt) (fun _ =>
  (* Rename fields *)
  bind (let rename := Tree.get_prop config "rename" in
        if Tree.truthy rename then
          bind (lift (Object_entries rename)) (rename_fields result)
        else ret tt) (fun _ =>
  ret result)))).

Definition execute (data : ref_value) (config : value) : St ref_value :=
  bind (reading (fun h => match elements h data with
                          | Some records => Ok records
                          | None => Error "Transform rule requires data to be an array"
                          end)) (fun records =>
  bind (mapS (fun record => transformRecord record config) records) (fun rs =>
  alloc (CArr rs))).

End with_host.
End TransformRule.

(** A rule with its [execute] on the store; [validate], [type] and
    [priority] are those of part one. *)
Record StoredRule : Type := {
  rule : Rule;
  run : ref_value -> value -> St ref_value
}.

Module RuleRegistry.
Section with_host.
Context {host : Host}.

Definition registry : Type := list (string * StoredRule).

Definition rules_of (rules : registry) : Tree.RuleRegistry.registry :=
  map (fun kr => (fst kr, rule (snd kr))) rules.

Fixpoint getRule (rules : registry) (type : string) : option StoredRule :=
  match rules with
  | [] => None
  | (k, r) :: rest => if String.eqb k type then Some r else getRule rest type
  end.

Definition executeRule (rules : registry) (type : string) (data : ref_value)
    (config : value) : St ref_value :=
  match getRule rules type with
  | None => throw (JsError "Error" ("Rule type '" ++ type ++ "' is not registered"))
  | Some r =>
      bind (lift (validate (rule r) config)) (fun validation =>
        if negb (isValid validation) then
          throw (JsError "Error"
                   ("Rule validation failed: " ++ join ", " (errors validation)))
        else run r data config)
  end.

Definition builtin_rules : registry :=
  [ ("include", {| rule := Tree.IncludeRule.rule; run := IncludeRule.execute |});
    ("exclude", {| rule := Tree.ExcludeRule.rule; run := ExcludeRule.execute |});
    ("sortBy", {| rule := @Tree.SortRule.rule engine; run := SortRule.execute |});
    ("limit", {| rule := @Tree.LimitRule.rule engine; run := LimitRule.execute |});
    ("transform", {| rule := @Tree.TransformRule.rule engine;
                     run := TransformRule.execute |}) ].

End with_host.
End RuleRegistry.

Record ProcessingResult : Type := {
  result : ref_value;
  inputCount : ref_value;
  outputCount : ref_value;
  processingTime : Z;
  appliedRules : list value;
  error : option value
}.

Module DataProcessor.
Section with_host.
Context {host : Host}.

Fixpoint execute_rules (rules : RuleRegistry.registry)
    (entries : list (string * value)) (result : ref_value) (appliedRules : list value)
  : St (ref_value * list value) :=
  match entries with
  | [] => ret (result, appliedRules)
  | (type, config) :: rest =>
      bind (try_catch
              (bind (RuleRegistry.executeRule rules type result config) (fun result' =>
               bind (lift (Tree.DataProcessor.rule_priority (RuleRegistry.rules_of rules) type))
                    (fun p =>
               ret (result',
                    (appliedRules ++ [Tree.DataProcessor.applied_rule type config p])%list))))
              (fun error =>
                 bind (lift (Tree.DataProcessor.error_message error)) (fun message =>
                 throw (JsError "Error"
                          ("Failed to execute " ++ type ++ " rule: " ++ ToString message)))))
           (fun ra => execute_rules rules rest (fst ra) (snd ra))
  end.

Definition processData_try (rules : RuleRegistry.registry) (processingTime : Z)
    (data : ref_value) (condition : value) : St ProcessingResult :=
  bind (reading (fun h => match elements h data with
                          | Some _ => Ok tt
                          | None => Error "Data must be an array"
                          end)) (fun _ =>
  if negb (Tree.truthy condition) || negb (String.eqb (typeof condition) "object") then
    throw (JsError "Error" "Condition must be an object")
  else
    (* Clone data to avoid mutations *)
    bind (FunctionalUtils.deepClone data) (fun result =>
    bind (lift (Tree.DataProcessor.ruleEntries (RuleRegistry.rules_of rules) condition))
         (fun entries =>
    bind (execute_rules rules entries result []) (fun ra =>
    let result := fst ra in
    let appliedRules := snd ra in
    bind (reading (fun h =>
            if is_nullish result
            then TypeError "Cannot read properties of undefined (reading 'length')"
            else Ok (get_prop h data "length", get_prop h result "length")))
         (fun counts =>
    ret {| result := result;
           inputCount := fst counts;
           outputCount := snd counts;
           processingTime := processingTime;
           appliedRules := appliedRules;
           error := None |}))))).

Definition processData_catch (processingTime : Z) (data : ref_value) (error : exn)
  : St ProcessingResult :=
  bind (lift (Tree.DataProcessor.error_message error)) (fun message =>
  bind (alloc (CArr [])) (fun empty =>
  bind (reading (fun h => Ok (match elements h data with
                              | Some _ => get_prop h data "length"
                              | None => RNum 0
                              end))) (fun inputCount =>
  ret {| result := empty;
         inputCount := inputCount;
         outputCount := RNum 0;
         processingTime := processingTime;
         appliedRules := [];
         error := Some message |}))).

Definition processData (rules : RuleRegistry.registry) (startTime endTime : Q)
    (data : ref_value) (condition : value) : St ProcessingResult :=
  let processingTime := Tree.DataProcessor.Math_round (endTime - startTime) in
  try_catch (processData_try rules processingTime data condition)
            (processData_catch processingTime data).

End with_host.
End DataProcessor.

End Store.
(** * Vocabulary of the statements *)

Local Open Scope list_scope.

(** ** A platform to run the definitions on

    [parseFloat] and [Number] read a decimal integer, [localeCompare] orders
    strings by their characters.  Function 0 is [r => r.age >= 18], function
    1 is [r => r.age], function 2 is [r => r.age >= 30 ? senior : junior];
    every other function throws. *)

Definition decimal (s : string) : option Z :=
  match NilZero.int_of_string s with
  | Some i => Some (Z.of_int i)
  | None => None
  end.

Definition compare_strings (a b : string) : Z :=
  match String.compare a b with
  | Lt => (-1)%Z
  | Eq => 0%Z
  | Gt => 1%Z
  end.

Definition sample_functions (f : nat) (r : value) : outcome value :=
  match f with
  | 0 => match get_prop r "age" with
         | VNum n => Ok (VBool (18 <=? n)%Z)
         | _ => Ok (VBool false)
         end
  | 1 => get_member r "age"
  | 2 => rbind (get_member r "age") (fun age =>
           match age with
           | VNum n => Ok (VStr (if (30 <=? n)%Z then "senior" else "junior"))
           | _ => Ok (VStr "junior")
           end)
  | _ => Throw (JsError "Error" "not implemented")
  end.

Definition sample_platform : Platform :=
  {| parseFloat := decimal;
     localeCompare := compare_strings;
     StringToNumber := decimal;
     call_function := sample_functions;
     call_method := fun f _ => sample_functions f;
     JSON_stringify := ToString |}.

(** A platform whose [parseFloat] passes over the white space before a
    number, as [parseFloat] does. *)
Definition spaced_numbers : Platform :=
  {| parseFloat := fun s => decimal (trim_start s);
     localeCompare := compare_strings;
     StringToNumber := decimal;
     call_function := sample_functions;
     call_method := fun f _ => sample_functions f;
     JSON_stringify := ToString |}.

(** A platform whose methods throw [null], as [hasOwnProperty() { throw null }]
    does. *)
Definition throwing_methods : Platform :=
  {| parseFloat := decimal;
     localeCompare := compare_strings;
     StringToNumber := decimal;
     call_function := sample_functions;
     call_method := fun _ _ _ => Throw (JsThrow VNull);
     JSON_stringify := ToString |}.

(** ** Plain data

    No key of an object inside [v], and no text inside [v], is the name of a
    member every object inherits ([hasOwnProperty], [toString], [__proto__],
    ...).  An own property of such a name would stand in front of the
    inherited member the code calls or reads. *)
Fixpoint names_free (v : value) : bool :=
  match v with
  | VStr s => negb (inherited s)
  | VArr items => forallb names_free items
  | VObj fields =>
      forallb (fun kv => negb (inherited (fst kv)) && names_free (snd kv)) fields
  | _ => true
  end.

(** [s] is empty or starts like the text of a number. *)
Definition numeral_start (s : string) : bool :=
  match s with
  | EmptyString => true
  | String a _ =>
      (Ascii.eqb a "-" || ((48 <=? nat_of_ascii a) && (nat_of_ascii a <=? 57)))%nat
  end.

(** The object with the properties [o] has no own property by the name of an
    inherited member. *)
Definition no_inherited {A} (o : list (string * A)) : Prop :=
  forall k, inherited k = true -> assoc k o = None.

(** The walk the description of [getNestedProperty] has in mind: it stops at
    the first segment that is missing or that the current value cannot be
    asked for. *)
Fixpoint walk (current : value) (segments : list string) : option value :=
  match segments with
  | [] => Some current
  | key :: rest =>
      if truthy current && negb (is_undefined (get_prop current key))
      then walk (get_prop current key) rest
      else None
  end.


(** A criteria spec: one criterion, or an array of criteria; a criterion is
    anything whose entries can be listed (not [undefined], not [null]). *)
Definition criteria_spec (C : value) : Prop :=
  match C with
  | VArr criteria => Forall (fun c => is_nullish c = false) criteria
  | _ => is_nullish C = false
  end.

(** The Limit configurations with count [N] and offset [M]: the bare number
    [N] (offset 0), or an object whose [count] is [N] and whose [offset] is
    [M] or is left out (offset 0). *)
Definition limit_config (config : value) (N M : Z) : Prop :=
  (config = VNum N /\ M = 0%Z) \/
  (exists fields, config = VObj fields /\
     assoc "count" fields = Some (VNum N) /\
     (assoc "offset" fields = Some (VNum M) \/
      (assoc "offset" fields = None /\ M = 0%Z))).

(** [x] occurs in [l] at a position before one where [y] occurs. *)
Definition before {A} (x y : A) (l : list A) : Prop :=
  exists p q, (p < q)%nat /\ nth_error l p = Some x /\ nth_error l q = Some y.

(** The elements of an array, each with its index. *)
Definition indexed {A} (l : list A) : list (nat * A) :=
  combine (seq 0 (List.length l)) l.

Definition is_string (v : value) : Prop :=
  match v with VStr _ => True | _ => False end.

(** [f] applied to what a computation returns *)
Definition rmap {A B} (f : A -> B) (r : outcome A) : outcome B :=
  rbind r (fun a => Ok (f a)).

(** Transform on a record that is an object, stated step by step.

    The value of a computed field: the function applied to [record] (and
    [null] when it throws), or the template filled in from [record]. *)
Definition computed_value {platform : Platform} (record computation : value) : value :=
  match computation with
  | VFun f => match call_function f record with Ok v => v | Throw _ => VNull end
  | VStr template => VStr (TransformRule.evaluateStringTemplate template record)
  | _ => VUndefined
  end.

(** The warning written for a computed field whose function throws. *)
Definition computed_warning {platform : Platform} (record : value) (kc : string * value)
  : list console_entry :=
  match snd kc with
  | VFun f =>
      match call_function f record with
      | Throw e => [console_warn [CText ("Error computing field " ++ fst kc ++ ":")%string;
                                  CError e]]
      | Ok _ => []
      end
  | _ => []
  end.

Definition with_computed {platform : Platform} (record : value)
    (o : list (string * value)) (entries : list (string * value)) : list (string * value) :=
  fold_left (fun o kc => obj_set o (fst kc) (computed_value record (snd kc))) entries o.

(** The fields step: the selected paths that resolve, or a clone of the
    whole record when no selection is configured (the clone of a record of
    plain data has the properties of the record). *)
Definition narrowed (record_fields : list (string * value)) (fields : value)
  : list (string * value) :=
  match fields with
  | VArr names =>
      fold_left
        (fun o name =>
           match name with
           | VStr p =>
               let v := FunctionalUtils.getNestedProperty (VObj record_fields) p VUndefined in
               if is_undefined v then o else obj_set o p v
           | _ => o
           end) names []
  | _ => record_fields
  end.

Definition fields_ok (fields : value) : Prop :=
  truthy fields = false \/ exists names, fields = VArr names /\ Forall is_string names.

(** The rename step on an object. *)
Definition renamed (o : list (string * value)) (rename : value) : list (string * value) :=
  if truthy rename then
    match Object_entries rename with
    | Ok entries =>
        fold_left
          (fun o kn =>
             match assoc (fst kn) o with
             | Some v => obj_delete (obj_set o (ToString (snd kn)) v) (fst kn)
             | None => o
             end) entries o
    | Throw _ => o
    end
  else o.

Definition is_object (v : value) : Prop :=
  match v with VObj _ => True | _ => False end.

(** The record Transform makes of an object record, for a configuration
    whose computed fields are [entries]. *)
Definition transformed {platform : Platform} (config : value)
    (entries : list (string * value)) (record : value) : value :=
  match record with
  | VObj record_fields =>
      VObj (renamed
              (with_computed record
                 (narrowed record_fields (get_prop config "fields")) entries)
              (get_prop config "rename"))
  | _ => record
  end.

(** The priority the registry gives the rule of an entry of the condition. *)
Definition entry_priority (rules : RuleRegistry.registry) (e : string * value) : Z :=
  match RuleRegistry.getRule rules (fst e) with
  | Some rule => priority rule
  | None => 0%Z
  end.

(** The entry [processData] records for a rule it has applied. *)
Definition applied_entry (rules : RuleRegistry.registry) (e : string * value) : value :=
  DataProcessor.applied_rule (fst e) (snd e) (entry_priority rules e).

(** A result that reports a failure: no records, no applied rules, and the
    message. *)
Definition failed_with (r : ProcessingResult) (message : string) : Prop :=
  result r = VArr [] /\
  appliedRules (metadata r) = [] /\
  outputCount (metadata r) = VNum 0 /\
  error (metadata r) = Some (VStr message).

Definition is_Error (e : exn) : Prop :=
  match e with JsError _ _ => True | JsThrow _ => False end.

(** A computation that, when it throws, throws an [Error] object. *)
Definition throws_Error {A} (m : M A) : Prop :=
  match snd m with Throw e => is_Error e | Ok _ => True end.

(** Order and comparison by a priority. *)
Definition le_by {A} (prio : A -> Z) (a b : A) : Prop := (prio a <= prio b)%Z.

Definition cmp_by {A} (prio : A -> Z) (a b : A) : outcome Z := Ok (prio a - prio b)%Z.

(** The entries of a condition whose rule is registered, and the comparison
    of two entries by the priority of their rules. *)
Definition registered (rules : RuleRegistry.registry) (entries : list (string * value))
  : list (string * value) :=
  filter (fun e => RuleRegistry.hasRule rules (fst e)) entries.

Definition by_priority (rules : RuleRegistry.registry) (a b : string * value) : outcome Z :=
  Ok (entry_priority rules a - entry_priority rules b)%Z.

(** What [execute_rules] throws when a rule has thrown [error]: an [Error]
    that names the rule, or the [TypeError] of reading the message of
    [undefined] or [null]. *)
Definition stage_error (type : string) (error : exn) : exn :=
  match DataProcessor.error_message error with
  | Ok message =>
      JsError "Error" ("Failed to execute " ++ type ++ " rule: " ++ ToString message)%string
  | Throw e => e
  end.

(** What is thrown is an [Error] object or plain data. *)
Definition plain_thrown (e : exn) : Prop :=
  match e with JsError _ _ => True | JsThrow v => names_free v = true end.

Definition exn_message (e : exn) : string :=
  match e with JsError _ message => message | JsThrow _ => "" end.

(** The test Include makes for the criteria [[{status: active}]]. *)
Definition status_is_active (record : value) : bool :=
  BaseRule.deepEquals
    (FunctionalUtils.getNestedProperty record "status" VUndefined) (VStr "active").

(** The records are taken in ascending order of the priority of their
    rules. *)
Definition ascending_priority (rules : RuleRegistry.registry)
    (entries : list (string * value)) : Prop :=
  StronglySorted (fun a b => (entry_priority rules a <= entry_priority rules b)%Z) entries.

(** ** Vocabulary for the store *)

(** [h'] is [h] followed by new objects: no object of [h] has changed. *)
Definition extends (h h' : Store.store) : Prop :=
  exists new, h' = h ++ new.

(** [v] is an object that [h] does not have. *)
Definition new_object (h : Store.store) (v : Store.ref_value) : Prop :=
  exists l, v = Store.RRef l /\ (List.length h <= l)%nat.

(** [v] is not one of the first [n] objects. *)
Definition above (n : nat) (v : Store.ref_value) : Prop :=
  match v with
  | Store.RRef l => (n <= l)%nat
  | _ => True
  end.

(** [v] is a primitive, or an object that [h] does not have. *)
Definition fresh (h : Store.store) (v : Store.ref_value) : Prop :=
  above (List.length h) v.

Definition cell_values (c : Store.cell) : list Store.ref_value :=
  match c with
  | Store.CArr items => items
  | Store.CObj fields => map snd fields
  end.

(** The objects [new] hold no reference to one of the first [n] objects. *)
Definition closed_above (n : nat) (new : list Store.cell) : Prop :=
  Forall (fun c => Forall (above n) (cell_values c)) new.

(** The objects [new] hold no reference to an object of [h]. *)
Definition isolated (h : Store.store) (new : list Store.cell) : Prop :=
  closed_above (List.length h) new.

(** The tree a value of the store stands for, followed through at most
    [depth] references. *)
Fixpoint all_some {A} (l : list (option A)) : option (list A) :=
  match l with
  | [] => Some []
  | None :: _ => None
  | Some x :: r => option_map (cons x) (all_some r)
  end.

Fixpoint content (depth : nat) (h : Store.store) (v : Store.ref_value) : option value :=
  match v with
  | Store.RUndefined => Some VUndefined
  | Store.RNull => Some VNull
  | Store.RBool b => Some (VBool b)
  | Store.RNum n => Some (VNum n)
  | Store.RStr s => Some (VStr s)
  | Store.RFun f => Some (VFun f)
  | Store.RRef l =>
      match depth with
      | O => None
      | S depth' =>
          match nth_error h l with
          | Some (Store.CArr items) =>
              option_map VArr (all_some (map (content depth' h) items))
          | Some (Store.CObj fields) =>
              option_map VObj
                (all_some (map (fun kv => option_map (pair (fst kv))
                                                     (content depth' h (snd kv)))
                               fields))
          | None => None
          end
      end
  end.

(** [x] stands for plain data in [h], within [depth] references. *)
Definition plain_in (depth : nat) (h : Store.store) (x : Store.ref_value) : Prop :=
  exists t, content depth h x = Some t /\ names_free t = true.

(** The copy of a tree of arrays and objects, property by property: what
    [deepClone] makes of plain data. *)
Fixpoint copy_at (depth : nat) (obj : Store.ref_value) : Store.St Store.ref_value :=
  match obj with
  | Store.RRef l =>
      match depth with
      | O => Store.throw (JsError "RangeError" "Maximum call stack size exceeded")
      | S depth' =>
          fun h =>
            match nth_error h l with
            | Some (Store.CArr items) =>
                Store.bind (Store.mapS (copy_at depth') items)
                           (fun items' => Store.alloc (Store.CArr items')) h
            | Some (Store.CObj fields) =>
                Store.bind
                  (Store.mapS (fun kv => Store.bind (copy_at depth' (snd kv))
                                                    (fun v => Store.ret (fst kv, v)))
                              fields)
                  (fun fields' => Store.alloc (Store.CObj fields')) h
            | None => (h, Ok obj)
            end
      end
  | _ => Store.ret obj
  end.

(** The first [n] objects are in [h'] what they are in [h], and [h'] has no
    fewer objects. *)
Definition keeps (n : nat) (h h' : Store.store) : Prop :=
  (List.length h <= List.length h')%nat /\ firstn n h' = firstn n h.

(** The methods of the records (a record can have a property
    [hasOwnProperty] of its own) change none of the first [n] objects. *)
Definition methods_keep {host : Store.Host} (n : nat) : Prop :=
  forall f this arg h,
    (n <= List.length h)%nat -> keeps n h (fst (Store.call_method f this arg h)).

(** The functions of a configuration change none of the first [n] objects. *)
Definition functions_keep {host : Store.Host} (n : nat) : Prop :=
  forall f v h,
    (n <= List.length h)%nat -> keeps n h (fst (Store.call_function f v h)).

(** The functions of a configuration change none of the first [n] objects
    when the value they are given is none of them: they can write on the
    record they are given. *)
Definition functions_keep_given {host : Store.Host} (n : nat) : Prop :=
  forall f v h,
    (n <= List.length h)%nat -> above n v -> keeps n h (fst (Store.call_function f v h)).

(** The elements of the array [data] of [h] are none of the first [n]
    objects. *)
Definition records_above (n : nat) (h : Store.store) (data : Store.ref_value) : Prop :=
  forall records, Store.elements h data = Some records -> Forall (above n) records.

(** The computation [m] keeps the first [n] objects of any store that has
    them, and what it returns satisfies [Q]. *)
Definition respects {A} (n : nat) (m : Store.St A) (Q : A -> Prop) : Prop :=
  forall h, (n <= List.length h)%nat ->
    keeps n h (fst (m h)) /\
    match snd (m h) with
    | Ok a => Q a
    | Throw _ => True
    end.

(** The computation [m], run on a store that has the first [n] objects and
    satisfies [P], keeps them; the store it leaves and what it returns satisfy
    [Q]. *)
Definition frames {A} (n : nat) (P : Store.store -> Prop) (m : Store.St A)
    (Q : Store.store -> A -> Prop) : Prop :=
  forall h, (n <= List.length h)%nat -> P h ->
    keeps n h (fst (m h)) /\
    match snd (m h) with
    | Ok a => Q (fst (m h)) a
    | Throw _ => True
    end.

(** [v] is none of the first [n] objects, and no element of it is when it is
    an array. *)
Definition array_above (n : nat) (h : Store.store) (v : Store.ref_value) : Prop :=
  above n v /\ records_above n h v.

(** The computation [m] only creates objects, none of them with a reference
    to one of the first [n] objects, and what it returns satisfies [Q]. *)
Definition creates {A} (n : nat) (m : Store.St A) (Q : A -> Prop) : Prop :=
  forall h, (n <= List.length h)%nat ->
    exists new,
      fst (m h) = h ++ new /\ closed_above n new /\
      match snd (m h) with
      | Ok a => Q a
      | Throw _ => True
      end.

(** Every rule of the registry keeps the first [n] objects and returns an
    object that is not one of them. *)
Definition registry_respects {host : Store.Host} (n : nat)
    (rules : Store.RuleRegistry.registry) : Prop :=
  forall type r,
    Store.RuleRegistry.getRule rules type = Some r ->
    forall data config, respects n (Store.run r data config) (above n).

(** Every rule of the registry, given an array whose records are none of the
    first [n] objects, keeps these objects and returns such an array. *)
Definition registry_frames {host : Store.Host} (n : nat)
    (rules : Store.RuleRegistry.registry) : Prop :=
  forall type r,
    Store.RuleRegistry.getRule rules type = Some r ->
    forall data config,
      frames n (fun h => records_above n h data) (Store.run r data config)
             (array_above n).

(** The array [out] of [h'] holds elements of the array [data] of [h]
    only: the records of the output are the records of the input
    themselves. *)
Definition same_records (h : Store.store) (data : Store.ref_value)
    (h' : Store.store) (out : Store.ref_value) : Prop :=
  exists records kept,
    Store.elements h data = Some records /\
    h' = h ++ [Store.CArr kept] /\
    out = Store.RRef (List.length h) /\
    incl kept records.

(** A store to run the definitions on: the record [{status: active}] at 0,
    the array of that record at 1. *)
Definition sample_store : Store.store :=
  [Store.CObj [("status", Store.RStr "active")]; Store.CArr [Store.RRef 0]].

Definition sample_host : Store.Host :=
  {| Store.engine := sample_platform;
     Store.String_of := fun _ v =>
       match v with
       | Store.RStr s => s
       | Store.RNum n => string_of_Z n
       | _ => "[object Object]"
       end;
     Store.call_function := fun f r =>
       Store.reading (fun h => Ok (Store.get_prop h r "status"));
     Store.call_method := fun f this key =>
       Store.reading (fun h =>
         Ok (Store.RBool (match key with
                          | Store.RStr k => Store.own_property h this k
                          | _ => false
                          end)));
     Store.stack_limit := 100 |}.

(** A rule whose [execute] throws a value that is not an [Error]. *)
Definition throwing_rule : Rule :=
  Build_Rule "Throwing" "throwing" 5
    (fun _ => Ok (validation [] []))
    (fun _ _ => throw (JsThrow VNull)).

(** A field name and a text that have a double quote inside: a, double
    quote, b and x, double quote, y. *)
Definition quote_in_name : string := "a" ++ String DataProcessor.dquote "b".
Definition quote_in_text : string := "x" ++ String DataProcessor.dquote "y".

Definition newline : string := String (ascii_of_nat 10) "".

(** The sample data of the unit tests of the repository. *)
Definition sampleData : list value :=
  [ VObj [("name", VStr "John"); ("email", VStr "john2@mail.com");
          ("age", VNum 30); ("status", VStr "active")];
    VObj [("name", VStr "John"); ("email", VStr "john1@mail.com");
          ("age", VNum 25); ("status", VStr "inactive")];
    VObj [("name", VStr "Jane"); ("email", VStr "jane@mail.com");
          ("age", VNum 28); ("status", VStr "active")];
    VObj [("name", VStr "Bob"); ("email", VStr "bob@mail.com");
          ("age", VNum 35); ("status", VStr "active")] ].

(** [r[key]] with the key first, to map over records. *)
Definition field (key : string) (r : value) : value := get_prop r key.

(** What a run returned, without the console. *)
Definition returned {A} (m : M A) : outcome A := snd m.

(** A host whose functions write on the record they are given:
    [r => { r.seen = true }]. *)
Definition writing_host : Store.Host :=
  {| Store.engine := sample_platform;
     Store.String_of := fun _ _ => "";
     Store.call_function := fun f r =>
       Store.bind (Store.set_member r "seen" (Store.RBool true))
                  (fun _ => Store.ret Store.RUndefined);
     Store.call_method := fun f this key =>
       Store.reading (fun h =>
         Ok (Store.RBool (match key with
                          | Store.RStr k => Store.own_property h this k
                          | _ => false
                          end)));
     Store.stack_limit := 100 |}.

(** A host whose methods write on the object they are called on:
    [hasOwnProperty() { this.seen = true; return true }]. *)
Definition writing_methods : Store.Host :=
  {| Store.engine := sample_platform;
     Store.String_of := fun _ _ => "";
     Store.call_function := fun f r => Store.ret Store.RUndefined;
     Store.call_method := fun f this key =>
       Store.bind (Store.set_member this "seen" (Store.RBool true))
                  (fun _ => Store.ret (Store.RBool true));
     Store.stack_limit := 100 |}.

(** ** Vocabulary of the further properties *)

(** The walk along [segments] from [current] reads properties of plain
    objects only, and none by the name of an inherited member: it goes on
    from an object, and it ends at a value that is falsy. *)
Fixpoint plain_path (current : value) (segments : list string) : bool :=
  match segments with
  | [] => true
  | key :: rest =>
      negb (truthy current) ||
      (match current with VObj _ => true | _ => false end &&
       negb (inherited key) &&
       plain_path (get_prop current key) rest)
  end.

(** The keys of every object in [v] are pairwise different, as the own
    properties of an object are. *)
Fixpoint distinct (l : list string) : bool :=
  match l with
  | [] => true
  | k :: r => negb (existsb (String.eqb k) r) && distinct r
  end.

Fixpoint unique_keys (v : value) : bool :=
  match v with
  | VArr items => forallb unique_keys items
  | VObj fields =>
      distinct (map fst fields) && forallb (fun kv => unique_keys (snd kv)) fields
  | _ => true
  end.

(** What [matchesRecord] answers for a record, with no match when it
    throws. *)
Definition matches (config record : value) : bool :=
  match BaseRule.matchesRecord record config with Ok b => b | Throw _ => false end.

(** The number a record has at [key], when it has one. *)
Definition number_at (key : string) (record : value) : option Z :=
  match FunctionalUtils.getNestedProperty record key VUndefined with
  | VNum n => Some n
  | _ => None
  end.

Definition number_or_zero (key : string) (record : value) : Z :=
  match number_at key record with Some n => n | None => 0%Z end.

(** The Limit configuration [{count, offset}]. *)
Definition page (count offset : Z) : value :=
  VObj [("count", VNum count); ("offset", VNum offset)].

(** The character [c] occurs in [s]. *)
Fixpoint has_char (c : ascii) (s : string) : bool :=
  match s with
  | EmptyString => false
  | String a r => Ascii.eqb a c || has_char c r
  end.

(** [validate] of the rule accepts the configuration. *)
Definition accepts (rule : Rule) (config : value) : Prop :=
  exists v, validate rule config = Ok v /\ isValid v = true.

(** The rule [{type, config}] of a pipeline, and the condition a list of such
    rules builds up: every rule sets the property of its type. *)
Definition rule_object (entry : string * value) : value :=
  VObj [("type", VStr (fst entry)); ("config", snd entry)].

Definition condition_of (entries : list (string * value)) : list (string * value) :=
  fold_left (fun fields e => obj_set fields (fst e) (snd e)) entries [].

Definition is_TypeError {A} (r : outcome A) : Prop :=
  exists message, r = Throw (JsError "TypeError" message).

(** The entries [getDataStatistics] and [convertToCSV] look at in a record:
    those of an object or an array, none for any other value. *)
Definition entries_of (record : value) : list (string * value) :=
  if String.eqb (typeof record) "object" && negb (BaseRule.strict_equals record VNull)
  then match Object_entries record with Ok entries => entries | Throw _ => [] end
  else [].

(** The types recorded for the field of one more entry. *)
Definition record_type (types : list (string * list string)) (kv : string * value)
  : list (string * list string) :=
  obj_set types (fst kv)
    (DataProcessor.Set_add (match assoc (fst kv) types with Some ts => ts | None => [] end)
                           (DataProcessor.field_type (snd kv))).

(** The cell of a record for a field of the CSV export. *)
Definition cell_text (record : value) (field : string) : string :=
  let v := get_prop record field in
  if is_nullish v then DataProcessor.quoted ""
  else DataProcessor.quoted (DataProcessor.double_quotes (ToString v)).

(** The walk of [setNestedProperty] along [keys] from [current] passes
    through plain objects only, and no key is the name of an inherited
    member: present values on the way are objects, and a falsy value on the
    way is replaced by a new object. *)
Fixpoint settable (current : value) (keys : list string) : Prop :=
  match keys with
  | [] => True
  | key :: rest =>
      match current with
      | VObj _ =>
          inherited key = false /\
          match rest with
          | [] => True
          | _ :: _ =>
              let child := get_prop current key in
              settable (if truthy child then child else VObj []) rest
          end
      | _ => False
      end
  end.

(** A primitive that is truthy: a number that is not 0, a text that is not
    empty, [true]. *)
Definition truthy_primitive (v : value) : Prop :=
  truthy v = true /\
  match v with VBool _ | VNum _ | VStr _ => True | _ => False end.

(** The key of [item] under [keyFn] is [k]. *)
Definition key_is (keyFn : value -> outcome value) (k : string) (item : value) : bool :=
  match keyFn item with
  | Ok key => String.eqb (ToString key) k
  | Throw _ => false
  end.

(** [keyFn] returns for [item] a key that is not a function, whose text is
    not the name of an inherited member and which has no property of such a
    name. *)
Definition plain_key (keyFn : value -> outcome value) (item : value) : Prop :=
  exists key,
    keyFn item = Ok key /\ typeof key <> "function"%string /\
    names_free key = true /\ inherited (ToString key) = false.

(** The cache of a memoized function after the calls [calls], from the empty
    cache. *)
Definition cache_after (stringify : value -> string) (fn : list value -> outcome value)
    (calls : list (list value)) : list (string * value) :=
  fold_left (fun cache args => fst (Utils.memoized stringify fn cache args)) calls [].
(** * Properties *)

(** ** getNestedProperty *)

Lemma getNestedProperty_walk_found :
  forall obj path d v,
    walk obj (split_on "."%char path) = Some v ->
    FunctionalUtils.getNestedProperty obj path d = v.
Proof.
  intros obj path d. unfold FunctionalUtils.getNestedProperty.
  generalize (split_on "."%char path). intros segments. revert obj.
  induction segments as [|key rest IH]; simpl; intros obj v Hw.
  - congruence.
  - unfold FunctionalUtils.getNestedProperty_step at 2.
    destruct (truthy obj && negb (is_undefined (get_prop obj key))); [|discriminate].
    now apply IH.
Qed.

(** A default the walk cannot leave: no property of it is found. *)
Lemma walk_stays_at_default :
  forall d segments,
    (forall key, FunctionalUtils.getNestedProperty_step d d key = d) ->
    fold_left (FunctionalUtils.getNestedProperty_step d) segments d = d.
Proof.
  intros d segments Hd. induction segments as [|key rest IH]; simpl; [reflexivity|].
  now rewrite Hd.
Qed.

(** When no property of the default can be read (it is [undefined], as in
    every call the rules make, or [null], a number, a boolean, the empty
    string, an empty object), a walk that stops yields the default. *)
Lemma getNestedProperty_inert_default :
  forall obj path d,
    (forall key, FunctionalUtils.getNestedProperty_step d d key = d) ->
    walk obj (split_on "."%char path) = None ->
    FunctionalUtils.getNestedProperty obj path d = d.
Proof.
  intros obj path d Hd. unfold FunctionalUtils.getNestedProperty.
  generalize (split_on "."%char path). intros segments. revert obj.
  induction segments as [|key rest IH]; simpl; intros obj Hw.
  - discriminate.
  - unfold FunctionalUtils.getNestedProperty_step at 2.
    destruct (truthy obj && negb (is_undefined (get_prop obj key))).
    + now apply IH.
    + now apply walk_stays_at_default.
Qed.

Lemma getNestedProperty_undefined_default :
  forall obj path,
    walk obj (split_on "."%char path) = None ->
    FunctionalUtils.getNestedProperty obj path VUndefined = VUndefined.
Proof.
  intros obj path. apply getNestedProperty_inert_default. reflexivity.
Qed.

(** C8: a segment that is missing before the end of the path does not end the
    walk: the walk goes on inside the default.  On [{}], path [a.b] and default
    [{b: 5}] the segment [a] is missing, and [getNestedProperty] returns 5, not
    the default. *)
Theorem getNestedProperty_walks_into_default :
  walk (VObj []) (split_on "."%char "a.b") = None /\
  FunctionalUtils.getNestedProperty (VObj []) "a.b" (VObj [("b", VNum 5)]) = VNum 5 /\
  FunctionalUtils.getNestedProperty (VObj []) "a.length" (VStr "N/A") = VNum 3.
Proof.
  repeat split; reflexivity.
Qed.

(** ** Include and Exclude *)

Section include_exclude.

Lemma Object_entries_defined :
  forall c, is_nullish c = false -> exists entries, Object_entries c = Ok entries.
Proof.
  destruct c; simpl; intros Hc; try discriminate; eauto.
Qed.

Lemma matchesSingleCriterion_defined :
  forall record c, is_nullish c = false ->
    exists b, BaseRule.matchesSingleCriterion record c = Ok b.
Proof.
  intros record c Hc. unfold BaseRule.matchesSingleCriterion.
  destruct (Object_entries_defined c Hc) as [entries ->]. simpl. eauto.
Qed.

Lemma some_criterion_defined :
  forall record criteria, Forall (fun c => is_nullish c = false) criteria ->
    exists b, BaseRule.some_criterion record criteria = Ok b.
Proof.
  induction 1 as [|c rest Hc _ IH]; simpl.
  - eauto.
  - destruct (matchesSingleCriterion_defined record c Hc) as [b ->]. simpl.
    destruct b; eauto.
Qed.

Lemma matchesRecord_defined :
  forall record C, criteria_spec C ->
    exists b, BaseRule.matchesRecord record C = Ok b.
Proof.
  intros record C HC.
  destruct C; simpl in HC;
    try (apply matchesSingleCriterion_defined; assumption).
  now apply some_criterion_defined.
Qed.

(** A predicate that does not throw makes [filterM] the ordinary filter. *)
Lemma filterM_filter :
  forall (A : Type) (p : A -> outcome bool) (f : A -> bool) data,
    (forall r, In r data -> p r = Ok (f r)) ->
    BaseRule.filterM p data = Ok (filter f data).
Proof.
  induction data as [|r rest IH]; simpl; intros Hp.
  - reflexivity.
  - rewrite Hp by now left. simpl.
    rewrite IH by (intros; apply Hp; now right). simpl.
    destruct (f r); reflexivity.
Qed.

Lemma filter_complement_permutation :
  forall (A : Type) (f : A -> bool) (l : list A),
    Permutation l (filter f l ++ filter (fun x => negb (f x)) l).
Proof.
  induction l as [|x l IH]; simpl.
  - constructor.
  - destruct (f x); simpl.
    + now constructor.
    + now apply Permutation_cons_app.
Qed.

(** C3: on a criteria spec, Include and Exclude both return, Include with
    exactly the records that match and Exclude with exactly those that do not;
    every record of the data is in one of the two outputs, none is in both,
    and the two outputs together are the data up to order. *)
Theorem include_exclude_partition :
  forall data C,
    criteria_spec C ->
    exists inc exc,
      IncludeRule.execute (VArr data) C = Ok (VArr inc) /\
      ExcludeRule.execute (VArr data) C = Ok (VArr exc) /\
      (forall r, In r inc <-> In r data /\ BaseRule.matchesRecord r C = Ok true) /\
      (forall r, In r exc <-> In r data /\ BaseRule.matchesRecord r C = Ok false) /\
      (forall r, In r data <-> In r inc \/ In r exc) /\
      (forall r, ~ (In r inc /\ In r exc)) /\
      Permutation data (inc ++ exc).
Proof.
  intros data C HC.
  set (m := fun r => match BaseRule.matchesRecord r C with Ok b => b | Throw _ => false end).
  assert (Hm : forall r, BaseRule.matchesRecord r C = Ok (m r)).
  { intros r. unfold m. destruct (matchesRecord_defined r C HC) as [b ->]. reflexivity. }
  exists (filter m data), (filter (fun r => negb (m r)) data).
  assert (Hinc : forall r, In r (filter m data) <->
                           In r data /\ BaseRule.matchesRecord r C = Ok true).
  { intros r. rewrite filter_In, Hm. split; intros [Hin Hb]; split; auto; congruence. }
  assert (Hexc : forall r, In r (filter (fun r => negb (m r)) data) <->
                           In r data /\ BaseRule.matchesRecord r C = Ok false).
  { intros r. rewrite filter_In, Hm. split; intros [Hin Hb]; split; auto.
    - destruct (m r); simpl in Hb; congruence.
    - injection Hb as ->. reflexivity. }
  refine (conj _ (conj _ (conj Hinc (conj Hexc (conj _ (conj _ _)))))).
  - unfold IncludeRule.execute.
    rewrite (filterM_filter _ _ m) by (intros; apply Hm). reflexivity.
  - unfold ExcludeRule.execute.
    rewrite (filterM_filter _ _ (fun r => negb (m r)))
      by (intros; rewrite Hm; reflexivity).
    reflexivity.
  - intros r. rewrite Hinc, Hexc, Hm. split.
    + intros Hin. destruct (m r); [left | right]; auto.
    + tauto.
  - intros r [Hi He]. apply Hinc in Hi. apply Hexc in He.
    destruct Hi as [_ Hi], He as [_ He]. congruence.
  - apply filter_complement_permutation.
Qed.

End include_exclude.

Lemma include_exclude_partition_witness :
  let data := [VObj [("name", VStr "John"); ("status", VStr "active")];
               VObj [("name", VStr "John"); ("status", VStr "inactive")];
               VObj [("name", VStr "Jane"); ("status", VStr "active")]] in
  let C := VArr [VObj [("name", VStr "Jane")]; VObj [("status", VStr "inactive")]] in
  criteria_spec C /\
  exists inc exc,
    IncludeRule.execute (VArr data) C = Ok (VArr inc) /\
    ExcludeRule.execute (VArr data) C = Ok (VArr exc) /\
    (forall r, In r inc <-> In r data /\ BaseRule.matchesRecord r C = Ok true) /\
    (forall r, In r exc <-> In r data /\ BaseRule.matchesRecord r C = Ok false) /\
    (forall r, In r data <-> In r inc \/ In r exc) /\
    (forall r, ~ (In r inc /\ In r exc)) /\
    Permutation data (inc ++ exc).
Proof.
  intros data C.
  assert (HC : criteria_spec C) by (repeat constructor).
  split; [exact HC |].
  exact (include_exclude_partition data C HC).
Defined.

(** ** Limit *)

Section limit.
Context {platform : Platform}.

Lemma firstn_clamp :
  forall (A : Type) (n : nat) (l : list A),
    firstn n l = firstn (Nat.min n (List.length l)) l.
Proof.
  intros A n l. destruct (Nat.le_ge_cases n (List.length l)) as [H|H].
  - now rewrite Nat.min_l.
  - rewrite Nat.min_r by assumption. now rewrite !firstn_all2.
Qed.

Lemma skipn_clamp :
  forall (A : Type) (n : nat) (l : list A),
    skipn n l = skipn (Nat.min n (List.length l)) l.
Proof.
  intros A n l. destruct (Nat.le_ge_cases n (List.length l)) as [H|H].
  - now rewrite Nat.min_l.
  - rewrite Nat.min_r by assumption. now rewrite !skipn_all2.
Qed.

(** [slice] with a start and an end that are not negative *)
Lemma Array_slice_nonneg :
  forall (A : Type) (items : list A) a b, (0 <= a)%Z -> (0 <= b)%Z ->
    Array_slice items (VNum a) (VNum b)
    = firstn (Z.to_nat (b - a)) (skipn (Z.to_nat a) items).
Proof.
  intros A items a b Ha Hb. unfold Array_slice, clamp_index, ToIntegerOrInfinity. simpl.
  destruct (Z.ltb_spec a 0); [lia|]. destruct (Z.ltb_spec b 0); [lia|].
  set (len := List.length items).
  rewrite (skipn_clamp _ (Z.to_nat a)). fold len.
  replace (Z.to_nat (Z.min a (Z.of_nat len))) with (Nat.min (Z.to_nat a) len) by lia.
  rewrite (firstn_clamp _ (Z.to_nat (b - a))).
  rewrite (firstn_clamp _ (Z.to_nat (Z.max _ _))).
  rewrite length_skipn. fold len. f_equal. lia.
Qed.

Lemma Array_slice_from :
  forall (A : Type) (items : list A) a, (0 <= a)%Z ->
    Array_slice items (VNum a) VUndefined = skipn (Z.to_nat a) items.
Proof.
  intros A items a Ha. unfold Array_slice, clamp_index, ToIntegerOrInfinity. simpl.
  destruct (Z.ltb_spec a 0); [lia|].
  set (len := List.length items).
  rewrite (skipn_clamp _ (Z.to_nat a)). fold len.
  replace (Z.to_nat (Z.min a (Z.of_nat len))) with (Nat.min (Z.to_nat a) len) by lia.
  apply firstn_all2. rewrite length_skipn. fold len. lia.
Qed.

Lemma limit_pipe :
  forall (A : Type) (records : list A) N M, (0 <= N)%Z -> (0 <= M)%Z ->
    FunctionalUtils.pipe [FunctionalUtils.skip (VNum M); FunctionalUtils.take (VNum N)] records
    = firstn (Z.to_nat N) (skipn (Z.to_nat M) records).
Proof.
  intros A records N M HN HM. unfold FunctionalUtils.pipe. simpl.
  unfold FunctionalUtils.skip, FunctionalUtils.take.
  rewrite Array_slice_from by assumption.
  rewrite Array_slice_nonneg by lia.
  now rewrite Z.sub_0_r.
Qed.

(** C5: with a count [N] and an offset [M] that are not negative, Limit
    returns [records.slice(M, M + N)]: the records from index [M] on, at most
    [N] of them; that is [min(N, L - M)] records when [M < L] and none
    otherwise, none when the count is 0, and never an error. *)
Theorem limit_returns_slice :
  forall records config N M,
    (0 <= N)%Z -> (0 <= M)%Z ->
    limit_config config N M ->
    let L := Z.of_nat (List.length records) in
    exists out,
      LimitRule.execute (VArr records) config = Ok (VArr out) /\
      out = Array_slice records (VNum M) (VNum (M + N)) /\
      out = firstn (Z.to_nat N) (skipn (Z.to_nat M) records) /\
      Z.of_nat (List.length out)
        = (if (M <? L)%Z then Z.max 0 (Z.min N (L - M)) else 0)%Z /\
      (N = 0%Z -> out = []).
Proof.
  intros records config N M HN HM Hc L.
  exists (firstn (Z.to_nat N) (skipn (Z.to_nat M) records)).
  split; [|split; [|split; [|split]]].
  - destruct Hc as [[-> ->] | (fields & -> & Hcount & Hoff)].
    + unfold LimitRule.execute. cbn [typeof rbind fst snd].
      change (String.eqb "number" "number") with true. cbn iota.
      unfold rbind. cbn [fst snd]. now rewrite limit_pipe.
    + unfold LimitRule.execute, get_member.
      cbn [typeof is_nullish get_prop rbind].
      change (String.eqb "object" "number") with false. cbn iota.
      rewrite Hcount.
      destruct Hoff as [Hoff | [Hoff ->]]; rewrite Hoff; unfold rbind; cbn [fst snd truthy].
      * destruct (Z.eqb_spec M 0) as [-> | Hne]; cbn [negb]; now rewrite limit_pipe.
      * now rewrite limit_pipe.
  - rewrite Array_slice_nonneg by lia. f_equal. f_equal. lia.
  - reflexivity.
  - rewrite length_firstn, length_skipn. subst L.
    destruct (Z.ltb_spec M (Z.of_nat (List.length records))); lia.
  - intros ->. reflexivity.
Qed.

End limit.

Lemma limit_returns_slice_witness :
  let records := [VNum 10; VNum 11; VNum 12; VNum 13] in
  let config := VObj [("count", VNum 2); ("offset", VNum 1)] in
  (0 <= 2)%Z /\ (0 <= 1)%Z /\ limit_config config 2 1 /\
  exists out,
    @LimitRule.execute sample_platform (VArr records) config = Ok (VArr out) /\
    out = @Array_slice sample_platform value records (VNum 1) (VNum (1 + 2)) /\
    out = firstn (Z.to_nat 2) (skipn (Z.to_nat 1) records) /\
    Z.of_nat (List.length out)
      = (if (1 <? Z.of_nat (List.length records))%Z
         then Z.max 0 (Z.min 2 (Z.of_nat (List.length records) - 1)) else 0)%Z /\
    (2%Z = 0%Z -> out = []).
Proof.
  intros records config.
  assert (H2 : (0 <= 2)%Z) by lia.
  assert (H1 : (0 <= 1)%Z) by lia.
  assert (Hc : limit_config config 2 1).
  { right. exists [("count", VNum 2); ("offset", VNum 1)]. simpl. auto. }
  refine (conj H2 (conj H1 (conj Hc _))).
  exact (@limit_returns_slice sample_platform records config 2 1 H2 H1 Hc).
Defined.

(** ** Sorting *)

Section stable_sorting.
Variable A : Type.
Variable cmp : A -> A -> outcome Z.

(** Where [sort_insert] puts the new element: after a prefix of elements it
    compares greater than, and before the rest. *)
Lemma sort_insert_place :
  forall a l l',
    sort_insert cmp a l = Ok l' ->
    exists l1 l2,
      l = l1 ++ l2 /\ l' = l1 ++ a :: l2 /\
      (forall z, In z l1 -> exists c, cmp a z = Ok c /\ (0 < c)%Z) /\
      (l2 = [] \/ exists z l2' c, l2 = z :: l2' /\ cmp a z = Ok c /\ (c <= 0)%Z).
Proof.
  induction l as [|y r IH]; simpl; intros l' H.
  - injection H as <-. exists [], []. repeat split; auto. intros z [].
  - destruct (cmp a y) as [c|e] eqn:Hc; simpl in H; [|discriminate].
    destruct (Z.leb_spec c 0).
    + injection H as <-. exists [], (y :: r). repeat split; auto.
      * intros z [].
      * right. exists y, r, c. auto.
    + destruct (sort_insert cmp a r) as [r'|e] eqn:Hr; simpl in H; [|discriminate].
      injection H as <-.
      destruct (IH r' eq_refl) as (l1 & l2 & -> & -> & Hgt & Hl2).
      exists (y :: l1), l2. repeat split; auto.
      intros z [<- | Hz]; eauto.
Qed.

Lemma before_insert :
  forall (x y a : A) l1 l2,
    before x y (l1 ++ l2) -> before x y (l1 ++ a :: l2).
Proof.
  intros x y a l1 l2 (p & q & Hpq & Hp & Hq).
  set (k := List.length l1).
  assert (shift : forall n z, nth_error (l1 ++ l2) n = Some z ->
            nth_error (l1 ++ a :: l2) (if (n <? k)%nat then n else S n) = Some z).
  { intros n z Hn. destruct (Nat.ltb_spec n k) as [Hlt|Hge].
    - rewrite nth_error_app1 in * by assumption. assumption.
    - rewrite nth_error_app2 in * by (fold k; lia). fold k in Hn |- *.
      replace (S n - k)%nat with (S (n - k)) by lia. assumption. }
  exists (if (p <? k)%nat then p else S p), (if (q <? k)%nat then q else S q).
  split; [|split; auto].
  destruct (Nat.ltb_spec p k), (Nat.ltb_spec q k); lia.
Qed.

Lemma before_inserted :
  forall (a y : A) l1 l2 c,
    (forall z, In z l1 -> exists c', cmp a z = Ok c' /\ (0 < c')%Z) ->
    cmp a y = Ok c -> (c <= 0)%Z ->
    In y (l1 ++ l2) ->
    before a y (l1 ++ a :: l2).
Proof.
  intros a y l1 l2 c Hgt Hc Hle Hin.
  apply in_app_or in Hin. destruct Hin as [Hin|Hin].
  - destruct (Hgt y Hin) as (c' & Hc' & Hpos). rewrite Hc in Hc'.
    injection Hc' as <-. lia.
  - apply In_nth_error in Hin. destruct Hin as [n Hn].
    exists (List.length l1), (S (List.length l1 + n)). repeat split.
    + lia.
    + rewrite nth_error_app2 by lia. now rewrite Nat.sub_diag.
    + rewrite nth_error_app2 by lia.
      replace (S (List.length l1 + n) - List.length l1)%nat with (S n) by lia.
      assumption.
Qed.

Lemma sort_insert_permutation :
  forall a l l', sort_insert cmp a l = Ok l' -> Permutation (a :: l) l'.
Proof.
  intros a l l' H.
  destruct (sort_insert_place a l l' H) as (l1 & l2 & -> & -> & _).
  apply Permutation_middle.
Qed.

Lemma stable_sort_permutation :
  forall l s, stable_sort cmp l = Ok s -> Permutation l s.
Proof.
  induction l as [|a r IH]; simpl; intros s H.
  - injection H as <-. constructor.
  - destruct (stable_sort cmp r) as [s_r|e] eqn:Hr; simpl in H; [|discriminate].
    apply sort_insert_permutation in H.
    etransitivity; [|exact H]. constructor. now apply IH.
Qed.

(** The sort is stable: an element keeps its place before every later
    element it does not compare greater than. *)
Lemma stable_sort_stable :
  forall l s,
    stable_sort cmp l = Ok s ->
    forall p q x y c,
      (p < q)%nat -> nth_error l p = Some x -> nth_error l q = Some y ->
      cmp x y = Ok c -> (c <= 0)%Z ->
      before x y s.
Proof.
  induction l as [|a r IH]; simpl; intros s H p q x y c Hpq Hp Hq Hc Hle.
  - destruct p; discriminate.
  - destruct (stable_sort cmp r) as [s_r|e] eqn:Hr; simpl in H; [|discriminate].
    destruct (sort_insert_place a s_r s H) as (l1 & l2 & Hs_r & -> & Hgt & _).
    destruct q as [|q]; [lia|]. simpl in Hq.
    destruct p as [|p]; simpl in Hp.
    + injection Hp as ->.
      apply (before_inserted x y l1 l2 c); auto.
      rewrite <- Hs_r. apply (Permutation_in _ (stable_sort_permutation r s_r Hr)).
      eapply nth_error_In; eassumption.
    + apply before_insert. rewrite <- Hs_r.
      apply (IH s_r eq_refl p q x y c); auto. lia.
Qed.

(** A comparator that does not throw makes the sort return. *)
Lemma sort_insert_returns :
  (forall a b, exists c, cmp a b = Ok c) ->
  forall a l, exists l', sort_insert cmp a l = Ok l'.
Proof.
  intros Htotal a. induction l as [|y r [r' IH]]; simpl.
  - eauto.
  - destruct (Htotal a y) as [c ->]. simpl.
    destruct (c <=? 0)%Z; eauto. rewrite IH. simpl. eauto.
Qed.

Lemma stable_sort_returns :
  (forall a b, exists c, cmp a b = Ok c) ->
  forall l, exists s, stable_sort cmp l = Ok s.
Proof.
  intros Htotal. induction l as [|a r [s IH]]; simpl.
  - eauto.
  - rewrite IH. simpl. now apply sort_insert_returns.
Qed.

End stable_sorting.

(** The order of the engine: whatever the comparator answers, the elements
    come back, each once. *)
Section engine_sorting.
Context {A : Type}.
Variable cmp : A -> A -> outcome Z.

Lemma run_extends_splits :
  forall l isDescending previous run rest,
    run_extends cmp isDescending previous l = Ok (run, rest) -> l = run ++ rest.
Proof.
  induction l as [|x r IH]; intros d previous run rest H; simpl in H.
  - now injection H as <- <-.
  - destruct (cmp x previous) as [order|e]; [|discriminate]. cbn [rbind] in H.
    destruct (if d then (0 <=? order)%Z else (order <? 0)%Z).
    + now injection H as <- <-.
    + destruct (run_extends cmp d x r) as [[run' rest']|e] eqn:Hr; [|discriminate].
      cbn [rbind fst snd] in H. injection H as <- <-.
      simpl. f_equal. now apply (IH d x).
Qed.

Lemma CountAndMakeRun_permutation :
  forall l run rest,
    CountAndMakeRun cmp l = Ok (run, rest) -> Permutation l (run ++ rest).
Proof.
  intros l run rest H. unfold CountAndMakeRun in H.
  destruct l as [|x [|y r]]; try (injection H as <- <-; now rewrite app_nil_r).
  destruct (cmp y x) as [order|e]; [|discriminate]. cbn [rbind] in H.
  destruct (run_extends cmp (order <? 0)%Z y r) as [[run' rest']|e] eqn:Hr; [|discriminate].
  cbn [rbind fst snd] in H. injection H as <- <-.
  apply run_extends_splits in Hr. subst r.
  change (x :: y :: run' ++ rest') with ((x :: y :: run') ++ rest').
  apply Permutation_app_tail.
  destruct (order <? 0)%Z; [apply Permutation_rev | reflexivity].
Qed.

Lemma BinaryInsertionSort_permutation :
  forall rest run s,
    BinaryInsertionSort cmp run rest = Ok s -> Permutation (run ++ rest) s.
Proof.
  induction rest as [|pivot rest IH]; intros run s H; simpl in H.
  - injection H as <-. now rewrite app_nil_r.
  - destruct (insertion_point cmp pivot run _ 0 _) as [left|e]; [|discriminate].
    cbn [rbind] in H. apply IH in H. rewrite <- H.
    rewrite <- (firstn_skipn left run) at 1. rewrite <- !app_assoc.
    apply Permutation_app_head. simpl. symmetry. apply Permutation_middle.
Qed.

Lemma TimSort_permutation :
  forall l s, TimSort cmp l = Ok s -> Permutation l s.
Proof.
  intros l s H. unfold TimSort in H.
  destruct (CountAndMakeRun cmp l) as [[run rest]|e] eqn:Hrun; [|discriminate].
  cbn [rbind fst snd] in H.
  rewrite (CountAndMakeRun_permutation _ _ _ Hrun).
  now apply BinaryInsertionSort_permutation.
Qed.

Hypothesis cmp_returns : forall a b, exists c, cmp a b = Ok c.

Lemma run_extends_returns :
  forall l isDescending previous,
    exists rr, run_extends cmp isDescending previous l = Ok rr.
Proof.
  induction l as [|x r IH]; intros d previous; simpl; [eauto|].
  destruct (cmp_returns x previous) as [order ->]. cbn [rbind].
  destruct (if d then (0 <=? order)%Z else (order <? 0)%Z); [eauto|].
  destruct (IH d x) as [rr ->]. cbn [rbind]. eauto.
Qed.

Lemma insertion_point_returns :
  forall pivot run steps left right,
    exists place, insertion_point cmp pivot run steps left right = Ok place.
Proof.
  intros pivot run. induction steps as [|steps IH]; intros left right; simpl; [eauto|].
  destruct (left <? right)%nat; [|eauto].
  destruct (cmp_returns pivot (nth (left + Nat.div2 (right - left)) run pivot))
    as [order ->].
  cbn [rbind]. destruct (order <? 0)%Z; apply IH.
Qed.

Lemma BinaryInsertionSort_returns :
  forall rest run, exists s, BinaryInsertionSort cmp run rest = Ok s.
Proof.
  induction rest as [|pivot rest IH]; intros run; simpl; [eauto|].
  destruct (insertion_point_returns pivot run (List.length run) 0 (List.length run))
    as [left ->].
  cbn [rbind]. apply IH.
Qed.

Lemma TimSort_returns : forall l, exists s, TimSort cmp l = Ok s.
Proof.
  intros l. unfold TimSort.
  assert (Hrun : exists rr, CountAndMakeRun cmp l = Ok rr).
  { unfold CountAndMakeRun. destruct l as [|x [|y r]]; [eauto | eauto |].
    destruct (cmp_returns y x) as [order ->]. cbn [rbind].
    destruct (run_extends_returns r (order <? 0)%Z y) as [rr ->]. cbn [rbind]. eauto. }
  destruct Hrun as [rr ->]. cbn [rbind]. apply BinaryInsertionSort_returns.
Qed.

End engine_sorting.

Section sort_elements.
Context {A : Type}.
Variable undefined : A -> bool.
Variables compare comparefn : A -> A -> outcome Z.

Lemma filter_partition :
  forall l : list A,
    Permutation l (filter (fun x => negb (undefined x)) l ++ filter undefined l).
Proof.
  induction l as [|x r IH]; simpl; [reflexivity|].
  destruct (undefined x); simpl.
  - rewrite <- Permutation_middle. now apply perm_skip.
  - now apply perm_skip.
Qed.

Lemma sort_elements_permutation :
  forall l s, sort_elements undefined compare comparefn l = Ok s -> Permutation l s.
Proof.
  intros l s H. unfold sort_elements in H.
  destruct (consistent_on compare l).
  - exact (stable_sort_permutation _ compare l s H).
  - destruct (TimSort comparefn _) as [sorted|e] eqn:Hsorted; [|discriminate].
    cbn [rbind] in H. injection H as <-.
    rewrite (filter_partition l) at 1. apply Permutation_app_tail.
    now apply (TimSort_permutation comparefn).
Qed.

Lemma sort_elements_returns :
  (forall a b, exists c, compare a b = Ok c) ->
  (forall a b, exists c, comparefn a b = Ok c) ->
  forall l, exists s, sort_elements undefined compare comparefn l = Ok s.
Proof.
  intros Hcompare Hcomparefn l. unfold sort_elements.
  destruct (consistent_on compare l).
  - now apply stable_sort_returns.
  - destruct (TimSort_returns comparefn Hcomparefn
                (filter (fun x => negb (undefined x)) l)) as [sorted ->].
    cbn [rbind]. eauto.
Qed.

Lemma sort_elements_consistent :
  forall l,
    consistent_on compare l = true ->
    sort_elements undefined compare comparefn l = stable_sort compare l.
Proof.
  intros l H. unfold sort_elements. now rewrite H.
Qed.

Lemma sort_elements_short :
  forall l, (List.length l <= 1)%nat -> sort_elements undefined compare comparefn l = Ok l.
Proof.
  intros [|x [|y r]] H; simpl in H; try lia; unfold sort_elements.
  - now destruct (consistent_on compare []).
  - destruct (consistent_on compare [x]); [reflexivity|].
    cbn [filter]. now destruct (undefined x).
Qed.

(** A comparator that answers with the difference of two numbers is a
    consistent comparison. *)
Lemma consistent_on_difference :
  forall (f : A -> Z) l,
    (forall a b, In a l -> In b l -> compare a b = Ok (f a - f b)%Z) ->
    consistent_on compare l = true.
Proof.
  intros f l H. unfold consistent_on.
  apply forallb_forall. intros a Ha. apply forallb_forall. intros b Hb.
  apply forallb_forall. intros c Hc. unfold consistent_at.
  rewrite !H by assumption.
  repeat match goal with
         | |- context [(?x =? ?y)%Z] => destruct (Z.eqb_spec x y)
         | |- context [(?x <? ?y)%Z] => destruct (Z.ltb_spec x y)
         end; cbn [andb implb]; try reflexivity; lia.
Qed.

End sort_elements.

(** Sorting by a comparator that looks at one component only. *)
Lemma sort_insert_map :
  forall (A B : Type) (f : A -> B) (cmp : B -> B -> outcome Z) a l,
    sort_insert cmp (f a) (map f l)
    = rmap (map f) (sort_insert (fun x y => cmp (f x) (f y)) a l).
Proof.
  induction l as [|y r IH]; simpl.
  - reflexivity.
  - destruct (cmp (f a) (f y)) as [c|e]; simpl; [|reflexivity].
    destruct (c <=? 0)%Z; [reflexivity|].
    rewrite IH. unfold rmap.
    destruct (sort_insert _ a r); reflexivity.
Qed.

Lemma stable_sort_map :
  forall (A B : Type) (f : A -> B) (cmp : B -> B -> outcome Z) l,
    stable_sort cmp (map f l)
    = rmap (map f) (stable_sort (fun x y => cmp (f x) (f y)) l).
Proof.
  induction l as [|a r IH]; simpl.
  - reflexivity.
  - rewrite IH. unfold rmap at 1.
    destruct (stable_sort _ r) as [s|e]; simpl; [|reflexivity].
    apply sort_insert_map.
Qed.

Section sort_rule.
Context {platform : Platform}.

Lemma multiKeyComparator_returns :
  forall keys, Forall is_string keys ->
    forall a b, exists c, FunctionalUtils.multiKeyComparator keys a b = Ok c.
Proof.
  induction 1 as [|key rest Hkey _ IH]; intros a b; simpl.
  - eauto.
  - destruct key; simpl in Hkey; try contradiction. simpl.
    destruct (negb _); eauto.
Qed.

Lemma SortCompare_returns :
  forall comparefn,
    (forall a b, exists c, comparefn a b = Ok c) ->
    forall x y : value, exists c, SortCompare comparefn x y = Ok c.
Proof.
  intros comparefn Htotal x y.
  destruct x, y; simpl; eauto.
Qed.

Lemma SortCompare_defined :
  forall comparefn x y,
    x <> VUndefined -> y <> VUndefined ->
    SortCompare comparefn x y = comparefn x y.
Proof.
  intros comparefn x y Hx Hy. destruct x, y; simpl; congruence.
Qed.

Lemma indexed_from_nth :
  forall (A : Type) (l : list A) s i x,
    nth_error l i = Some x ->
    nth_error (combine (seq s (List.length l)) l) i = Some ((s + i)%nat, x).
Proof.
  induction l as [|a l IH]; intros s i x H.
  - destruct i; discriminate.
  - destruct i as [|i]; simpl in *.
    + injection H as ->. now rewrite Nat.add_0_r.
    + rewrite (IH (S s) i x H). f_equal. f_equal. lia.
Qed.

Lemma indexed_nth :
  forall (A : Type) (l : list A) i x,
    nth_error l i = Some x -> nth_error (indexed l) i = Some (i, x).
Proof.
  intros A l i x H. unfold indexed. now rewrite (indexed_from_nth A l 0 i x H).
Qed.

Lemma map_snd_indexed :
  forall (A : Type) (l : list A), map snd (indexed l) = l.
Proof.
  intros A l. unfold indexed. generalize 0%nat.
  induction l as [|a l IH]; intros s; simpl; [reflexivity|].
  now rewrite IH.
Qed.

(** C4, as amended: Sort is stable when the comparison of the records is
    consistent.  The output of [SortRule.execute] is then the input with
    every record carrying the index it came from ([indexed data]), rearranged;
    two records that are not [undefined] and that the multi-key comparator
    finds equal stand in the output in the order of their input indices. *)
Theorem sort_is_stable :
  forall data config,
    Forall is_string (SortRule.keys config) ->
    consistent_on (SortCompare (FunctionalUtils.multiKeyComparator (SortRule.keys config)))
      data = true ->
    exists sorted : list (nat * value),
      SortRule.execute (VArr data) config = Ok (VArr (map snd sorted)) /\
      Permutation (indexed data) sorted /\
      forall i j x y,
        (i < j)%nat ->
        nth_error data i = Some x -> nth_error data j = Some y ->
        x <> VUndefined -> y <> VUndefined ->
        FunctionalUtils.multiKeyComparator (SortRule.keys config) x y = Ok 0%Z ->
        before (i, x) (j, y) sorted.
Proof.
  intros data config Hkeys Hconsistent.
  set (comparator := FunctionalUtils.multiKeyComparator (SortRule.keys config)) in *.
  set (tagged := fun a b : nat * value => SortCompare comparator (snd a) (snd b)).
  assert (Htotal : forall a b, exists c, tagged a b = Ok c).
  { intros a b. apply SortCompare_returns.
    now apply multiKeyComparator_returns. }
  destruct (stable_sort_returns _ tagged Htotal (indexed data)) as [sorted Hsorted].
  exists sorted. split; [|split].
  - unfold SortRule.execute, FunctionalUtils.sort, Array_sort. fold comparator.
    rewrite sort_elements_consistent by exact Hconsistent.
    rewrite <- (map_snd_indexed _ data) at 1.
    rewrite (stable_sort_map _ _ snd (SortCompare comparator)).
    fold tagged. rewrite Hsorted. reflexivity.
  - now apply (stable_sort_permutation _ tagged).
  - intros i j x y Hij Hi Hj Hx Hy Heq.
    apply (stable_sort_stable _ tagged (indexed data) sorted Hsorted i j (i, x) (j, y) 0%Z);
      auto using indexed_nth; [|lia].
    unfold tagged. simpl. now rewrite SortCompare_defined.
Qed.

End sort_rule.

Lemma sort_is_stable_witness :
  let data := [VObj [("name", VStr "John"); ("age", VNum 30)];
               VObj [("name", VStr "Jane"); ("age", VNum 28)];
               VObj [("name", VStr "John"); ("age", VNum 25)]] in
  let config := VArr [VStr "name"] in
  Forall is_string (SortRule.keys config) /\
  exists sorted : list (nat * value),
    @SortRule.execute sample_platform (VArr data) config = Ok (VArr (map snd sorted)) /\
    Permutation (indexed data) sorted /\
    forall i j x y,
      (i < j)%nat ->
      nth_error data i = Some x -> nth_error data j = Some y ->
      x <> VUndefined -> y <> VUndefined ->
      @FunctionalUtils.multiKeyComparator sample_platform (SortRule.keys config) x y = Ok 0%Z ->
      before (i, x) (j, y) sorted.
Proof.
  intros data config.
  assert (Hkeys : Forall is_string (SortRule.keys config)) by (repeat constructor).
  split; [exact Hkeys |].
  exact (@sort_is_stable sample_platform data config Hkeys eq_refl).
Defined.

(** C4, as stated: Sort is not stable for records the comparator does not
    compare consistently.  [parseFloat] reads 5 in the texts [5] and [ 5] and
    no number in [ x], so that the first record compares equal to the third,
    greater than the second (as texts), and the second greater than the third
    (as texts).  The three records are a descending run for the engine, which
    reverses it: the third record comes out before the first. *)
Lemma sort_swaps_equal_records :
  let first := VObj [("v", VStr "5")] in
  let second := VObj [("v", VStr " x")] in
  let third := VObj [("v", VStr " 5")] in
  @FunctionalUtils.multiKeyComparator spaced_numbers [VStr "v"] first third = Ok 0%Z /\
  @SortRule.execute spaced_numbers (VArr [first; second; third]) (VStr "v")
  = Ok (VArr [third; second; first]).
Proof. split; reflexivity. Qed.

(** On the sample platform the three records sort to Jane, John (30),
    John (25): the two Johns keep their order. *)
Example sort_sample :
  @SortRule.execute sample_platform
    (VArr [VObj [("name", VStr "John"); ("age", VNum 30)];
           VObj [("name", VStr "Jane"); ("age", VNum 28)];
           VObj [("name", VStr "John"); ("age", VNum 25)]])
    (VStr "name")
  = Ok (VArr [VObj [("name", VStr "Jane"); ("age", VNum 28)];
              VObj [("name", VStr "John"); ("age", VNum 30)];
              VObj [("name", VStr "John"); ("age", VNum 25)]]).
Proof. reflexivity. Qed.

(** ** Transform *)

Section transform.
Context {platform : Platform}.

Lemma assoc_replace_field :
  forall (A : Type) (fields : list (string * A)) key key' x,
    assoc key fields <> None ->
    assoc key' (replace_field key x fields)
    = if String.eqb key key' then Some x else assoc key' fields.
Proof.
  intros A fields; induction fields as [|[k v] r IH]; intros key key' x Hin; simpl in *.
  - congruence.
  - destruct (String.eqb_spec k key) as [->|Hk]; simpl.
    + destruct (String.eqb_spec key key'); reflexivity.
    + rewrite IH by assumption.
      destruct (String.eqb_spec k key') as [->|Hk']; [|reflexivity].
      destruct (String.eqb_spec key key'); [congruence | reflexivity].
Qed.

Lemma assoc_insert_index_key :
  forall (A : Type) (fields : list (string * A)) i key key' x,
    assoc key fields = None ->
    assoc key' (insert_index_key i key x fields)
    = if String.eqb key key' then Some x else assoc key' fields.
Proof.
  intros A fields; induction fields as [|[k v] r IH]; intros i key key' x Hout; simpl in *.
  - reflexivity.
  - destruct (String.eqb_spec k key) as [->|Hk]; [discriminate|].
    destruct (array_index k) as [j|]; [destruct (j <? i)%nat|]; simpl;
      try reflexivity.
    rewrite IH by assumption.
    destruct (String.eqb_spec k key') as [->|Hk']; [|reflexivity].
    destruct (String.eqb_spec key key'); [congruence | reflexivity].
Qed.

Lemma assoc_app_absent :
  forall (A : Type) (fields : list (string * A)) key key' x,
    assoc key fields = None ->
    assoc key' (fields ++ [(key, x)])
    = if String.eqb key key' then Some x else assoc key' fields.
Proof.
  intros A fields; induction fields as [|[k v] r IH]; intros key key' x Hout; simpl in *.
  - reflexivity.
  - destruct (String.eqb_spec k key) as [->|Hk]; [discriminate|].
    rewrite IH by assumption.
    destruct (String.eqb_spec k key') as [->|Hk']; [|reflexivity].
    destruct (String.eqb_spec key key'); [congruence | reflexivity].
Qed.

(** Reading a property after a write *)
Lemma assoc_obj_set :
  forall (A : Type) (fields : list (string * A)) key key' x,
    assoc key' (obj_set fields key x)
    = if String.eqb key key' then Some x else assoc key' fields.
Proof.
  intros A fields key key' x. unfold obj_set.
  destruct (assoc key fields) as [v|] eqn:Hkey.
  - apply assoc_replace_field. congruence.
  - destruct (array_index key).
    + now apply assoc_insert_index_key.
    + now apply assoc_app_absent.
Qed.

Lemma assoc_obj_delete :
  forall (A : Type) (fields : list (string * A)) key key',
    assoc key' (obj_delete fields key)
    = if String.eqb key key' then None else assoc key' fields.
Proof.
  intros A fields key key'. unfold obj_delete.
  induction fields as [|[k v] r IH]; simpl.
  - now destruct (String.eqb key key').
  - destruct (String.eqb k key) eqn:Hk; simpl.
    + apply String.eqb_eq in Hk. subst k. rewrite IH.
      now destruct (String.eqb key key').
    + destruct (String.eqb k key') eqn:Hk'; [|exact IH].
      apply String.eqb_eq in Hk'. subst k.
      rewrite String.eqb_sym in Hk. now rewrite Hk.
Qed.

(** ** Plain data: on objects without own properties named like inherited
    members, the clone is a copy and the writes and tests are those of the
    own properties. *)

Lemma names_free_no_inherited :
  forall fields, names_free (VObj fields) = true -> no_inherited fields.
Proof.
  intros fields H k Hk. cbn [names_free] in H.
  induction fields as [|[k' v] r IH]; [reflexivity|].
  cbn [forallb fst snd] in H. apply andb_true_iff in H. destruct H as [Hkv Hr].
  apply andb_true_iff in Hkv. destruct Hkv as [Hk' _].
  cbn [assoc]. destruct (String.eqb_spec k' k) as [->|_]; [|now apply IH].
  rewrite Hk in Hk'. discriminate.
Qed.

Lemma names_free_field :
  forall fields k v,
    names_free (VObj fields) = true -> In (k, v) fields ->
    inherited k = false /\ names_free v = true.
Proof.
  intros fields k v H Hin. cbn [names_free] in H.
  rewrite forallb_forall in H. specialize (H _ Hin). cbn [fst snd] in H.
  apply andb_true_iff in H. destruct H as [Hk Hv].
  split; [now apply negb_true_iff in Hk | assumption].
Qed.

Lemma names_free_item :
  forall items x, names_free (VArr items) = true -> In x items -> names_free x = true.
Proof.
  intros items x H Hin. cbn [names_free] in H. rewrite forallb_forall in H. now apply H.
Qed.

Lemma no_inherited_nil : forall A, @no_inherited A [].
Proof. intros A k _. reflexivity. Qed.

Lemma no_inherited_obj_set :
  forall (A : Type) (o : list (string * A)) key x,
    no_inherited o -> inherited key = false -> no_inherited (obj_set o key x).
Proof.
  intros A o key x Ho Hkey k Hk. rewrite assoc_obj_set.
  destruct (String.eqb_spec key k) as [->|_]; [congruence | now apply Ho].
Qed.

Lemma no_inherited_obj_delete :
  forall (A : Type) (o : list (string * A)) key,
    no_inherited o -> no_inherited (obj_delete o key).
Proof.
  intros A o key Ho k Hk. rewrite assoc_obj_delete.
  destruct (String.eqb key k); [reflexivity | now apply Ho].
Qed.

Lemma hasOwnProperty_plain :
  forall callee o key,
    no_inherited o ->
    hasOwnProperty callee (VObj o) key
    = Ok (match assoc key o with Some _ => true | None => false end).
Proof.
  intros callee o key Ho. unfold hasOwnProperty.
  now rewrite (Ho "hasOwnProperty" eq_refl).
Qed.

Lemma set_member_object :
  forall o key x,
    key <> "__proto__"%string ->
    set_member (VObj o) key x = Ok (VObj (obj_set o key x)).
Proof.
  intros o key x Hkey. unfold set_member.
  destruct (String.eqb_spec key "__proto__") as [->|_]; [now elim Hkey | reflexivity].
Qed.

Lemma set_member_plain :
  forall o key x,
    inherited key = false ->
    set_member (VObj o) key x = Ok (VObj (obj_set o key x)).
Proof.
  intros o key x Hkey. apply set_member_object. now intros ->.
Qed.

Lemma map_outcome_cons :
  forall (A B : Type) (f : A -> outcome B) x rest,
    map_outcome f (x :: rest)
    = rbind (f x) (fun y => rbind (map_outcome f rest) (fun ys => Ok (y :: ys))).
Proof. reflexivity. Qed.

Lemma map_outcome_fixed :
  forall (A : Type) (f : A -> outcome A) l,
    Forall (fun x => f x = Ok x) l -> map_outcome f l = Ok l.
Proof.
  intros A f l H. induction H as [|x r Hx _ IH]; [reflexivity|].
  now rewrite map_outcome_cons, Hx, IH.
Qed.

Lemma clone_properties_cons :
  forall own clone key x rest,
    FunctionalUtils.clone_properties own clone ((key, x) :: rest)
    = rbind (own key) (fun has =>
        if has
        then rbind (clone x) (fun x' =>
             rbind (FunctionalUtils.clone_properties own clone rest) (fun rest' =>
               Ok (if String.eqb key "__proto__" then rest' else (key, x') :: rest')))
        else FunctionalUtils.clone_properties own clone rest).
Proof. reflexivity. Qed.

Lemma clone_properties_fixed :
  forall (own : string -> outcome bool) (clone : value -> outcome value) l,
    (forall k v, In (k, v) l ->
       own k = Ok true /\ clone v = Ok v /\ k <> "__proto__"%string) ->
    FunctionalUtils.clone_properties own clone l = Ok l.
Proof.
  intros own clone l. induction l as [|[k v] r IH]; intros H; [reflexivity|].
  destruct (H k v (or_introl eq_refl)) as (Hown & Hclone & Hk).
  rewrite clone_properties_cons, Hown. cbn [rbind]. rewrite Hclone. cbn [rbind].
  rewrite IH by (intros k' v' Hin; apply H; now right). cbn [rbind].
  apply String.eqb_neq in Hk. now rewrite Hk.
Qed.

Lemma deepClone_array :
  forall items,
    FunctionalUtils.deepClone (VArr items)
    = rbind (map_outcome FunctionalUtils.deepClone items) (fun items' => Ok (VArr items')).
Proof. reflexivity. Qed.

Lemma deepClone_object :
  forall fields,
    FunctionalUtils.deepClone (VObj fields)
    = rbind (FunctionalUtils.clone_properties (hasOwnProperty "obj" (VObj fields))
               FunctionalUtils.deepClone fields)
            (fun fields' => Ok (VObj fields')).
Proof. reflexivity. Qed.

(** The clone of plain data is a copy of it. *)
Lemma deepClone_plain :
  forall v, names_free v = true -> FunctionalUtils.deepClone v = Ok v.
Proof.
  induction v as [| | | | |items IH|fields IH|] using value_nested_ind;
    intros Hv; try reflexivity.
  - rewrite deepClone_array, map_outcome_fixed; [reflexivity|].
    apply Forall_forall. intros x Hx. rewrite Forall_forall in IH.
    apply IH; [assumption|]. eapply names_free_item; eassumption.
  - rewrite deepClone_object, clone_properties_fixed; [reflexivity|].
    intros k v Hin. destruct (names_free_field _ _ _ Hv Hin) as [Hk Hfree].
    split; [|split].
    + rewrite hasOwnProperty_plain by now apply names_free_no_inherited.
      destruct (assoc k fields) eqn:Hassoc; [reflexivity|].
      exfalso. clear - Hin Hassoc. induction fields as [|[k' v'] r IHr]; [contradiction|].
      cbn [assoc] in Hassoc. destruct (String.eqb_spec k' k) as [->|Hne]; [discriminate|].
      destruct Hin as [Heq|Hin]; [injection Heq; congruence | now apply IHr].
    + rewrite Forall_forall in IH. exact (IH (k, v) Hin Hfree).
    + intros ->. discriminate.
Qed.

(** The names of the inherited members: none is short, has a comma, or
    starts like a number. *)
Lemma inherited_In :
  forall s, inherited s = true -> In s Object_prototype_members.
Proof.
  intros s H. unfold inherited in H. apply existsb_exists in H.
  destruct H as (name & Hin & Heq). apply String.eqb_eq in Heq. now subst.
Qed.

Ltac each_inherited H :=
  apply inherited_In in H; unfold Object_prototype_members in H;
  repeat (destruct H as [H|H]; [symmetry in H|]); [..|contradiction].

Lemma inherited_single : forall a, inherited (String a "") = false.
Proof.
  intros a. destruct (inherited (String a "")) eqn:H; [|reflexivity].
  each_inherited H; discriminate.
Qed.

Lemma inherited_empty : inherited "" = false.
Proof. reflexivity. Qed.

Lemma has_char_append :
  forall c s t, has_char c (s ++ String c t) = true.
Proof.
  intros c. induction s as [|a s IH]; intros t; cbn [append has_char].
  - now rewrite Ascii.eqb_refl.
  - rewrite IH. apply orb_true_r.
Qed.

Lemma inherited_no_comma : forall s, inherited s = true -> has_char "," s = false.
Proof. intros s H. each_inherited H; subst; reflexivity. Qed.

Lemma string_of_uint_start :
  forall u, numeral_start (NilZero.string_of_uint u) = true.
Proof. destruct u; reflexivity. Qed.

Lemma string_of_Z_start : forall n, numeral_start (string_of_Z n) = true.
Proof.
  intros n. unfold string_of_Z, NilZero.string_of_int.
  destruct (Z.to_int n) as [u|u]; [apply string_of_uint_start | reflexivity].
Qed.

Lemma inherited_not_numeral : forall s, inherited s = true -> numeral_start s = false.
Proof. intros s H. each_inherited H; subst; reflexivity. Qed.

(** The text of plain data is no name of an inherited member. *)
Lemma ToString_names_free :
  forall v, names_free v = true -> inherited (ToString v) = false.
Proof.
  induction v as [| |b|n|s|items IH|fields _|f] using value_nested_ind;
    intros Hv; try reflexivity.
  - now destruct b.
  - destruct (inherited (ToString (VNum n))) eqn:H; [|reflexivity].
    apply inherited_not_numeral in H. cbn [ToString] in H.
    now rewrite string_of_Z_start in H.
  - cbn [names_free] in Hv. now apply negb_true_iff in Hv.
  - destruct items as [|x [|y rest]].
    + reflexivity.
    + cbn [ToString join]. destruct (is_nullish x) eqn:Hx; [reflexivity|].
      inversion IH as [|? ? IHx _]; subst. apply IHx.
      eapply names_free_item; [exact Hv | now left].
    + destruct (inherited (ToString (VArr (x :: y :: rest)))) eqn:H; [|reflexivity].
      apply inherited_no_comma in H. cbn [ToString join] in H.
      cbn [append] in H. now rewrite has_char_append in H.
Qed.

Lemma names_free_get_prop :
  forall v key, names_free v = true -> names_free (get_prop v key) = true.
Proof.
  intros v key Hv. destruct v as [| | | |s|items|fields|]; try reflexivity.
  - cbn [get_prop]. destruct (String.eqb key "length"); [reflexivity|].
    destruct (array_index key) as [i|]; [|reflexivity].
    destruct (nth_error (chars s) i) as [c|] eqn:Hc; [|reflexivity].
    apply nth_error_In in Hc. clear - Hc. induction s as [|a s IHs]; [contradiction|].
    destruct Hc as [<-|Hc]; [|now apply IHs].
    cbn [names_free]. now rewrite inherited_single.
  - cbn [get_prop]. destruct (String.eqb key "length"); [reflexivity|].
    destruct (array_index key) as [i|]; [|reflexivity].
    destruct (nth_in_or_default i items VUndefined) as [Hin | ->]; [|reflexivity].
    eapply names_free_item; eassumption.
  - cbn [get_prop]. destruct (assoc key fields) as [x|] eqn:Hx; [|reflexivity].
    assert (Hin : In (key, x) fields).
    { clear - Hx. induction fields as [|[k v] r IH]; [discriminate|].
      cbn [assoc] in Hx. destruct (String.eqb_spec k key) as [->|_].
      - injection Hx as ->. now left.
      - right. now apply IH. }
    now destruct (names_free_field _ _ _ Hv Hin).
Qed.

Lemma names_free_entries :
  forall v entries,
    names_free v = true -> Object_entries v = Ok entries ->
    Forall (fun kv => names_free (snd kv) = true) entries.
Proof.
  intros v entries Hv He. apply Forall_forall. intros [k x] Hin. cbn [snd].
  destruct v as [| | | |s|items|fields|]; try discriminate;
    injection He as <-; try contradiction.
  - unfold index_entries in Hin. apply in_combine_r in Hin.
    apply in_map_iff in Hin. destruct Hin as (c & <- & Hc).
    clear - Hc. induction s as [|a s IHs]; [contradiction|].
    destruct Hc as [<-|Hc]; [|now apply IHs].
    cbn [names_free]. now rewrite inherited_single.
  - unfold index_entries in Hin. apply in_combine_r in Hin.
    eapply names_free_item; eassumption.
  - now destruct (names_free_field _ _ _ Hv Hin).
Qed.

Lemma names_free_keys :
  forall fields,
    names_free (VObj fields) = true ->
    Forall (fun kv : string * value => inherited (fst kv) = false) fields.
Proof.
  intros fields Hv. apply Forall_forall. intros [k x] Hin.
  now destruct (names_free_field _ _ _ Hv Hin).
Qed.

Lemma names_free_entry_keys :
  forall v entries,
    names_free v = true -> Object_entries v = Ok entries ->
    Forall (fun kv : string * value => inherited (fst kv) = false) entries.
Proof.
  intros v entries Hv He.
  assert (Hindex : forall l : list value,
            Forall (fun kv : string * value => inherited (fst kv) = false)
                   (index_entries l)).
  { intros l. apply Forall_forall. intros [k x] Hin. cbn [fst].
    unfold index_entries in Hin. apply in_combine_l in Hin.
    apply in_map_iff in Hin. destruct Hin as (i & <- & _).
    destruct (inherited _) eqn:H; [|reflexivity].
    apply inherited_not_numeral in H. now rewrite string_of_Z_start in H. }
  destruct v as [| | | |s|items|fields|]; try discriminate;
    injection He as <-; try constructor; try apply Hindex.
  now apply names_free_keys.
Qed.

(** One computed field, on a result that is an object: the field is set to
    the computed value, with a warning when the function threw. *)
Lemma compute_field_object :
  forall record o key computation,
    inherited key = false ->
    TransformRule.compute_field record (VObj o) key computation
    = (computed_warning record (key, computation),
       Ok (VObj (obj_set o key (computed_value record computation)))).
Proof.
  intros record o key computation Hkey.
  assert (Hset : forall x, set_member (VObj o) key x = Ok (VObj (obj_set o key x)))
    by (intros x; now apply set_member_plain).
  unfold TransformRule.compute_field, computed_warning, computed_value.
  cbn [fst snd].
  destruct computation as [| | | | | | |f];
    try (cbn [lift bind]; rewrite Hset; reflexivity).
  destruct (call_function f record) as [v|e];
    cbn [lift bind try_catch warn]; rewrite Hset; reflexivity.
Qed.

Lemma compute_fields_object :
  forall record entries o,
    Forall (fun kc => inherited (fst kc) = false) entries ->
    TransformRule.compute_fields record (VObj o) entries
    = (flat_map (computed_warning record) entries,
       Ok (VObj (with_computed record o entries))).
Proof.
  induction entries as [|[key computation] rest IH]; intros o Hkeys; simpl.
  - reflexivity.
  - inversion Hkeys as [|? ? Hkey Hrest]; subst.
    rewrite compute_field_object by exact Hkey. simpl. rewrite IH by assumption.
    reflexivity.
Qed.

Lemma names_not_proto :
  forall names,
    names_free (VArr names) = true -> Forall (fun name => name <> VStr "__proto__") names.
Proof.
  intros names H. apply Forall_forall. intros name Hin ->.
  cbn [names_free] in H. rewrite forallb_forall in H. now specialize (H _ Hin).
Qed.

Lemma select_fields_object :
  forall record_fields names o,
    Forall is_string names ->
    Forall (fun name => name <> VStr "__proto__") names ->
    TransformRule.select_fields (VObj record_fields) names (VObj o)
    = Ok (VObj (fold_left
                  (fun o name =>
                     match name with
                     | VStr p =>
                         let v := FunctionalUtils.getNestedProperty
                                    (VObj record_fields) p VUndefined in
                         if is_undefined v then o else obj_set o p v
                     | _ => o
                     end) names o)).
Proof.
  intros record_fields names o H. revert o.
  induction H as [|name rest Hname _ IH]; intros o Hfree; [reflexivity|].
  destruct name as [| | | |p| | |]; simpl in Hname; try contradiction.
  inversion Hfree as [|? ? Hp Hrest]; subst.
  cbn [TransformRule.select_fields fold_left
       FunctionalUtils.getNestedProperty_of rbind ToString].
  destruct (is_undefined _); cbn [negb];
    [|rewrite set_member_object by (intros ->; now apply Hp)]; cbn [rbind]; now apply IH.
Qed.

Lemma rename_fields_object :
  forall entries o,
    no_inherited o ->
    Forall (fun kn => inherited (ToString (snd kn)) = false) entries ->
    TransformRule.rename_fields (VObj o) entries
    = Ok (VObj (fold_left
                  (fun o kn =>
                     match assoc (fst kn) o with
                     | Some v => obj_delete (obj_set o (ToString (snd kn)) v) (fst kn)
                     | None => o
                     end) entries o)).
Proof.
  induction entries as [|[oldKey newKey] rest IH]; intros o Ho Hnew; simpl.
  - reflexivity.
  - inversion Hnew as [|? ? Hkey Hrest]; subst. cbn [snd] in Hkey.
    unfold TransformRule.rename_field. rewrite hasOwnProperty_plain by exact Ho.
    cbn [rbind]. destruct (assoc oldKey o) as [v|] eqn:Hold.
    + rewrite set_member_plain by exact Hkey. cbn [rbind delete_member get_prop].
      rewrite Hold. apply IH; [|assumption].
      now apply no_inherited_obj_delete, no_inherited_obj_set.
    + cbn [rbind]. now apply IH.
Qed.

(** What the whole of [transformRecord] does to an object. *)
Lemma bind_lift_Ok :
  forall (A B : Type) (a : A) (k : A -> M B), bind (lift (Ok a)) k = k a.
Proof. intros A B a k. unfold bind, lift. now destruct (k a). Qed.

Lemma bind_lift_Throw :
  forall (A B : Type) (e : exn) (k : A -> M B),
    bind (lift (Throw e)) k = ([], Throw e).
Proof. reflexivity. Qed.

Lemma narrowed_no_inherited :
  forall record_fields fields,
    names_free (VObj record_fields) = true -> names_free fields = true ->
    no_inherited (narrowed record_fields fields).
Proof.
  intros record_fields fields Hrecord Hfields.
  destruct fields as [| | | | |names| |]; try (now apply names_free_no_inherited).
  unfold narrowed. generalize (no_inherited_nil value).
  generalize (@nil (string * value)). revert Hfields.
  induction names as [|name rest IH]; intros Hfree o Ho; [exact Ho|].
  cbn [names_free forallb] in Hfree. apply andb_true_iff in Hfree.
  destruct Hfree as [Hname Hrest]. cbn [fold_left]. apply IH; [exact Hrest|].
  destruct name as [| | | |p| | |]; try exact Ho.
  cbv zeta. destruct (is_undefined _); [exact Ho|].
  apply no_inherited_obj_set; [exact Ho|].
  cbn [names_free] in Hname. now apply negb_true_iff in Hname.
Qed.

Lemma with_computed_no_inherited :
  forall record entries o,
    no_inherited o ->
    Forall (fun kc : string * value => inherited (fst kc) = false) entries ->
    no_inherited (with_computed record o entries).
Proof.
  unfold with_computed. induction entries as [|[k c] rest IH]; intros o Ho Hkeys;
    [exact Ho|].
  inversion Hkeys as [|? ? Hk Hrest]; subst. cbn [fold_left fst snd].
  apply IH; [|assumption]. now apply no_inherited_obj_set.
Qed.

(** What the whole of [transformRecord] does to an object of plain data. *)
Lemma transformRecord_object :
  forall record_fields config entries,
    let record := VObj record_fields in
    names_free record = true ->
    names_free config = true ->
    is_nullish config = false ->
    fields_ok (get_prop config "fields") ->
    get_prop config "computed" = VObj entries ->
    TransformRule.transformRecord record config
    = (flat_map (computed_warning record) entries,
       Ok (VObj (renamed
                   (with_computed record
                      (narrowed record_fields (get_prop config "fields")) entries)
                   (get_prop config "rename")))).
Proof.
  intros record_fields config entries record Hrecord Hfree Hconfig Hfields Hcomputed.
  assert (Hf : names_free (get_prop config "fields") = true)
    by now apply names_free_get_prop.
  assert (Hc : Forall (fun kc : string * value => inherited (fst kc) = false) entries).
  { apply names_free_keys. rewrite <- Hcomputed. now apply names_free_get_prop. }
  assert (Hr : names_free (get_prop config "rename") = true)
    by now apply names_free_get_prop.
  unfold TransformRule.transformRecord, get_member.
  rewrite (deepClone_plain record Hrecord), bind_lift_Ok.
  rewrite Hconfig, Hcomputed. cbn [truthy rbind].
  set (fields := get_prop config "fields") in *.
  set (rename := get_prop config "rename") in *.
  assert (Hstep1 :
    (if truthy fields then
       match fields with
       | VArr items => TransformRule.select_fields record items (VObj [])
       | _ => TypeError "config.fields.forEach is not a function"
       end
     else Ok record)
    = Ok (VObj (narrowed record_fields fields))).
  { destruct Hfields as [Hfalsy | (names & Hnames & Hstr)].
    - rewrite Hfalsy. unfold narrowed.
      destruct fields; try discriminate; reflexivity.
    - rewrite Hnames in *. cbn [truthy].
      unfold record. rewrite select_fields_object; auto using names_not_proto. }
  rewrite Hstep1. unfold lift at 1. unfold bind at 1.
  unfold lift at 1. cbn [Object_entries]. unfold bind at 2.
  rewrite compute_fields_object by exact Hc.
  unfold renamed.
  destruct (truthy rename) eqn:Hrename.
  - destruct (Object_entries rename) as [rs|e] eqn:Hentries.
    + unfold bind, lift, rbind. rewrite rename_fields_object.
      * simpl. now rewrite !app_nil_r.
      * apply with_computed_no_inherited; [|exact Hc].
        now apply narrowed_no_inherited.
      * pose proof (names_free_entries _ _ Hr Hentries) as Hrs.
        apply Forall_forall. intros kn Hin. rewrite Forall_forall in Hrs.
        apply ToString_names_free. now apply Hrs.
    + destruct rename; simpl in Hrename, Hentries; discriminate.
  - unfold bind, ret. simpl. now rewrite !app_nil_r.
Qed.

Lemma with_computed_other :
  forall record entries o key,
    ~ In key (map fst entries) ->
    assoc key (with_computed record o entries) = assoc key o.
Proof.
  unfold with_computed.
  induction entries as [|[k c] rest IH]; intros o key Hout; simpl in *.
  - reflexivity.
  - rewrite IH by tauto. rewrite assoc_obj_set.
    destruct (String.eqb_spec k key); [tauto | reflexivity].
Qed.

Lemma with_computed_entry :
  forall record entries o key c,
    NoDup (map fst entries) ->
    In (key, c) entries ->
    assoc key (with_computed record o entries) = Some (computed_value record c).
Proof.
  unfold with_computed.
  induction entries as [|[k c'] rest IH]; intros o key c Hnodup Hin; simpl in *.
  - contradiction.
  - inversion Hnodup as [|? ? Hk Hrest]; subst.
    destruct Hin as [Heq | Hin].
    + injection Heq as -> ->.
      fold (with_computed record (obj_set o key (computed_value record c)) rest).
      rewrite with_computed_other by assumption.
      rewrite assoc_obj_set. now rewrite String.eqb_refl.
    + now apply IH.
Qed.

Lemma map_records_objects :
  forall config entries records,
    names_free config = true ->
    is_nullish config = false ->
    fields_ok (get_prop config "fields") ->
    get_prop config "computed" = VObj entries ->
    Forall is_object records ->
    names_free (VArr records) = true ->
    TransformRule.map_records config records
    = (flat_map (fun r => flat_map (computed_warning r) entries) records,
       Ok (map (transformed config entries) records)).
Proof.
  intros config entries records Hfree Hconfig Hfields Hcomputed Hrecords.
  induction Hrecords as [|r rest Hr _ IH]; intros Hplain; simpl.
  - reflexivity.
  - cbn [names_free forallb] in Hplain. apply andb_true_iff in Hplain.
    destruct Hplain as [Hplain Hrest].
    destruct r; simpl in Hr; try contradiction.
    rewrite (transformRecord_object fields config entries) by assumption.
    unfold bind at 1. rewrite IH by exact Hrest. unfold bind, ret. simpl.
    now rewrite !app_nil_r.
Qed.

(** C6, as amended: on a record that is an object of plain data, and for a
    configuration that uses no name of an inherited member, every computed
    function is applied to the record the rule was given, whatever the
    [fields] selection kept.  A function that throws leaves [null] in its
    field and a warning on the console; the other computed fields have their
    values, the fields that are not computed are as the selection left them,
    and [transformRecord] and [execute] return. *)
Theorem computed_field_failure_is_local :
  forall record_fields config entries,
    let record := VObj record_fields in
    names_free record = true ->
    names_free config = true ->
    is_nullish config = false ->
    fields_ok (get_prop config "fields") ->
    get_prop config "computed" = VObj entries ->
    NoDup (map fst entries) ->
    let selected := narrowed record_fields (get_prop config "fields") in
    let computed := with_computed record selected entries in
    TransformRule.transformRecord record config
    = (flat_map (computed_warning record) entries,
       Ok (VObj (renamed computed (get_prop config "rename")))) /\
    (forall key f v,
        In (key, VFun f) entries -> call_function f record = Ok v ->
        assoc key computed = Some v) /\
    (forall key f e,
        In (key, VFun f) entries -> call_function f record = Throw e ->
        assoc key computed = Some VNull /\
        In (console_warn [CText ("Error computing field " ++ key ++ ":")%string; CError e])
           (fst (TransformRule.transformRecord record config))) /\
    (forall key, ~ In key (map fst entries) -> assoc key computed = assoc key selected) /\
    (forall records,
        Forall is_object records ->
        names_free (VArr records) = true ->
        snd (TransformRule.execute (VArr records) config)
        = Ok (VArr (map (transformed config entries) records))).
Proof.
  intros record_fields config entries record Hrecord Hfree Hconfig Hfields Hcomputed
         Hnodup selected computed.
  assert (Hrun := transformRecord_object record_fields config entries
                    Hrecord Hfree Hconfig Hfields Hcomputed).
  fold record selected computed in Hrun.
  split; [exact Hrun | split; [|split; [|split]]].
  - intros key f v Hin Hcall. unfold computed.
    rewrite (with_computed_entry record entries selected key (VFun f)) by assumption.
    simpl. now rewrite Hcall.
  - intros key f e Hin Hcall. split.
    + unfold computed.
      rewrite (with_computed_entry record entries selected key (VFun f)) by assumption.
      simpl. now rewrite Hcall.
    + rewrite Hrun. simpl. apply in_flat_map. exists (key, VFun f). split; [assumption|].
      unfold computed_warning. simpl. rewrite Hcall. now left.
  - intros key Hout. now apply with_computed_other.
  - intros records Hrecords Hplain. unfold TransformRule.execute.
    rewrite (map_records_objects config entries) by assumption.
    reflexivity.
Qed.

End transform.

(** The configuration [{fields: [name], computed: {isAdult: r => r.age >= 18,
    years: f}}] where [f] throws, on [{name: John, age: 30}]: [isAdult] sees
    the age although the selection dropped it, and [years] is [null]. *)
Lemma computed_field_failure_is_local_witness :
  let record_fields := [("name", VStr "John"); ("age", VNum 30)] in
  let entries := [("isAdult", VFun 0); ("years", VFun 3)] in
  let config := VObj [("fields", VArr [VStr "name"]); ("computed", VObj entries)] in
  @TransformRule.transformRecord sample_platform (VObj record_fields) config
  = ([console_warn [CText "Error computing field years:";
                    CError (JsError "Error" "not implemented")]],
     Ok (VObj [("name", VStr "John"); ("isAdult", VBool true); ("years", VNull)])).
Proof.
  intros record_fields entries config.
  assert (Hconfig : is_nullish config = false) by reflexivity.
  assert (Hfields : fields_ok (get_prop config "fields")).
  { right. exists [VStr "name"]. split; [reflexivity | repeat constructor]. }
  assert (Hcomputed : get_prop config "computed" = VObj entries) by reflexivity.
  assert (Hnodup : NoDup (map fst entries)).
  { repeat constructor; simpl; intuition discriminate. }
  exact (proj1 (@computed_field_failure_is_local sample_platform record_fields config entries
                  eq_refl eq_refl Hconfig Hfields Hcomputed Hnodup)).
Defined.

(** C6, as stated: a computed field by the name of an inherited member is
    not local.  The computation of the field [hasOwnProperty] throws and is
    caught, the field is set to [null] and the warning is written; the rename
    step then calls [result.hasOwnProperty], which is that field, and
    [transformRecord], [execute] and the pipeline are aborted. *)
Lemma computed_field_named_hasOwnProperty :
  @call_function sample_platform 3 (VObj [("name", VStr "John")])
  = Throw (JsError "Error" "not implemented") /\
  @TransformRule.transformRecord sample_platform (VObj [("name", VStr "John")])
    (VObj [("computed", VObj [("hasOwnProperty", VFun 3)]);
           ("rename", VObj [("name", VStr "fullName")])])
  = ([console_warn [CText "Error computing field hasOwnProperty:";
                    CError (JsError "Error" "not implemented")]],
     TypeError "result.hasOwnProperty is not a function") /\
  snd (@TransformRule.execute sample_platform (VArr [VObj [("name", VStr "John")]])
         (VObj [("computed", VObj [("hasOwnProperty", VFun 3)]);
                ("rename", VObj [("name", VStr "fullName")])]))
  = TypeError "result.hasOwnProperty is not a function".
Proof. repeat split; reflexivity. Qed.

(** ** The monad *)

Lemma bind_assoc :
  forall (A B C : Type) (m : M A) (f : A -> M B) (g : B -> M C),
    bind (bind m f) g = bind m (fun x => bind (f x) g).
Proof.
  intros A B C [out [a|e]] f g; simpl; [|reflexivity].
  destruct (f a) as [out1 [b|e1]]; simpl; [|reflexivity].
  destruct (g b) as [out2 r]. now rewrite app_assoc.
Qed.

Lemma bind_throws_Error :
  forall (A B : Type) (m : M A) (f : A -> M B),
    throws_Error m -> (forall a, throws_Error (f a)) -> throws_Error (bind m f).
Proof.
  intros A B [out [a|e]] f Hm Hf; unfold throws_Error in *; simpl in *.
  - specialize (Hf a). destruct (f a) as [out' r]. exact Hf.
  - exact Hm.
Qed.

Lemma snd_bind_Ok :
  forall (A B : Type) (m : M A) (f : A -> M B) out a,
    m = (out, Ok a) -> snd (bind m f) = snd (f a).
Proof.
  intros A B m f out a ->. simpl. now destruct (f a).
Qed.

Lemma snd_bind_Throw :
  forall (A B : Type) (m : M A) (f : A -> M B) e,
    snd m = Throw e -> snd (bind m f) = Throw e.
Proof.
  intros A B [out r] f e H. simpl in H. subst r. reflexivity.
Qed.

(** ** The orchestrator *)

Section orchestrator.
Variable rules : RuleRegistry.registry.

(** *** The rule entries *)

Lemma sort_insert_ext :
  forall (A : Type) (cmp cmp' : A -> A -> outcome Z) a l,
    (forall b, In b l -> cmp a b = cmp' a b) ->
    sort_insert cmp a l = sort_insert cmp' a l.
Proof.
  induction l as [|y r IH]; simpl; intros H.
  - reflexivity.
  - rewrite <- H by now left. rewrite IH by (intros; apply H; now right).
    reflexivity.
Qed.

Lemma stable_sort_ext :
  forall (A : Type) (cmp cmp' : A -> A -> outcome Z) l,
    (forall a b, In a l -> In b l -> cmp a b = cmp' a b) ->
    stable_sort cmp l = stable_sort cmp' l.
Proof.
  induction l as [|a r IH]; simpl; intros H.
  - reflexivity.
  - rewrite <- IH by (intros; apply H; now right).
    destruct (stable_sort cmp r) as [s|e] eqn:Hs; simpl; [|reflexivity].
    apply sort_insert_ext. intros b Hb. apply H; [now left | right].
    apply (Permutation_in _ (Permutation_sym (stable_sort_permutation _ _ _ _ Hs))).
    assumption.
Qed.

Lemma rule_priority_registered :
  forall type, RuleRegistry.hasRule rules type = true ->
    DataProcessor.rule_priority rules type = Ok (entry_priority rules (type, VNull)).
Proof.
  intros type H. unfold DataProcessor.rule_priority, entry_priority,
    RuleRegistry.hasRule, RuleRegistry.Map_has, RuleRegistry.getRule in *. simpl.
  now destruct (RuleRegistry.Map_get rules type).
Qed.

Lemma ruleEntries_by_priority :
  forall condition entries,
    Object_entries condition = Ok entries ->
    DataProcessor.ruleEntries rules condition
    = stable_sort (by_priority rules) (registered rules entries).
Proof.
  intros condition entries H. unfold DataProcessor.ruleEntries. rewrite H. simpl.
  apply stable_sort_ext. intros a b Ha Hb.
  apply filter_In in Ha, Hb. destruct Ha as [_ Ha], Hb as [_ Hb].
  rewrite (rule_priority_registered _ Ha), (rule_priority_registered _ Hb).
  reflexivity.
Qed.

Lemma condition_entries :
  forall condition,
    truthy condition = true -> typeof condition = "object" ->
    exists entries, Object_entries condition = Ok entries.
Proof.
  destruct condition; simpl; intros Ht Ho; try discriminate; eauto.
Qed.

Lemma ruleEntries_returns :
  forall condition,
    truthy condition = true -> typeof condition = "object" ->
    exists entries sorted,
      Object_entries condition = Ok entries /\
      DataProcessor.ruleEntries rules condition = Ok sorted /\
      stable_sort (by_priority rules) (registered rules entries) = Ok sorted.
Proof.
  intros condition Ht Ho.
  destruct (condition_entries condition Ht Ho) as [entries He].
  destruct (stable_sort_returns _ (by_priority rules)
              (fun a b => ex_intro _ _ eq_refl) (registered rules entries)) as [sorted Hs].
  exists entries, sorted. rewrite (ruleEntries_by_priority _ _ He). auto.
Qed.

End orchestrator.

Section execute_rules.
Context {platform : Platform}.
Variable rules : RuleRegistry.registry.

Lemma stage_error_is_Error :
  forall type error, is_Error (stage_error type error).
Proof.
  intros type [n m | v]; unfold stage_error; simpl.
  - exact I.
  - unfold get_member. destruct (is_nullish v); exact I.
Qed.

Lemma executeRule_registered :
  forall type v config out v',
    RuleRegistry.executeRule rules type v config = (out, Ok v') ->
    DataProcessor.rule_priority rules type = Ok (entry_priority rules (type, config)).
Proof.
  intros type v config out v'.
  unfold RuleRegistry.executeRule, DataProcessor.rule_priority, entry_priority. simpl.
  destruct (RuleRegistry.getRule rules type); [reflexivity | discriminate].
Qed.

(** One turn of the loop. *)
Lemma execute_rules_cons :
  forall type config rest v applied,
    DataProcessor.execute_rules rules ((type, config) :: rest) v applied
    = match RuleRegistry.executeRule rules type v config with
      | (out, Ok v') =>
          let (out', r) :=
            DataProcessor.execute_rules rules rest v'
              (applied ++ [applied_entry rules (type, config)]) in
          (out ++ out', r)
      | (out, Throw error) => (out, Throw (stage_error type error))
      end.
Proof.
  intros type config rest v applied. simpl.
  destruct (RuleRegistry.executeRule rules type v config) as [out [v'|err]] eqn:Hrun.
  - rewrite (executeRule_registered _ _ _ _ _ Hrun). simpl.
    rewrite !app_nil_r. reflexivity.
  - unfold stage_error. simpl.
    destruct (DataProcessor.error_message err); simpl; now rewrite !app_nil_r.
Qed.

Lemma execute_rules_throws_Error :
  forall entries v applied,
    throws_Error (DataProcessor.execute_rules rules entries v applied).
Proof.
  induction entries as [|[type config] rest IH]; intros v applied.
  - exact I.
  - rewrite execute_rules_cons.
    destruct (RuleRegistry.executeRule rules type v config) as [out [v'|err]].
    + specialize (IH v' (applied ++ [applied_entry rules (type, config)])).
      destruct (DataProcessor.execute_rules rules rest v' _) as [out' r]. exact IH.
    + apply stage_error_is_Error.
Qed.

(** When the loop ends, every entry has been recorded, in order. *)
Lemma execute_rules_applied :
  forall entries v applied out v' applied',
    DataProcessor.execute_rules rules entries v applied = (out, Ok (v', applied')) ->
    applied' = applied ++ map (applied_entry rules) entries.
Proof.
  induction entries as [|[type config] rest IH]; intros v applied out v' applied' H.
  - injection H as _ _ <-. now rewrite app_nil_r.
  - rewrite execute_rules_cons in H.
    destruct (RuleRegistry.executeRule rules type v config) as [out1 [v1|err]];
      [|discriminate].
    destruct (DataProcessor.execute_rules rules rest v1 _) as [out2 r] eqn:Hrest.
    injection H as _ ->.
    rewrite (IH _ _ _ _ _ Hrest). now rewrite <- app_assoc.
Qed.

(** A rule that throws ends the loop with the error that names it. *)
Lemma execute_rules_fails_at :
  forall pre type config post v0 applied0 out v applied error,
    DataProcessor.execute_rules rules pre v0 applied0 = (out, Ok (v, applied)) ->
    snd (RuleRegistry.executeRule rules type v config) = Throw error ->
    snd (DataProcessor.execute_rules rules (pre ++ (type, config) :: post) v0 applied0)
    = Throw (stage_error type error).
Proof.
  induction pre as [|[t c] pre IH];
    intros type config post v0 applied0 out v applied error Hpre Hfail.
  - injection Hpre as _ <- <-. simpl app. rewrite execute_rules_cons.
    destruct (RuleRegistry.executeRule rules type v0 config) as [o r].
    simpl in Hfail. subst r. reflexivity.
  - simpl app. rewrite execute_rules_cons in Hpre |- *.
    destruct (RuleRegistry.executeRule rules t v0 c) as [o1 [v1|e1]]; [|discriminate].
    destruct (DataProcessor.execute_rules rules pre v1 _) as [o2 r2] eqn:Hrest.
    injection Hpre as _ ->.
    specialize (IH type config post _ _ _ _ _ _ Hrest Hfail).
    destruct (DataProcessor.execute_rules rules (pre ++ (type, config) :: post) v1 _).
    exact IH.
Qed.

(** *** The try block and the catch block *)

Lemma processData_catch_Error :
  forall processingTime data n message,
    DataProcessor.processData_catch processingTime data (JsError n message)
    = ([], Ok {| result := VArr [];
                 metadata := {| inputCount :=
                                  if isArray data then get_prop data "length" else VNum 0;
                                outputCount := VNum 0;
                                processingTime := processingTime;
                                appliedRules := [];
                                error := Some (VStr message) |} |}).
Proof. reflexivity. Qed.

(** What the catch block makes of what the try block threw. *)
Lemma processData_catch_message :
  forall processingTime data error message,
    DataProcessor.error_message error = Ok message ->
    DataProcessor.processData_catch processingTime data error
    = ([], Ok {| result := VArr [];
                 metadata := {| inputCount :=
                                  if isArray data then get_prop data "length" else VNum 0;
                                outputCount := VNum 0;
                                processingTime := processingTime;
                                appliedRules := [];
                                error := Some message |} |}).
Proof.
  intros pt data error message H. unfold DataProcessor.processData_catch.
  now rewrite H.
Qed.

(** The loop over the rules throws [Error] objects only. *)
Lemma processData_loop_throws_Error :
  forall processingTime data condition clone,
    isArray data = true ->
    truthy condition = true -> typeof condition = "object" ->
    FunctionalUtils.deepClone data = Ok clone ->
    throws_Error (DataProcessor.processData_try rules processingTime data condition).
Proof.
  intros pt data condition clone Hdata Ht Ho Hclone. unfold DataProcessor.processData_try.
  rewrite Hdata, Ht, Ho. cbn [negb orb String.eqb Ascii.eqb Bool.eqb].
  change (String.eqb "object" "object") with true. cbn [negb orb].
  rewrite Hclone, bind_lift_Ok.
  destruct (ruleEntries_returns rules condition Ht Ho) as (entries & sorted & _ & -> & _).
  apply bind_throws_Error; [exact I|]. intros es.
  apply bind_throws_Error; [apply execute_rules_throws_Error|]. intros ra.
  apply bind_throws_Error; [|intros; exact I].
  unfold throws_Error, lift, get_member. simpl.
  destruct (is_nullish (fst ra)); exact I.
Qed.

(** What the try block throws is an [Error] object or what the clone of the
    data threw. *)
Lemma processData_try_throws :
  forall processingTime data condition e,
    snd (DataProcessor.processData_try rules processingTime data condition) = Throw e ->
    is_Error e \/ FunctionalUtils.deepClone data = Throw e.
Proof.
  intros pt data condition e H.
  destruct (isArray data) eqn:Hdata.
  2:{ unfold DataProcessor.processData_try in H. rewrite Hdata in H.
      injection H as <-. now left. }
  destruct (negb (truthy condition) || negb (String.eqb (typeof condition) "object"))
    eqn:Hcond.
  { unfold DataProcessor.processData_try in H. rewrite Hdata, Hcond in H.
    injection H as <-. now left. }
  apply orb_false_elim in Hcond. destruct Hcond as [Ht Ho].
  apply negb_false_iff in Ht, Ho. apply String.eqb_eq in Ho.
  destruct (FunctionalUtils.deepClone data) as [clone|e'] eqn:Hclone.
  - left. pose proof (processData_loop_throws_Error pt data condition clone
                        Hdata Ht Ho Hclone) as He.
    unfold throws_Error in He. now rewrite H in He.
  - right. unfold DataProcessor.processData_try in H.
    rewrite Hdata, Ht, Ho, Hclone in H. cbn [negb orb] in H.
    change (String.eqb "object" "object") with true in H. cbn [negb orb] in H.
    rewrite bind_lift_Throw in H. now injection H as <-.
Qed.

(** What [processData] returns, by how its try block ends. *)
Lemma processData_outcome :
  forall startTime endTime data condition,
    (forall v, FunctionalUtils.deepClone data = Throw (JsThrow v) -> is_nullish v = false) ->
    let attempt :=
      DataProcessor.processData_try rules (DataProcessor.Math_round (endTime - startTime))
        data condition in
    exists r,
      DataProcessor.processData rules startTime endTime data condition = (fst attempt, Ok r) /\
      match snd attempt with
      | Ok r' => r = r'
      | Throw e =>
          result r = VArr [] /\ appliedRules (metadata r) = [] /\
          outputCount (metadata r) = VNum 0 /\
          DataProcessor.error_message e = Ok (match error (metadata r) with
                                              | Some message => message
                                              | None => VUndefined
                                              end) /\
          error (metadata r) <> None
      end.
Proof.
  intros startTime endTime data condition Hclone. cbv zeta.
  unfold DataProcessor.processData.
  destruct (DataProcessor.processData_try rules _ data condition) as [out [r|e]]
    eqn:Hattempt; cbn [try_catch fst snd].
  - eauto.
  - assert (Hthrown : snd (DataProcessor.processData_try rules
                             (DataProcessor.Math_round (endTime - startTime))
                             data condition) = Throw e) by now rewrite Hattempt.
    apply processData_try_throws in Hthrown.
    assert (Hmessage : exists message, DataProcessor.error_message e = Ok message).
    { destruct e as [n m|v]; [now eexists|].
      destruct Hthrown as [[]|Hthrown]. specialize (Hclone v Hthrown).
      unfold DataProcessor.error_message, get_member. rewrite Hclone. now eexists. }
    destruct Hmessage as [message Hmessage].
    rewrite (processData_catch_message _ _ _ _ Hmessage). rewrite app_nil_r.
    eexists. split; [reflexivity|]. cbn [result metadata appliedRules outputCount error].
    repeat split; [assumption | discriminate].
Qed.

(** The result [processData] returns is the result of its try block or a
    result of its catch block. *)
Lemma processData_returned :
  forall startTime endTime data condition console r,
    DataProcessor.processData rules startTime endTime data condition = (console, Ok r) ->
    snd (DataProcessor.processData_try rules (DataProcessor.Math_round (endTime - startTime))
           data condition) = Ok r \/
    (result r = VArr [] /\ appliedRules (metadata r) = [] /\
     outputCount (metadata r) = VNum 0 /\ error (metadata r) <> None).
Proof.
  intros startTime endTime data condition console r H.
  unfold DataProcessor.processData in H.
  destruct (DataProcessor.processData_try rules _ data condition) as [out [r'|e]]
    eqn:Hattempt; cbn [try_catch fst snd] in *.
  - left. now injection H as _ <-.
  - right. destruct (DataProcessor.error_message e) as [message|e'] eqn:Hmessage.
    + rewrite (processData_catch_message _ _ _ _ Hmessage) in H.
      injection H as _ <-. repeat split; discriminate.
    + unfold DataProcessor.processData_catch in H. rewrite Hmessage in H.
      discriminate H.
Qed.

End execute_rules.

Section processData.
Context {platform : Platform}.
Variable rules : RuleRegistry.registry.

(** A try block that returns has run every rule entry, on the clone. *)
Lemma processData_try_success :
  forall processingTime data condition r,
    snd (DataProcessor.processData_try rules processingTime data condition) = Ok r ->
    exists records clone sorted,
      data = VArr records /\
      truthy condition = true /\ typeof condition = "object" /\
      FunctionalUtils.deepClone data = Ok clone /\
      DataProcessor.ruleEntries rules condition = Ok sorted /\
      snd (DataProcessor.execute_rules rules sorted clone [])
        = Ok (result r, map (applied_entry rules) sorted) /\
      r = {| result := result r;
             metadata := {| inputCount := VNum (Z.of_nat (List.length records));
                            outputCount := get_prop (result r) "length";
                            processingTime := processingTime;
                            appliedRules := map (applied_entry rules) sorted;
                            error := None |} |} /\
      is_nullish (result r) = false.
Proof.
  intros pt data condition r. unfold DataProcessor.processData_try.
  destruct data as [| | | | |records| |]; simpl isArray; cbn iota; simpl negb;
    try discriminate.
  destruct (negb (truthy condition) || negb (String.eqb (typeof condition) "object"))
    eqn:Hcond; [discriminate|].
  apply orb_false_elim in Hcond. destruct Hcond as [Ht Ho].
  apply negb_false_iff in Ht, Ho. apply String.eqb_eq in Ho.
  destruct (FunctionalUtils.deepClone (VArr records)) as [clone|e] eqn:Hclone;
    [rewrite bind_lift_Ok | rewrite bind_lift_Throw; discriminate].
  destruct (ruleEntries_returns rules condition Ht Ho) as (entries & sorted & _ & Hs & _).
  rewrite Hs. unfold lift at 1. unfold bind at 1.
  destruct (DataProcessor.execute_rules rules sorted _ []) as [out [[v applied]|e]] eqn:Hrun;
    [|discriminate].
  pose proof (execute_rules_applied rules _ _ _ _ _ _ Hrun) as Happlied.
  simpl in Happlied. subst applied.
  unfold bind at 1. unfold get_member. cbn [fst snd].
  destruct (is_nullish v) eqn:Hv; [discriminate|].
  simpl. intros H. injection H as <-.
  exists records, clone, sorted. simpl. repeat split; auto.
  now rewrite Hrun.
Qed.

(** C1, as amended: [processData] returns a result whenever the clone it
    makes of the data does not throw [null] or [undefined] (what a rule
    throws is an [Error] object or plain data).  When the data is not an
    array, when the condition is not an object, when the clone throws an
    [Error], and when a rule throws after the rules before it have run, the
    result has no records, no applied rules, and a message that tells the
    failure (for a rule that threw an [Error], the message names the rule and
    repeats the message of the error); a result with an error never has
    records. *)
Theorem processData_never_throws :
  forall startTime endTime data condition,
    (forall v, FunctionalUtils.deepClone data = Throw (JsThrow v) -> is_nullish v = false) ->
    (forall clone pre type config post out v applied thrown,
        FunctionalUtils.deepClone data = Ok clone ->
        DataProcessor.ruleEntries rules condition = Ok (pre ++ (type, config) :: post) ->
        DataProcessor.execute_rules rules pre clone [] = (out, Ok (v, applied)) ->
        snd (RuleRegistry.executeRule rules type v config) = Throw thrown ->
        plain_thrown thrown) ->
    exists console r,
      DataProcessor.processData rules startTime endTime data condition = (console, Ok r) /\
      (isArray data = false -> failed_with r "Data must be an array") /\
      (isArray data = true ->
       truthy condition = false \/ typeof condition <> "object" ->
       failed_with r "Condition must be an object") /\
      (forall n m,
          isArray data = true ->
          truthy condition = true -> typeof condition = "object" ->
          FunctionalUtils.deepClone data = Throw (JsError n m) ->
          failed_with r m) /\
      (forall clone pre type config post out v applied thrown,
          isArray data = true ->
          truthy condition = true -> typeof condition = "object" ->
          FunctionalUtils.deepClone data = Ok clone ->
          DataProcessor.ruleEntries rules condition = Ok (pre ++ (type, config) :: post) ->
          DataProcessor.execute_rules rules pre clone [] = (out, Ok (v, applied)) ->
          snd (RuleRegistry.executeRule rules type v config) = Throw thrown ->
          failed_with r (exn_message (stage_error type thrown)) /\
          (forall n m, thrown = JsError n m ->
             exn_message (stage_error type thrown)
             = ("Failed to execute " ++ type ++ " rule: " ++ m)%string)) /\
      (error (metadata r) <> None ->
       result r = VArr [] /\ appliedRules (metadata r) = [] /\
       outputCount (metadata r) = VNum 0).
Proof.
  intros startTime endTime data condition Hclone _.
  destruct (processData_outcome rules startTime endTime data condition Hclone)
    as (r & Hrun & Hr).
  set (attempt := DataProcessor.processData_try rules
                    (DataProcessor.Math_round (endTime - startTime)) data condition) in *.
  assert (Hfailed : forall n m,
            snd attempt = Throw (JsError n m) -> failed_with r m).
  { intros n m Hattempt. rewrite Hattempt in Hr.
    destruct Hr as (H1 & H2 & H3 & H4 & H5). repeat split; try assumption.
    cbn [DataProcessor.error_message] in H4.
    destruct (error (metadata r)) as [message|]; [|congruence].
    now injection H4 as <-. }
  exists (fst attempt), r. split; [exact Hrun|].
  split; [|split; [|split; [|split]]].
  - intros Hdata. apply (Hfailed "Error"%string). subst attempt.
    unfold DataProcessor.processData_try. now rewrite Hdata.
  - intros Hdata Hcond. apply (Hfailed "Error"%string). subst attempt.
    unfold DataProcessor.processData_try. rewrite Hdata. simpl negb. cbn iota.
    assert (Hbad : negb (truthy condition) || negb (String.eqb (typeof condition) "object")
                   = true).
    { destruct Hcond as [-> | Hne]; [reflexivity|].
      apply orb_true_iff. right. apply negb_true_iff.
      now apply String.eqb_neq. }
    now rewrite Hbad.
  - intros n m Hdata Ht Ho Hcl. apply (Hfailed n). subst attempt.
    unfold DataProcessor.processData_try. rewrite Hdata, Ht, Ho. simpl negb. cbn iota.
    change (String.eqb "object" "object") with true. simpl negb.
    cbn [orb]. now rewrite Hcl, bind_lift_Throw.
  - intros clone pre type config post out v applied thrown Hdata Ht Ho Hcl Hentries
           Hpre Hfail.
    split.
    + pose proof (execute_rules_fails_at rules _ _ _ post _ _ _ _ _ _ Hpre Hfail) as Hloop.
      pose proof (stage_error_is_Error type thrown) as Hstage.
      destruct (stage_error type thrown) as [n m|] eqn:Hse; [|contradiction].
      apply (Hfailed n). subst attempt. unfold DataProcessor.processData_try.
      rewrite Hdata, Ht, Ho. simpl negb. cbn iota.
      change (String.eqb "object" "object") with true. simpl negb.
      cbn [orb]. rewrite Hcl, bind_lift_Ok, Hentries.
      unfold lift at 1. unfold bind at 1.
      destruct (DataProcessor.execute_rules rules (pre ++ (type, config) :: post) _ [])
        as [o res].
      simpl in Hloop. subst res. reflexivity.
    + intros n m ->. reflexivity.
  - intros Herror. destruct (snd attempt) as [r'|e] eqn:Hattempt.
    + subst r'. apply processData_try_success in Hattempt.
      destruct Hattempt as (records & clone & sorted & _ & _ & _ & _ & _ & _ & Hshape & _).
      rewrite Hshape in Herror. simpl in Herror. congruence.
    + destruct Hr as (H1 & H2 & H3 & _). auto.
Qed.

End processData.

Section metadata.
Context {platform : Platform}.

(** A result without an error comes from a try block that returned. *)
Lemma processData_success :
  forall rules startTime endTime data condition console r,
    DataProcessor.processData rules startTime endTime data condition = (console, Ok r) ->
    error (metadata r) = None ->
    snd (DataProcessor.processData_try rules
           (DataProcessor.Math_round (endTime - startTime)) data condition) = Ok r.
Proof.
  intros rules startTime endTime data condition console r Hrun Herror.
  unfold DataProcessor.processData in Hrun.
  destruct (DataProcessor.processData_try rules _ data condition) as [out [r0|e]];
    cbn [try_catch] in Hrun.
  - now injection Hrun as _ <-.
  - exfalso. unfold DataProcessor.processData_catch in Hrun.
    destruct (DataProcessor.error_message e) as [message|e'];
      cbn [lift bind ret] in Hrun; [|discriminate].
    injection Hrun as _ <-. discriminate Herror.
Qed.

(** C9, as amended: a result without an error carries the number of input
    records, the length of the result, the difference of the two clock
    readings rounded to an integer, and, for every rule entry that ran, in the
    order they ran, an object with the three properties [type], [config] and
    [priority]. *)
Theorem processData_success_metadata :
  forall rules startTime endTime data condition console r,
    DataProcessor.processData rules startTime endTime data condition = (console, Ok r) ->
    error (metadata r) = None ->
    exists records sorted,
      data = VArr records /\
      DataProcessor.ruleEntries rules condition = Ok sorted /\
      inputCount (metadata r) = VNum (Z.of_nat (List.length records)) /\
      outputCount (metadata r) = get_prop (result r) "length" /\
      (forall out, result r = VArr out ->
                   outputCount (metadata r) = VNum (Z.of_nat (List.length out))) /\
      processingTime (metadata r) = DataProcessor.Math_round (endTime - startTime) /\
      appliedRules (metadata r)
      = map (fun e => VObj [("type", VStr (fst e));
                            ("config", snd e);
                            ("priority", VNum (entry_priority rules e))]) sorted.
Proof.
  intros rules startTime endTime data condition console r Hrun Herror.
  pose proof (processData_success _ _ _ _ _ _ _ Hrun Herror) as Hattempt.
  apply processData_try_success in Hattempt.
  destruct Hattempt as (records & clone & sorted & Hdata & _ & _ & _ & Hsorted & _ & Hshape & _).
  exists records, sorted. rewrite Hshape. simpl.
  repeat split; auto.
  intros out Hout. rewrite Hshape in Hout. simpl in Hout. now rewrite Hout.
Qed.

End metadata.

(** C9, as stated: the entry of an applied rule is not the pair of [type]
    and [priority]; it has the configuration of the rule as well. *)
Lemma applied_rule_is_not_a_pair :
  ~ (forall rules startTime endTime data condition console r,
       @DataProcessor.processData sample_platform rules startTime endTime data condition
       = (console, Ok r) ->
       error (metadata r) = None ->
       Forall (fun a => Object_keys a = Ok ["type"; "priority"])
              (appliedRules (metadata r))).
Proof.
  intros H.
  pose proof (H (@RuleRegistry.builtin_rules sample_platform) 0%Q 3%Q
                (VArr [VObj [("name", VStr "John")]])
                (VObj [("limit", VNum 1)]) _ _ eq_refl eq_refl) as Hkeys.
  simpl in Hkeys. inversion Hkeys as [|a l Ha _]. discriminate Ha.
Qed.

(** The clock read 0.25 ms before and 2.75 ms after: the time recorded is
    [Math.round(2.5)], which is 3. *)
Lemma processData_success_metadata_witness :
  let data := VArr [VObj [("name", VStr "John")]; VObj [("name", VStr "Jane")]] in
  let condition := VObj [("limit", VNum 1)] in
  exists console r,
    @DataProcessor.processData sample_platform (@RuleRegistry.builtin_rules sample_platform)
       (1 # 4) (11 # 4) data condition = (console, Ok r) /\
    error (metadata r) = None /\
    inputCount (metadata r) = VNum 2 /\
    outputCount (metadata r) = VNum 1 /\
    processingTime (metadata r) = 3%Z /\
    appliedRules (metadata r)
    = [VObj [("type", VStr "limit"); ("config", VNum 1); ("priority", VNum 20)]].
Proof.
  intros data condition.
  destruct (@DataProcessor.processData sample_platform
              (@RuleRegistry.builtin_rules sample_platform) (1 # 4) (11 # 4) data condition)
    as [console [r|e]] eqn:Hrun; [|discriminate Hrun].
  exists console, r.
  assert (Herror : error (metadata r) = None).
  { injection Hrun as _ <-. reflexivity. }
  destruct (processData_success_metadata _ _ _ _ _ _ _ Hrun Herror)
    as (records & sorted & Hdata & Hsorted & Hin & Hout & _ & Htime & Happlied).
  injection Hdata as <-. injection Hsorted as <-.
  injection Hrun as _ <-.
  repeat split; assumption.
Defined.

(** ** Priority order *)

Section priority_order.
Variable A : Type.
Variable prio : A -> Z.

Lemma sort_insert_sorted :
  forall a l l',
    StronglySorted (le_by prio) l ->
    sort_insert (cmp_by prio) a l = Ok l' ->
    StronglySorted (le_by prio) l'.
Proof.
  induction l as [|y r IH]; simpl; intros l' Hsorted H.
  - injection H as <-. repeat constructor.
  - inversion Hsorted as [|? ? Hr Hy]; subst.
    destruct (Z.leb_spec (prio a - prio y) 0).
    + injection H as <-. constructor; [assumption|].
      constructor; [unfold le_by; lia|].
      eapply Forall_impl; [|exact Hy]. unfold le_by. intros; lia.
    + destruct (sort_insert (cmp_by prio) a r) as [r'|e] eqn:Hins; simpl in H; [|discriminate].
      injection H as <-. constructor; [now apply IH|].
      apply (Permutation_Forall (sort_insert_permutation _ _ _ _ _ Hins)).
      constructor; [unfold le_by; lia | assumption].
Qed.

Lemma stable_sort_sorted :
  forall l s, stable_sort (cmp_by prio) l = Ok s -> StronglySorted (le_by prio) s.
Proof.
  induction l as [|a r IH]; simpl; intros s H.
  - injection H as <-. constructor.
  - destruct (stable_sort (cmp_by prio) r) as [s_r|e] eqn:Hr; simpl in H; [|discriminate].
    eapply sort_insert_sorted; [|exact H]. now apply IH.
Qed.

(** Two sorted arrangements of the same elements are the same list when no
    two elements share a priority. *)
Lemma sorted_permutation_unique :
  forall l1 l2,
    StronglySorted (le_by prio) l1 -> StronglySorted (le_by prio) l2 ->
    Permutation l1 l2 ->
    NoDup (map prio l1) ->
    l1 = l2.
Proof.
  induction l1 as [|a l1 IH]; intros l2 H1 H2 Hperm Hnodup.
  - apply Permutation_nil in Hperm. now subst.
  - destruct l2 as [|b l2].
    + apply Permutation_sym, Permutation_nil in Hperm. discriminate.
    + inversion H1 as [|? ? Hs1 Ha]; subst. inversion H2 as [|? ? Hs2 Hb]; subst.
      inversion Hnodup as [|? ? Hnotin Hnodup']; subst.
      assert (Hab : a = b).
      { assert (Hin_a : In a (b :: l2)) by (apply (Permutation_in _ Hperm); now left).
        assert (Hin_b : In b (a :: l1))
          by (apply (Permutation_in _ (Permutation_sym Hperm)); now left).
        destruct Hin_a as [Heq | Hin_a]; [now subst|].
        destruct Hin_b as [Heq | Hin_b]; [now subst|].
        rewrite Forall_forall in Ha, Hb.
        specialize (Ha b Hin_b). specialize (Hb a Hin_a). unfold le_by in *.
        exfalso. apply Hnotin. replace (prio a) with (prio b) by lia.
        now apply in_map. }
      subst b. f_equal. apply IH; auto.
      now apply Permutation_cons_inv in Hperm.
Qed.

End priority_order.

Section builtin_rules.
Context {platform : Platform}.

(** The fixed priorities *)
Lemma builtin_priorities :
  map (fun kr => (fst kr, type (snd kr), priority (snd kr))) RuleRegistry.builtin_rules
  = [("include", "include", 1%Z); ("exclude", "exclude", 2%Z); ("sortBy", "sortBy", 10%Z);
     ("limit", "limit", 20%Z); ("transform", "transform", 15%Z)].
Proof. reflexivity. Qed.

Lemma builtin_registered :
  forall t, RuleRegistry.hasRule RuleRegistry.builtin_rules t = true ->
    t = "include" \/ t = "exclude" \/ t = "sortBy" \/ t = "limit" \/ t = "transform".
Proof.
  intros t. unfold RuleRegistry.hasRule, RuleRegistry.Map_has,
    RuleRegistry.builtin_rules. cbn -[String.eqb].
  repeat match goal with
         | |- context [String.eqb ?k t] => destruct (String.eqb_spec k t); [subst; tauto|]
         end.
  intros H. discriminate H.
Qed.

Lemma builtin_priority_injective :
  forall e1 e2,
    RuleRegistry.hasRule RuleRegistry.builtin_rules (fst e1) = true ->
    RuleRegistry.hasRule RuleRegistry.builtin_rules (fst e2) = true ->
    entry_priority RuleRegistry.builtin_rules e1 = entry_priority RuleRegistry.builtin_rules e2 ->
    fst e1 = fst e2.
Proof.
  intros [t1 c1] [t2 c2] H1 H2. simpl in *.
  apply builtin_registered in H1, H2.
  destruct H1 as [-> | [-> | [-> | [-> | ->]]]];
  destruct H2 as [-> | [-> | [-> | [-> | ->]]]];
    try reflexivity; intros H; vm_compute in H; discriminate.
Qed.

Lemma registered_priorities_NoDup :
  forall entries,
    NoDup (map fst entries) ->
    NoDup (map (entry_priority RuleRegistry.builtin_rules)
               (registered RuleRegistry.builtin_rules entries)).
Proof.
  induction entries as [|e rest IH]; simpl; intros Hnodup.
  - constructor.
  - inversion Hnodup as [|? ? Hnotin Hnodup']; subst.
    destruct (RuleRegistry.hasRule RuleRegistry.builtin_rules (fst e)) eqn:He; [|now apply IH].
    simpl. constructor; [|now apply IH].
    intros Hin. apply in_map_iff in Hin. destruct Hin as (e' & Heq & Hin').
    apply filter_In in Hin'. destruct Hin' as [Hin' He'].
    apply Hnotin. rewrite <- (builtin_priority_injective e' e He' He Heq).
    now apply in_map.
Qed.

Lemma registered_permutation :
  forall rules entries entries',
    Permutation entries entries' ->
    Permutation (registered rules entries) (registered rules entries').
Proof.
  intros rules entries entries' H. unfold registered.
  induction H; simpl.
  - constructor.
  - destruct (RuleRegistry.hasRule rules (fst x)); [now constructor | assumption].
  - destruct (RuleRegistry.hasRule rules (fst x)), (RuleRegistry.hasRule rules (fst y));
      try reflexivity; now constructor.
  - etransitivity; eassumption.
Qed.

(** The rule entries do not depend on the order of the keys. *)
Lemma ruleEntries_key_order :
  forall fields fields',
    NoDup (map fst fields) ->
    Permutation fields fields' ->
    DataProcessor.ruleEntries RuleRegistry.builtin_rules (VObj fields)
    = DataProcessor.ruleEntries RuleRegistry.builtin_rules (VObj fields').
Proof.
  intros fields fields' Hnodup Hperm.
  rewrite (ruleEntries_by_priority RuleRegistry.builtin_rules (VObj fields) fields eq_refl).
  rewrite (ruleEntries_by_priority RuleRegistry.builtin_rules (VObj fields') fields' eq_refl).
  destruct (stable_sort_returns _ (by_priority RuleRegistry.builtin_rules)
              (fun a b => ex_intro _ _ eq_refl)
              (registered RuleRegistry.builtin_rules fields)) as [s Hs].
  destruct (stable_sort_returns _ (by_priority RuleRegistry.builtin_rules)
              (fun a b => ex_intro _ _ eq_refl)
              (registered RuleRegistry.builtin_rules fields')) as [s' Hs'].
  rewrite Hs, Hs'. f_equal.
  apply (sorted_permutation_unique _ (entry_priority RuleRegistry.builtin_rules)).
  - exact (stable_sort_sorted _ _ _ _ Hs).
  - exact (stable_sort_sorted _ _ _ _ Hs').
  - rewrite <- (stable_sort_permutation _ _ _ _ Hs).
    rewrite <- (stable_sort_permutation _ _ _ _ Hs').
    now apply registered_permutation.
  - apply (Permutation_NoDup
             (Permutation_map _ (stable_sort_permutation _ _ _ _ Hs))).
    now apply registered_priorities_NoDup.
Qed.

End builtin_rules.

Section priority_example.
Context {platform : Platform}.

Lemma include_active :
  forall data,
    RuleRegistry.executeRule RuleRegistry.builtin_rules "include" (VArr data)
      (VArr [VObj [("status", VStr "active")]])
    = ([], Ok (VArr (filter status_is_active data))).
Proof.
  intros data. unfold RuleRegistry.executeRule. cbn.
  unfold lift. f_equal. unfold IncludeRule.execute.
  rewrite (filterM_filter _ _ status_is_active); [reflexivity|].
  intros r _. unfold BaseRule.matchesRecord, BaseRule.some_criterion,
    BaseRule.matchesSingleCriterion, status_is_active.
  cbn [Object_entries rbind forallb fst snd].
  rewrite andb_true_r.
  now destruct (BaseRule.deepEquals _ _).
Qed.

Lemma limit_one :
  forall data,
    RuleRegistry.executeRule RuleRegistry.builtin_rules "limit" (VArr data) (VNum 1)
    = ([], Ok (VArr (firstn 1 data))).
Proof.
  intros data. unfold RuleRegistry.executeRule. cbn -[FunctionalUtils.pipe].
  unfold lift. rewrite limit_pipe by lia. reflexivity.
Qed.

Lemma first_match :
  forall (f : value -> bool) data,
    firstn 1 (filter f data)
    = match find f data with Some r => [r] | None => [] end.
Proof.
  induction data as [|r rest IH]; simpl; [reflexivity|].
  destruct (f r); [reflexivity | exact IH].
Qed.

End priority_example.

Section priority_claim.
Context {platform : Platform}.

(** C2, as amended: the five rules have the priorities 1, 2, 10, 15 and 20
    (Include, Exclude, Sort, Transform, Limit).  Whatever the registry, the
    rule entries [processData] runs are the registered entries of the
    condition in ascending order of priority, and a result without an error
    lists them as applied in that order.  With the five rules the result does
    not depend on the order of the keys of the condition; for [{limit: 1,
    include: [{status: active}]}] and plain data the result is the first
    record whose status is active, or no record when there is none. *)
Theorem rules_run_in_priority_order :
  map (fun kr => (type (snd kr), priority (snd kr))) RuleRegistry.builtin_rules
  = [("include", 1%Z); ("exclude", 2%Z); ("sortBy", 10%Z);
     ("limit", 20%Z); ("transform", 15%Z)] /\
  (forall rules condition,
      truthy condition = true -> typeof condition = "object" ->
      exists entries sorted,
        Object_entries condition = Ok entries /\
        DataProcessor.ruleEntries rules condition = Ok sorted /\
        Permutation (registered rules entries) sorted /\
        ascending_priority rules sorted) /\
  (forall rules startTime endTime data condition console r,
      DataProcessor.processData rules startTime endTime data condition = (console, Ok r) ->
      error (metadata r) = None ->
      exists sorted,
        DataProcessor.ruleEntries rules condition = Ok sorted /\
        ascending_priority rules sorted /\
        appliedRules (metadata r) = map (applied_entry rules) sorted) /\
  (forall fields fields' startTime endTime data,
      NoDup (map fst fields) ->
      Permutation fields fields' ->
      DataProcessor.processData RuleRegistry.builtin_rules startTime endTime data (VObj fields)
      = DataProcessor.processData RuleRegistry.builtin_rules startTime endTime data
          (VObj fields')) /\
  (forall startTime endTime data,
      names_free (VArr data) = true ->
      let include := VArr [VObj [("status", VStr "active")]] in
      let first_active :=
        match find status_is_active data with Some r => [r] | None => [] end in
      DataProcessor.processData RuleRegistry.builtin_rules startTime endTime (VArr data)
        (VObj [("limit", VNum 1); ("include", include)])
      = ([], Ok {| result := VArr first_active;
                   metadata :=
                     {| inputCount := VNum (Z.of_nat (List.length data));
                        outputCount := VNum (Z.of_nat (List.length first_active));
                        processingTime := DataProcessor.Math_round (endTime - startTime);
                        appliedRules :=
                          [DataProcessor.applied_rule "include" include 1;
                           DataProcessor.applied_rule "limit" (VNum 1) 20];
                        error := None |} |})).
Proof.
  split; [reflexivity|]. split; [|split; [|split]].
  - intros rules condition Ht Ho.
    destruct (ruleEntries_returns rules condition Ht Ho) as (entries & sorted & He & Hs & Hsort).
    exists entries, sorted. repeat split; auto.
    + exact (stable_sort_permutation _ _ _ _ Hsort).
    + exact (stable_sort_sorted _ (entry_priority rules) _ _ Hsort).
  - intros rules startTime endTime data condition console r Hrun Herror.
    pose proof (processData_success _ _ _ _ _ _ _ Hrun Herror) as Hattempt.
    apply processData_try_success in Hattempt.
    destruct Hattempt as (records & clone & sorted & _ & Ht & Ho & _ & Hsorted & _ & Hshape & _).
    exists sorted. split; [assumption|]. split.
    + destruct (ruleEntries_returns rules condition Ht Ho) as (es & s & _ & Hs & Hsort).
      rewrite Hsorted in Hs. injection Hs as <-.
      exact (stable_sort_sorted _ (entry_priority rules) _ _ Hsort).
    + rewrite Hshape. reflexivity.
  - intros fields fields' startTime endTime data Hnodup Hperm.
    unfold DataProcessor.processData, DataProcessor.processData_try.
    cbn [truthy typeof].
    destruct (FunctionalUtils.deepClone data) as [clone|e]; [|reflexivity].
    rewrite !bind_lift_Ok.
    now rewrite (ruleEntries_key_order fields fields' Hnodup Hperm).
  - intros startTime endTime data Hplain include first_active.
    unfold DataProcessor.processData, DataProcessor.processData_try.
    cbn [isArray negb truthy typeof orb]. change (String.eqb "object" "object") with true.
    cbn [negb orb]. rewrite (deepClone_plain _ Hplain), bind_lift_Ok.
    assert (Hentries :
      DataProcessor.ruleEntries RuleRegistry.builtin_rules
        (VObj [("limit", VNum 1); ("include", include)])
      = Ok [("include", include); ("limit", VNum 1)]) by reflexivity.
    rewrite Hentries. unfold lift at 1. unfold bind at 1.
    unfold include.
    rewrite execute_rules_cons, include_active. cbn iota beta.
    rewrite execute_rules_cons, limit_one. cbn iota beta.
    unfold first_active. rewrite <- first_match.
    reflexivity.
Qed.

End priority_claim.

Lemma rules_run_in_priority_order_witness :
  let fields := [("limit", VNum 1); ("sortBy", VStr "name"); ("include", VObj [])] in
  let fields' := [("include", VObj []); ("limit", VNum 1); ("sortBy", VStr "name")] in
  let data := VArr [VObj [("name", VStr "John")]; VObj [("name", VStr "Jane")]] in
  NoDup (map fst fields) /\ Permutation fields fields' /\
  @DataProcessor.processData sample_platform
    (@RuleRegistry.builtin_rules sample_platform) 0 2 data (VObj fields)
  = @DataProcessor.processData sample_platform
      (@RuleRegistry.builtin_rules sample_platform) 0 2 data (VObj fields').
Proof.
  intros fields fields' data.
  assert (Hnodup : NoDup (map fst fields)).
  { repeat constructor; simpl; intuition discriminate. }
  assert (Hperm : Permutation fields fields').
  { unfold fields, fields'.
    apply (Permutation_cons_app [("include", VObj [])] [("sortBy", VStr "name")]).
    apply perm_swap. }
  refine (conj Hnodup (conj Hperm _)).
  exact (proj1 (proj2 (proj2 (proj2 (@rules_run_in_priority_order sample_platform))))
           fields fields' 0%Q 2%Q data Hnodup Hperm).
Defined.

(** C2, as stated: for [{limit: 1, include: [{status: active}]}] the result
    is not the first active record of every array.  For a record that has a
    property [hasOwnProperty] the clone [processData] starts with fails, and
    the result has no record, although the record is active. *)
Lemma record_with_own_hasOwnProperty :
  let record := VObj [("hasOwnProperty", VNum 1); ("status", VStr "active")] in
  find status_is_active [record] = Some record /\
  @DataProcessor.processData sample_platform
    (@RuleRegistry.builtin_rules sample_platform) 0 1 (VArr [record])
    (VObj [("limit", VNum 1); ("include", VArr [VObj [("status", VStr "active")]])])
  = ([], Ok {| result := VArr [];
               metadata :=
                 {| inputCount := VNum 1;
                    outputCount := VNum 0;
                    processingTime := 1;
                    appliedRules := [];
                    error := Some (VStr "obj.hasOwnProperty is not a function") |} |}).
Proof. split; reflexivity. Qed.

Lemma assoc_In :
  forall (A : Type) (fields : list (string * A)) key x,
    NoDup (map fst fields) -> In (key, x) fields -> assoc key fields = Some x.
Proof.
  induction fields as [|[k v] r IH]; simpl; intros key x Hnd Hin; [contradiction|].
  inversion Hnd as [|? ? Hk Hr]; subst.
  destruct Hin as [Heq|Hin].
  - injection Heq as -> ->. now rewrite String.eqb_refl.
  - destruct (String.eqb k key) eqn:Hkey.
    + apply String.eqb_eq in Hkey. subst. exfalso. apply Hk.
      now apply (in_map fst) in Hin.
    + now apply IH.
Qed.


Lemma assoc_Some_In :
  forall (A : Type) (fields : list (string * A)) key x,
    assoc key fields = Some x -> In (key, x) fields.
Proof.
  induction fields as [|[k v] r IH]; simpl; intros key x H; [discriminate|].
  destruct (String.eqb k key) eqn:Hkey.
  - apply String.eqb_eq in Hkey. injection H as ->. subst. now left.
  - right. now apply IH.
Qed.


Lemma assoc_None_keys :
  forall (A : Type) (fields : list (string * A)) key,
    assoc key fields = None <-> ~ In key (map fst fields).
Proof.
  induction fields as [|[k v] r IH]; simpl; intros key.
  - tauto.
  - destruct (String.eqb k key) eqn:Hkey.
    + apply String.eqb_eq in Hkey. subst. split; [discriminate | tauto].
    + apply String.eqb_neq in Hkey. rewrite IH. tauto.
Qed.

(** ** The store: what a rule may change *)

Section frame.
Import Store.

Lemma keeps_refl : forall n h, keeps n h h.
Proof. intros n h. split; auto. Qed.

Lemma keeps_trans :
  forall n h1 h2 h3, keeps n h1 h2 -> keeps n h2 h3 -> keeps n h1 h3.
Proof.
  intros n h1 h2 h3 [Hl1 Hf1] [Hl2 Hf2]. split; [lia | congruence].
Qed.

Lemma keeps_extends :
  forall n h h', (n <= List.length h)%nat -> extends h h' -> keeps n h h'.
Proof.
  intros n h h' Hn [new ->]. split.
  - rewrite length_app. lia.
  - rewrite firstn_app. replace (n - List.length h)%nat with 0%nat by lia.
    simpl. now rewrite app_nil_r.
Qed.

Lemma keeps_all_extends :
  forall h h', keeps (List.length h) h h' -> extends h h'.
Proof.
  intros h h' [Hlen Hfirst]. exists (skipn (List.length h) h').
  rewrite firstn_all in Hfirst. rewrite <- Hfirst at 1.
  now rewrite firstn_skipn.
Qed.

Lemma update_length :
  forall h l c, List.length (update h l c) = List.length h.
Proof.
  induction h as [|c0 r IH]; intros [|l] c; simpl; auto.
Qed.

Lemma firstn_update :
  forall n h l c, (n <= l)%nat -> firstn n (update h l c) = firstn n h.
Proof.
  induction n as [|n IH]; intros h l c Hl; [reflexivity|].
  destruct h as [|c0 r]; [reflexivity|].
  destruct l as [|l]; [lia|]. simpl. f_equal. apply IH. lia.
Qed.

Lemma keeps_update :
  forall n h l c, (n <= l)%nat -> keeps n h (update h l c).
Proof.
  intros n h l c Hl. split.
  - now rewrite update_length.
  - now apply firstn_update.
Qed.

(** *** Rules of the computations *)

Lemma respects_ret :
  forall (A : Type) n (a : A) (Q : A -> Prop), Q a -> respects n (ret a) Q.
Proof. intros A n a Q Ha h Hn. split; [apply keeps_refl | exact Ha]. Qed.

Lemma respects_throw :
  forall (A : Type) n e (Q : A -> Prop), respects n (throw e) Q.
Proof. intros A n e Q h Hn. split; [apply keeps_refl | exact I]. Qed.

Lemma respects_lift :
  forall (A : Type) n (r : outcome A), respects n (lift r) (fun _ => True).
Proof. intros A n r h Hn. split; [apply keeps_refl | now destruct r]. Qed.

Lemma respects_reading :
  forall (A : Type) n (f : store -> outcome A), respects n (reading f) (fun _ => True).
Proof.
  intros A n f h Hn. split; [apply keeps_refl | simpl; now destruct (f h)].
Qed.

Lemma respects_bind :
  forall (A B : Type) n (m : St A) (k : A -> St B) (P : A -> Prop) (Q : B -> Prop),
    respects n m P ->
    (forall a, P a -> respects n (k a) Q) ->
    respects n (bind m k) Q.
Proof.
  intros A B n m k P Q Hm Hk h Hn. unfold bind.
  destruct (Hm h Hn) as [Hkeep Hpost].
  destruct (m h) as [h1 [a|e]]; simpl in *.
  - assert (Hn1 : (n <= List.length h1)%nat) by (destruct Hkeep; lia).
    destruct (Hk a Hpost h1 Hn1) as [Hkeep' Hpost'].
    split; [eapply keeps_trans; eassumption | exact Hpost'].
  - split; [assumption | exact I].
Qed.

Lemma respects_try_catch :
  forall (A : Type) n (m : St A) (handler : exn -> St A) (Q : A -> Prop),
    respects n m Q ->
    (forall e, respects n (handler e) Q) ->
    respects n (try_catch m handler) Q.
Proof.
  intros A n m handler Q Hm Hh h Hn. unfold try_catch.
  destruct (Hm h Hn) as [Hkeep Hpost].
  destruct (m h) as [h1 [a|e]]; simpl in *.
  - split; assumption.
  - assert (Hn1 : (n <= List.length h1)%nat) by (destruct Hkeep; lia).
    destruct (Hh e h1 Hn1) as [Hkeep' Hpost'].
    split; [eapply keeps_trans; eassumption | exact Hpost'].
Qed.

Lemma respects_weaken :
  forall (A : Type) n (m : St A) (P Q : A -> Prop),
    respects n m P -> (forall a, P a -> Q a) -> respects n m Q.
Proof.
  intros A n m P Q Hm HPQ h Hn. destruct (Hm h Hn) as [Hkeep Hpost].
  split; [assumption|]. destruct (snd (m h)); auto.
Qed.

Lemma respects_mapS :
  forall (A B : Type) n (f : A -> St B) (P : B -> Prop) l,
    (forall x, respects n (f x) P) ->
    respects n (mapS f l) (Forall P).
Proof.
  intros A B n f P l Hf. induction l as [|x r IH]; simpl.
  - now apply respects_ret.
  - apply (respects_bind _ _ _ _ _ P); [apply Hf|]. intros y Hy.
    apply (respects_bind _ _ _ _ _ (Forall P)); [exact IH|]. intros ys Hys.
    apply respects_ret. now constructor.
Qed.

Lemma respects_alloc :
  forall n c, respects n (alloc c) (above n).
Proof.
  intros n c h Hn. unfold alloc. simpl. split; [|exact Hn].
  apply keeps_extends; [assumption|]. now exists [c].
Qed.

Lemma respects_set_member :
  forall n target key x,
    above n target -> respects n (set_member target key x) (fun _ => True).
Proof.
  intros n target key x Htarget h Hn. unfold set_member.
  destruct target; simpl in *;
    try (split; [apply keeps_refl | exact I]).
  destruct (nth_error h l) as [[items|fields]|];
    try destruct (array_index key); try destruct (_ && _); simpl;
    (split; [first [now apply keeps_update | apply keeps_refl] | exact I]).
Qed.

Lemma respects_delete_member :
  forall n target key,
    above n target -> respects n (delete_member target key) (fun _ => True).
Proof.
  intros n target key Htarget h Hn. unfold delete_member.
  destruct target; simpl in *;
    try (split; [apply keeps_refl | exact I]).
  destruct (nth_error h l) as [[items|fields]|];
    try destruct (String.eqb key "length");
    try destruct (array_index key) as [i|];
    try destruct (i <? List.length items)%nat; simpl;
    (split; [first [now apply keeps_update | apply keeps_refl] | exact I]).
Qed.

(** *** Rules of the computations that watch the store *)

Lemma frames_ret :
  forall (A : Type) n (a : A) (P : store -> Prop) (Q : store -> A -> Prop),
    (forall h, P h -> Q h a) -> frames n P (ret a) Q.
Proof. intros A n a P Q H h Hn Hh. split; [apply keeps_refl | now apply H]. Qed.

Lemma frames_throw :
  forall (A : Type) n e (P : store -> Prop) (Q : store -> A -> Prop),
    frames n P (throw e) Q.
Proof. intros A n e P Q h Hn Hh. split; [apply keeps_refl | exact I]. Qed.

Lemma frames_lift :
  forall (A : Type) n (r : outcome A) (P : store -> Prop),
    frames n P (lift r) (fun h _ => P h).
Proof. intros A n r P h Hn Hh. split; [apply keeps_refl | now destruct r]. Qed.

Lemma frames_reading :
  forall (A : Type) n (f : store -> outcome A) (P : store -> Prop),
    frames n P (reading f) (fun h _ => P h).
Proof.
  intros A n f P h Hn Hh. split; [apply keeps_refl | simpl; now destruct (f h)].
Qed.

Lemma frames_bind :
  forall (A B : Type) n (m : St A) (k : A -> St B) (P : store -> Prop)
         (R : store -> A -> Prop) (Q : store -> B -> Prop),
    frames n P m R ->
    (forall a, frames n (fun h => R h a) (k a) Q) ->
    frames n P (bind m k) Q.
Proof.
  intros A B n m k P R Q Hm Hk h Hn Hh. unfold bind.
  destruct (Hm h Hn Hh) as [Hkeep Hpost].
  destruct (m h) as [h1 [a|e]]; simpl in *.
  - assert (Hn1 : (n <= List.length h1)%nat) by (destruct Hkeep; lia).
    destruct (Hk a h1 Hn1 Hpost) as [Hkeep' Hpost'].
    split; [eapply keeps_trans; eassumption | exact Hpost'].
  - split; [assumption | exact I].
Qed.

Lemma frames_try_catch :
  forall (A : Type) n (m : St A) (handler : exn -> St A) (P : store -> Prop)
         (Q : store -> A -> Prop),
    frames n P m Q ->
    (forall e, frames n (fun _ => True) (handler e) Q) ->
    frames n P (try_catch m handler) Q.
Proof.
  intros A n m handler P Q Hm Hh h Hn HP. unfold try_catch.
  destruct (Hm h Hn HP) as [Hkeep Hpost].
  destruct (m h) as [h1 [a|e]]; simpl in *.
  - split; assumption.
  - assert (Hn1 : (n <= List.length h1)%nat) by (destruct Hkeep; lia).
    destruct (Hh e h1 Hn1 I) as [Hkeep' Hpost'].
    split; [eapply keeps_trans; eassumption | exact Hpost'].
Qed.

Lemma frames_weaken :
  forall (A : Type) n (m : St A) (P P' : store -> Prop) (Q Q' : store -> A -> Prop),
    frames n P m Q ->
    (forall h, P' h -> P h) -> (forall h a, Q h a -> Q' h a) ->
    frames n P' m Q'.
Proof.
  intros A n m P P' Q Q' Hm HP HQ h Hn Hh. destruct (Hm h Hn (HP h Hh)) as [Hkeep Hpost].
  split; [assumption|]. destruct (snd (m h)); auto.
Qed.

Lemma frames_of_respects :
  forall (A : Type) n (m : St A) (P : store -> Prop) (Q : A -> Prop),
    respects n m Q -> frames n P m (fun _ a => Q a).
Proof. intros A n m P Q Hm h Hn _. exact (Hm h Hn). Qed.

(** A new array of elements that are none of the first [n] objects. *)
Lemma frames_alloc_array :
  forall n items (P : store -> Prop),
    Forall (above n) items -> frames n P (alloc (CArr items)) (array_above n).
Proof.
  intros n items P Hitems h Hn _. unfold alloc. cbn [fst snd]. split; [|split].
  - apply keeps_extends; [assumption | now exists [CArr items]].
  - exact Hn.
  - intros records Hrecords. unfold elements in Hrecords.
    rewrite nth_error_app2 in Hrecords by lia.
    rewrite Nat.sub_diag in Hrecords. simpl in Hrecords. now injection Hrecords as <-.
Qed.

Lemma frames_alloc_object :
  forall n fields (P : store -> Prop),
    frames n P (alloc (CObj fields)) (array_above n).
Proof.
  intros n fields P h Hn _. unfold alloc. cbn [fst snd]. split; [|split].
  - apply keeps_extends; [assumption | now exists [CObj fields]].
  - exact Hn.
  - intros records Hrecords. unfold elements in Hrecords.
    rewrite nth_error_app2 in Hrecords by lia.
    rewrite Nat.sub_diag in Hrecords. simpl in Hrecords. discriminate Hrecords.
Qed.

End frame.

Section store_rules.
Import Store.
Context {host : Host}.
Variable n : nat.
Hypothesis methods_kept : methods_keep n.

(** The values the functions of the configuration are called on. *)
Variable callable : ref_value -> Prop.
Hypothesis functions_respect :
  forall f v, callable v -> respects n (call_function f v) (fun _ => True).

Lemma respects_call_method :
  forall f this arg, respects n (call_method f this arg) (fun _ => True).
Proof.
  intros f this arg h Hn. split.
  - now apply methods_kept.
  - now destruct (snd (call_method f this arg h)).
Qed.

Lemma respects_hasOwnProperty :
  forall callee target key,
    respects n (hasOwnProperty callee target key) (fun _ => True).
Proof.
  intros callee target key h Hn. unfold hasOwnProperty.
  destruct target; try (simpl; split; [apply keeps_refl | exact I]).
  destruct (nth_error h l) as [[items|fields]|];
    try (simpl; split; [apply keeps_refl | exact I]).
  destruct (assoc "hasOwnProperty" fields) as [m|];
    [|simpl; split; [apply keeps_refl | exact I]].
  destruct m; try (simpl; split; [apply keeps_refl | exact I]).
  apply (respects_bind _ _ _ _ _ (fun _ => True));
    [apply respects_call_method | | assumption].
  intros answer _. now apply respects_ret.
Qed.

Lemma clone_properties_step :
  forall (own : string -> St bool) (clone : ref_value -> St ref_value) key x rest,
    FunctionalUtils.clone_properties own clone ((key, x) :: rest)
    = bind (own key) (fun has =>
        if has
        then bind (clone x) (fun x' =>
             bind (FunctionalUtils.clone_properties own clone rest) (fun rest' =>
               ret (if String.eqb key "__proto__" then rest' else (key, x') :: rest')))
        else FunctionalUtils.clone_properties own clone rest).
Proof. reflexivity. Qed.

Lemma respects_clone_properties :
  forall (own : string -> St bool) (clone : ref_value -> St ref_value) fields,
    (forall key, respects n (own key) (fun _ => True)) ->
    (forall x, respects n (clone x) (above n)) ->
    respects n (FunctionalUtils.clone_properties own clone fields)
             (Forall (fun kv => above n (snd kv))).
Proof.
  intros own clone fields Hown Hclone.
  induction fields as [|[key x] rest IH].
  - apply respects_ret. constructor.
  - rewrite clone_properties_step.
    apply (respects_bind _ _ _ _ _ (fun _ => True)); [apply Hown|].
    intros [|] _; [|exact IH].
    apply (respects_bind _ _ _ _ _ (above n)); [apply Hclone|]. intros x' Hx'.
    apply (respects_bind _ _ _ _ _ (Forall (fun kv => above n (snd kv)))); [exact IH|].
    intros rest' Hrest'. apply respects_ret.
    destruct (String.eqb key "__proto__"); [assumption | now constructor].
Qed.

(** [deepClone] creates objects and returns a new one (or the primitive it
    was given). *)
Lemma respects_deepClone_at :
  forall depth obj, respects n (FunctionalUtils.deepClone_at depth obj) (above n).
Proof.
  intros depth. induction depth as [|depth IH]; intros obj.
  - destruct obj; try (apply respects_ret; exact I). apply respects_throw.
  - destruct obj; try (apply respects_ret; exact I).
    intros h Hn. cbn [FunctionalUtils.deepClone_at].
    destruct (nth_error h l) as [[items|fields]|] eqn:Hcell.
    + apply (respects_bind _ _ _ _ _ (Forall (above n)));
        [|intros; apply respects_alloc|assumption].
      now apply respects_mapS.
    + apply (respects_bind _ _ _ _ _ (fun _ => True));
        [|intros; apply respects_alloc|assumption].
      eapply respects_weaken; [apply respects_clone_properties|auto].
      * intros key. apply respects_hasOwnProperty.
      * exact IH.
    + split; [apply keeps_refl|]. simpl.
      apply nth_error_None in Hcell. lia.
Qed.

Lemma respects_deepClone :
  forall obj, respects n (FunctionalUtils.deepClone obj) (above n).
Proof. intros. apply respects_deepClone_at. Qed.

(** Transform writes on the object it has made only. *)
Lemma respects_select_fields :
  forall record fields selectedFields,
    above n selectedFields ->
    respects n (TransformRule.select_fields record fields selectedFields) (fun _ => True).
Proof.
  intros record fields selectedFields Hsel.
  induction fields as [|field rest IH]; simpl.
  - now apply respects_ret.
  - apply (respects_bind _ _ _ _ _ (fun _ => True)); [apply respects_reading|].
    intros value _.
    apply (respects_bind _ _ _ _ _ (fun _ => True)); [|intros; exact IH].
    destruct (negb (is_undefined value)).
    + now apply respects_set_member.
    + now apply respects_ret.
Qed.

Lemma respects_compute_field :
  forall record result key computation,
    callable record ->
    above n result ->
    respects n (TransformRule.compute_field record result key computation) (fun _ => True).
Proof.
  intros record result key computation Hrecord Hresult.
  unfold TransformRule.compute_field.
  apply respects_try_catch; [|intros; now apply respects_set_member].
  apply (respects_bind _ _ _ _ _ (fun _ => True));
    [|intros; now apply respects_set_member].
  destruct computation;
    first [now apply functions_respect | apply respects_reading
          | now apply respects_ret].
Qed.

Lemma respects_compute_fields :
  forall record result entries,
    callable record ->
    above n result ->
    respects n (TransformRule.compute_fields record result entries) (fun _ => True).
Proof.
  intros record result entries Hrecord Hresult.
  induction entries as [|[key computation] rest IH]; simpl.
  - now apply respects_ret.
  - apply (respects_bind _ _ _ _ _ (fun _ => True)); [|intros; exact IH].
    now apply respects_compute_field.
Qed.

Lemma respects_rename_fields :
  forall result entries,
    above n result ->
    respects n (TransformRule.rename_fields result entries) (fun _ => True).
Proof.
  intros result entries Hresult.
  induction entries as [|[oldKey newKey] rest IH]; simpl.
  - now apply respects_ret.
  - apply (respects_bind _ _ _ _ _ (fun _ => True)); [|intros; exact IH].
    unfold TransformRule.rename_field.
    apply (respects_bind _ _ _ _ _ (fun _ => True)); [apply respects_hasOwnProperty|].
    intros [|] _; [|now apply respects_ret].
    apply (respects_bind _ _ _ _ _ (fun _ => True)); [apply respects_reading|].
    intros v _.
    apply (respects_bind _ _ _ _ _ (fun _ => True));
      [now apply respects_set_member | intros; now apply respects_delete_member].
Qed.

(** The record Transform returns is new (or a primitive). *)
Lemma respects_transformRecord :
  forall record config,
    callable record ->
    respects n (TransformRule.transformRecord record config) (above n).
Proof.
  intros record config Hrecord. unfold TransformRule.transformRecord.
  apply (respects_bind _ _ _ _ _ (above n)); [apply respects_deepClone|].
  intros clone Hclone.
  apply (respects_bind _ _ _ _ _ (above n)).
  { apply (respects_bind _ _ _ _ _ (fun _ => True)); [apply respects_lift|].
    intros fields _. destruct (Tree.truthy fields); [|now apply respects_ret].
    destruct fields; try (intros h Hh; split; [apply keeps_refl | exact I]).
    apply (respects_bind _ _ _ _ _ (above n)); [apply respects_alloc|].
    intros selected Hselected.
    apply (respects_bind _ _ _ _ _ (fun _ => True));
      [now apply respects_select_fields | intros; now apply respects_ret]. }
  intros result Hresult.
  apply (respects_bind _ _ _ _ _ (fun _ => True)).
  { destruct (Tree.truthy _); [|now apply respects_ret].
    apply (respects_bind _ _ _ _ _ (fun _ => True)); [apply respects_lift|].
    intros entries _. now apply respects_compute_fields. }
  intros _ _.
  apply (respects_bind _ _ _ _ _ (fun _ => True)).
  { destruct (Tree.truthy _); [|now apply respects_ret].
    apply (respects_bind _ _ _ _ _ (fun _ => True)); [apply respects_lift|].
    intros entries _. now apply respects_rename_fields. }
  intros _ _. now apply respects_ret.
Qed.

(** The records Transform makes of records it can call the functions on. *)
Lemma respects_map_transformRecord :
  forall config records,
    Forall callable records ->
    respects n (mapS (fun record => TransformRule.transformRecord record config) records)
             (Forall (above n)).
Proof.
  intros config records Hrecords.
  induction Hrecords as [|record rest Hrecord _ IH]; simpl.
  - apply respects_ret. constructor.
  - apply (respects_bind _ _ _ _ _ (above n)); [now apply respects_transformRecord|].
    intros y Hy.
    apply (respects_bind _ _ _ _ _ (Forall (above n))); [exact IH|]. intros ys Hys.
    apply respects_ret. now constructor.
Qed.

End store_rules.

Section function_provisos.
Import Store.
Context {host : Host}.

Lemma functions_keep_respect :
  forall n, functions_keep n ->
  forall f v, True -> respects n (call_function f v) (fun _ => True).
Proof.
  intros n Hfunctions f v _ h Hn. split.
  - now apply Hfunctions.
  - now destruct (snd (call_function f v h)).
Qed.

Lemma functions_keep_given_respect :
  forall n, functions_keep_given n ->
  forall f v, above n v -> respects n (call_function f v) (fun _ => True).
Proof.
  intros n Hfunctions f v Hv h Hn. split.
  - now apply Hfunctions.
  - now destruct (snd (call_function f v h)).
Qed.

End function_provisos.

Section store_arrays.
Import Store.
Context {host : Host}.

Lemma filterM_incl :
  forall (A : Type) (p : A -> outcome bool) l kept,
    Tree.BaseRule.filterM p l = Ok kept -> incl kept l.
Proof.
  induction l as [|x r IH]; simpl; intros kept H.
  - injection H as <-. apply incl_refl.
  - destruct (p x) as [b|e]; simpl in H; [|discriminate].
    destruct (Tree.BaseRule.filterM p r) as [r'|e]; simpl in H; [|discriminate].
    injection H as <-. specialize (IH r' eq_refl).
    destruct b.
    + apply incl_cons; [now left | now apply incl_tl].
    + now apply incl_tl.
Qed.

Lemma slice_incl :
  forall (A : Type) (l : list A) n k, incl (firstn n (skipn k l)) l.
Proof.
  intros A l n k x Hx.
  apply (In_nth_error) in Hx. destruct Hx as [i Hi].
  assert (Hin : In x (skipn k l)).
  { rewrite <- (firstn_skipn n (skipn k l)). apply in_or_app. left.
    eapply nth_error_In; eassumption. }
  rewrite <- (firstn_skipn k l). apply in_or_app. now right.
Qed.

Lemma Array_slice_incl :
  forall (A : Type) (platform : Platform) (l : list A) a b,
    incl (@Array_slice platform A l a b) l.
Proof. intros. unfold Array_slice. apply slice_incl. Qed.

(** Include, Exclude, Sort and Limit create one array, of records of the
    input. *)
Lemma include_same_records :
  forall data config h h' out,
    IncludeRule.execute data config h = (h', Ok out) -> same_records h data h' out.
Proof.
  intros data config h h' out. unfold IncludeRule.execute.
  destruct (elements h data) as [records|] eqn:Hdata; [|discriminate].
  destruct (Tree.BaseRule.filterM _ records) as [kept|e] eqn:Hkept; [|discriminate].
  unfold alloc. intros H. injection H as <- <-.
  exists records, kept. repeat split; auto.
  change (incl kept records). eapply filterM_incl; eassumption.
Qed.

Lemma exclude_same_records :
  forall data config h h' out,
    ExcludeRule.execute data config h = (h', Ok out) -> same_records h data h' out.
Proof.
  intros data config h h' out. unfold ExcludeRule.execute.
  destruct (elements h data) as [records|] eqn:Hdata; [|discriminate].
  destruct (Tree.BaseRule.filterM _ records) as [kept|e] eqn:Hkept; [|discriminate].
  unfold alloc. intros H. injection H as <- <-.
  exists records, kept. repeat split; auto.
  change (incl kept records). eapply filterM_incl; eassumption.
Qed.

Lemma sort_same_records :
  forall data config h h' out,
    SortRule.execute data config h = (h', Ok out) -> same_records h data h' out.
Proof.
  intros data config h h' out. unfold SortRule.execute.
  destruct (elements h data) as [records|] eqn:Hdata; [|discriminate].
  destruct (FunctionalUtils.sort _ records) as [sorted|e] eqn:Hsorted; [|discriminate].
  unfold alloc. intros H. injection H as <- <-.
  exists records, sorted. repeat split; auto.
  intros x Hx. apply sort_elements_permutation in Hsorted.
  now apply (Permutation_in _ (Permutation_sym Hsorted)).
Qed.

Lemma limit_same_records :
  forall data config h h' out,
    LimitRule.execute data config h = (h', Ok out) -> same_records h data h' out.
Proof.
  intros data config h h' out. unfold LimitRule.execute.
  destruct (elements h data) as [records|] eqn:Hdata; [|discriminate].
  match goal with
  | |- context [match ?c with Ok _ => _ | Throw _ => _ end] =>
      destruct c as [[count offset]|e]; [|discriminate]
  end.
  unfold alloc. intros H. injection H as <- <-.
  eexists records, _. repeat split; auto.
  unfold Tree.FunctionalUtils.pipe, Tree.FunctionalUtils.skip, Tree.FunctionalUtils.take.
  simpl. intros x Hx.
  apply Array_slice_incl in Hx. now apply Array_slice_incl in Hx.
Qed.

Lemma same_records_respects :
  forall n h data h' out,
    (n <= List.length h)%nat ->
    same_records h data h' out -> keeps n h h' /\ above n out.
Proof.
  intros n h data h' out Hn (records & kept & _ & -> & -> & _). split.
  - apply keeps_extends; [assumption | now exists [CArr kept]].
  - exact Hn.
Qed.

(** A rule that creates one array at most keeps every object. *)
Lemma respects_of_same_records :
  forall n (execute : ref_value -> value -> St ref_value) data config,
    (forall h h' out, execute data config h = (h', Ok out) -> same_records h data h' out) ->
    (forall h h' e, execute data config h = (h', Throw e) -> h' = h) ->
    respects n (execute data config) (above n).
Proof.
  intros n execute data config Hok Hthrow h Hn.
  destruct (execute data config h) as [h' [out|e]] eqn:Hrun; simpl.
  - exact (same_records_respects n h data h' out Hn (Hok _ _ _ Hrun)).
  - rewrite (Hthrow _ _ _ Hrun). split; [apply keeps_refl | exact I].
Qed.

(** A rule that creates one array of records of its input returns records
    that are none of the first [n] objects when those of its input are
    none. *)
Lemma frames_of_same_records :
  forall n (execute : ref_value -> value -> St ref_value) data config,
    (forall h h' out, execute data config h = (h', Ok out) -> same_records h data h' out) ->
    (forall h h' e, execute data config h = (h', Throw e) -> h' = h) ->
    frames n (fun h => records_above n h data) (execute data config) (array_above n).
Proof.
  intros n execute data config Hok Hthrow h Hn Hdata.
  destruct (execute data config h) as [h' [out|e]] eqn:Hrun; cbn [fst snd].
  - pose proof (Hok _ _ _ Hrun) as Hsame.
    destruct (same_records_respects n h data h' out Hn Hsame) as [Hkeep Hout].
    split; [exact Hkeep|]. split; [exact Hout|].
    destruct Hsame as (records & kept & Hrecords & -> & -> & Hincl).
    intros rs Hrs. unfold elements in Hrs.
    rewrite nth_error_app2 in Hrs by lia. rewrite Nat.sub_diag in Hrs.
    simpl in Hrs. injection Hrs as <-.
    specialize (Hdata records Hrecords). rewrite Forall_forall in *. auto.
  - rewrite (Hthrow _ _ _ Hrun). split; [apply keeps_refl | exact I].
Qed.

(** The four rules leave the store as it is when they throw. *)
Lemma include_throws_unchanged :
  forall data config h h' e,
    IncludeRule.execute data config h = (h', Throw e) -> h' = h.
Proof.
  intros data config h h' e. unfold IncludeRule.execute.
  destruct (elements h data); [|intros H; now injection H].
  destruct (Tree.BaseRule.filterM _ _); [discriminate | intros H; now injection H].
Qed.

Lemma exclude_throws_unchanged :
  forall data config h h' e,
    ExcludeRule.execute data config h = (h', Throw e) -> h' = h.
Proof.
  intros data config h h' e. unfold ExcludeRule.execute.
  destruct (elements h data); [|intros H; now injection H].
  destruct (Tree.BaseRule.filterM _ _); [discriminate | intros H; now injection H].
Qed.

Lemma sort_throws_unchanged :
  forall data config h h' e,
    SortRule.execute data config h = (h', Throw e) -> h' = h.
Proof.
  intros data config h h' e. unfold SortRule.execute.
  destruct (elements h data); [|intros H; now injection H].
  destruct (FunctionalUtils.sort _ _); [discriminate | intros H; now injection H].
Qed.

Lemma limit_throws_unchanged :
  forall data config h h' e,
    LimitRule.execute data config h = (h', Throw e) -> h' = h.
Proof.
  intros data config h h' e. unfold LimitRule.execute.
  destruct (elements h data); [|intros H; now injection H].
  match goal with
  | |- context [match ?c with Ok _ => _ | Throw _ => _ end] =>
      destruct c as [[count offset]|e']
  end; [discriminate | intros H; now injection H].
Qed.

Lemma respects_include :
  forall n data config, respects n (IncludeRule.execute data config) (above n).
Proof.
  intros n data config. apply respects_of_same_records.
  - apply include_same_records.
  - apply include_throws_unchanged.
Qed.

Lemma respects_exclude :
  forall n data config, respects n (ExcludeRule.execute data config) (above n).
Proof.
  intros n data config. apply respects_of_same_records.
  - apply exclude_same_records.
  - apply exclude_throws_unchanged.
Qed.

Lemma respects_sort :
  forall n data config, respects n (SortRule.execute data config) (above n).
Proof.
  intros n data config. apply respects_of_same_records.
  - apply sort_same_records.
  - apply sort_throws_unchanged.
Qed.

Lemma respects_limit :
  forall n data config, respects n (LimitRule.execute data config) (above n).
Proof.
  intros n data config. apply respects_of_same_records.
  - apply limit_same_records.
  - apply limit_throws_unchanged.
Qed.

End store_arrays.

Section store_pipeline.
Import Store.
Context {host : Host}.
Variable n : nat.
Hypothesis methods_kept : methods_keep n.

Section functions_kept.
Hypothesis functions_kept : functions_keep n.

(** Transform creates the array and the records it returns. *)
Lemma respects_transform :
  forall data config, respects n (TransformRule.execute data config) (above n).
Proof.
  intros data config. unfold TransformRule.execute.
  apply (respects_bind _ _ _ _ _ (fun _ => True)); [apply respects_reading|].
  intros records _.
  apply (respects_bind _ _ _ _ _ (Forall (above n))); [|intros; apply respects_alloc].
  apply (respects_map_transformRecord n methods_kept (fun _ => True)
           (functions_keep_respect n functions_kept)).
  apply Forall_forall. intros record _. exact I.
Qed.

Lemma transform_array :
  forall data config h h' out,
    (n <= List.length h)%nat ->
    TransformRule.execute data config h = (h', Ok out) ->
    exists records,
      (List.length h <= List.length h' - 1)%nat /\
      nth_error h' (List.length h' - 1) = Some (CArr records) /\
      out = RRef (List.length h' - 1) /\
      Forall (above n) records.
Proof.
  intros data config h h' out Hn. unfold TransformRule.execute, bind at 1, reading.
  destruct (elements h data) as [inputs|]; [|discriminate].
  unfold bind.
  assert (Hinputs : Forall (fun _ : ref_value => True) inputs)
    by (apply Forall_forall; intros record _; exact I).
  pose proof (respects_map_transformRecord n methods_kept (fun _ => True)
                (functions_keep_respect n functions_kept)
                config inputs Hinputs h Hn) as [Hkeep Hpost].
  destruct (mapS _ inputs h) as [h1 [rs|e]]; [|discriminate].
  simpl in Hpost. unfold alloc. intros H. injection H as <- <-.
  exists rs. rewrite length_app. simpl.
  replace (List.length h1 + 1 - 1)%nat with (List.length h1) by lia.
  destruct Hkeep as [Hlen _].
  repeat split; auto.
  rewrite nth_error_app2 by lia. now rewrite Nat.sub_diag.
Qed.

Lemma builtin_registry_respects :
  registry_respects n RuleRegistry.builtin_rules.
Proof.
  intros type r. unfold RuleRegistry.builtin_rules. cbn -[String.eqb].
  repeat match goal with
         | |- context [String.eqb ?k type] => destruct (String.eqb k type)
         end;
    intros H; try discriminate; injection H as <-; intros data config; simpl.
  - apply respects_include.
  - apply respects_exclude.
  - apply respects_sort.
  - apply respects_limit.
  - apply respects_transform.
Qed.

End functions_kept.

(** *** [processData]: the rules work on the clone *)

Section functions_kept_given.
Hypothesis functions_kept : functions_keep_given n.

(** Transform, given records that are none of the first [n] objects, keeps
    these objects: the functions are called on the records. *)
Lemma frames_transform :
  forall data config,
    frames n (fun h => records_above n h data) (TransformRule.execute data config)
           (array_above n).
Proof.
  intros data config h Hn Hdata.
  assert (Hrun : TransformRule.execute data config h
                 = match elements h data with
                   | Some records =>
                       bind (mapS (fun record => TransformRule.transformRecord record config)
                                  records)
                            (fun rs => alloc (CArr rs)) h
                   | None => (h, Error "Transform rule requires data to be an array")
                   end).
  { unfold TransformRule.execute. unfold bind at 1. unfold reading.
    now destruct (elements h data). }
  rewrite Hrun. clear Hrun.
  destruct (elements h data) as [records|] eqn:Hrecords;
    [|cbn [fst snd]; split; [apply keeps_refl | exact I]].
  apply (frames_bind _ _ n _ _ (fun _ => True) (fun _ rs => Forall (above n) rs));
    [| |assumption|exact I].
  - apply frames_of_respects.
    apply (respects_map_transformRecord n methods_kept (above n)
             (functions_keep_given_respect n functions_kept)).
    now apply Hdata.
  - intros rs h1 Hn1 Hrs. exact (frames_alloc_array n rs (fun _ => True) Hrs h1 Hn1 I).
Qed.

Lemma builtin_registry_frames :
  registry_frames n RuleRegistry.builtin_rules.
Proof.
  intros type r. unfold RuleRegistry.builtin_rules. cbn -[String.eqb].
  repeat match goal with
         | |- context [String.eqb ?k type] => destruct (String.eqb k type)
         end;
    intros H; try discriminate; injection H as <-; intros data config; simpl.
  - apply frames_of_same_records;
      [apply include_same_records | apply include_throws_unchanged].
  - apply frames_of_same_records;
      [apply exclude_same_records | apply exclude_throws_unchanged].
  - apply frames_of_same_records;
      [apply sort_same_records | apply sort_throws_unchanged].
  - apply frames_of_same_records;
      [apply limit_same_records | apply limit_throws_unchanged].
  - apply frames_transform.
Qed.

End functions_kept_given.

(** The clone is a new object, and its elements are new when it is an
    array. *)
Lemma frames_deepClone_at :
  forall depth obj,
    frames n (fun _ => True) (FunctionalUtils.deepClone_at depth obj) (array_above n).
Proof.
  intros depth obj.
  assert (Hprimitive : forall v,
            (forall l, v <> RRef l) -> frames n (fun _ => True) (ret v) (array_above n)).
  { intros v Hv. apply frames_ret. intros h _. split.
    - destruct v; try exact I. now elim (Hv l).
    - intros records Hrecords. destruct v; try discriminate. now elim (Hv l). }
  destruct obj; try (destruct depth; apply Hprimitive; discriminate).
  destruct depth as [|depth]; [apply frames_throw|].
  intros h Hn _. cbn [FunctionalUtils.deepClone_at].
  destruct (nth_error h l) as [[items|fields]|] eqn:Hcell.
  - apply (frames_bind _ _ n _ _ (fun _ => True) (fun _ items' => Forall (above n) items'));
      [| |assumption|exact I].
    + apply frames_of_respects. apply respects_mapS. intros x.
      now apply respects_deepClone_at.
    + intros items' h1 Hn1 Hitems'.
      exact (frames_alloc_array n items' (fun _ => True) Hitems' h1 Hn1 I).
  - apply (frames_bind _ _ n _ _ (fun _ => True) (fun _ _ => True));
      [| |assumption|exact I].
    + apply frames_of_respects.
      eapply respects_weaken; [apply respects_clone_properties|auto].
      * intros key. now apply respects_hasOwnProperty.
      * intros x. now apply respects_deepClone_at.
    + intros fields'. apply frames_alloc_object.
  - cbn [fst snd]. split; [apply keeps_refl|].
    apply nth_error_None in Hcell. split; [simpl; lia|].
    intros records Hrecords. unfold elements in Hrecords.
    assert (Hnone : nth_error h l = None) by now apply nth_error_None.
    rewrite Hnone in Hrecords. discriminate Hrecords.
Qed.

Section with_registry.
Variable rules : RuleRegistry.registry.
Hypothesis rules_frame : registry_frames n rules.

Lemma frames_executeRule :
  forall type data config,
    frames n (fun h => records_above n h data)
           (RuleRegistry.executeRule rules type data config) (array_above n).
Proof.
  intros type data config. unfold RuleRegistry.executeRule.
  destruct (RuleRegistry.getRule rules type) as [r|] eqn:Hr; [|apply frames_throw].
  apply (frames_bind _ _ _ _ _ _ (fun h _ => records_above n h data));
    [apply frames_lift|].
  intros validation. destruct (negb (isValid validation)); [apply frames_throw|].
  now apply (rules_frame type r).
Qed.

Lemma frames_execute_rules :
  forall entries result applied,
    frames n (fun h => array_above n h result)
           (DataProcessor.execute_rules rules entries result applied)
           (fun h ra => array_above n h (fst ra)).
Proof.
  induction entries as [|[type config] rest IH]; intros result applied; simpl.
  - apply frames_ret. auto.
  - apply (frames_bind _ _ _ _ _ _ (fun h ra => array_above n h (fst ra)));
      [|intros ra; apply IH].
    apply frames_try_catch.
    + apply (frames_bind _ _ _ _ _ _ (array_above n)).
      * eapply frames_weaken;
          [apply frames_executeRule | intros h [_ H]; exact H | auto].
      * intros result'.
        apply (frames_bind _ _ _ _ _ _ (fun h _ => array_above n h result'));
          [apply frames_lift|].
        intros p. apply frames_ret. auto.
    + intros e.
      apply (frames_bind _ _ _ _ _ _ (fun _ _ => True)); [apply frames_lift|].
      intros message. apply frames_throw.
Qed.

(** [processData] keeps the first [n] objects and returns a new array. *)
Lemma frames_processData :
  forall startTime endTime data condition,
    frames n (fun _ => True)
           (DataProcessor.processData rules startTime endTime data condition)
           (fun _ r => above n (result r)).
Proof.
  intros startTime endTime data condition. unfold DataProcessor.processData.
  apply frames_try_catch.
  - unfold DataProcessor.processData_try.
    apply (frames_bind _ _ _ _ _ _ (fun _ _ => True)); [apply frames_reading|].
    intros _. destruct (_ || _); [apply frames_throw|].
    apply (frames_bind _ _ _ _ _ _ (array_above n)); [apply frames_deepClone_at|].
    intros clone.
    apply (frames_bind _ _ _ _ _ _ (fun h _ => array_above n h clone));
      [apply frames_lift|].
    intros entries.
    apply (frames_bind _ _ _ _ _ _ (fun h ra => array_above n h (fst ra)));
      [apply frames_execute_rules|].
    intros ra.
    apply (frames_bind _ _ _ _ _ _ (fun h _ => array_above n h (fst ra)));
      [apply frames_reading|].
    intros counts. apply frames_ret. intros h [H _]. exact H.
  - intros e. unfold DataProcessor.processData_catch.
    apply (frames_bind _ _ _ _ _ _ (fun _ _ => True)); [apply frames_lift|].
    intros message.
    apply (frames_bind _ _ _ _ _ _ (array_above n));
      [apply frames_alloc_array; constructor|].
    intros empty.
    apply (frames_bind _ _ _ _ _ _ (fun h _ => array_above n h empty));
      [apply frames_reading|].
    intros inputCount. apply frames_ret. intros h [H _]. exact H.
Qed.

End with_registry.

End store_pipeline.

Section store_clone.
Import Store.
Context {host : Host}.

(** When [processData] returns a result without an error, the result is what
    the rules of the condition return, run one after the other on the clone of
    the data, in the store the clone left. *)
Lemma processData_runs_on_the_clone :
  forall rules startTime endTime data condition h h' r,
    DataProcessor.processData rules startTime endTime data condition h = (h', Ok r) ->
    error r = None ->
    exists h1 clone entries,
      FunctionalUtils.deepClone data h = (h1, Ok clone) /\
      Tree.DataProcessor.ruleEntries (RuleRegistry.rules_of rules) condition = Ok entries /\
      DataProcessor.execute_rules rules entries clone [] h1
      = (h', Ok (result r, appliedRules r)).
Proof.
  intros rules startTime endTime data condition h h' r Hrun Herror.
  unfold DataProcessor.processData, try_catch in Hrun.
  destruct (DataProcessor.processData_try rules _ data condition h) as [h0 [r0|e0]]
    eqn:Htry.
  - injection Hrun as <- <-. unfold DataProcessor.processData_try in Htry.
    unfold bind at 1, reading in Htry.
    destruct (elements h data); [|discriminate].
    destruct (_ || _); [discriminate|].
    unfold bind at 1 in Htry.
    destruct (FunctionalUtils.deepClone data h) as [h1 [clone|e]] eqn:Hclone;
      [|discriminate].
    unfold bind at 1, lift in Htry.
    destruct (Tree.DataProcessor.ruleEntries _ condition) as [entries|e]; [|discriminate].
    unfold bind at 1 in Htry.
    destruct (DataProcessor.execute_rules rules entries clone [] h1)
      as [h2 [[res applied]|e]] eqn:Hrules; [|discriminate].
    unfold bind, reading, ret in Htry. cbn [fst snd] in Htry.
    destruct (is_nullish res); [discriminate|].
    injection Htry as <- <-. exists h1, clone, entries. auto.
  - exfalso. unfold DataProcessor.processData_catch, bind, lift, alloc, reading, ret in Hrun.
    destruct (Tree.DataProcessor.error_message e0); [|discriminate].
    injection Hrun as _ <-. discriminate Herror.
Qed.

(** *** The clone shares nothing with its original *)

Lemma creates_ret :
  forall (A : Type) k (a : A) (Q : A -> Prop), Q a -> creates k (ret a) Q.
Proof.
  intros A k a Q Ha h Hk. exists []. simpl. rewrite app_nil_r.
  repeat split; auto. constructor.
Qed.

Lemma creates_bind :
  forall (A B : Type) k (m : St A) (f : A -> St B) (P : A -> Prop) (Q : B -> Prop),
    creates k m P ->
    (forall a, P a -> creates k (f a) Q) ->
    creates k (bind m f) Q.
Proof.
  intros A B k m f P Q Hm Hf h Hk. unfold bind.
  destruct (Hm h Hk) as (new1 & Hstore & Hclosed & Hpost).
  destruct (m h) as [h1 [a|e]]; simpl in *; subst h1.
  - assert (Hk1 : (k <= List.length (h ++ new1))%nat) by (rewrite length_app; lia).
    destruct (Hf a Hpost (h ++ new1) Hk1) as (new2 & Hstore2 & Hclosed2 & Hpost2).
    exists (new1 ++ new2). rewrite Hstore2, app_assoc.
    repeat split; auto. now apply Forall_app.
  - exists new1. repeat split; auto.
Qed.

Lemma creates_mapS :
  forall (A B : Type) k (f : A -> St B) (P : B -> Prop) l,
    (forall x, creates k (f x) P) ->
    creates k (mapS f l) (Forall P).
Proof.
  intros A B k f P l Hf. induction l as [|x r IH]; simpl.
  - now apply creates_ret.
  - apply (creates_bind _ _ _ _ _ P); [apply Hf|]. intros y Hy.
    apply (creates_bind _ _ _ _ _ (Forall P)); [exact IH|]. intros ys Hys.
    apply creates_ret. now constructor.
Qed.

Lemma creates_alloc :
  forall k c, Forall (above k) (cell_values c) -> creates k (alloc c) (above k).
Proof.
  intros k c Hc h Hk. exists [c]. unfold alloc. simpl.
  repeat split; auto. now repeat constructor.
Qed.

(** The copy of plain data creates objects only, none with a reference to
    an object there was. *)
Lemma creates_copy_at :
  forall k depth obj, creates k (copy_at depth obj) (above k).
Proof.
  intros k depth. induction depth as [|depth IH]; intros obj.
  - destruct obj; try (apply creates_ret; exact I).
    intros h Hk. exists []. simpl. rewrite app_nil_r. repeat split; auto. constructor.
  - destruct obj; try (apply creates_ret; exact I).
    intros h Hk. simpl.
    destruct (nth_error h l) as [[items|fields]|] eqn:Hcell.
    + apply (creates_bind _ _ _ _ _ (Forall (above k)));
        [now apply creates_mapS | intros; now apply creates_alloc | assumption].
    + apply (creates_bind _ _ _ _ _ (Forall (fun kv => above k (snd kv))));
        [| intros fields' Hfields'; apply creates_alloc; simpl;
           now apply Forall_map | assumption].
      apply creates_mapS. intros kv.
      apply (creates_bind _ _ _ _ _ (above k)); [apply IH|].
      intros v Hv. now apply creates_ret.
    + exists []. simpl. rewrite app_nil_r. repeat split; [constructor|].
      apply nth_error_None in Hcell. lia.
Qed.

(** The content of a value does not change when objects are added to the
    store. *)
Lemma content_extends :
  forall depth h new v t,
    content depth h v = Some t -> content depth (h ++ new) v = Some t.
Proof.
  induction depth as [|depth IH]; intros h new v t Hv;
    destruct v; simpl in *; try assumption; try discriminate.
  destruct (nth_error h l) as [c|] eqn:Hcell; [|discriminate].
  rewrite nth_error_app1 by (apply nth_error_Some; congruence).
  rewrite Hcell. destruct c as [items|fields].
  - assert (Hitems : forall ts,
              all_some (map (content depth h) items) = Some ts ->
              all_some (map (content depth (h ++ new)) items) = Some ts).
    { clear Hv Hcell. induction items as [|x r IHr]; simpl; intros ts Hts; [assumption|].
      destruct (content depth h x) as [tx|] eqn:Hx; [|discriminate].
      rewrite (IH h new x tx Hx).
      destruct (all_some (map (content depth h) r)) as [tr|]; [|discriminate].
      now rewrite (IHr tr eq_refl). }
    destruct (all_some (map (content depth h) items)) as [ts|]; [|discriminate].
    now rewrite (Hitems ts eq_refl).
  - assert (Hfields : forall ts,
              all_some (map (fun kv => option_map (pair (fst kv))
                                         (content depth h (snd kv))) fields) = Some ts ->
              all_some (map (fun kv => option_map (pair (fst kv))
                                         (content depth (h ++ new) (snd kv))) fields)
              = Some ts).
    { clear Hv Hcell. induction fields as [|[k x] r IHr]; simpl; intros ts Hts;
        [assumption|].
      destruct (content depth h x) as [tx|] eqn:Hx; [|discriminate].
      rewrite (IH h new x tx Hx). simpl in *.
      destruct (all_some (map _ r)) as [tr|]; [|discriminate].
      now rewrite (IHr tr eq_refl). }
    destruct (all_some (map _ fields)) as [ts|]; [|discriminate].
    now rewrite (Hfields ts eq_refl).
Qed.

Lemma contents_extend :
  forall depth h new items ts,
    all_some (map (content depth h) items) = Some ts ->
    all_some (map (content depth (h ++ new)) items) = Some ts.
Proof.
  intros depth h new items. induction items as [|y r IHy]; simpl; intros ts Hc;
    [assumption|].
  destruct (content depth h y) as [ty|] eqn:Hy; [|discriminate].
  rewrite (content_extends _ _ new _ _ Hy).
  destruct (all_some (map (content depth h) r)) as [tr|]; [|discriminate].
  now rewrite (IHy tr eq_refl).
Qed.

Lemma field_contents_extend :
  forall depth h new (fields : list (string * ref_value)) ts,
    all_some (map (fun kv => option_map (pair (fst kv)) (content depth h (snd kv)))
                  fields) = Some ts ->
    all_some (map (fun kv => option_map (pair (fst kv))
                               (content depth (h ++ new) (snd kv))) fields) = Some ts.
Proof.
  intros depth h new fields. induction fields as [|[k y] r IHy]; simpl; intros ts Hc;
    [assumption|].
  destruct (content depth h y) as [ty|] eqn:Hy; [|discriminate].
  rewrite (content_extends _ _ new _ _ Hy). simpl in *.
  destruct (all_some (map _ r)) as [tr|]; [|discriminate].
  now rewrite (IHy tr eq_refl).
Qed.

Lemma copy_at_extends :
  forall depth obj h, extends h (fst (copy_at depth obj h)).
Proof.
  intros depth obj h.
  destruct (creates_copy_at 0 depth obj h (Nat.le_0_l _)) as (new & Hstore & _).
  now exists new.
Qed.

(** The copy has the content of its original. *)
Lemma copy_at_content :
  forall depth obj h h' clone t,
    copy_at depth obj h = (h', Ok clone) ->
    content depth h obj = Some t ->
    content depth h' clone = Some t.
Proof.
  induction depth as [|depth IH]; intros obj h h' clone t Hrun Ht.
  - destruct obj; simpl in *; try discriminate;
      injection Hrun as <- <-; assumption.
  - destruct obj; try (simpl in *; injection Hrun as <- <-; assumption).
    simpl in Hrun, Ht.
    destruct (nth_error h l) as [[items|fields]|] eqn:Hcell; [| |discriminate].
    + unfold bind in Hrun.
      destruct (mapS (copy_at depth) items h)
        as [h1 [items'|e]] eqn:Hmap; [|discriminate].
      unfold alloc in Hrun. injection Hrun as <- <-.
      destruct (all_some (map (content depth h) items)) as [ts|] eqn:Hts; [|discriminate].
      simpl in Ht. injection Ht as <-.
      assert (Hcopy : all_some (map (content depth h1) items') = Some ts /\ extends h h1).
      { clear Hcell. revert h h1 items' ts Hmap Hts.
        induction items as [|x r IHr]; intros h h1 items' ts Hmap Hts; simpl in *.
        - injection Hmap as <- <-. injection Hts as <-. split; [reflexivity|].
          exists []. now rewrite app_nil_r.
        - unfold bind in Hmap.
          destruct (copy_at depth x h) as [hx [x'|e]] eqn:Hx;
            [|discriminate].
          destruct (mapS (copy_at depth) r hx)
            as [hr [r'|e]] eqn:Hr; [|discriminate].
          injection Hmap as <- <-.
          destruct (content depth h x) as [tx|] eqn:Hcx; [|discriminate].
          destruct (all_some (map (content depth h) r)) as [tr|] eqn:Hcr; [|discriminate].
          simpl in Hts. injection Hts as <-.
          pose proof (copy_at_extends depth x h) as [newx Hnewx].
          rewrite Hx in Hnewx. simpl in Hnewx. subst hx.
          destruct (IHr _ _ _ _ Hr (contents_extend _ _ newx _ _ Hcr))
            as [Hr' [newr Hnewr]].
          subst hr. split.
          + simpl.
            rewrite (content_extends _ _ newr _ _ (IH _ _ _ _ _ Hx Hcx)).
            now rewrite Hr'.
          + exists (newx ++ newr). now rewrite app_assoc. }
      destruct Hcopy as [Hcopy _].
      simpl. rewrite nth_error_app2 by lia. rewrite Nat.sub_diag. simpl.
      now rewrite (contents_extend _ _ [CArr items'] _ _ Hcopy).
    + unfold bind in Hrun.
      destruct (mapS _ fields h) as [h1 [fields'|e]] eqn:Hmap; [|discriminate].
      unfold alloc in Hrun. injection Hrun as <- <-.
      destruct (all_some (map (fun kv => option_map (pair (fst kv))
                                           (content depth h (snd kv))) fields))
        as [ts|] eqn:Hts; [|discriminate].
      simpl in Ht. injection Ht as <-.
      assert (Hcopy : all_some (map (fun kv => option_map (pair (fst kv))
                                                 (content depth h1 (snd kv))) fields')
                      = Some ts /\ extends h h1).
      { clear Hcell. revert h h1 fields' ts Hmap Hts.
        induction fields as [|[k x] r IHr]; intros h h1 fields' ts Hmap Hts; simpl in *.
        - injection Hmap as <- <-. injection Hts as <-. split; [reflexivity|].
          exists []. now rewrite app_nil_r.
        - unfold bind in Hmap. unfold bind in IHr.
          destruct (copy_at depth x h) as [hx [x'|e]] eqn:Hx;
            [|discriminate].
          simpl in Hmap.
          destruct (mapS _ r hx) as [hr [r'|e]] eqn:Hr; [|discriminate].
          injection Hmap as <- <-.
          destruct (content depth h x) as [tx|] eqn:Hcx; [|discriminate].
          simpl in Hts.
          destruct (all_some (map _ r)) as [tr|] eqn:Hcr; [|discriminate].
          simpl in Hts. injection Hts as <-.
          pose proof (copy_at_extends depth x h) as [newx Hnewx].
          rewrite Hx in Hnewx. simpl in Hnewx. subst hx.
          destruct (IHr _ _ _ _ Hr (field_contents_extend _ _ newx _ _ Hcr))
            as [Hr' [newr Hnewr]].
          subst hr. split.
          + simpl.
            rewrite (content_extends _ _ newr _ _ (IH _ _ _ _ _ Hx Hcx)). simpl.
            now rewrite Hr'.
          + exists (newx ++ newr). now rewrite app_assoc. }
      destruct Hcopy as [Hcopy _].
      simpl. rewrite nth_error_app2 by lia. rewrite Nat.sub_diag. simpl.
      now rewrite (field_contents_extend _ _ [CObj fields'] _ _ Hcopy).
Qed.

(** The copy of a value whose content is within the depth returns. *)
Lemma copy_at_returns :
  forall depth obj h t,
    content depth h obj = Some t ->
    exists h' clone, copy_at depth obj h = (h', Ok clone).
Proof.
  induction depth as [|depth IH]; intros obj h t Ht.
  - destruct obj; simpl in *; try discriminate; eexists; eexists; reflexivity.
  - destruct obj; try (simpl; eexists; eexists; reflexivity).
    simpl in Ht. cbn [copy_at].
    destruct (nth_error h l) as [[items|fields]|] eqn:Hcell; [| |discriminate].
    + destruct (all_some (map (content depth h) items)) as [ts|] eqn:Hts; [|discriminate].
      assert (Hmap : exists h1 items', mapS (copy_at depth) items h = (h1, Ok items')).
      { clear Hcell Ht. revert h ts Hts.
        induction items as [|x r IHr]; intros h ts Hts; simpl in *.
        - eexists. eexists. reflexivity.
        - destruct (content depth h x) as [tx|] eqn:Hcx; [|discriminate].
          destruct (all_some (map (content depth h) r)) as [tr|] eqn:Hcr; [|discriminate].
          destruct (IH x h tx Hcx) as (hx & x' & Hx).
          pose proof (copy_at_extends depth x h) as [newx Hnewx].
          rewrite Hx in Hnewx. simpl in Hnewx. subst hx.
          destruct (IHr _ _ (contents_extend _ _ newx _ _ Hcr)) as (hr & r' & Hr).
          unfold bind. rewrite Hx, Hr. eexists. eexists. reflexivity. }
      destruct Hmap as (h1 & items' & Hmap). unfold bind. rewrite Hmap.
      eexists. eexists. reflexivity.
    + destruct (all_some (map (fun kv => option_map (pair (fst kv))
                                           (content depth h (snd kv))) fields))
        as [ts|] eqn:Hts; [|discriminate].
      assert (Hmap : exists h1 fields',
                 mapS (fun kv => bind (copy_at depth (snd kv)) (fun v => ret (fst kv, v)))
                      fields h = (h1, Ok fields')).
      { clear Hcell Ht. revert h ts Hts.
        induction fields as [|[k x] r IHr]; intros h ts Hts; simpl in *.
        - eexists. eexists. reflexivity.
        - destruct (content depth h x) as [tx|] eqn:Hcx; [|discriminate].
          simpl in Hts.
          destruct (all_some (map _ r)) as [tr|] eqn:Hcr; [|discriminate].
          destruct (IH x h tx Hcx) as (hx & x' & Hx).
          pose proof (copy_at_extends depth x h) as [newx Hnewx].
          rewrite Hx in Hnewx. simpl in Hnewx. subst hx.
          destruct (IHr _ _ (field_contents_extend _ _ newx _ _ Hcr)) as (hr & r' & Hr).
          unfold bind in *. rewrite Hx. unfold ret at 1. rewrite Hr.
          eexists. eexists. reflexivity. }
      destruct Hmap as (h1 & fields' & Hmap). unfold bind in *. rewrite Hmap.
      eexists. eexists. reflexivity.
Qed.

(** *** On plain data [deepClone] is the copy *)

Lemma all_some_In :
  forall (A B : Type) (f : A -> option B) l ts,
    all_some (map f l) = Some ts ->
    forall x, In x l -> exists t, f x = Some t /\ In t ts.
Proof.
  intros A B f. induction l as [|y r IH]; intros ts Hts x Hx; [contradiction|].
  simpl in Hts. destruct (f y) as [ty|] eqn:Hy; [|discriminate].
  destruct (all_some (map f r)) as [tr|] eqn:Hr; [|discriminate].
  simpl in Hts. injection Hts as <-. destruct Hx as [->|Hx].
  - exists ty. split; [assumption | now left].
  - destruct (IH tr eq_refl x Hx) as (t & Ht & Hin). exists t. split; [assumption | now right].
Qed.

Section plain_clone.
Variable depth : nat.
Hypothesis plain_below :
  forall obj h t,
    content depth h obj = Some t -> names_free t = true ->
    FunctionalUtils.deepClone_at depth obj h = copy_at depth obj h.

Lemma plain_in_extends :
  forall h new x, plain_in depth h x -> plain_in depth (h ++ new) x.
Proof.
  intros h new x (t & Ht & Hfree). exists t. split; [|assumption].
  now apply content_extends.
Qed.

Lemma mapS_deepClone_plain :
  forall items h,
    (forall x, In x items -> plain_in depth h x) ->
    mapS (FunctionalUtils.deepClone_at depth) items h = mapS (copy_at depth) items h.
Proof.
  induction items as [|x r IH]; intros h Hplain; [reflexivity|].
  destruct (Hplain x (or_introl eq_refl)) as (tx & Hx & Hfree).
  cbn [mapS]. unfold bind. rewrite (plain_below x h tx Hx Hfree).
  destruct (copy_at depth x h) as [h1 [x'|e]] eqn:Hcopy; [|reflexivity].
  pose proof (copy_at_extends depth x h) as [new Hnew].
  rewrite Hcopy in Hnew. simpl in Hnew. subst h1.
  rewrite IH; [reflexivity|].
  intros y Hy. apply plain_in_extends. apply Hplain. now right.
Qed.

Lemma clone_properties_plain :
  forall l fields rest h,
    nth_error h l = Some (CObj fields) ->
    assoc "hasOwnProperty" fields = None ->
    (forall k x, In (k, x) rest ->
       assoc k fields <> None /\ inherited k = false /\ plain_in depth h x) ->
    FunctionalUtils.clone_properties (hasOwnProperty "obj" (RRef l))
      (FunctionalUtils.deepClone_at depth) rest h
    = mapS (fun kv => bind (copy_at depth (snd kv)) (fun v => ret (fst kv, v))) rest h.
Proof.
  intros l fields. induction rest as [|[k x] rest IH]; intros h Hcell Hmethod Hrest;
    [reflexivity|].
  destruct (Hrest k x (or_introl eq_refl)) as (Hown & Hk & (tx & Hx & Hfree)).
  rewrite clone_properties_step. cbn [mapS fst snd].
  unfold bind at 1. unfold hasOwnProperty at 1. rewrite Hcell, Hmethod.
  cbn [own_property]. rewrite Hcell.
  destruct (assoc k fields) as [y|]; [|now elim Hown].
  unfold bind. rewrite (plain_below x h tx Hx Hfree).
  destruct (copy_at depth x h) as [h1 [x'|e]] eqn:Hcopy; [|reflexivity].
  pose proof (copy_at_extends depth x h) as [new Hnew].
  rewrite Hcopy in Hnew. simpl in Hnew. subst h1.
  unfold bind in IH. rewrite IH.
  - unfold ret.
    destruct (mapS _ rest (h ++ new)) as [h2 [rest'|e]]; [|reflexivity].
    destruct (String.eqb_spec k "__proto__") as [->|_]; [discriminate Hk | reflexivity].
  - rewrite nth_error_app1; [assumption|]. apply nth_error_Some. congruence.
  - assumption.
  - intros k0 x0 Hin. destruct (Hrest k0 x0 (or_intror Hin)) as (H1 & H2 & H3).
    split; [assumption|]. split; [assumption|]. now apply plain_in_extends.
Qed.

End plain_clone.

Lemma deepClone_at_plain :
  forall depth obj h t,
    content depth h obj = Some t -> names_free t = true ->
    FunctionalUtils.deepClone_at depth obj h = copy_at depth obj h.
Proof.
  induction depth as [|depth IH]; intros obj h t Ht Hfree; destruct obj; try reflexivity.
  cbn [FunctionalUtils.deepClone_at copy_at]. cbn [content] in Ht.
  destruct (nth_error h l) as [[items|fields]|] eqn:Hcell; [| |reflexivity].
  - destruct (all_some (map (content depth h) items)) as [ts|] eqn:Hts; [|discriminate].
    simpl in Ht. injection Ht as <-.
    unfold bind. rewrite (mapS_deepClone_plain depth IH items h); [reflexivity|].
    intros x Hx. destruct (all_some_In _ _ _ _ _ Hts x Hx) as (tx & Hcx & Hin).
    exists tx. split; [assumption|]. eapply names_free_item; eassumption.
  - destruct (all_some (map (fun kv => option_map (pair (fst kv))
                                         (content depth h (snd kv))) fields))
      as [ts|] eqn:Hts; [|discriminate].
    simpl in Ht. injection Ht as <-.
    assert (Hfields : forall k x, In (k, x) fields ->
              inherited k = false /\
              exists tx, content depth h x = Some tx /\ names_free tx = true).
    { intros k x Hin. destruct (all_some_In _ _ _ _ _ Hts (k, x) Hin) as (kt & Hkt & Hts').
      cbn [fst snd] in Hkt. destruct (content depth h x) as [tx|]; [|discriminate].
      simpl in Hkt. injection Hkt as <-.
      destruct (names_free_field _ _ _ Hfree Hts') as [Hk Hx].
      split; [assumption|]. now exists tx. }
    unfold bind. rewrite (clone_properties_plain depth IH l fields fields h Hcell);
      [reflexivity | |].
    + destruct (assoc "hasOwnProperty" fields) as [m|] eqn:Hm; [|reflexivity].
      apply assoc_Some_In in Hm. destruct (Hfields _ _ Hm) as [Hk _]. discriminate Hk.
    + intros k x Hin. destruct (Hfields k x Hin) as [Hk Hx].
      split; [|split; assumption].
      intros Hnone. apply assoc_None_keys in Hnone. apply Hnone.
      now apply (in_map fst) in Hin.
Qed.

(** The clone of plain data: [deepClone] returns new objects, none of them
    with a reference to an object of the caller, that stand for the tree the
    data stands for. *)
Lemma deepClone_of_plain_data :
  forall data h t,
    content stack_limit h data = Some t -> names_free t = true ->
    exists h' clone,
      FunctionalUtils.deepClone data h = (h', Ok clone) /\
      (exists new, h' = h ++ new /\ isolated h new /\ fresh h clone) /\
      content stack_limit h' clone = Some t.
Proof.
  intros data h t Ht Hfree. unfold FunctionalUtils.deepClone.
  rewrite (deepClone_at_plain _ _ _ _ Ht Hfree).
  destruct (copy_at_returns _ _ _ _ Ht) as (h' & clone & Hrun).
  exists h', clone. split; [assumption|]. split.
  - destruct (creates_copy_at (List.length h) stack_limit data h (le_n _))
      as (new & Hstore & Hclosed & Hpost).
    rewrite Hrun in Hstore, Hpost. simpl in *. exists new. auto.
  - eapply copy_at_content; eassumption.
Qed.

End store_clone.

Section frame_claim.
Import Store.
Context {host : Host}.


End frame_claim.


(** The provisos hold of the host whose functions write on the record they
    are given: its methods only read, and its functions change no other
    object than their argument. *)
Lemma writing_host_methods : forall n, @methods_keep writing_host n.
Proof. intros n f this arg h Hn. apply keeps_refl. Qed.

Lemma writing_host_functions : forall n, @functions_keep_given writing_host n.
Proof.
  intros n f v h Hn Hv.
  assert (Hcall : respects n (@Store.call_function writing_host f v) (fun _ => True)).
  { apply (respects_bind _ _ _ _ _ (fun _ => True)).
    - now apply respects_set_member.
    - intros _ _. now apply respects_ret. }
  exact (proj1 (Hcall h Hn)).
Qed.


(** The run of the witness: the function has written on the record of the
    clone (the object 2), the record of the caller (the object 0) is what it
    was, and the result is a new array of a new record. *)
Example processData_with_writing_function :
  let condition :=
    VObj [("include", VObj [("status", VStr "active")]);
          ("transform", VObj [("computed", VObj [("state", VFun 0)])])] in
  let run := @Store.DataProcessor.processData writing_host
               (@Store.RuleRegistry.builtin_rules writing_host) 0 1
               (Store.RRef 1) condition sample_store in
  fst run
  = sample_store ++
    [Store.CObj [("status", Store.RStr "active"); ("seen", Store.RBool true)];
     Store.CArr [Store.RRef 2];
     Store.CArr [Store.RRef 2];
     Store.CObj [("status", Store.RStr "active"); ("state", Store.RUndefined)];
     Store.CArr [Store.RRef 5]] /\
  (exists r, snd run = Ok r /\ Store.result r = Store.RRef 6).
Proof.
  simpl. split; [reflexivity|]. eexists. split; reflexivity.
Qed.

(** On the sample host, whose functions only read: the record of the caller
    is untouched, and the result is a new array of a new record that has the
    computed field. *)
Example processData_on_sample_store :
  let condition :=
    VObj [("include", VObj [("status", VStr "active")]);
          ("transform", VObj [("computed", VObj [("state", VFun 0)])])] in
  let run := @Store.DataProcessor.processData sample_host
               (@Store.RuleRegistry.builtin_rules sample_host) 0 1
               (Store.RRef 1) condition sample_store in
  fst run
  = sample_store ++
    [Store.CObj [("status", Store.RStr "active")];
     Store.CArr [Store.RRef 2];
     Store.CArr [Store.RRef 2];
     Store.CObj [("status", Store.RStr "active"); ("state", Store.RStr "active")];
     Store.CArr [Store.RRef 5]] /\
  (exists r, snd run = Ok r /\ Store.result r = Store.RRef 6).
Proof.
  simpl. split; [reflexivity|]. eexists. split; reflexivity.
Qed.

(** A method [hasOwnProperty] of a record that writes on the record changes
    the record of the caller: [deepClone] calls it on the data itself.  The
    condition on the methods is needed. *)
Example processData_with_writing_method :
  fst (@Store.DataProcessor.processData writing_methods
         (@Store.RuleRegistry.builtin_rules writing_methods) 0 1
         (Store.RRef 1) (VObj [])
         [Store.CObj [("hasOwnProperty", Store.RFun 0)]; Store.CArr [Store.RRef 0]])
  = [ Store.CObj [("hasOwnProperty", Store.RFun 0); ("seen", Store.RBool true)];
      Store.CArr [Store.RRef 0];
      Store.CObj [("hasOwnProperty", Store.RFun 0)];
      Store.CArr [Store.RRef 2] ].
Proof. reflexivity. Qed.

(** ** The witnesses of the orchestrator *)

Lemma processData_never_throws_witness :
  let rules := [("throwing", throwing_rule)] in
  exists console r,
    @DataProcessor.processData sample_platform rules 0 1 (VArr [VNum 1])
      (VObj [("throwing", VNum 0)])
    = (console, Ok r) /\
    failed_with r "Cannot read properties of null (reading 'message')".
Proof.
  intros rules.
  assert (Hclone : forall v,
            @FunctionalUtils.deepClone sample_platform (VArr [VNum 1]) = Throw (JsThrow v) ->
            is_nullish v = false) by (intros v H; discriminate H).
  assert (Hthrown : forall type v config thrown,
            snd (RuleRegistry.executeRule rules type v config)
            = Throw thrown ->
            plain_thrown thrown).
  { intros type v config thrown H. unfold RuleRegistry.executeRule in H.
    cbn [rules RuleRegistry.getRule RuleRegistry.Map_get] in H.
    destruct (String.eqb "throwing" type); cbn in H; injection H as <-; exact I || reflexivity. }
  destruct (@processData_never_throws sample_platform rules 0%Q 1%Q (VArr [VNum 1])
              (VObj [("throwing", VNum 0)]) Hclone
              (fun _ _ type config _ _ v _ thrown _ _ _ => Hthrown type v config thrown))
    as (console & r & Hrun & _ & _ & _ & Hstage & _).
  exists console, r. split; [exact Hrun|].
  exact (proj1 (Hstage (VArr [VNum 1]) [] "throwing" (VNum 0) [] [] (VArr [VNum 1]) []
                  (JsThrow VNull)
                  eq_refl eq_refl eq_refl eq_refl eq_refl eq_refl eq_refl)).
Defined.

(** C1, as stated: [processData] throws when the clone it starts with throws
    [null].  The record has a method [hasOwnProperty] that throws [null];
    [deepClone] calls it, the catch block reads [error.message] of [null], and
    the [TypeError] of that read leaves [processData]. *)
Lemma processData_throws_with_throwing_hasOwnProperty :
  @call_method throwing_methods 0 (VObj [("hasOwnProperty", VFun 0)]) (VStr "hasOwnProperty")
  = Throw (JsThrow VNull) /\
  @DataProcessor.processData throwing_methods (@RuleRegistry.builtin_rules throwing_methods)
    0 1 (VArr [VObj [("hasOwnProperty", VFun 0)]]) (VObj [])
  = ([], TypeError "Cannot read properties of null (reading 'message')").
Proof. split; reflexivity. Qed.

(** ** Export *)

Section export.
Context {platform : Platform}.

Lemma Set_add_In :
  forall s key k, In k (DataProcessor.Set_add s key) <-> In k s \/ k = key.
Proof.
  intros s key k. unfold DataProcessor.Set_add.
  destruct (existsb (String.eqb key) s) eqn:Hmem.
  - split; [auto|]. intros [H | ->]; [assumption|].
    apply existsb_exists in Hmem. destruct Hmem as (x & Hx & Heq).
    apply String.eqb_eq in Heq. now subst.
  - rewrite in_app_iff. simpl. intuition.
Qed.

Lemma Set_add_NoDup :
  forall s key, NoDup s -> NoDup (DataProcessor.Set_add s key).
Proof.
  intros s key Hs. unfold DataProcessor.Set_add.
  destruct (existsb (String.eqb key) s) eqn:Hmem; [assumption|].
  apply NoDup_app; [assumption | repeat constructor; intros [] | ].
  intros x Hx [Heq | []]. subst x.
  assert (Hex : existsb (String.eqb key) s = true).
  { apply existsb_exists. exists key. split; [assumption | apply String.eqb_refl]. }
  congruence.
Qed.

Lemma fold_Set_add :
  forall keys s,
    (forall k, In k (fold_left DataProcessor.Set_add keys s) <-> In k s \/ In k keys) /\
    (NoDup s -> NoDup (fold_left DataProcessor.Set_add keys s)).
Proof.
  induction keys as [|key rest IH]; intros s; simpl.
  - split; [intros k; tauto | auto].
  - destruct (IH (DataProcessor.Set_add s key)) as [Hin Hnodup]. split.
    + intros k. rewrite Hin, Set_add_In. intuition.
    + intros Hs. apply Hnodup. now apply Set_add_NoDup.
Qed.

(** The header of the CSV names every field of every record once: the
    fields are collected over all the records. *)
Lemma collect_fields_union :
  forall records,
    Forall is_object records ->
    NoDup (DataProcessor.collect_fields records) /\
    forall k, In k (DataProcessor.collect_fields records) <->
              exists fields, In (VObj fields) records /\ In k (map fst fields).
Proof.
  intros records Hrecords. unfold DataProcessor.collect_fields.
  assert (Hgen : forall s,
    (NoDup s -> NoDup (fold_left
       (fun fields record =>
          if String.eqb (typeof record) "object"
             && negb (BaseRule.strict_equals record VNull)
          then match Object_keys record with
               | Ok keys => fold_left DataProcessor.Set_add keys fields
               | Throw _ => fields
               end
          else fields) records s)) /\
    forall k, In k (fold_left
       (fun fields record =>
          if String.eqb (typeof record) "object"
             && negb (BaseRule.strict_equals record VNull)
          then match Object_keys record with
               | Ok keys => fold_left DataProcessor.Set_add keys fields
               | Throw _ => fields
               end
          else fields) records s) <->
      In k s \/ exists fields, In (VObj fields) records /\ In k (map fst fields)).
  { induction Hrecords as [|record rest Hrecord _ IH]; intros s; simpl.
    - split; [auto|]. intros k. split; [auto|]. intros [H | (f & [] & _)]. assumption.
    - destruct record; simpl in Hrecord; try contradiction. simpl.
      destruct (IH (fold_left DataProcessor.Set_add (map fst fields) s)) as [Hnodup Hin].
      destruct (fold_Set_add (map fst fields) s) as [Hin' Hnodup'].
      split; [auto|]. intros k. rewrite Hin, Hin'. split.
      + intros [[H | H] | (f & Hf & Hk)].
        * now left.
        * right. exists fields. auto.
        * right. exists f. auto.
      + intros [H | (f & [Hf | Hf] & Hk)].
        * auto.
        * injection Hf as <-. auto.
        * right. exists f. auto. }
  destruct (Hgen []) as [Hnodup Hin]. split; [apply Hnodup; constructor|].
  intros k. rewrite Hin. simpl. tauto.
Qed.

(** A cell of a data row: the text of the value between double quotes, with
    the double quotes of the text doubled; the empty text between double
    quotes for a field the record does not have or has as [null]. *)
Lemma csv_cell_of_object :
  forall fields field,
    DataProcessor.csv_cell (VObj fields) field
    = Ok (match assoc field fields with
          | None | Some VUndefined | Some VNull => DataProcessor.quoted ""
          | Some v => DataProcessor.quoted (DataProcessor.double_quotes (ToString v))
          end).
Proof.
  intros fields field. unfold DataProcessor.csv_cell, get_member. simpl.
  destruct (assoc field fields) as [[]|]; reflexivity.
Qed.

(** C10: a field name is put between double quotes as it is: a double quote
    inside it is not doubled, while one inside a value is.  For the record
    with the field name a, double quote, b and the value x, double quote, y,
    the header is the name between double quotes with its one double quote,
    and the data cell is the value between double quotes with its double
    quote doubled. *)
Theorem csv_header_keeps_single_quote :
  let result := VObj [("result", VArr [VObj [(quote_in_name, VStr quote_in_text)]])] in
  DataProcessor.exportResult result "csv"
  = Ok (DataProcessor.quoted quote_in_name ++ newline
        ++ DataProcessor.quoted (DataProcessor.double_quotes quote_in_text))%string /\
  DataProcessor.quoted quote_in_name
  <> DataProcessor.quoted (DataProcessor.double_quotes quote_in_name) /\
  DataProcessor.double_quotes quote_in_text
  = ("x" ++ String DataProcessor.dquote (String DataProcessor.dquote "y"))%string.
Proof.
  repeat split; try reflexivity. discriminate.
Qed.

End export.

(** A function that writes on its argument changes the record of the caller
    when Transform is called on the caller's array: the condition on the
    functions is needed. *)
Example transform_with_writing_function :
  fst (@Store.TransformRule.execute writing_host (Store.RRef 1)
         (VObj [("computed", VObj [("x", VFun 0)])]) sample_store)
  = [ Store.CObj [("status", Store.RStr "active"); ("seen", Store.RBool true)];
      Store.CArr [Store.RRef 0];
      Store.CObj [("status", Store.RStr "active"); ("x", Store.RUndefined)];
      Store.CArr [Store.RRef 2] ].
Proof. reflexivity. Qed.

(** ** The unit tests of the repository, on the sample platform *)

Section unit_tests.
Existing Instance sample_platform.

Example test_getNestedProperty :
  let obj := VObj [("user", VObj [("profile", VObj [("name", VStr "John")])])] in
  FunctionalUtils.getNestedProperty obj "user.profile.name" VUndefined = VStr "John" /\
  FunctionalUtils.getNestedProperty obj "user.profile.age" (VNum 0) = VNum 0.
Proof. split; reflexivity. Qed.

Example test_naturalSort_numbers :
  FunctionalUtils.naturalSort (VNum 5) (VNum 10) = (-5)%Z.
Proof. reflexivity. Qed.

Example test_include_or :
  IncludeRule.execute (VArr sampleData)
    (VArr [VObj [("name", VStr "John")]; VObj [("name", VStr "Jane")]])
  = Ok (VArr (firstn 3 sampleData)).
Proof. reflexivity. Qed.

Example test_include_and :
  IncludeRule.execute (VArr sampleData)
    (VObj [("name", VStr "John"); ("status", VStr "active")])
  = Ok (VArr (firstn 1 sampleData)).
Proof. reflexivity. Qed.

Example test_include_validation :
  rmap (fun v => (isValid v, List.length (errors v))) (IncludeRule.validate VNull)
  = Ok (false, 1%nat).
Proof. reflexivity. Qed.

Example test_exclude_or :
  ExcludeRule.execute (VArr sampleData) (VArr [VObj [("name", VStr "John")]])
  = Ok (VArr (skipn 2 sampleData)).
Proof. reflexivity. Qed.

Example test_exclude_and :
  ExcludeRule.execute (VArr sampleData)
    (VObj [("name", VStr "John"); ("email", VStr "john2@mail.com")])
  = Ok (VArr (skipn 1 sampleData)).
Proof. reflexivity. Qed.

Example test_sort_single :
  rmap (fun v => match v with
                 | VArr l => map (field "email") (firstn 2 l)
                 | _ => []
                 end)
       (SortRule.execute (VArr sampleData) (VStr "email"))
  = Ok [VStr "bob@mail.com"; VStr "jane@mail.com"].
Proof. reflexivity. Qed.

Example test_sort_multiple :
  rmap (fun v => match v with VArr l => map (field "email") l | _ => [] end)
       (SortRule.execute (VArr sampleData) (VArr [VStr "name"; VStr "email"]))
  = Ok [VStr "bob@mail.com"; VStr "jane@mail.com";
        VStr "john1@mail.com"; VStr "john2@mail.com"].
Proof. reflexivity. Qed.

Example test_limit :
  LimitRule.execute (VArr sampleData) (VNum 2) = Ok (VArr (firstn 2 sampleData)).
Proof. reflexivity. Qed.

Example test_limit_offset :
  LimitRule.execute (VArr sampleData) (VObj [("count", VNum 2); ("offset", VNum 1)])
  = Ok (VArr (firstn 2 (skipn 1 sampleData))).
Proof. reflexivity. Qed.

Example test_transform_fields :
  rmap (fun v => match v with VArr l => hd VUndefined l | _ => VUndefined end)
       (returned (TransformRule.execute (VArr sampleData)
                    (VObj [("fields", VArr [VStr "name"; VStr "email"])])))
  = Ok (VObj [("name", VStr "John"); ("email", VStr "john2@mail.com")]).
Proof. reflexivity. Qed.

Example test_transform_computed :
  rmap (fun v => match v with
                 | VArr (r :: _) => (field "isAdult" r, field "displayName" r)
                 | _ => (VUndefined, VUndefined)
                 end)
       (returned (TransformRule.execute (VArr sampleData)
                    (VObj [("computed",
                            VObj [("isAdult", VFun 0);
                                  ("displayName", VStr "{{name}} ({{age}})")])])))
  = Ok (VBool true, VStr "John (30)").
Proof. reflexivity. Qed.

Example test_transform_rename :
  rmap (fun v => match v with
                 | VArr (r :: _) =>
                     (field "fullName" r, field "emailAddress" r, field "name" r)
                 | _ => (VUndefined, VUndefined, VUndefined)
                 end)
       (returned (TransformRule.execute (VArr sampleData)
                    (VObj [("rename",
                            VObj [("name", VStr "fullName");
                                  ("email", VStr "emailAddress")])])))
  = Ok (VStr "John", VStr "john2@mail.com", VUndefined).
Proof. reflexivity. Qed.

Example test_registry_executeRule :
  rmap (fun v => get_prop v "length")
       (returned (RuleRegistry.executeRule RuleRegistry.builtin_rules "include"
                    (VArr sampleData) (VArr [VObj [("name", VStr "John")]])))
  = Ok (VNum 2).
Proof. reflexivity. Qed.

Example test_processData_multiple_rules :
  rmap (fun r => (get_prop (result r) "length",
                  inputCount (metadata r), outputCount (metadata r),
                  List.length (appliedRules (metadata r))))
       (returned (DataProcessor.processData RuleRegistry.builtin_rules 0 1
                    (VArr sampleData)
                    (VObj [("include", VArr [VObj [("status", VStr "active")]]);
                           ("sortBy", VArr [VStr "name"; VStr "email"]);
                           ("limit", VNum 2)])))
  = Ok (VNum 2, VNum 4, VNum 2, 3%nat).
Proof. reflexivity. Qed.

Example test_validateCondition :
  rmap (fun v => (isValid v, errors v))
       (DataProcessor.validateCondition RuleRegistry.builtin_rules
          (VObj [("include", VArr [VObj [("name", VStr "John")]]);
                 ("invalidRule", VObj [])]))
  = Ok (false, ["Unknown rule type: invalidRule"]).
Proof. reflexivity. Qed.

Example test_integration :
  rmap (fun r => match result r with
                 | VArr l => map (field "category") l
                 | _ => []
                 end)
       (returned (DataProcessor.processData RuleRegistry.builtin_rules 0 1
                    (VArr sampleData)
                    (VObj [("exclude", VArr [VObj [("status", VStr "inactive")]]);
                           ("sortBy", VArr [VStr "age"]);
                           ("transform",
                            VObj [("fields", VArr [VStr "name"; VStr "age"]);
                                  ("computed", VObj [("category", VFun 2)])]);
                           ("limit", VNum 2)])))
  = Ok [VStr "junior"; VStr "senior"].
Proof. reflexivity. Qed.

Example test_error_handling :
  rmap (fun r => (result r, error (metadata r)))
       (returned (DataProcessor.processData RuleRegistry.builtin_rules 0 1
                    (VStr "invalid") (VObj [])))
  = Ok (VArr [], Some (VStr "Data must be an array")).
Proof. reflexivity. Qed.

(** The scenario of the description: exclude the inactive John, sort by
    name, limit 10. *)
Example scenario_exclude_sort_limit :
  rmap result
       (returned (DataProcessor.processData RuleRegistry.builtin_rules 0 1
                    (VArr (firstn 3 sampleData))
                    (VObj [("exclude", VObj [("status", VStr "inactive")]);
                           ("sortBy", VArr [VStr "name"]);
                           ("limit", VNum 10)])))
  = Ok (VArr [nth 2 sampleData VNull; nth 0 sampleData VNull]).
Proof. reflexivity. Qed.

End unit_tests.

(** * Further properties of the code *)

(** ** FunctionalUtils *)

(** X1: [compose] applies the functions from the last to the first and [pipe]
    from the first to the last: composing a list of functions is piping the
    reversed list, and piping (composing) a concatenation is piping
    (composing) the two lists one after the other. *)
Theorem compose_is_pipe_reversed :
  forall (A : Type) (fns gns : list (A -> A)) (v : A),
    FunctionalUtils.compose fns v = FunctionalUtils.pipe (rev fns) v /\
    FunctionalUtils.pipe (fns ++ gns) v
    = FunctionalUtils.pipe gns (FunctionalUtils.pipe fns v) /\
    FunctionalUtils.compose (fns ++ gns) v
    = FunctionalUtils.compose fns (FunctionalUtils.compose gns v).
Proof.
  intros A fns gns v. unfold FunctionalUtils.compose, FunctionalUtils.pipe.
  split; [|split].
  - rewrite <- (rev_involutive fns) at 1. now rewrite fold_left_rev_right.
  - apply fold_left_app.
  - apply fold_right_app.
Qed.

Section slices.
Context {platform : Platform}.

Lemma clamp_index_range :
  forall len n, (0 <= len)%Z -> (0 <= clamp_index len n <= len)%Z.
Proof.
  intros len n Hlen. unfold clamp_index.
  destruct (n <? 0)%Z eqn:Hn; [apply Z.ltb_lt in Hn | apply Z.ltb_ge in Hn]; lia.
Qed.

Lemma take_firstn :
  forall (A : Type) (n : Z) (array : list A),
    FunctionalUtils.take (VNum n) array
    = firstn (Z.to_nat (clamp_index (Z.of_nat (List.length array)) n)) array.
Proof.
  intros A n array. unfold FunctionalUtils.take, Array_slice.
  change (ToIntegerOrInfinity (VNum n)) with n.
  change (ToIntegerOrInfinity (VNum 0)) with 0%Z.
  change (is_undefined (VNum n)) with false. cbv iota.
  pose proof (clamp_index_range (Z.of_nat (List.length array)) n (Zle_0_nat _)) as Hc.
  replace (clamp_index (Z.of_nat (List.length array)) 0) with 0%Z
    by (unfold clamp_index; simpl; lia).
  simpl. rewrite Z.sub_0_r. now rewrite Z.max_l by lia.
Qed.

Lemma skip_skipn :
  forall (A : Type) (n : Z) (array : list A),
    FunctionalUtils.skip (VNum n) array
    = skipn (Z.to_nat (clamp_index (Z.of_nat (List.length array)) n)) array.
Proof.
  intros A n array. unfold FunctionalUtils.skip, Array_slice.
  change (ToIntegerOrInfinity (VNum n)) with n.
  change (is_undefined VUndefined) with true. cbv iota.
  pose proof (clamp_index_range (Z.of_nat (List.length array)) n (Zle_0_nat _)) as Hc.
  apply firstn_all2. rewrite length_skipn. lia.
Qed.

(** X2: for every integer [n], also a negative one or one beyond the length,
    [take(n, array)] followed by [skip(n, array)] is the array: the two split it
    at one place.  For [n] from 0 on the place is [n] (or the end); for a
    negative [n] it is counted from the end. *)
Theorem take_skip_split :
  forall (A : Type) (n : Z) (array : list A),
    FunctionalUtils.take (VNum n) array ++ FunctionalUtils.skip (VNum n) array = array /\
    ((0 <= n)%Z ->
     FunctionalUtils.take (VNum n) array = firstn (Z.to_nat n) array /\
     FunctionalUtils.skip (VNum n) array = skipn (Z.to_nat n) array) /\
    ((n < 0)%Z ->
     FunctionalUtils.take (VNum n) array
     = firstn (List.length array - Z.to_nat (- n)) array /\
     FunctionalUtils.skip (VNum n) array
     = skipn (List.length array - Z.to_nat (- n)) array).
Proof.
  intros A n array. rewrite take_firstn, skip_skipn.
  split; [apply firstn_skipn|]. split; intros Hn.
  - unfold clamp_index. replace (n <? 0)%Z with false by (symmetry; apply Z.ltb_ge; lia).
    destruct (Z.le_ge_cases n (Z.of_nat (List.length array))) as [Hle|Hge].
    + rewrite Z.min_l by lia. split; reflexivity.
    + rewrite Z.min_r by lia. rewrite Nat2Z.id.
      rewrite firstn_all, skipn_all.
      rewrite firstn_all2 by lia. rewrite skipn_all2 by lia. split; reflexivity.
  - unfold clamp_index. replace (n <? 0)%Z with true by (symmetry; apply Z.ltb_lt; lia).
    replace (Z.to_nat (Z.max (Z.of_nat (List.length array) + n) 0))
      with (List.length array - Z.to_nat (- n))%nat by lia.
    split; reflexivity.
Qed.

End slices.

(** X3: for a default that is falsy ([undefined], as in every call the
    rules make, [null], 0, the empty text, [false]) and a path that leads
    through plain objects, [getNestedProperty] is the walk along the segments
    of the path: it returns the value the walk ends at, and the default as
    soon as a segment is missing or the value reached is falsy. *)
Theorem getNestedProperty_is_walk :
  forall obj path d,
    truthy d = false ->
    plain_path obj (split_on "."%char path) = true ->
    FunctionalUtils.getNestedProperty obj path d
    = match walk obj (split_on "."%char path) with
      | Some v => v
      | None => d
      end.
Proof.
  intros obj path d Hd _.
  destruct (walk obj (split_on "."%char path)) as [v|] eqn:Hw.
  - now apply getNestedProperty_walk_found.
  - apply getNestedProperty_inert_default; [|assumption].
    intros key. unfold FunctionalUtils.getNestedProperty_step. now rewrite Hd.
Qed.

Lemma getNestedProperty_is_walk_witness :
  FunctionalUtils.getNestedProperty
    (VObj [("user", VObj [("name", VStr "John")])]) "user.age.years" (VNum 0) = VNum 0.
Proof.
  refine (getNestedProperty_is_walk
            (VObj [("user", VObj [("name", VStr "John")])]) "user.age.years" (VNum 0)
            eq_refl eq_refl).
Defined.

(** ** BaseRule.deepEquals *)

Lemma distinct_NoDup : forall l, distinct l = true <-> NoDup l.
Proof.
  induction l as [|k r IH]; simpl.
  - split; [constructor | reflexivity].
  - rewrite andb_true_iff, negb_true_iff, IH. split.
    + intros [Hk Hr]. constructor; [|assumption].
      intros Hin. apply not_true_iff_false in Hk. apply Hk.
      apply existsb_exists. exists k. split; [assumption | apply String.eqb_refl].
    + intros H. inversion H as [|? ? Hk Hr]; subst. split; [|assumption].
      apply not_true_iff_false. intros Hex. apply existsb_exists in Hex.
      destruct Hex as (k' & Hin & Heq). apply String.eqb_eq in Heq. now subst.
Qed.

Lemma existsb_eqb_In :
  forall key keys, existsb (String.eqb key) keys = true <-> In key keys.
Proof.
  intros key keys. rewrite existsb_exists. split.
  - intros (k & Hin & Heq). apply String.eqb_eq in Heq. now subst.
  - intros Hin. exists key. split; [assumption | apply String.eqb_refl].
Qed.

(** [deepEquals] on two arrays and on two objects, without the inner loops. *)
Lemma deepEquals_arrays :
  forall items1 items2,
    BaseRule.deepEquals (VArr items1) (VArr items2)
    = (List.length items1 =? List.length items2)%nat &&
      forallb (fun p => BaseRule.deepEquals (fst p) (snd p)) (combine items1 items2).
Proof.
  intros items1 items2. simpl.
  destruct (List.length items1 =? List.length items2)%nat eqn:Hlen; simpl; [|reflexivity].
  apply Nat.eqb_eq in Hlen. revert items2 Hlen.
  induction items1 as [|x r IH]; intros [|y r2] Hlen; simpl in *;
    try reflexivity; try discriminate.
  f_equal. apply IH. congruence.
Qed.

Lemma deepEquals_objects :
  forall fields1 fields2,
    BaseRule.deepEquals (VObj fields1) (VObj fields2)
    = (List.length fields1 =? List.length fields2)%nat &&
      forallb (fun kv => existsb (String.eqb (fst kv)) (map fst fields2)
                         && BaseRule.deepEquals (snd kv) (get_prop (VObj fields2) (fst kv)))
              fields1.
Proof.
  intros fields1 fields2. simpl.
  destruct (List.length fields1 =? List.length fields2)%nat; simpl; [|reflexivity].
  induction fields1 as [|[k v] r IH]; simpl; [reflexivity|].
  now rewrite IH.
Qed.

Lemma deepEquals_primitive :
  forall a b,
    (forall items, a <> VArr items) -> (forall fields, a <> VObj fields) ->
    BaseRule.deepEquals a b = BaseRule.strict_equals a b /\
    BaseRule.deepEquals b a = BaseRule.strict_equals a b.
Proof.
  intros a b Harr Hobj.
  destruct a; try (exfalso; now eapply Harr); try (exfalso; now eapply Hobj);
    destruct b; simpl; try (split; reflexivity).
  - destruct b0, b; split; reflexivity.
  - rewrite (Z.eqb_sym n0 n). destruct (n =? n0)%Z; split; reflexivity.
  - rewrite (String.eqb_sym s0 s). destruct (String.eqb s s0); split; reflexivity.
  - rewrite (Nat.eqb_sym f0 f). destruct (f =? f0)%nat; split; reflexivity.
Qed.

Lemma In_key :
  forall (A : Type) (fields : list (string * A)) k x,
    In (k, x) fields -> In k (map fst fields).
Proof.
  intros A fields k x Hin. now apply (in_map fst) in Hin.
Qed.

Lemma unique_keys_object :
  forall fields,
    unique_keys (VObj fields) = true ->
    NoDup (map fst fields) /\ forall k x, In (k, x) fields -> unique_keys x = true.
Proof.
  intros fields H. simpl in H. apply andb_true_iff in H. destruct H as [Hd Hall].
  split; [now apply distinct_NoDup|].
  intros k x Hin. rewrite forallb_forall in Hall. exact (Hall (k, x) Hin).
Qed.

Lemma deepEquals_refl :
  forall v, unique_keys v = true -> BaseRule.deepEquals v v = true.
Proof.
  induction v as [| |b|n|s|items IH|fields IH|f] using value_nested_ind; intros Hv;
    try reflexivity.
  - now destruct b.
  - simpl. now rewrite Z.eqb_refl.
  - simpl. now rewrite String.eqb_refl.
  - rewrite deepEquals_arrays, Nat.eqb_refl. simpl.
    simpl in Hv. rewrite forallb_forall in Hv.
    induction IH as [|x r Hx _ IHr]; simpl; [reflexivity|].
    rewrite Hx by (apply Hv; now left). simpl.
    apply IHr. intros y Hy. apply Hv. now right.
  - rewrite deepEquals_objects, Nat.eqb_refl. simpl.
    destruct (unique_keys_object fields Hv) as [Hnd Hall].
    apply forallb_forall. intros [k x] Hin. simpl.
    rewrite Forall_forall in IH.
    apply andb_true_iff. split.
    + apply existsb_eqb_In. now apply (in_map fst) in Hin.
    + rewrite (assoc_In _ fields k x Hnd Hin).
      apply (IH (k, x) Hin). now apply (Hall k x).
  - simpl. now rewrite Nat.eqb_refl.
Qed.

(** X4: for values whose numbers are integers (NaN, the one value that is
    not equal to itself, is no value of the embedding), [deepEquals] holds
    between a value and itself, and between two objects with the same
    properties in a different order (each side of the comparison). *)
Theorem deepEquals_reflexive :
  forall v,
    unique_keys v = true ->
    BaseRule.deepEquals v v = true /\
    (forall fields fields',
        v = VObj fields -> Permutation fields fields' ->
        BaseRule.deepEquals v (VObj fields') = true /\
        BaseRule.deepEquals (VObj fields') v = true).
Proof.
  intros v Hv. split; [now apply deepEquals_refl|].
  intros fields fields' -> Hperm.
  destruct (unique_keys_object fields Hv) as [Hnd Hall].
  assert (Hnd' : NoDup (map fst fields')).
  { eapply Permutation_NoDup; [|exact Hnd]. now apply Permutation_map. }
  rewrite !deepEquals_objects, (Permutation_length Hperm), Nat.eqb_refl. simpl.
  split; apply forallb_forall; intros [k x] Hin; simpl; apply andb_true_iff; split.
  - apply existsb_eqb_In. apply (In_key _ _ k x), (Permutation_in _ Hperm Hin).
  - rewrite (assoc_In _ fields' k x Hnd' (Permutation_in _ Hperm Hin)).
    apply deepEquals_refl. now apply (Hall k x).
  - apply existsb_eqb_In.
    apply (In_key _ _ k x), (Permutation_in _ (Permutation_sym Hperm) Hin).
  - pose proof (Permutation_in _ (Permutation_sym Hperm) Hin) as Hin'.
    rewrite (assoc_In _ fields k x Hnd Hin').
    apply deepEquals_refl. now apply (Hall k x).
Qed.

Lemma deepEquals_reflexive_witness :
  let v := VObj [("a", VNum 1); ("b", VArr [VStr "x"; VNull])] in
  unique_keys v = true /\
  BaseRule.deepEquals v (VObj [("b", VArr [VStr "x"; VNull]); ("a", VNum 1)]) = true.
Proof.
  split; [reflexivity|].
  refine (proj1 (proj2 (deepEquals_reflexive
                          (VObj [("a", VNum 1); ("b", VArr [VStr "x"; VNull])]) eq_refl)
                   _ _ eq_refl _)).
  apply perm_swap.
Defined.

Ltac deepEquals_with_primitive :=
  match goal with
  | |- BaseRule.deepEquals ?a ?b = BaseRule.deepEquals ?b ?a =>
      first
        [ let H := fresh in
          assert (H := deepEquals_primitive a b); destruct H as [-> ->];
          [intros ? ?; discriminate | intros ? ?; discriminate | reflexivity]
        | let H := fresh in
          assert (H := deepEquals_primitive b a); destruct H as [-> ->];
          [intros ? ?; discriminate | intros ? ?; discriminate | reflexivity] ]
  end.

(** X5: [deepEquals] is symmetric: it gives the same answer with its two
    arguments exchanged. *)
Theorem deepEquals_symmetric :
  forall a b,
    unique_keys a = true -> unique_keys b = true ->
    BaseRule.deepEquals a b = BaseRule.deepEquals b a.
Proof.
  induction a as [| |b1|n|s|items1 IH|fields1 IH|f] using value_nested_ind;
    intros b Ha Hb; try deepEquals_with_primitive.
  - destruct b as [| |b2|n2|s2|items2|fields2|f2]; try deepEquals_with_primitive;
      [|reflexivity].
    rewrite !deepEquals_arrays, (Nat.eqb_sym (List.length items2)).
    f_equal. simpl in Ha, Hb. rewrite forallb_forall in Ha, Hb.
    revert items2 Hb.
    induction IH as [|x r Hx _ IHr]; intros [|y r2] Hb; simpl; try reflexivity.
    rewrite (Hx y (Ha x (or_introl eq_refl)) (Hb y (or_introl eq_refl))).
    f_equal. apply IHr.
    + intros z Hz. apply Ha. now right.
    + intros z Hz. apply Hb. now right.
  - destruct b as [| |b2|n2|s2|items2|fields2|f2]; try deepEquals_with_primitive;
      [reflexivity|].
    rewrite !deepEquals_objects, (Nat.eqb_sym (List.length fields2)).
    destruct (List.length fields1 =? List.length fields2)%nat eqn:Hlen; [|reflexivity].
    apply Nat.eqb_eq in Hlen. simpl.
    destruct (unique_keys_object fields1 Ha) as [Hnd1 Hall1].
    destruct (unique_keys_object fields2 Hb) as [Hnd2 Hall2].
    rewrite Forall_forall in IH.
    assert (Hlen' : List.length (map fst fields1) = List.length (map fst fields2))
      by now rewrite !length_map.
    apply eq_true_iff_eq. rewrite !forallb_forall. split; intros H [k x] Hin; simpl.
    + assert (Hincl : incl (map fst fields1) (map fst fields2)).
      { intros k1 Hk1. apply in_map_iff in Hk1. destruct Hk1 as ([k1' x1] & <- & Hin1).
        specialize (H _ Hin1). simpl in H. apply andb_true_iff in H.
        now apply existsb_eqb_In. }
      assert (Hk : In k (map fst fields1)).
      { assert (Hback : incl (map fst fields2) (map fst fields1))
          by (apply NoDup_length_incl; [exact Hnd1 | lia | exact Hincl]).
        apply Hback. now apply (In_key _ _ k x). }
      apply in_map_iff in Hk. destruct Hk as ([k' x1] & Hk' & Hin1).
      simpl in Hk'. subst k'.
      pose proof (H _ Hin1) as H1. simpl in H1. apply andb_true_iff in H1.
      destruct H1 as [_ H1].
      rewrite (assoc_In _ fields2 k x Hnd2 Hin) in H1.
      rewrite (assoc_In _ fields1 k x1 Hnd1 Hin1).
      apply andb_true_iff. split; [apply existsb_eqb_In; now apply (In_key _ _ k x1)|].
      pose proof (IH (k, x1) Hin1 x (Hall1 k x1 Hin1) (Hall2 k x Hin)) as E.
      simpl in E. now rewrite <- E.
    + assert (Hincl : incl (map fst fields2) (map fst fields1)).
      { intros k2 Hk2. apply in_map_iff in Hk2. destruct Hk2 as ([k2' x2] & <- & Hin2).
        specialize (H _ Hin2). simpl in H. apply andb_true_iff in H.
        now apply existsb_eqb_In. }
      assert (Hk : In k (map fst fields2)).
      { assert (Hback : incl (map fst fields1) (map fst fields2))
          by (apply NoDup_length_incl; [exact Hnd2 | lia | exact Hincl]).
        apply Hback. now apply (In_key _ _ k x). }
      apply in_map_iff in Hk. destruct Hk as ([k' x2] & Hk' & Hin2).
      simpl in Hk'. subst k'.
      pose proof (H _ Hin2) as H2. simpl in H2. apply andb_true_iff in H2.
      destruct H2 as [_ H2].
      rewrite (assoc_In _ fields1 k x Hnd1 Hin) in H2.
      rewrite (assoc_In _ fields2 k x2 Hnd2 Hin2).
      apply andb_true_iff. split; [apply existsb_eqb_In; now apply (In_key _ _ k x2)|].
      pose proof (IH (k, x) Hin x2 (Hall1 k x Hin) (Hall2 k x2 Hin2)) as E.
      simpl in E. now rewrite E.
Qed.

Lemma deepEquals_symmetric_witness :
  BaseRule.deepEquals (VObj [("a", VNum 1)]) (VObj [("a", VStr "1")])
  = BaseRule.deepEquals (VObj [("a", VStr "1")]) (VObj [("a", VNum 1)]).
Proof.
  exact (deepEquals_symmetric (VObj [("a", VNum 1)]) (VObj [("a", VStr "1")])
           eq_refl eq_refl).
Defined.

(** ** Include and Exclude, one after the other *)

Lemma filterM_returns_inv :
  forall (A : Type) (p : A -> outcome bool) data kept,
    BaseRule.filterM p data = Ok kept ->
    (forall r, In r data -> exists b, p r = Ok b) /\
    kept = filter (fun r => match p r with Ok b => b | Throw _ => false end) data.
Proof.
  intros A p. induction data as [|r rest IH]; simpl; intros kept H.
  - injection H as <-. split; [contradiction | reflexivity].
  - destruct (p r) as [b|e] eqn:Hr; [|discriminate]. simpl in H.
    destruct (BaseRule.filterM p rest) as [rest'|e] eqn:Hrest; [|discriminate].
    simpl in H. injection H as <-.
    destruct (IH rest' eq_refl) as [Hdef ->]. split.
    + intros r' [<-|Hin]; [now exists b | now apply Hdef].
    + now destruct b.
Qed.

Lemma filter_idempotent :
  forall (A : Type) (f : A -> bool) l, filter f (filter f l) = filter f l.
Proof.
  intros A f. induction l as [|x r IH]; simpl; [reflexivity|].
  destruct (f x) eqn:Hx; simpl; [rewrite Hx; now f_equal | exact IH].
Qed.

Lemma filter_then_complement :
  forall (A : Type) (f : A -> bool) l, filter (fun x => negb (f x)) (filter f l) = [].
Proof.
  intros A f. induction l as [|x r IH]; simpl; [reflexivity|].
  destruct (f x) eqn:Hx; simpl; [now rewrite Hx | exact IH].
Qed.

Lemma filter_commute :
  forall (A : Type) (f g : A -> bool) l, filter f (filter g l) = filter g (filter f l).
Proof.
  intros A f g. induction l as [|x r IH]; simpl; [reflexivity|].
  destruct (g x) eqn:Hg, (f x) eqn:Hf; simpl; rewrite ?Hg, ?Hf, IH; reflexivity.
Qed.

Section filters.

Lemma include_returns_inv :
  forall records config kept,
    IncludeRule.execute (VArr records) config = Ok (VArr kept) ->
    (forall r, In r records -> BaseRule.matchesRecord r config = Ok (matches config r)) /\
    kept = filter (matches config) records.
Proof.
  intros records config kept H. unfold IncludeRule.execute in H.
  destruct (BaseRule.filterM _ records) as [kept'|e] eqn:Hf; [|discriminate].
  simpl in H. injection H as <-.
  destruct (filterM_returns_inv _ _ _ _ Hf) as [Hdef ->]. split; [|reflexivity].
  intros r Hin. destruct (Hdef r Hin) as [b Hb]. unfold matches. now rewrite Hb.
Qed.

Lemma include_on :
  forall records config,
    (forall r, In r records -> BaseRule.matchesRecord r config = Ok (matches config r)) ->
    IncludeRule.execute (VArr records) config = Ok (VArr (filter (matches config) records)).
Proof.
  intros records config Hdef. unfold IncludeRule.execute.
  now rewrite (filterM_filter _ _ (matches config) records Hdef).
Qed.

Lemma exclude_on :
  forall records config,
    (forall r, In r records -> BaseRule.matchesRecord r config = Ok (matches config r)) ->
    ExcludeRule.execute (VArr records) config
    = Ok (VArr (filter (fun r => negb (matches config r)) records)).
Proof.
  intros records config Hdef. unfold ExcludeRule.execute.
  rewrite (filterM_filter _ _ (fun r => negb (matches config r)) records); [reflexivity|].
  intros r Hin. now rewrite (Hdef r Hin).
Qed.

(** X6: Include applied to its own output keeps everything (it is
    idempotent), Exclude with the same criteria then keeps nothing, and two
    Include filters give the same records in either order.  The same holds
    with the roles of Include and Exclude exchanged. *)
Theorem filters_compose :
  forall config config' records kept kept',
    IncludeRule.execute (VArr records) config = Ok (VArr kept) ->
    IncludeRule.execute (VArr records) config' = Ok (VArr kept') ->
    IncludeRule.execute (VArr kept) config = Ok (VArr kept) /\
    ExcludeRule.execute (VArr kept) config = Ok (VArr []) /\
    IncludeRule.execute (VArr kept) config' = IncludeRule.execute (VArr kept') config /\
    exists dropped,
      ExcludeRule.execute (VArr records) config = Ok (VArr dropped) /\
      ExcludeRule.execute (VArr dropped) config = Ok (VArr dropped) /\
      IncludeRule.execute (VArr dropped) config = Ok (VArr []).
Proof.
  intros config config' records kept kept' H H'.
  destruct (include_returns_inv _ _ _ H) as [Hdef ->].
  destruct (include_returns_inv _ _ _ H') as [Hdef' ->].
  assert (Hsub : forall (f : value -> bool) c,
             (forall r, In r records -> BaseRule.matchesRecord r c = Ok (matches c r)) ->
             forall r, In r (filter f records) ->
                       BaseRule.matchesRecord r c = Ok (matches c r)).
  { intros f c Hc r Hin. apply Hc. apply filter_In in Hin. tauto. }
  split; [|split; [|split]].
  - rewrite include_on by now apply Hsub. now rewrite filter_idempotent.
  - rewrite exclude_on by now apply Hsub. now rewrite filter_then_complement.
  - rewrite !include_on by now apply Hsub. now rewrite filter_commute.
  - exists (filter (fun r => negb (matches config r)) records).
    split; [now apply exclude_on|]. split.
    + rewrite exclude_on by now apply Hsub. now rewrite filter_idempotent.
    + rewrite include_on by now apply Hsub.
      f_equal. f_equal.
      rewrite <- (filter_then_complement _ (fun r => negb (matches config r)) records).
      apply filter_ext. intros r. now rewrite negb_involutive.
Qed.

Lemma filters_compose_witness :
  let john := VArr [VObj [("name", VStr "John")]] in
  let active := VObj [("status", VStr "active")] in
  IncludeRule.execute (VArr (firstn 1 sampleData)) john
  = IncludeRule.execute
      (VArr [nth 0 sampleData VNull; nth 2 sampleData VNull; nth 3 sampleData VNull]) john.
Proof.
  refine (proj1 (proj2 (proj2
    (filters_compose (VObj [("status", VStr "active")])
                     (VArr [VObj [("name", VStr "John")]]) sampleData
                     [nth 0 sampleData VNull; nth 2 sampleData VNull; nth 3 sampleData VNull]
                     (firstn 2 sampleData) eq_refl eq_refl)))).
Defined.

(** X7: an empty array of criteria matches no record and an empty criteria
    object matches every record: Include with [[]] returns nothing and with
    [{}] everything, Exclude the other way round.  Both configurations are
    valid; [validate] only warns. *)
Theorem empty_criteria :
  forall records,
    IncludeRule.execute (VArr records) (VArr []) = Ok (VArr []) /\
    ExcludeRule.execute (VArr records) (VArr []) = Ok (VArr records) /\
    IncludeRule.execute (VArr records) (VObj []) = Ok (VArr records) /\
    ExcludeRule.execute (VArr records) (VObj []) = Ok (VArr []) /\
    IncludeRule.validate (VArr [])
    = Ok {| isValid := true; errors := [];
            warnings := ["Include rule has empty criteria array"%string] |} /\
    ExcludeRule.validate (VObj [])
    = Ok {| isValid := true; errors := [];
            warnings := ["Exclude rule has empty criteria object"%string] |}.
Proof.
  intros records.
  assert (Hnone : filter (fun _ : value => false) records = [])
    by (induction records; simpl; auto).
  assert (Hall : filter (fun _ : value => true) records = records)
    by (induction records as [|a r IH]; simpl; [reflexivity | now rewrite IH]).
  repeat split.
  - unfold IncludeRule.execute.
    now rewrite (filterM_filter _ _ (fun _ => false) records), Hnone.
  - unfold ExcludeRule.execute.
    now rewrite (filterM_filter _ _ (fun _ => true) records), Hall.
  - unfold IncludeRule.execute.
    now rewrite (filterM_filter _ _ (fun _ => true) records), Hall.
  - unfold ExcludeRule.execute.
    now rewrite (filterM_filter _ _ (fun _ => false) records), Hnone.
Qed.

End filters.

(** ** Sort *)

Lemma stable_sort_in_order :
  forall (A : Type) (cmp : A -> A -> outcome Z) l,
    (forall a b, In a l -> In b l -> exists c, cmp a b = Ok c /\ (c <= 0)%Z) ->
    stable_sort cmp l = Ok l.
Proof.
  intros A cmp. induction l as [|x r IH]; intros Hcmp; simpl; [reflexivity|].
  rewrite IH by (intros a b Ha Hb; apply Hcmp; now right).
  simpl. destruct r as [|y r']; simpl; [reflexivity|].
  destruct (Hcmp x y) as (c & -> & Hc); [now left | right; now left |].
  simpl. apply Z.leb_le in Hc. now rewrite Hc.
Qed.

Lemma decimal_string_of_Z : forall n, decimal (string_of_Z n) = Some n.
Proof.
  intros n. unfold decimal, string_of_Z.
  rewrite NilZero.isi.
  - now rewrite DecimalZ.of_to.
  - intros H. assert (Hn : n = 0%Z) by (now rewrite <- (DecimalZ.of_to n), H).
    subst n. discriminate H.
  - intros H. assert (Hn : n = 0%Z) by (now rewrite <- (DecimalZ.of_to n), H).
    subst n. discriminate H.
Qed.

Lemma number_at_undefined : forall key, number_at key VUndefined = None.
Proof.
  intros key. unfold number_at, FunctionalUtils.getNestedProperty.
  now rewrite walk_stays_at_default.
Qed.

Section sort_cases.
Context {platform : Platform}.

(** X8: Sort returns the records in their order when there is nothing to
    compare: for an empty list of keys (a valid configuration, with a
    warning) when no element of the array is [undefined], and for an array of
    at most one record whatever the configuration. *)
Theorem sort_nothing_to_compare :
  forall records config,
    (config = VArr [] /\ Forall (fun r => r <> VUndefined) records) \/
    (List.length records <= 1)%nat ->
    SortRule.execute (VArr records) config = Ok (VArr records).
Proof.
  intros records config [[-> Hdefined]|Hshort]; unfold SortRule.execute, FunctionalUtils.sort,
    Array_sort.
  - rewrite Forall_forall in Hdefined.
    rewrite sort_elements_consistent.
    + rewrite stable_sort_in_order; [reflexivity|].
      intros a b Ha Hb. rewrite SortCompare_defined by now apply Hdefined.
      exists 0%Z. split; [reflexivity | lia].
    + apply (consistent_on_difference _ (fun _ => 0%Z)). intros a b Ha Hb.
      now rewrite SortCompare_defined by now apply Hdefined.
  - now rewrite sort_elements_short.
Qed.

(** On an engine whose [parseFloat] reads the decimal text of an integer as
    that integer. *)
Hypothesis parseFloat_decimal : forall n, parseFloat (string_of_Z n) = Some n.

Lemma multiKeyComparator_numbers :
  forall key a b na nb,
    number_at key a = Some na -> number_at key b = Some nb ->
    FunctionalUtils.multiKeyComparator [VStr key] a b = Ok (na - nb)%Z.
Proof.
  intros key a b na nb Ha Hb. unfold number_at in Ha, Hb. simpl.
  destruct (FunctionalUtils.getNestedProperty a key VUndefined); try discriminate.
  destruct (FunctionalUtils.getNestedProperty b key VUndefined); try discriminate.
  injection Ha as ->. injection Hb as ->.
  unfold FunctionalUtils.naturalSort. simpl. rewrite !parseFloat_decimal.
  destruct (na - nb =? 0)%Z eqn:Hz; simpl; [|reflexivity].
  apply Z.eqb_eq in Hz. now rewrite Hz.
Qed.

(** X9: when every record has a number at the sort key, Sort by that key
    returns the records in ascending order of that number (9 before 10, not
    the order of the texts), each record of the input once. *)
Theorem sort_orders_numbers :
  forall key records,
    Forall (fun r => number_at key r <> None) records ->
    exists sorted,
      SortRule.execute (VArr records) (VStr key) = Ok (VArr sorted) /\
      Permutation records sorted /\
      StronglySorted (fun a b => (number_or_zero key a <= number_or_zero key b)%Z) sorted.
Proof.
  intros key records Hnum. rewrite Forall_forall in Hnum.
  assert (Hcmp : stable_sort (SortCompare (FunctionalUtils.multiKeyComparator [VStr key]))
                   records
                 = stable_sort (cmp_by (number_or_zero key)) records).
  { apply stable_sort_ext. intros a b Ha Hb.
    pose proof (Hnum a Ha) as Hna. pose proof (Hnum b Hb) as Hnb.
    destruct (number_at key a) as [na|] eqn:Ea; [|contradiction].
    destruct (number_at key b) as [nb|] eqn:Eb; [|contradiction].
    rewrite SortCompare_defined.
    - rewrite (multiKeyComparator_numbers key a b na nb Ea Eb).
      unfold cmp_by, number_or_zero. now rewrite Ea, Eb.
    - intros ->. now rewrite number_at_undefined in Ea.
    - intros ->. now rewrite number_at_undefined in Eb. }
  destruct (stable_sort_returns _ (cmp_by (number_or_zero key))
              (fun a b => ex_intro _ _ eq_refl) records) as [sorted Hsorted].
  assert (Hconsistent :
            consistent_on (SortCompare (FunctionalUtils.multiKeyComparator [VStr key]))
              records = true).
  { apply (consistent_on_difference _ (number_or_zero key)). intros a b Ha Hb.
    pose proof (Hnum a Ha) as Hna. pose proof (Hnum b Hb) as Hnb.
    destruct (number_at key a) as [na|] eqn:Ea; [|contradiction].
    destruct (number_at key b) as [nb|] eqn:Eb; [|contradiction].
    rewrite SortCompare_defined.
    - rewrite (multiKeyComparator_numbers key a b na nb Ea Eb).
      unfold number_or_zero. now rewrite Ea, Eb.
    - intros ->. now rewrite number_at_undefined in Ea.
    - intros ->. now rewrite number_at_undefined in Eb. }
  exists sorted. unfold SortRule.execute, FunctionalUtils.sort, Array_sort.
  change (SortRule.keys (VStr key)) with [VStr key].
  rewrite sort_elements_consistent by exact Hconsistent.
  rewrite Hcmp, Hsorted. split; [reflexivity|]. split.
  - exact (stable_sort_permutation _ _ _ _ Hsorted).
  - exact (stable_sort_sorted _ _ _ _ Hsorted).
Qed.

End sort_cases.

Lemma sort_nothing_to_compare_witness :
  @SortRule.execute sample_platform (VArr sampleData) (VArr []) = Ok (VArr sampleData) /\
  @SortRule.execute sample_platform (VArr [VNum 7]) (VNum 3) = Ok (VArr [VNum 7]).
Proof.
  split.
  - apply (@sort_nothing_to_compare sample_platform). left. split; [reflexivity|].
    repeat constructor; discriminate.
  - apply (@sort_nothing_to_compare sample_platform). right. simpl. lia.
Defined.

Lemma sort_orders_numbers_witness :
  exists sorted,
    @SortRule.execute sample_platform
      (VArr [VObj [("n", VNum 10)]; VObj [("n", VNum 9)]]) (VStr "n") = Ok (VArr sorted) /\
    Permutation [VObj [("n", VNum 10)]; VObj [("n", VNum 9)]] sorted /\
    StronglySorted (fun a b => (number_or_zero "n" a <= number_or_zero "n" b)%Z) sorted.
Proof.
  apply (@sort_orders_numbers sample_platform decimal_string_of_Z "n").
  repeat constructor; discriminate.
Defined.

(** ** Limit *)

Lemma firstn_add :
  forall (A : Type) (n k : nat) (l : list A),
    firstn (n + k) l = firstn n l ++ firstn k (skipn n l).
Proof.
  intros A. induction n as [|n IH]; intros k l; simpl; [reflexivity|].
  destruct l as [|x r]; simpl; [now rewrite firstn_nil | now rewrite IH].
Qed.

Section limit_pages.
Context {platform : Platform}.

Lemma limit_execute_page :
  forall (records : list value) N M, (0 <= N)%Z -> (0 <= M)%Z ->
    LimitRule.execute (VArr records) (page N M)
    = Ok (VArr (firstn (Z.to_nat N) (skipn (Z.to_nat M) records))).
Proof.
  intros records N M HN HM. unfold LimitRule.execute, page. simpl.
  destruct (M =? 0)%Z eqn:HM0; simpl.
  - apply Z.eqb_eq in HM0. subst M. now rewrite (limit_pipe _ records N 0) by lia.
  - now rewrite (limit_pipe _ records N M) by lia.
Qed.

(** X10: consecutive pages join up.  For counts and an offset that are not
    negative, the page of [N] records at offset [M] followed by the page of [K]
    records at offset [M + N] is the page of [N + K] records at offset [M]. *)
Theorem limit_pages_concatenate :
  forall (records : list value) N K M,
    (0 <= N)%Z -> (0 <= K)%Z -> (0 <= M)%Z ->
    exists first second,
      LimitRule.execute (VArr records) (page N M) = Ok (VArr first) /\
      LimitRule.execute (VArr records) (page K (M + N)) = Ok (VArr second) /\
      LimitRule.execute (VArr records) (page (N + K) M) = Ok (VArr (first ++ second)).
Proof.
  intros records N K M HN HK HM.
  exists (firstn (Z.to_nat N) (skipn (Z.to_nat M) records)),
         (firstn (Z.to_nat K) (skipn (Z.to_nat (M + N)) records)).
  rewrite !limit_execute_page by lia. repeat split.
  rewrite Z2Nat.inj_add by lia. rewrite firstn_add, skipn_skipn.
  rewrite Z2Nat.inj_add by lia. now rewrite (Nat.add_comm (Z.to_nat N)).
Qed.

End limit_pages.

Lemma limit_pages_concatenate_witness :
  exists first second,
    @LimitRule.execute sample_platform (VArr sampleData) (page 1 1) = Ok (VArr first) /\
    @LimitRule.execute sample_platform (VArr sampleData) (page 2 (1 + 1))
    = Ok (VArr second) /\
    @LimitRule.execute sample_platform (VArr sampleData) (page (1 + 2) 1)
    = Ok (VArr (first ++ second)).
Proof.
  apply (@limit_pages_concatenate sample_platform sampleData 1 2 1); lia.
Defined.

(** ** Transform: string templates *)

Lemma replace_placeholders_skip :
  forall replacement pre rest,
    TransformRule.replace_placeholders replacement (pre ++ rest)%string (String.length pre)
    = TransformRule.replace_placeholders replacement rest 0.
Proof.
  intros replacement. induction pre as [|c p IH]; intros rest; simpl.
  - now destruct rest.
  - apply IH.
Qed.

Lemma until_brace_stops :
  forall body r,
    has_char "}" body = false ->
    TransformRule.until_brace (body ++ String "}" r)%string = (body, String "}" r).
Proof.
  induction body as [|c b IH]; intros r Hb; simpl in *.
  - reflexivity.
  - apply orb_false_iff in Hb. destruct Hb as [Hc Hb].
    rewrite Hc. now rewrite IH.
Qed.

Lemma match_placeholder_found :
  forall path rest,
    path <> ""%string -> has_char "}" path = false ->
    TransformRule.match_placeholder ("{{" ++ path ++ "}}" ++ rest)%string
    = Some (path, 4 + String.length path).
Proof.
  intros path rest Hne Hb. cbn [String.append].
  unfold TransformRule.match_placeholder.
  change ("}}" ++ rest)%string with (String "}" (String "}" rest)).
  rewrite until_brace_stops by assumption.
  destruct path; [contradiction | reflexivity].
Qed.

Lemma match_placeholder_other :
  forall c s, Ascii.eqb c "{" = false ->
    TransformRule.match_placeholder (String c s) = None.
Proof.
  intros c s Hc. destruct c as [[] [] [] [] [] [] [] []]; try reflexivity.
  discriminate.
Qed.

Lemma replace_placeholders_text :
  forall replacement text s,
    has_char "{" text = false ->
    TransformRule.replace_placeholders replacement (text ++ s)%string 0
    = (text ++ TransformRule.replace_placeholders replacement s 0)%string.
Proof.
  intros replacement. induction text as [|c t IH]; intros s Ht.
  - reflexivity.
  - cbn [has_char] in Ht. apply orb_false_iff in Ht. destruct Ht as [Hc Ht].
    cbn [String.append TransformRule.replace_placeholders].
    rewrite (match_placeholder_other c _ Hc). now rewrite IH.
Qed.

Lemma append_empty : forall s, (s ++ "")%string = s.
Proof.
  induction s as [|c s IH]; simpl; congruence.
Qed.

Lemma append_assoc :
  forall a b c, ((a ++ b) ++ c)%string = (a ++ b ++ c)%string.
Proof.
  induction a as [|x a IH]; intros b c; simpl; [reflexivity | now rewrite IH].
Qed.

Lemma length_append :
  forall a b, String.length (a ++ b)%string = String.length a + String.length b.
Proof.
  induction a as [|x a IH]; intros b; simpl; [reflexivity | now rewrite IH].
Qed.

Lemma replace_placeholders_step :
  forall replacement c r,
    TransformRule.replace_placeholders replacement (String c r) 0
    = match TransformRule.match_placeholder (String c r) with
      | Some (fieldPath, len) =>
          (replacement fieldPath
           ++ TransformRule.replace_placeholders replacement r (len - 1))%string
      | None => String c (TransformRule.replace_placeholders replacement r 0)
      end.
Proof.
  reflexivity.
Qed.

Lemma replace_placeholders_at :
  forall replacement path rest,
    path <> ""%string -> has_char "}" path = false ->
    TransformRule.replace_placeholders replacement ("{{" ++ path ++ "}}" ++ rest)%string 0
    = (replacement path ++ TransformRule.replace_placeholders replacement rest 0)%string.
Proof.
  intros replacement path rest Hpath Hbrace.
  assert (Hm := match_placeholder_found path rest Hpath Hbrace).
  change ("{{" ++ path ++ "}}" ++ rest)%string
    with (String "{" (String "{" (path ++ "}}" ++ rest)))%string in *.
  rewrite replace_placeholders_step, Hm. f_equal.
  assert (Hpre : String "{" (path ++ "}}" ++ rest)%string
                 = ((String "{" (path ++ "}}")) ++ rest)%string)
    by (cbn [String.append]; now rewrite append_assoc).
  assert (Hlen : 4 + String.length path - 1 = String.length (String "{" (path ++ "}}")))
    by (cbn [String.length]; rewrite length_append; simpl; lia).
  rewrite Hpre, Hlen. apply replace_placeholders_skip.
Qed.

(** X11: a string template is filled in from left to right.  Text without an
    opening brace is copied as it is; a placeholder [{{path}}] (the path not
    empty and without a closing brace, leading through plain objects of the
    record) is replaced by the text of the value the record has at the trimmed
    path, or by nothing when that value is missing or [null]; the rest of the
    template is treated in the same way. *)
Theorem evaluateStringTemplate_fills_placeholders :
  forall record text path rest,
    has_char "{" text = false ->
    TransformRule.evaluateStringTemplate text record = text /\
    (path <> ""%string -> has_char "}" path = false ->
     names_free record = true ->
     plain_path record (split_on "."%char (trim path)) = true ->
     TransformRule.evaluateStringTemplate (text ++ "{{" ++ path ++ "}}" ++ rest)%string record
     = (text
        ++ (let v := FunctionalUtils.getNestedProperty record (trim path) VUndefined in
            if is_nullish v then "" else ToString v)
        ++ TransformRule.evaluateStringTemplate rest record)%string).
Proof.
  intros record text path rest Htext. unfold TransformRule.evaluateStringTemplate. split.
  - rewrite <- (append_empty text) at 1.
    rewrite replace_placeholders_text by assumption. apply append_empty.
  - intros Hpath Hbrace _ _.
    rewrite replace_placeholders_text by assumption. f_equal.
    rewrite replace_placeholders_at by assumption. f_equal.
    unfold TransformRule.placeholder_value. cbv zeta.
    now destruct (is_nullish _).
Qed.

Lemma evaluateStringTemplate_fills_placeholders_witness :
  TransformRule.evaluateStringTemplate "Name: {{ name }}!" (VObj [("name", VStr "John")])
  = "Name: John!"%string.
Proof.
  exact (proj2 (evaluateStringTemplate_fills_placeholders
                  (VObj [("name", VStr "John")]) "Name: " " name " "!" eq_refl)
               ltac:(discriminate) eq_refl eq_refl eq_refl).
Defined.

(** ** Transform: fields and rename *)

Section transform_steps.
Context {platform : Platform}.

(** [transformRecord] on an object of plain data, for a configuration
    without computed fields whose selection and new names are no name of an
    inherited member. *)
Lemma transformRecord_without_computed :
  forall record_fields config,
    names_free (VObj record_fields) = true ->
    is_nullish config = false ->
    fields_ok (get_prop config "fields") ->
    (forall names, get_prop config "fields" = VArr names ->
                   Forall (fun name => name <> VStr "__proto__") names) ->
    truthy (get_prop config "computed") = false ->
    (forall entries,
        Object_entries (get_prop config "rename") = Ok entries ->
        truthy (get_prop config "rename") = true ->
        no_inherited (narrowed record_fields (get_prop config "fields")) /\
        Forall (fun kn => inherited (ToString (snd kn)) = false) entries) ->
    TransformRule.transformRecord (VObj record_fields) config
    = ([], Ok (VObj (renamed (narrowed record_fields (get_prop config "fields"))
                             (get_prop config "rename")))).
Proof.
  intros record_fields config Hrecord Hconfig Hfields Hnames Hcomputed Hrename.
  unfold TransformRule.transformRecord, get_member.
  rewrite (deepClone_plain _ Hrecord), bind_lift_Ok.
  rewrite Hconfig, Hcomputed. cbn [rbind].
  set (fields := get_prop config "fields") in *.
  set (rename := get_prop config "rename") in *.
  assert (Hstep1 :
    (if truthy fields then
       match fields with
       | VArr items => TransformRule.select_fields (VObj record_fields) items (VObj [])
       | _ => TypeError "config.fields.forEach is not a function"
       end
     else Ok (VObj record_fields))
    = Ok (VObj (narrowed record_fields fields))).
  { destruct Hfields as [Hfalsy | (names & Hfs & Hstr)].
    - rewrite Hfalsy. unfold narrowed.
      destruct fields; try discriminate; reflexivity.
    - rewrite Hfs. cbn [truthy]. rewrite select_fields_object; auto. }
  rewrite Hstep1. unfold lift at 1. unfold bind at 1. unfold ret at 1. unfold bind at 1.
  unfold renamed.
  destruct (truthy rename) eqn:Htruthy.
  - destruct (Object_entries rename) as [rs|e] eqn:Hentries.
    + destruct (Hrename rs eq_refl eq_refl) as [Hfree Hnew].
      unfold lift, rbind. now rewrite rename_fields_object.
    + destruct rename; simpl in Htruthy, Hentries; discriminate.
  - reflexivity.
Qed.

Lemma narrowed_whole :
  forall record_fields fields,
    truthy fields = false -> narrowed record_fields fields = record_fields.
Proof.
  intros record_fields fields Hfalsy. unfold narrowed.
  destruct fields; try discriminate; reflexivity.
Qed.

Lemma plain_path_not_proto :
  forall record_fields name,
    plain_path (VObj record_fields) (split_on "."%char name) = true ->
    name <> "__proto__"%string.
Proof. intros record_fields name H ->. discriminate H. Qed.

(** X12: [rename: {old: new}] on an object that has the property [old] moves
    its value to [new] and removes [old]; the other properties keep their
    values.  When [new] is [old] itself the property is removed, and an
    object without the property [old] is returned as it is.  (The record and
    the new name use no name of an inherited member.) *)
Theorem rename_moves_the_value :
  forall record_fields old new config,
    names_free (VObj record_fields) = true ->
    inherited new = false ->
    is_nullish config = false ->
    truthy (get_prop config "fields") = false ->
    truthy (get_prop config "computed") = false ->
    get_prop config "rename" = VObj [(old, VStr new)] ->
    exists renamed_fields,
      TransformRule.transformRecord (VObj record_fields) config
      = ([], Ok (VObj renamed_fields)) /\
      (assoc old record_fields = None -> renamed_fields = record_fields) /\
      (forall v, assoc old record_fields = Some v ->
         assoc old renamed_fields = None /\
         (new <> old -> assoc new renamed_fields = Some v) /\
         (forall k, k <> old -> k <> new ->
                    assoc k renamed_fields = assoc k record_fields)).
Proof.
  intros record_fields old new config Hrecord Hnew Hconfig Hfields Hcomputed Hrename.
  rewrite transformRecord_without_computed; try assumption.
  2: now left.
  2: { intros names Hnames. rewrite Hnames in Hfields. discriminate Hfields. }
  2: { intros entries Hentries _. rewrite (narrowed_whole _ _ Hfields).
       split; [now apply names_free_no_inherited|].
       rewrite Hrename in Hentries. injection Hentries as <-.
       constructor; [exact Hnew | constructor]. }
  rewrite Hrename, (narrowed_whole _ _ Hfields).
  eexists. split; [reflexivity|]. unfold renamed. cbn -[obj_set obj_delete assoc].
  split.
  - intros Hold. now rewrite Hold.
  - intros v Hold. rewrite Hold. split; [|split].
    + now rewrite assoc_obj_delete, String.eqb_refl.
    + intros Hne. rewrite assoc_obj_delete, assoc_obj_set, String.eqb_refl.
      apply not_eq_sym, String.eqb_neq in Hne. now rewrite Hne.
    + intros k Hk Hk'. rewrite assoc_obj_delete, assoc_obj_set.
      apply not_eq_sym, String.eqb_neq in Hk. apply not_eq_sym, String.eqb_neq in Hk'.
      now rewrite Hk, Hk'.
Qed.

Lemma narrowed_selects :
  forall record_fields names o k,
    assoc k (fold_left
               (fun o name =>
                  match name with
                  | VStr p =>
                      let v := FunctionalUtils.getNestedProperty
                                 (VObj record_fields) p VUndefined in
                      if is_undefined v then o else obj_set o p v
                  | _ => o
                  end) (map VStr names) o)
    = if existsb (String.eqb k) names
         && negb (is_undefined
                    (FunctionalUtils.getNestedProperty (VObj record_fields) k VUndefined))
      then Some (FunctionalUtils.getNestedProperty (VObj record_fields) k VUndefined)
      else assoc k o.
Proof.
  intros record_fields names. induction names as [|p rest IH]; intros o k; simpl.
  - reflexivity.
  - rewrite IH. clear IH.
    destruct (existsb (String.eqb k) rest
              && negb (is_undefined
                         (FunctionalUtils.getNestedProperty
                            (VObj record_fields) k VUndefined))) eqn:Hrest.
    + apply andb_true_iff in Hrest. destruct Hrest as [-> ->].
      now rewrite orb_true_r.
    + destruct (String.eqb k p) eqn:Hkp; simpl.
      * apply String.eqb_eq in Hkp. subst p.
        destruct (is_undefined _) eqn:Hu; simpl; [reflexivity|].
        now rewrite assoc_obj_set, String.eqb_refl.
      * rewrite Hrest.
        destruct (is_undefined (FunctionalUtils.getNestedProperty
                                  (VObj record_fields) p VUndefined)); [reflexivity|].
        rewrite assoc_obj_set. rewrite String.eqb_sym in Hkp. now rewrite Hkp.
Qed.

(** X13: [fields: [...]] builds a new object with one flat property for every
    listed path whose value in the record is not [undefined], under the path
    itself as its name (a dotted path is not nested again), and with nothing
    else; an empty list gives the empty object.  (The record uses no name of
    an inherited member, and the listed paths lead through plain objects.) *)
Theorem fields_selects_paths :
  forall record_fields names config,
    names_free (VObj record_fields) = true ->
    forallb (fun n => plain_path (VObj record_fields) (split_on "."%char n)) names = true ->
    is_nullish config = false ->
    get_prop config "fields" = VArr (map VStr names) ->
    truthy (get_prop config "computed") = false ->
    truthy (get_prop config "rename") = false ->
    exists selected,
      TransformRule.transformRecord (VObj record_fields) config
      = ([], Ok (VObj selected)) /\
      (names = [] -> selected = []) /\
      forall k,
        assoc k selected
        = if existsb (String.eqb k) names
          then match FunctionalUtils.getNestedProperty (VObj record_fields) k VUndefined with
               | VUndefined => None
               | v => Some v
               end
          else None.
Proof.
  intros record_fields names config Hrecord Hpaths Hconfig Hfields Hcomputed Hrename.
  rewrite transformRecord_without_computed; try assumption.
  3: { intros names' Hnames'. rewrite Hfields in Hnames'. injection Hnames' as <-.
       apply Forall_forall. intros v Hv. apply in_map_iff in Hv.
       destruct Hv as (s & <- & Hs). rewrite forallb_forall in Hpaths.
       intros [= ->]. exact (plain_path_not_proto record_fields _ (Hpaths _ Hs) eq_refl). }
  3: { intros entries _ Htruthy. rewrite Hrename in Htruthy. discriminate Htruthy. }
  - rewrite Hfields. unfold renamed. rewrite Hrename.
    eexists. split; [reflexivity|]. split.
    + now intros ->.
    + intros k. unfold narrowed. rewrite narrowed_selects.
      destruct (existsb (String.eqb k) names); simpl; [|reflexivity].
      now destruct (FunctionalUtils.getNestedProperty (VObj record_fields) k VUndefined).
  - right. exists (map VStr names). split; [assumption|].
    apply Forall_forall. intros v Hv. apply in_map_iff in Hv.
    destruct Hv as (s & <- & _). exact I.
Qed.

Lemma map_records_length :
  forall config records out transformed,
    TransformRule.map_records config records = (out, Ok transformed) ->
    List.length transformed = List.length records.
Proof.
  intros config. induction records as [|r rest IH]; simpl; intros out transformed H.
  - injection H as _ <-. reflexivity.
  - unfold bind in H.
    destruct (TransformRule.transformRecord r config) as [out1 [r'|e]]; [|discriminate].
    destruct (TransformRule.map_records config rest) as [out2 [rs|e]] eqn:Hrest;
      [|discriminate].
    simpl in H. injection H as _ <-. simpl. f_equal. eapply IH. reflexivity.
Qed.

(** X14: Transform changes records one by one: whenever it returns, it
    returns an array with as many records as the input.  A configuration that
    sets none of [fields], [computed] and [rename] returns the records as
    they are (records that use no name of an inherited member), objects or
    not. *)
Theorem transform_keeps_count :
  forall records config,
    (forall out result,
        TransformRule.execute (VArr records) config = (out, Ok result) ->
        exists transformed,
          result = VArr transformed /\ List.length transformed = List.length records) /\
    (names_free (VArr records) = true ->
     is_nullish config = false ->
     truthy (get_prop config "fields") = false ->
     truthy (get_prop config "computed") = false ->
     truthy (get_prop config "rename") = false ->
     TransformRule.execute (VArr records) config = ([], Ok (VArr records))).
Proof.
  intros records config. split.
  - intros out result H. unfold TransformRule.execute, bind in H.
    destruct (TransformRule.map_records config records) as [out1 [rs|e]] eqn:Hmap;
      [|discriminate].
    simpl in H. injection H as _ <-. exists rs. split; [reflexivity|].
    eapply map_records_length. exact Hmap.
  - intros Hrecords Hconfig Hfields Hcomputed Hrename.
    assert (Hone : forall r, names_free r = true ->
                             TransformRule.transformRecord r config = ([], Ok r)).
    { intros r Hr. unfold TransformRule.transformRecord, get_member.
      rewrite (deepClone_plain _ Hr), bind_lift_Ok.
      rewrite Hconfig. cbn [rbind]. now rewrite Hfields, Hcomputed, Hrename. }
    unfold TransformRule.execute.
    assert (Hmap : TransformRule.map_records config records = ([], Ok records)).
    { induction records as [|r rest IH]; simpl; [reflexivity|].
      cbn [names_free forallb] in Hrecords. apply andb_true_iff in Hrecords.
      destruct Hrecords as [Hr Hrest]. rewrite (Hone _ Hr), IH; [reflexivity | exact Hrest]. }
    now rewrite Hmap.
Qed.

End transform_steps.

Lemma rename_moves_the_value_witness :
  exists renamed_fields,
    @TransformRule.transformRecord sample_platform
      (VObj [("name", VStr "John"); ("age", VNum 30)])
      (VObj [("rename", VObj [("name", VStr "name")])])
    = ([], Ok (VObj renamed_fields)) /\
    assoc "name" renamed_fields = None.
Proof.
  destruct (@rename_moves_the_value sample_platform
              [("name", VStr "John"); ("age", VNum 30)] "name" "name"
              (VObj [("rename", VObj [("name", VStr "name")])])
              eq_refl eq_refl eq_refl eq_refl eq_refl eq_refl)
    as (renamed_fields & Hrun & _ & Hsome).
  exists renamed_fields. split; [exact Hrun|].
  exact (proj1 (Hsome (VStr "John") eq_refl)).
Defined.

Lemma fields_selects_paths_witness :
  exists selected,
    @TransformRule.transformRecord sample_platform
      (VObj [("name", VStr "John"); ("user", VObj [("id", VNum 7)])])
      (VObj [("fields", VArr [VStr "user.id"; VStr "email"])])
    = ([], Ok (VObj selected)) /\
    assoc "user.id" selected = Some (VNum 7) /\
    assoc "email" selected = None /\
    assoc "name" selected = None.
Proof.
  destruct (@fields_selects_paths sample_platform
              [("name", VStr "John"); ("user", VObj [("id", VNum 7)])]
              ["user.id"; "email"]%string
              (VObj [("fields", VArr [VStr "user.id"; VStr "email"])])
              eq_refl eq_refl eq_refl eq_refl eq_refl eq_refl)
    as (selected & Hrun & _ & Hkeys).
  exists selected. split; [exact Hrun|].
  split; [exact (Hkeys "user.id"%string)|].
  split; [exact (Hkeys "email"%string) | exact (Hkeys "name"%string)].
Defined.

Lemma transform_keeps_count_witness :
  @TransformRule.execute sample_platform (VArr [VNum 1; VNull; VObj []]) (VObj [])
  = ([], Ok (VArr [VNum 1; VNull; VObj []])).
Proof.
  exact (proj2 (@transform_keeps_count sample_platform [VNum 1; VNull; VObj []] (VObj []))
               eq_refl eq_refl eq_refl eq_refl eq_refl).
Defined.

(** ** RuleRegistry *)

Lemma Map_get_set :
  forall rules key key' r,
    RuleRegistry.Map_get (RuleRegistry.Map_set rules key r) key'
    = if String.eqb key key' then Some r else RuleRegistry.Map_get rules key'.
Proof.
  induction rules as [|[k r0] rest IH]; intros key key' r; simpl.
  - reflexivity.
  - destruct (String.eqb k key) eqn:Hk; simpl.
    + apply String.eqb_eq in Hk. subst k. now destruct (String.eqb key key').
    + rewrite IH. destruct (String.eqb k key') eqn:Hk'; [|reflexivity].
      apply String.eqb_eq in Hk'. subst k. rewrite String.eqb_sym in Hk. now rewrite Hk.
Qed.

Lemma Map_set_keys :
  forall rules key r,
    map fst (RuleRegistry.Map_set rules key r)
    = if RuleRegistry.Map_has rules key then map fst rules else map fst rules ++ [key].
Proof.
  unfold RuleRegistry.Map_has.
  induction rules as [|[k r0] rest IH]; intros key r; simpl.
  - reflexivity.
  - destruct (String.eqb k key) eqn:Hk; simpl.
    + reflexivity.
    + rewrite IH. now destruct (RuleRegistry.Map_get rest key).
Qed.

Lemma Map_get_unregister :
  forall rules t t',
    RuleRegistry.Map_get (RuleRegistry.unregisterRule rules t) t'
    = if String.eqb t t' then None else RuleRegistry.Map_get rules t'.
Proof.
  unfold RuleRegistry.unregisterRule.
  induction rules as [|[k r0] rest IH]; intros t t'; simpl.
  - now destruct (String.eqb t t').
  - destruct (String.eqb k t) eqn:Hk; simpl.
    + apply String.eqb_eq in Hk. subst k. rewrite IH. now destruct (String.eqb t t').
    + rewrite IH. destruct (String.eqb k t') eqn:Hk'; [|reflexivity].
      apply String.eqb_eq in Hk'. subst k. rewrite String.eqb_sym in Hk. now rewrite Hk.
Qed.

(** X15: what is registered is found, and what is unregistered is gone.
    [registerRule] always returns; afterwards [getRule] of the type of the
    rule is that rule, every other type is as before, and the types keep their
    order (a type that is new comes last; a type that was there keeps its place,
    and a warning is written).  After [unregisterRule] of a type, [getRule]
    and [hasRule] do not find it, and every other type is as before. *)
Theorem registry_round_trip :
  forall rules ruleInstance t,
    (exists out rules',
        RuleRegistry.registerRule rules ruleInstance = (out, Ok rules') /\
        RuleRegistry.getRule rules' (type ruleInstance) = Some ruleInstance /\
        (forall t', t' <> type ruleInstance ->
                    RuleRegistry.getRule rules' t' = RuleRegistry.getRule rules t') /\
        RuleRegistry.getRuleTypes rules'
        = (if RuleRegistry.hasRule rules (type ruleInstance)
           then RuleRegistry.getRuleTypes rules
           else RuleRegistry.getRuleTypes rules ++ [type ruleInstance]) /\
        (RuleRegistry.hasRule rules (type ruleInstance) = true <->
         In (console_warn [CText ("Rule type '" ++ type ruleInstance ++
                                  "' is already registered. Overwriting.")%string]) out)) /\
    RuleRegistry.getRule (RuleRegistry.unregisterRule rules t) t = None /\
    RuleRegistry.hasRule (RuleRegistry.unregisterRule rules t) t = false /\
    (forall t', t' <> t ->
                RuleRegistry.getRule (RuleRegistry.unregisterRule rules t) t'
                = RuleRegistry.getRule rules t').
Proof.
  intros rules ruleInstance t. split; [|split; [|split]].
  - unfold RuleRegistry.registerRule, RuleRegistry.hasRule, RuleRegistry.getRule,
      RuleRegistry.getRuleTypes.
    destruct (RuleRegistry.Map_has rules (type ruleInstance)) eqn:Hhas;
      unfold bind, warn, ret; simpl; eexists; eexists;
        (split; [reflexivity|]); rewrite Map_get_set, String.eqb_refl;
        (split; [reflexivity|]); (split; [|split]).
    + intros t' Ht'. rewrite Map_get_set.
      apply not_eq_sym, String.eqb_neq in Ht'. now rewrite Ht'.
    + now rewrite Map_set_keys, Hhas.
    + split; [intros _; now left | reflexivity].
    + intros t' Ht'. rewrite Map_get_set.
      apply not_eq_sym, String.eqb_neq in Ht'. now rewrite Ht'.
    + now rewrite Map_set_keys, Hhas.
    + split; [discriminate|]. intros [H|[]]. discriminate.
  - unfold RuleRegistry.getRule. now rewrite Map_get_unregister, String.eqb_refl.
  - unfold RuleRegistry.hasRule, RuleRegistry.Map_has.
    now rewrite Map_get_unregister, String.eqb_refl.
  - intros t' Ht'. unfold RuleRegistry.getRule. rewrite Map_get_unregister.
    apply not_eq_sym, String.eqb_neq in Ht'. now rewrite Ht'.
Qed.

Section registry_order.
Context {platform : Platform}.

(** X16: [getRulesByPriority] returns every registered rule once, in
    ascending order of priority, and of two rules with the same priority the
    one registered first comes first.  For the five rules the order is
    Include, Exclude, Sort, Transform, Limit. *)
Theorem getRulesByPriority_sorted :
  forall rules,
    (exists sorted,
        RuleRegistry.getRulesByPriority rules = Ok sorted /\
        Permutation (RuleRegistry.getAllRules rules) sorted /\
        StronglySorted (fun a b => (priority a <= priority b)%Z) sorted /\
        (forall p q x y,
            (p < q)%nat ->
            nth_error (RuleRegistry.getAllRules rules) p = Some x ->
            nth_error (RuleRegistry.getAllRules rules) q = Some y ->
            (priority x <= priority y)%Z ->
            before x y sorted)) /\
    rmap (map name) (RuleRegistry.getRulesByPriority RuleRegistry.builtin_rules)
    = Ok ["Include"; "Exclude"; "Sort"; "Transform"; "Limit"]%string.
Proof.
  intros rules. split; [|reflexivity].
  unfold RuleRegistry.getRulesByPriority.
  change (fun a b : Rule => Ok (priority a - priority b)%Z) with (cmp_by priority).
  destruct (stable_sort_returns _ (cmp_by priority) (fun a b => ex_intro _ _ eq_refl)
              (RuleRegistry.getAllRules rules)) as [sorted Hsorted].
  exists sorted. split; [exact Hsorted|]. split; [|split].
  - exact (stable_sort_permutation _ _ _ _ Hsorted).
  - exact (stable_sort_sorted _ _ _ _ Hsorted).
  - intros p q x y Hpq Hx Hy Hle.
    apply (stable_sort_stable _ _ _ _ Hsorted p q x y (priority x - priority y)%Z);
      try assumption; [reflexivity | lia].
Qed.

Lemma Map_get_absent :
  forall rules key,
    ~ In key (map fst rules) -> RuleRegistry.Map_get rules key = None.
Proof.
  induction rules as [|[k r] rest IH]; simpl; intros key Hkey; [reflexivity|].
  destruct (String.eqb k key) eqn:Hk.
  - apply String.eqb_eq in Hk. tauto.
  - apply IH. tauto.
Qed.

Lemma Map_set_absent :
  forall rules key r,
    ~ In key (map fst rules) -> RuleRegistry.Map_set rules key r = rules ++ [(key, r)].
Proof.
  induction rules as [|[k r0] rest IH]; simpl; intros key r Hkey; [reflexivity|].
  destruct (String.eqb k key) eqn:Hk.
  - apply String.eqb_eq in Hk. tauto.
  - rewrite IH by tauto. reflexivity.
Qed.

Lemma registerRules_new :
  forall instances rules,
    NoDup (map type instances) ->
    (forall r, In r instances -> ~ In (type r) (map fst rules)) ->
    snd (RuleRegistry.registerRules rules instances)
    = Ok (rules ++ map (fun r => (type r, r)) instances).
Proof.
  induction instances as [|r rest IH]; intros rules Hnd Hnew; simpl.
  - now rewrite app_nil_r.
  - inversion Hnd as [|? ? Hr Hrest]; subst.
    unfold RuleRegistry.registerRule, RuleRegistry.Map_has.
    rewrite Map_get_absent by (apply Hnew; now left).
    rewrite Map_set_absent by (apply Hnew; now left).
    unfold bind at 2. unfold ret at 1. unfold bind at 1. cbn [app].
    destruct (RuleRegistry.registerRules (rules ++ [(type r, r)]) rest) as [out res] eqn:Hrun.
    cbn [snd]. change res with (snd (out, res)). rewrite <- Hrun.
    rewrite IH; [now rewrite <- app_assoc | assumption |].
    intros r' Hr' Hin. rewrite map_app in Hin. apply in_app_or in Hin.
    destruct Hin as [Hin|[Hin|[]]].
    + apply (Hnew r'); [now right | assumption].
    + simpl in Hin. apply Hr. rewrite Hin. now apply in_map.
Qed.

(** X17: registering rules of pairwise different types in a registry that
    [clearRules] has emptied gives the registry of these rules in the order of
    the registrations, whatever was registered before.  [autoRegisterRules] so
    builds the registry of the five rules, and running it again leaves that
    registry as it is. *)
Theorem registerRules_builds_the_registry :
  (forall rules instances,
      NoDup (map type instances) ->
      snd (RuleRegistry.registerRules (RuleRegistry.clearRules rules) instances)
      = Ok (map (fun r => (type r, r)) instances)) /\
  (forall rules,
      snd (RuleRegistry.autoRegisterRules (RuleRegistry.clearRules rules))
      = Ok RuleRegistry.builtin_rules) /\
  snd (RuleRegistry.autoRegisterRules RuleRegistry.builtin_rules)
  = Ok RuleRegistry.builtin_rules.
Proof.
  split; [|split; reflexivity].
  intros rules instances Hnd. unfold RuleRegistry.clearRules.
  now rewrite registerRules_new.
Qed.

End registry_order.

(** ** A condition that validates is processed *)

Lemma flat_map_nil :
  forall (A B : Type) (f : A -> list B) l,
    flat_map f l = [] -> forall x, In x l -> f x = [].
Proof.
  intros A B f. induction l as [|y r IH]; simpl; intros H x Hx; [contradiction|].
  apply app_eq_nil in H. destruct H as [Hy Hr].
  destruct Hx as [<-|Hx]; [assumption | now apply IH].
Qed.

Lemma combine_In_snd :
  forall (A B : Type) (l1 : list A) (l2 : list B) y,
    List.length l1 = List.length l2 -> In y l2 -> exists x, In (x, y) (combine l1 l2).
Proof.
  intros A B. induction l1 as [|a r IH]; intros [|b r2] y Hlen Hy; simpl in *;
    try contradiction; try discriminate.
  destruct Hy as [<-|Hy].
  - exists a. now left.
  - destruct (IH r2 y) as [x Hx]; [congruence | assumption |]. exists x. now right.
Qed.

Lemma with_index_In :
  forall (A : Type) (l : list A) x, In x l -> exists i, In (i, x) (with_index l).
Proof.
  intros A l x Hx. unfold with_index. apply combine_In_snd; [|assumption].
  now rewrite length_map, length_seq.
Qed.

Lemma isValid_validation :
  forall errs warns, isValid (validation errs warns) = true -> errs = [].
Proof.
  intros [|e errs] warns H; [reflexivity | discriminate].
Qed.

Section validated.
Context {platform : Platform}.

Lemma criteria_valid_spec :
  forall config ruleName,
    isValid (BaseRule.validateCriteriaConfig config ruleName) = true ->
    criteria_spec config.
Proof.
  intros config ruleName. unfold BaseRule.validateCriteriaConfig.
  destruct (truthy config) eqn:Htruthy; [|discriminate]. cbn [negb].
  destruct (negb (isArray config) && negb (String.eqb (typeof config) "object"));
    [discriminate|].
  destruct config; try discriminate; try (intros _; reflexivity).
  intros H. apply isValid_validation in H. simpl.
  apply Forall_forall. intros item Hitem.
  destruct (with_index_In _ _ _ Hitem) as [i Hi].
  pose proof (flat_map_nil _ _ _ _ H (i, item) Hi) as Hnil. simpl in Hnil.
  destruct item; simpl in Hnil; try discriminate; reflexivity.
Qed.

Lemma matches_defined :
  forall config, criteria_spec config ->
    forall r, BaseRule.matchesRecord r config = Ok (matches config r).
Proof.
  intros config Hspec r. destruct (matchesRecord_defined r config Hspec) as [b Hb].
  unfold matches. now rewrite Hb.
Qed.

Lemma sort_valid_keys :
  forall config v,
    SortRule.validate config = Ok v -> isValid v = true ->
    Forall is_string (SortRule.keys config).
Proof.
  intros config v H Hvalid. unfold SortRule.validate in H. injection H as <-.
  destruct (truthy config) eqn:Htruthy; [|discriminate]. cbn [negb] in Hvalid.
  destruct config; try discriminate.
  - repeat constructor.
  - apply isValid_validation in Hvalid. simpl.
    apply Forall_forall. intros key Hkey.
    destruct (with_index_In _ _ _ Hkey) as [i Hi].
    pose proof (flat_map_nil _ _ _ _ Hvalid (i, key) Hi) as Hnil. simpl in Hnil.
    destruct key; try discriminate. exact I.
Qed.

Lemma sort_runs :
  forall config records,
    Forall is_string (SortRule.keys config) ->
    exists sorted,
      SortRule.execute (VArr records) config = Ok (VArr sorted) /\
      Permutation records sorted.
Proof.
  intros config records Hkeys. unfold SortRule.execute, FunctionalUtils.sort, Array_sort.
  destruct (sort_elements_returns is_undefined
              (SortCompare (FunctionalUtils.multiKeyComparator (SortRule.keys config)))
              (FunctionalUtils.multiKeyComparator (SortRule.keys config))
              (SortCompare_returns _ (multiKeyComparator_returns _ Hkeys))
              (multiKeyComparator_returns _ Hkeys) records)
    as [sorted Hsorted].
  exists sorted. rewrite Hsorted. split; [reflexivity|].
  exact (sort_elements_permutation _ _ _ _ _ Hsorted).
Qed.

Lemma limit_valid_config :
  forall config v,
    LimitRule.validate config = Ok v -> isValid v = true -> is_nullish config = false.
Proof.
  intros config v H Hvalid. unfold LimitRule.validate in H. injection H as <-.
  destruct (is_nullish config); [discriminate | reflexivity].
Qed.

Lemma limit_runs :
  forall config (records : list value),
    is_nullish config = false ->
    exists kept,
      LimitRule.execute (VArr records) config = Ok (VArr kept) /\ incl kept records.
Proof.
  intros config records Hconfig. unfold LimitRule.execute, get_member. rewrite Hconfig.
  destruct (String.eqb (typeof config) "number"); cbn [rbind fst snd];
    eexists; (split; [reflexivity|]);
    unfold FunctionalUtils.pipe, FunctionalUtils.take, FunctionalUtils.skip; simpl;
    intros x Hx; apply Array_slice_incl in Hx; now apply Array_slice_incl in Hx.
Qed.

Lemma transform_valid_config :
  forall config v,
    TransformRule.validate config = Ok v -> isValid v = true ->
    is_nullish config = false /\ fields_ok (get_prop config "fields").
Proof.
  intros config v H Hvalid. unfold TransformRule.validate in H. injection H as <-.
  destruct (negb (truthy config) || negb (String.eqb (typeof config) "object")) eqn:Hc;
    [discriminate|].
  apply orb_false_elim in Hc. destruct Hc as [Htruthy _].
  apply negb_false_iff in Htruthy.
  split; [destruct config; try discriminate; reflexivity|].
  apply isValid_validation in Hvalid. apply app_eq_nil in Hvalid.
  destruct Hvalid as [Hfields _].
  destruct (is_nullish (get_prop config "fields")) eqn:Hnull.
  - left. destruct (get_prop config "fields"); try discriminate; reflexivity.
  - right. destruct (get_prop config "fields") as [| | | | |items| |]; try discriminate.
    exists items. split; [reflexivity|].
    apply Forall_forall. intros item Hitem.
    destruct (with_index_In _ _ _ Hitem) as [i Hi].
    pose proof (flat_map_nil _ _ _ _ Hfields (i, item) Hi) as Hnil. simpl in Hnil.
    destruct item; try discriminate. exact I.
Qed.

Lemma truthy_entries :
  forall v, truthy v = true -> exists entries, Object_entries v = Ok entries.
Proof.
  intros v Hv. destruct v; try discriminate; simpl; eexists; reflexivity.
Qed.

Lemma transformRecord_runs :
  forall record_fields config,
    names_free (VObj record_fields) = true ->
    names_free config = true ->
    is_nullish config = false ->
    fields_ok (get_prop config "fields") ->
    exists out o,
      TransformRule.transformRecord (VObj record_fields) config = (out, Ok (VObj o)).
Proof.
  intros record_fields config Hrecord Hfree Hconfig Hfields.
  unfold TransformRule.transformRecord, get_member.
  rewrite (deepClone_plain _ Hrecord), bind_lift_Ok.
  rewrite Hconfig. cbn [rbind].
  pose proof (names_free_get_prop config "fields" Hfree) as Hf.
  pose proof (narrowed_no_inherited record_fields _ Hrecord Hf) as Hnarrowed.
  set (fields := get_prop config "fields") in *.
  assert (Hstep1 :
    (if truthy fields then
       match fields with
       | VArr items => TransformRule.select_fields (VObj record_fields) items (VObj [])
       | _ => TypeError "config.fields.forEach is not a function"
       end
     else Ok (VObj record_fields))
    = Ok (VObj (narrowed record_fields fields))).
  { destruct Hfields as [Hfalsy | (names & Hnames & Hstr)].
    - rewrite Hfalsy. unfold narrowed.
      destruct fields; try discriminate; reflexivity.
    - rewrite Hnames in *. cbn [truthy].
      rewrite select_fields_object; auto using names_not_proto. }
  rewrite Hstep1.
  pose proof (names_free_get_prop config "computed" Hfree) as Hc.
  pose proof (names_free_get_prop config "rename" Hfree) as Hr.
  assert (Hnew : forall rentries,
            Object_entries (get_prop config "rename") = Ok rentries ->
            Forall (fun kn : string * value => inherited (ToString (snd kn)) = false)
                   rentries).
  { intros rentries He. pose proof (names_free_entries _ _ Hr He) as Hrs.
    apply Forall_forall. intros kn Hin. rewrite Forall_forall in Hrs.
    apply ToString_names_free. now apply Hrs. }
  destruct (truthy (get_prop config "computed")) eqn:Hcomputed;
    destruct (truthy (get_prop config "rename")) eqn:Hrename;
    try (destruct (truthy_entries _ Hcomputed) as [centries Hce];
         pose proof (names_free_entry_keys _ _ Hc Hce) as Hkeys; rewrite Hce);
    try (destruct (truthy_entries _ Hrename) as [rentries Hre];
         pose proof (Hnew _ Hre) as Hnames; rewrite Hre);
    unfold lift, bind, ret, rbind;
    rewrite ?compute_fields_object by assumption; cbv beta iota;
    rewrite ?rename_fields_object
      by (try apply with_computed_no_inherited; assumption);
    eexists; eexists; reflexivity.
Qed.

Lemma transform_runs :
  forall config records,
    names_free config = true ->
    names_free (VArr records) = true ->
    is_nullish config = false ->
    fields_ok (get_prop config "fields") ->
    Forall is_object records ->
    exists out transformed,
      TransformRule.execute (VArr records) config = (out, Ok (VArr transformed)) /\
      Forall is_object transformed.
Proof.
  intros config records Hfree Hplain Hconfig Hfields Hrecords. unfold TransformRule.execute.
  assert (Hmap : exists out transformed,
             TransformRule.map_records config records = (out, Ok transformed) /\
             Forall is_object transformed).
  { induction Hrecords as [|r rest Hr _ IH]; simpl.
    - exists [], []. split; [reflexivity | constructor].
    - destruct r; simpl in Hr; try contradiction.
      cbn [names_free forallb] in Hplain. apply andb_true_iff in Hplain.
      destruct Hplain as [Hone Hrest].
      destruct (transformRecord_runs fields config Hone Hfree Hconfig Hfields)
        as (out1 & o & ->).
      destruct (IH Hrest) as (out2 & rs & -> & Hrs).
      unfold bind, ret. simpl. eexists. eexists. split; [reflexivity|].
      constructor; [exact I | assumption]. }
  destruct Hmap as (out & transformed & -> & Hobjects).
  unfold bind, ret. simpl. eexists. eexists. split; [reflexivity | assumption].
Qed.

Lemma Forall_incl :
  forall (A : Type) (P : A -> Prop) l l', incl l' l -> Forall P l -> Forall P l'.
Proof.
  intros A P l l' Hincl H. rewrite Forall_forall in *. auto.
Qed.

(** Each of the five rules, on an array of objects and a configuration its
    [validate] accepts, returns an array of objects. *)
Lemma builtin_rule_runs :
  forall t rule config records,
    RuleRegistry.getRule RuleRegistry.builtin_rules t = Some rule ->
    accepts rule config ->
    Forall is_object records ->
    (t = "transform"%string ->
     names_free config = true /\ names_free (VArr records) = true) ->
    exists out records',
      execute rule (VArr records) config = (out, Ok (VArr records')) /\
      Forall is_object records' /\
      (t <> "transform"%string -> incl records' records).
Proof.
  intros t rule config records Hrule (v & Hv & Hvalid) Hrecords Hplain.
  unfold RuleRegistry.getRule, RuleRegistry.builtin_rules in Hrule.
  cbn [RuleRegistry.Map_get] in Hrule.
  assert (Hkept : forall out kept,
            incl kept records ->
            execute rule (VArr records) config = (out, Ok (VArr kept)) ->
            exists out records',
              execute rule (VArr records) config = (out, Ok (VArr records')) /\
              Forall is_object records' /\
              (t <> "transform"%string -> incl records' records)).
  { intros out kept Hincl Hrun. exists out, kept. split; [exact Hrun|].
    split; [eapply Forall_incl; eassumption | now intros _]. }
  destruct (String.eqb "include" t);
    [|destruct (String.eqb "exclude" t);
      [|destruct (String.eqb "sortBy" t);
        [|destruct (String.eqb "limit" t);
          [|destruct (String.eqb_spec "transform" t) as [Ht|_]; [|discriminate]]]]];
    injection Hrule as <-; cbn [execute validate IncludeRule.rule ExcludeRule.rule
                                  SortRule.rule LimitRule.rule TransformRule.rule] in *.
  - injection Hv as <-. apply criteria_valid_spec in Hvalid.
    eapply Hkept;
      [|rewrite (include_on records config) by (intros r _; now apply matches_defined);
        reflexivity].
    intros r Hr. apply filter_In in Hr. tauto.
  - injection Hv as <-. apply criteria_valid_spec in Hvalid.
    eapply Hkept;
      [|rewrite (exclude_on records config) by (intros r _; now apply matches_defined);
        reflexivity].
    intros r Hr. apply filter_In in Hr. tauto.
  - destruct (sort_runs config records (sort_valid_keys _ _ Hv Hvalid))
      as (sorted & Hrun & Hperm).
    eapply Hkept; [|rewrite Hrun; reflexivity].
    intros r Hr. eapply Permutation_in; [apply Permutation_sym; exact Hperm | exact Hr].
  - destruct (limit_runs config records (limit_valid_config _ _ Hv Hvalid))
      as (kept & Hrun & Hincl).
    eapply Hkept; [exact Hincl | rewrite Hrun; reflexivity].
  - destruct (transform_valid_config _ _ Hv Hvalid) as [Hconfig Hfields].
    destruct (Hplain (eq_sym Ht)) as [Hfree Hnames].
    destruct (transform_runs config records Hfree Hnames Hconfig Hfields Hrecords)
      as (out & transformed & Hrun & Hobjects).
    exists out, transformed. split; [exact Hrun|]. split; [exact Hobjects|].
    intros Hne. now elim Hne.
Qed.

End validated.

Section valid_condition.
Context {platform : Platform}.

Lemma executeRule_runs :
  forall t config records,
    (exists rule, RuleRegistry.getRule RuleRegistry.builtin_rules t = Some rule /\
                  accepts rule config) ->
    Forall is_object records ->
    (t = "transform"%string ->
     names_free config = true /\ names_free (VArr records) = true) ->
    exists out records',
      RuleRegistry.executeRule RuleRegistry.builtin_rules t (VArr records) config
      = (out, Ok (VArr records')) /\
      Forall is_object records' /\
      (t <> "transform"%string -> incl records' records).
Proof.
  intros t config records (rule & Hrule & Haccepts) Hrecords Hplain.
  destruct (builtin_rule_runs t rule config records Hrule Haccepts Hrecords Hplain)
    as (out & records' & Hrun & Hobjects).
  destruct Haccepts as (v & Hv & Hvalid).
  unfold RuleRegistry.executeRule. rewrite Hrule, Hv.
  unfold lift at 1. unfold bind at 1. rewrite Hvalid. cbn [negb].
  destruct (0 <? List.length (warnings v))%nat;
    unfold warn, ret, bind; rewrite Hrun; eexists; eexists; (split; [reflexivity|]);
      assumption.
Qed.

Lemma names_free_incl :
  forall records records',
    incl records' records -> names_free (VArr records) = true ->
    names_free (VArr records') = true.
Proof.
  intros records records' Hincl H. cbn [names_free] in *. rewrite forallb_forall in *.
  auto.
Qed.

(** The rules of a condition run one after the other.  Transform is the rule
    that clones the records: it runs once, and the rules before it leave the
    records they keep as they are. *)
Lemma execute_rules_run :
  forall entries records applied,
    (forall t c, In (t, c) entries ->
       exists rule, RuleRegistry.getRule RuleRegistry.builtin_rules t = Some rule /\
                    accepts rule c) ->
    (forall t c, In (t, c) entries -> names_free c = true) ->
    NoDup (map fst entries) ->
    names_free (VArr records) = true \/ ~ In "transform"%string (map fst entries) ->
    Forall is_object records ->
    exists out records' applied',
      DataProcessor.execute_rules RuleRegistry.builtin_rules entries (VArr records) applied
      = (out, Ok (VArr records', applied')) /\
      Forall is_object records'.
Proof.
  induction entries as [|[t c] rest IH];
    intros records applied Hentries Hfree Hnodup Hplain Hrecords.
  - exists [], records, applied. split; [reflexivity | assumption].
  - rewrite execute_rules_cons. inversion Hnodup as [|? ? Hfresh Hrest]; subst.
    destruct (executeRule_runs t c records (Hentries t c (or_introl eq_refl)) Hrecords)
      as (out1 & records1 & -> & Hrecords1 & Hkept).
    { intros ->. split; [now apply (Hfree "transform"%string c); left|].
      destruct Hplain as [Hplain|Hnone]; [exact Hplain|].
      elim Hnone. now left. }
    destruct (IH records1
                (applied ++ [applied_entry RuleRegistry.builtin_rules (t, c)])
                (fun t' c' H => Hentries t' c' (or_intror H))
                (fun t' c' H => Hfree t' c' (or_intror H)) Hrest)
      as (out2 & records2 & applied2 & -> & Hrecords2); [|assumption|].
    { destruct (String.eqb_spec t "transform") as [->|Hne]; [now right|].
      destruct Hplain as [Hplain|Hnone].
      - left. eapply names_free_incl; [apply Hkept; exact Hne | exact Hplain].
      - right. intros Hin. apply Hnone. now right. }
    eexists. eexists. eexists. split; [reflexivity | assumption].
Qed.

Lemma builtin_validate_consistent :
  forall t rule config v,
    RuleRegistry.getRule RuleRegistry.builtin_rules t = Some rule ->
    validate rule config = Ok v ->
    isValid v = (List.length (errors v) =? 0)%nat.
Proof.
  intros t rule config v Hrule Hv.
  unfold RuleRegistry.getRule, RuleRegistry.builtin_rules in Hrule.
  cbn [RuleRegistry.Map_get] in Hrule.
  destruct (String.eqb "include" t);
    [|destruct (String.eqb "exclude" t);
      [|destruct (String.eqb "sortBy" t);
        [|destruct (String.eqb "limit" t);
          [|destruct (String.eqb "transform" t); [|discriminate]]]]];
    injection Hrule as <-; cbn [validate IncludeRule.rule ExcludeRule.rule
                                  SortRule.rule LimitRule.rule TransformRule.rule] in Hv.
  - injection Hv as <-. unfold BaseRule.validateCriteriaConfig.
    repeat match goal with
           | |- context [if ?c then _ else _] => destruct c
           | |- context [match ?c with VUndefined => _ | _ => _ end] => destruct c
           end; reflexivity.
  - injection Hv as <-. unfold BaseRule.validateCriteriaConfig.
    repeat match goal with
           | |- context [if ?c then _ else _] => destruct c
           | |- context [match ?c with VUndefined => _ | _ => _ end] => destruct c
           end; reflexivity.
  - injection Hv as <-.
    destruct (negb (truthy config)); [reflexivity|]. destruct config; reflexivity.
  - injection Hv as <-.
    destruct (is_nullish config); [reflexivity|].
    destruct (String.eqb (typeof config) "number"); [reflexivity|].
    destruct (String.eqb (typeof config) "object"); reflexivity.
  - injection Hv as <-.
    destruct (negb (truthy config) || negb (String.eqb (typeof config) "object"));
      reflexivity.
Qed.

Lemma builtin_validate_returns :
  forall t rule config,
    RuleRegistry.getRule RuleRegistry.builtin_rules t = Some rule ->
    exists v, validate rule config = Ok v.
Proof.
  intros t rule config Hrule.
  unfold RuleRegistry.getRule, RuleRegistry.builtin_rules in Hrule.
  cbn [RuleRegistry.Map_get] in Hrule.
  destruct (String.eqb "include" t);
    [|destruct (String.eqb "exclude" t);
      [|destruct (String.eqb "sortBy" t);
        [|destruct (String.eqb "limit" t);
          [|destruct (String.eqb "transform" t); [|discriminate]]]]];
    injection Hrule as <-; eexists; reflexivity.
Qed.

Lemma validate_entries_cons :
  forall rules t c rest errs warns,
    DataProcessor.validate_entries rules ((t, c) :: rest) errs warns
    = match RuleRegistry.getRule rules t with
      | None =>
          DataProcessor.validate_entries rules rest
            (errs ++ [("Unknown rule type: " ++ t)%string]) warns
      | Some rule =>
          rbind (validate rule c) (fun ruleValidation =>
            DataProcessor.validate_entries rules rest
              (if negb (isValid ruleValidation)
               then errs ++ map (fun err => (t ++ ": " ++ err)%string)
                                (errors ruleValidation)
               else errs)
              (warns ++ map (fun w => (t ++ ": " ++ w)%string)
                            (warnings ruleValidation)))
      end.
Proof.
  reflexivity.
Qed.

Lemma validate_entries_result :
  forall entries errs warns v,
    DataProcessor.validate_entries RuleRegistry.builtin_rules entries errs warns = Ok v ->
    isValid v = (List.length (errors v) =? 0)%nat /\
    (List.length errs <= List.length (errors v))%nat.
Proof.
  induction entries as [|[t c] rest IH]; intros errs warns v H.
  - injection H as <-. split; [reflexivity | simpl; lia].
  - rewrite validate_entries_cons in H.
    destruct (RuleRegistry.getRule RuleRegistry.builtin_rules t) as [rule|] eqn:Hrule.
    + destruct (validate rule c) as [rv|e]; [|discriminate]. cbn [rbind] in H.
      destruct (IH _ _ _ H) as [Hv Hlen]. split; [assumption|].
      destruct (negb (isValid rv)); [rewrite length_app in Hlen; lia | assumption].
    + destruct (IH _ _ _ H) as [Hv Hlen]. split; [assumption|].
      rewrite length_app in Hlen. lia.
Qed.

Lemma validate_entries_valid :
  forall entries errs warns v,
    DataProcessor.validate_entries RuleRegistry.builtin_rules entries errs warns = Ok v ->
    isValid v = true ->
    forall t c, In (t, c) entries ->
      exists rule, RuleRegistry.getRule RuleRegistry.builtin_rules t = Some rule /\
                   accepts rule c.
Proof.
  induction entries as [|[t c] rest IH]; intros errs warns v H Hvalid t' c' Hin;
    [contradiction|].
  rewrite validate_entries_cons in H.
  assert (Hnone : List.length (errors v) = 0%nat).
  { destruct (RuleRegistry.getRule RuleRegistry.builtin_rules t) as [rule|].
    - destruct (validate rule c) as [rv|e]; [|discriminate]. cbn [rbind] in H.
      destruct (validate_entries_result _ _ _ _ H) as [Hv _].
      rewrite Hvalid in Hv. symmetry in Hv. now apply Nat.eqb_eq in Hv.
    - destruct (validate_entries_result _ _ _ _ H) as [Hv _].
      rewrite Hvalid in Hv. symmetry in Hv. now apply Nat.eqb_eq in Hv. }
  destruct (RuleRegistry.getRule RuleRegistry.builtin_rules t) as [rule|] eqn:Hrule.
  - destruct (validate rule c) as [rv|e] eqn:Hrv; [|discriminate]. cbn [rbind] in H.
    destruct Hin as [Heq|Hin]; [|now apply (IH _ _ _ H Hvalid)].
    injection Heq as <- <-. exists rule. split; [assumption|].
    exists rv. split; [assumption|].
    destruct (isValid rv) eqn:Hrvalid; [reflexivity|]. exfalso.
    rewrite (builtin_validate_consistent t rule c rv Hrule Hrv) in Hrvalid.
    apply Nat.eqb_neq in Hrvalid. cbn [negb] in H.
    destruct (validate_entries_result _ _ _ _ H) as [_ Hlen].
    rewrite length_app, length_map in Hlen. lia.
  - exfalso. destruct (validate_entries_result _ _ _ _ H) as [_ Hlen].
    rewrite length_app in Hlen. simpl in Hlen. lia.
Qed.

Lemma registered_index_entries :
  forall l : list value, registered RuleRegistry.builtin_rules (index_entries l) = [].
Proof.
  intros l. unfold registered.
  assert (Hnone : forall e, In e (index_entries l) ->
            RuleRegistry.hasRule RuleRegistry.builtin_rules (fst e) = false).
  { intros [k x] Hin. cbn [fst]. unfold index_entries in Hin. apply in_combine_l in Hin.
    apply in_map_iff in Hin. destruct Hin as (i & <- & _).
    pose proof (string_of_Z_start (Z.of_nat i)) as Hstart.
    unfold RuleRegistry.hasRule, RuleRegistry.Map_has, RuleRegistry.builtin_rules.
    cbn [RuleRegistry.Map_get].
    repeat match goal with
           | |- context [String.eqb ?a ?b] =>
               destruct (String.eqb_spec a b) as [Heq|_];
               [rewrite <- Heq in Hstart; discriminate Hstart|]
           end.
    reflexivity. }
  induction (index_entries l) as [|e rest IH]; [reflexivity|].
  cbn [filter]. rewrite (Hnone e (or_introl eq_refl)).
  apply IH. intros e' He'. apply Hnone. now right.
Qed.

Lemma NoDup_keys_filter :
  forall (A : Type) (f : string * A -> bool) l,
    NoDup (map fst l) -> NoDup (map fst (filter f l)).
Proof.
  intros A f. induction l as [|e rest IH]; intros H; [constructor|].
  inversion H as [|? ? Hfresh Hrest]; subst. cbn [filter].
  destruct (f e); [|now apply IH]. cbn [map]. constructor; [|now apply IH].
  intros Hin. apply Hfresh. apply in_map_iff in Hin. destruct Hin as (e' & <- & He').
  apply filter_In in He'. apply in_map. tauto.
Qed.

(** X18: a condition that [validateCondition] accepts is carried out.  For
    the five rules and an array of records that are objects, [processData]
    then returns a result without an error, whose records are objects: no
    rule of a valid condition throws.  (The records and the condition use no
    name of an inherited member, and the keys of an object of the condition
    are pairwise different, as the own properties of an object are.) *)
Theorem valid_condition_is_processed :
  forall startTime endTime records condition v,
    DataProcessor.validateCondition RuleRegistry.builtin_rules condition = Ok v ->
    isValid v = true ->
    Forall is_object records ->
    names_free (VArr records) = true ->
    names_free condition = true ->
    unique_keys condition = true ->
    exists console r out,
      DataProcessor.processData RuleRegistry.builtin_rules startTime endTime
        (VArr records) condition = (console, Ok r) /\
      error (metadata r) = None /\
      result r = VArr out /\
      Forall is_object out.
Proof.
  intros startTime endTime records condition v Hv Hvalid Hrecords Hplain Hfree Hunique.
  unfold DataProcessor.validateCondition in Hv.
  destruct (negb (truthy condition) || negb (String.eqb (typeof condition) "object"))
    eqn:Hcond.
  { injection Hv as <-. discriminate. }
  pose proof Hcond as Hcond'.
  apply orb_false_elim in Hcond'. destruct Hcond' as [Htruthy Hobject].
  apply negb_false_iff in Htruthy, Hobject. apply String.eqb_eq in Hobject.
  destruct (ruleEntries_returns RuleRegistry.builtin_rules condition Htruthy Hobject)
    as (entries & sorted & Hentries & Hsorted & Hsort).
  rewrite Hentries in Hv. cbn [rbind] in Hv.
  assert (Hall : forall t c, In (t, c) sorted ->
            exists rule, RuleRegistry.getRule RuleRegistry.builtin_rules t = Some rule /\
                         accepts rule c).
  { intros t c Hin. apply (validate_entries_valid _ _ _ _ Hv Hvalid).
    apply (Permutation_in _ (Permutation_sym (stable_sort_permutation _ _ _ _ Hsort)))
      in Hin.
    unfold registered in Hin. apply filter_In in Hin. tauto. }
  pose proof (stable_sort_permutation _ _ _ _ Hsort) as Hperm.
  assert (Hconfigs : forall t c, In (t, c) sorted -> names_free c = true).
  { intros t c Hin. apply (Permutation_in _ (Permutation_sym Hperm)) in Hin.
    unfold registered in Hin. apply filter_In in Hin. destruct Hin as [Hin _].
    pose proof (names_free_entries _ _ Hfree Hentries) as Hall'.
    rewrite Forall_forall in Hall'. exact (Hall' _ Hin). }
  assert (Hnodup : NoDup (map fst sorted)).
  { apply (Permutation_NoDup (Permutation_map fst Hperm)).
    destruct condition as [| | | | |items|fields|]; try discriminate;
      injection Hentries as <-.
    - rewrite registered_index_entries. constructor.
    - apply NoDup_keys_filter. now apply unique_keys_object. }
  destruct (execute_rules_run sorted records [] Hall Hconfigs Hnodup (or_introl Hplain)
              Hrecords)
    as (out & records' & applied & Hrun & Hobjects).
  unfold DataProcessor.processData, DataProcessor.processData_try.
  cbn [isArray negb]. rewrite Hcond, Hsorted, (deepClone_plain _ Hplain), bind_lift_Ok.
  unfold lift at 1. unfold bind at 1. rewrite Hrun.
  eexists. eexists. exists records'. split; [reflexivity|].
  split; [reflexivity|]. split; [reflexivity | assumption].
Qed.

End valid_condition.

Lemma valid_condition_is_processed_witness :
  exists console r out,
    @DataProcessor.processData sample_platform (@RuleRegistry.builtin_rules sample_platform) 0 5
      (VArr sampleData)
      (VObj [("limit", page 2 1); ("sortBy", VStr "age");
             ("include", VArr [VObj [("status", VStr "active")]])])
    = (console, Ok r) /\
    error (metadata r) = None /\
    result r = VArr out /\
    Forall is_object out.
Proof.
  eapply (@valid_condition_is_processed sample_platform 0 5 sampleData).
  - reflexivity.
  - reflexivity.
  - repeat constructor.
  - reflexivity.
  - reflexivity.
  - reflexivity.
Defined.

(** ** Rule types that are not registered *)

Section unregistered.
Context {platform : Platform}.
Variable rules : RuleRegistry.registry.

Lemma ruleEntries_registered :
  forall fields,
    DataProcessor.ruleEntries rules (VObj fields)
    = DataProcessor.ruleEntries rules (VObj (registered rules fields)).
Proof.
  intros fields. unfold DataProcessor.ruleEntries, registered. cbn [Object_entries rbind].
  now rewrite filter_idempotent.
Qed.

Lemma validate_entries_unknown :
  forall entries errs warns,
    (forall k, In k (map fst entries) -> RuleRegistry.hasRule rules k = false) ->
    DataProcessor.validate_entries rules entries errs warns
    = Ok (validation
            (errs ++ map (fun k => ("Unknown rule type: " ++ k)%string) (map fst entries))
            warns).
Proof.
  induction entries as [|[t c] rest IH]; intros errs warns Hunknown.
  - simpl. now rewrite app_nil_r.
  - rewrite validate_entries_cons.
    pose proof (Hunknown t (or_introl eq_refl)) as Ht.
    unfold RuleRegistry.hasRule, RuleRegistry.Map_has in Ht.
    unfold RuleRegistry.getRule.
    destruct (RuleRegistry.Map_get rules t); [discriminate|].
    rewrite IH by (intros k Hk; apply Hunknown; now right).
    simpl. now rewrite <- app_assoc.
Qed.

(** X19: [processData] passes over the keys of the condition that name no
    registered rule: the result is the result for the condition without
    these keys.  When no key names a registered rule the records (which use
    no name of an inherited member) come back as they are, with no applied
    rule and no error, while [validateCondition] reports every such key as an
    unknown rule type. *)
Theorem unregistered_rules_are_skipped :
  forall startTime endTime data fields,
    DataProcessor.processData rules startTime endTime data (VObj fields)
    = DataProcessor.processData rules startTime endTime data
        (VObj (registered rules fields)) /\
    ((forall k, In k (map fst fields) -> RuleRegistry.hasRule rules k = false) ->
     (forall records,
         data = VArr records ->
         names_free data = true ->
         DataProcessor.processData rules startTime endTime data (VObj fields)
         = ([], Ok {| result := VArr records;
                      metadata :=
                        {| inputCount := VNum (Z.of_nat (List.length records));
                           outputCount := VNum (Z.of_nat (List.length records));
                           processingTime := DataProcessor.Math_round (endTime - startTime);
                           appliedRules := [];
                           error := None |} |})) /\
     DataProcessor.validateCondition rules (VObj fields)
     = Ok (validation
             (map (fun k => ("Unknown rule type: " ++ k)%string) (map fst fields))
             (if (List.length fields =? 0)%nat
              then ["No rules specified in condition"%string] else []))).
Proof.
  intros startTime endTime data fields. split; [|intros Hunknown; split].
  - unfold DataProcessor.processData, DataProcessor.processData_try.
    cbn [truthy typeof]. now rewrite ruleEntries_registered.
  - intros records -> Hplain.
    assert (Hnone : registered rules fields = []).
    { unfold registered. induction fields as [|[k c] rest IH]; [reflexivity|].
      simpl. rewrite (Hunknown k (or_introl eq_refl)).
      apply IH. intros k' Hk'. apply Hunknown. now right. }
    unfold DataProcessor.processData, DataProcessor.processData_try.
    cbn [truthy typeof isArray negb String.eqb orb].
    rewrite ruleEntries_registered, Hnone, (deepClone_plain _ Hplain). reflexivity.
  - unfold DataProcessor.validateCondition. cbn [truthy typeof Object_entries rbind].
    change (negb true || negb (String.eqb "object" "object")) with false. cbv iota.
    now rewrite validate_entries_unknown.
Qed.

End unregistered.

Lemma unregistered_rules_are_skipped_witness :
  let fields := [("orderBy", VStr "name"); ("filter", VObj [])] in
  @DataProcessor.processData sample_platform (@RuleRegistry.builtin_rules sample_platform) 0 1
    (VArr sampleData) (VObj fields)
  = ([], Ok {| result := VArr sampleData;
               metadata := {| inputCount := VNum 4; outputCount := VNum 4;
                              processingTime := 1; appliedRules := [];
                              error := None |} |}) /\
  DataProcessor.validateCondition (@RuleRegistry.builtin_rules sample_platform) (VObj fields)
  = Ok {| isValid := false;
          errors := ["Unknown rule type: orderBy"; "Unknown rule type: filter"]%string;
          warnings := [] |}.
Proof.
  intros fields.
  assert (Hunknown : forall k, In k (map fst fields) ->
            RuleRegistry.hasRule (@RuleRegistry.builtin_rules sample_platform) k = false).
  { intros k [<-|[<-|[]]]; reflexivity. }
  destruct (proj2 (@unregistered_rules_are_skipped sample_platform
                     (@RuleRegistry.builtin_rules sample_platform) 0 1
                     (VArr sampleData) fields) Hunknown) as [Hrun Hvalidate].
  split; [exact (Hrun sampleData eq_refl eq_refl) | exact Hvalidate].
Defined.

(** ** batchProcess and createPipeline *)

Section batches.
Context {platform : Platform}.
Variable rules : RuleRegistry.registry.

Lemma batch_results :
  forall clock datasets condition index,
    (forall data v,
        In data datasets -> FunctionalUtils.deepClone data = Throw (JsThrow v) ->
        is_nullish v = false) ->
    exists console results,
      DataProcessor.batch rules clock index datasets condition = (console, Ok results) /\
      List.length results = List.length datasets /\
      forall i data,
        nth_error datasets i = Some data ->
        exists r,
          nth_error results i = Some r /\
          returned (DataProcessor.processData rules (fst (clock (index + i)%nat))
                      (snd (clock (index + i)%nat)) data condition) = Ok r.
Proof.
  intros clock datasets condition.
  induction datasets as [|data rest IH]; intros index Hclone.
  - exists [], []. split; [reflexivity|]. split; [reflexivity|].
    intros [|i] d H; discriminate.
  - destruct (processData_outcome rules (fst (clock index)) (snd (clock index))
                data condition (fun v => Hclone data v (or_introl eq_refl)))
      as (r & Hr & _).
    destruct (IH (S index) (fun d v H => Hclone d v (or_intror H)))
      as (console & results & Hrest & Hlen & Hnth).
    cbn [DataProcessor.batch]. rewrite Hr, Hrest.
    unfold bind, ret. cbn [fst snd].
    eexists. exists (r :: results). split; [reflexivity|].
    split; [simpl; now rewrite Hlen|].
    intros [|i] d Hd.
    + injection Hd as <-. exists r. split; [reflexivity|].
      rewrite Nat.add_0_r. unfold returned. now rewrite Hr.
    + destruct (Hnth i d Hd) as (r' & Hr' & Hrun). exists r'. split; [exact Hr'|].
      now rewrite Nat.add_succ_r.
Qed.


End batches.


Section pipelines.
Context {platform : Platform}.

Lemma pipeline_condition_objects :
  forall entries acc,
    Forall (fun e : string * value => inherited (fst e) = false) entries ->
    DataProcessor.pipeline_condition (map rule_object entries) (VObj acc)
    = Ok (VObj (fold_left (fun fields e => obj_set fields (fst e) (snd e)) entries acc)).
Proof.
  induction entries as [|[t c] rest IH]; intros acc Hkeys; [reflexivity|].
  inversion Hkeys as [|? ? Ht Hrest]; subst. cbn [fst] in Ht.
  cbn [map DataProcessor.pipeline_condition]. unfold rule_object at 1.
  cbn -[obj_set DataProcessor.pipeline_condition set_member].
  rewrite set_member_plain by exact Ht. cbn [rbind fst snd]. now apply IH.
Qed.

Lemma insert_index_key_permutation :
  forall (A : Type) (fields : list (string * A)) i key x,
    Permutation ((key, x) :: fields) (insert_index_key i key x fields).
Proof.
  intros A. induction fields as [|[k v] r IH]; intros i key x; simpl; [reflexivity|].
  destruct (array_index k) as [j|]; [|reflexivity].
  destruct (j <? i)%nat; [|reflexivity].
  rewrite perm_swap. now apply perm_skip.
Qed.

Lemma obj_set_permutation :
  forall (A : Type) (fields : list (string * A)) key x,
    assoc key fields = None ->
    Permutation ((key, x) :: fields) (obj_set fields key x).
Proof.
  intros A fields key x Hnew. unfold obj_set. rewrite Hnew.
  destruct (array_index key).
  - apply insert_index_key_permutation.
  - apply Permutation_cons_append.
Qed.

Lemma condition_of_permutation :
  forall (entries acc : list (string * value)),
    NoDup (map fst (acc ++ entries)) ->
    Permutation (acc ++ entries)
      (fold_left (fun fields e => obj_set fields (fst e) (snd e)) entries acc).
Proof.
  induction entries as [|[t c] rest IH]; intros acc Hnd; simpl.
  - now rewrite app_nil_r.
  - assert (Hnew : assoc t acc = None).
    { apply assoc_None_keys. intros Hin. rewrite map_app in Hnd.
      apply NoDup_remove_2 in Hnd. apply Hnd. apply in_or_app. now left. }
    pose proof (obj_set_permutation _ acc t c Hnew) as Hperm.
    assert (Hstep : Permutation (acc ++ (t, c) :: rest) (obj_set acc t c ++ rest)).
    { rewrite <- Hperm. simpl. now rewrite Permutation_middle. }
    rewrite Hstep. apply IH.
    eapply Permutation_NoDup; [|exact Hnd]. now apply Permutation_map.
Qed.

Lemma pipeline_condition_nullish :
  forall items acc,
    (In VNull items \/ In VUndefined items) ->
    is_TypeError (DataProcessor.pipeline_condition items (VObj acc)).
Proof.
  induction items as [|item rest IH]; intros acc Hin; [destruct Hin as [[]|[]]|].
  cbn [DataProcessor.pipeline_condition]. unfold get_member.
  destruct (is_nullish item) eqn:Hitem.
  - eexists. reflexivity.
  - cbn [rbind]. cbn [set_member]. destruct (_ && _); cbn [rbind]; apply IH;
      destruct Hin as [[->|Hin]|[->|Hin]]; try discriminate; tauto.
Qed.

(** X21: the pipeline [createPipeline] makes runs [processData] on the
    condition that has, for every rule of the list, the property of its type
    with its configuration (types that are no name of an inherited member);
    of two rules of the same type the second gives the configuration.  With
    the five rules, the order of rules of different types in the list does not
    matter.  A rule of the list that is [null] or [undefined] makes the
    pipeline throw a [TypeError]. *)
Theorem createPipeline_builds_the_condition :
  forall registry entries startTime endTime data,
    (Forall (fun e => inherited (fst e) = false) entries ->
     DataProcessor.createPipeline registry (VArr (map rule_object entries))
       startTime endTime data
     = DataProcessor.processData registry startTime endTime data
         (VObj (condition_of entries))) /\
    (forall t c c',
        inherited t = false ->
        DataProcessor.createPipeline registry (VArr (map rule_object [(t, c); (t, c')]))
          startTime endTime data
        = DataProcessor.createPipeline registry (VArr (map rule_object [(t, c')]))
            startTime endTime data) /\
    (forall entries',
        Forall (fun e => inherited (fst e) = false) entries ->
        NoDup (map fst entries) -> Permutation entries entries' ->
        DataProcessor.createPipeline RuleRegistry.builtin_rules
          (VArr (map rule_object entries)) startTime endTime data
        = DataProcessor.createPipeline RuleRegistry.builtin_rules
            (VArr (map rule_object entries')) startTime endTime data) /\
    (forall items,
        In VNull items \/ In VUndefined items ->
        names_free (VArr items) = true ->
        is_TypeError (returned (DataProcessor.createPipeline registry (VArr items)
                                  startTime endTime data))).
Proof.
  intros registry entries startTime endTime data.
  assert (Hrun : forall reg es,
             Forall (fun e : string * value => inherited (fst e) = false) es ->
             DataProcessor.createPipeline reg (VArr (map rule_object es))
               startTime endTime data
             = DataProcessor.processData reg startTime endTime data
                 (VObj (condition_of es))).
  { intros reg es Hes. unfold DataProcessor.createPipeline.
    rewrite pipeline_condition_objects by exact Hes. unfold lift, bind.
    fold (condition_of es).
    destruct (DataProcessor.processData reg startTime endTime data
                (VObj (condition_of es))) as [out r].
    reflexivity. }
  split; [apply Hrun|]. split; [|split].
  - intros t c c' Ht. rewrite !Hrun by (repeat constructor; exact Ht). do 2 f_equal.
    unfold condition_of. cbn [fold_left fst snd].
    assert (Hone : forall x : value, obj_set [] t x = [(t, x)]).
    { intros x. unfold obj_set. cbn [assoc]. now destruct (array_index t). }
    rewrite !Hone. unfold obj_set. cbn [assoc]. rewrite String.eqb_refl.
    cbn [replace_field]. now rewrite String.eqb_refl.
  - intros entries' Hkeys Hnd Hperm.
    assert (Hkeys' : Forall (fun e : string * value => inherited (fst e) = false) entries').
    { rewrite Forall_forall in *. intros e He. apply Hkeys.
      eapply Permutation_in; [apply Permutation_sym; exact Hperm | exact He]. }
    rewrite !Hrun by assumption.
    unfold DataProcessor.processData, DataProcessor.processData_try.
    cbn [truthy typeof].
    assert (Hnd' : NoDup (map fst entries')).
    { eapply Permutation_NoDup; [|exact Hnd]. now apply Permutation_map. }
    pose proof (condition_of_permutation entries [] Hnd) as H1.
    pose proof (condition_of_permutation entries' [] Hnd') as H2.
    fold (condition_of entries) in H1. fold (condition_of entries') in H2.
    simpl in H1, H2.
    rewrite (ruleEntries_key_order (condition_of entries) (condition_of entries'));
      [reflexivity | |].
    + eapply Permutation_NoDup; [|exact Hnd]. now apply Permutation_map.
    + now rewrite <- H1, Hperm.
  - intros items Hin _. unfold DataProcessor.createPipeline, returned.
    destruct (pipeline_condition_nullish items [] Hin) as [message ->].
    eexists. reflexivity.
Qed.

End pipelines.

Lemma createPipeline_builds_the_condition_witness :
  let limit := ("limit", VNum 1) in
  let include := ("include", VObj [("status", VStr "active")]) in
  @DataProcessor.createPipeline sample_platform (@RuleRegistry.builtin_rules sample_platform)
    (VArr (map rule_object [limit; include])) 0 1 (VArr sampleData)
  = @DataProcessor.createPipeline sample_platform
      (@RuleRegistry.builtin_rules sample_platform)
      (VArr (map rule_object [include; limit])) 0 1 (VArr sampleData).
Proof.
  intros limit include.
  refine (proj1 (proj2 (proj2
    (@createPipeline_builds_the_condition sample_platform
       (@RuleRegistry.builtin_rules sample_platform) [limit; include] 0 1
       (VArr sampleData)))) [include; limit] _ _ _).
  - constructor; [reflexivity|]. constructor; [reflexivity | constructor].
  - repeat constructor; simpl; intuition discriminate.
  - apply perm_swap.
Defined.

(** ** getDataStatistics *)

Lemma entries_of_object :
  forall record,
    String.eqb (typeof record) "object" && negb (BaseRule.strict_equals record VNull) = true ->
    Object_entries record = Ok (entries_of record).
Proof.
  intros record H. unfold entries_of. rewrite H.
  destruct record; try discriminate; reflexivity.
Qed.

Lemma entries_of_other :
  forall record,
    String.eqb (typeof record) "object" && negb (BaseRule.strict_equals record VNull) = false ->
    entries_of record = [].
Proof.
  intros record H. unfold entries_of. now rewrite H.
Qed.

Lemma collect_fields_entries :
  forall records fields,
    fold_left
      (fun fields record =>
         if String.eqb (typeof record) "object" && negb (BaseRule.strict_equals record VNull)
         then match Object_keys record with
              | Ok keys => fold_left DataProcessor.Set_add keys fields
              | Throw _ => fields
              end
         else fields) records fields
    = fold_left DataProcessor.Set_add (map fst (flat_map entries_of records)) fields.
Proof.
  induction records as [|r rest IH]; intros fields; [reflexivity|].
  cbn [fold_left flat_map]. rewrite map_app, fold_left_app, IH. f_equal.
  destruct (String.eqb (typeof r) "object" && negb (BaseRule.strict_equals r VNull)) eqn:Hr.
  - unfold Object_keys. now rewrite (entries_of_object r Hr).
  - now rewrite (entries_of_other r Hr).
Qed.

Lemma statistics_entries_run :
  forall entries fields types,
    (forall k, In k (map fst entries) -> inherited k = false) ->
    reduceM DataProcessor.statistics_entry entries (fields, types)
    = Ok (fold_left DataProcessor.Set_add (map fst entries) fields,
          fold_left record_type entries types).
Proof.
  induction entries as [|[k v] rest IH]; intros fields types Hown; [reflexivity|].
  cbn [reduceM]. unfold DataProcessor.statistics_entry at 1. cbn [fst snd].
  rewrite (Hown k (or_introl eq_refl)).
  assert (Hstep :
    match assoc k types with
    | Some ts =>
        Ok (DataProcessor.Set_add fields k,
            obj_set types k (DataProcessor.Set_add ts (DataProcessor.field_type v)))
    | None =>
        Ok (DataProcessor.Set_add fields k,
            obj_set types k (DataProcessor.Set_add [] (DataProcessor.field_type v)))
    end = Ok (DataProcessor.Set_add fields k, record_type types (k, v))).
  { unfold record_type. cbn [fst snd]. now destruct (assoc k types). }
  rewrite Hstep. cbn [rbind map fold_left fst].
  apply IH. intros k' Hk'. apply Hown. now right.
Qed.

Lemma statistics_records_run :
  forall records fields types,
    (forall r k, In r records -> In k (map fst (entries_of r)) -> inherited k = false) ->
    reduceM DataProcessor.statistics_record records (fields, types)
    = Ok (fold_left DataProcessor.Set_add (map fst (flat_map entries_of records)) fields,
          fold_left record_type (flat_map entries_of records) types).
Proof.
  induction records as [|r rest IH]; intros fields types Hown; [reflexivity|].
  cbn [reduceM flat_map]. unfold DataProcessor.statistics_record at 1.
  rewrite map_app, !fold_left_app.
  destruct (String.eqb (typeof r) "object" && negb (BaseRule.strict_equals r VNull)) eqn:Hr.
  - rewrite (entries_of_object r Hr). cbn [rbind].
    rewrite statistics_entries_run by (intros k Hk; apply (Hown r); [now left | exact Hk]).
    cbn [rbind]. apply IH. intros r' k Hr' Hk. apply (Hown r'); [now right | exact Hk].
  - rewrite (entries_of_other r Hr). cbn [rbind map fold_left].
    apply IH. intros r' k Hr' Hk. apply (Hown r'); [now right | exact Hk].
Qed.

Lemma record_types_keys :
  forall entries types k,
    assoc k (fold_left record_type entries types) <> None
    <-> assoc k types <> None \/ In k (map fst entries).
Proof.
  induction entries as [|[k' v] rest IH]; intros types k; cbn [fold_left map In fst].
  - tauto.
  - rewrite IH. unfold record_type at 1. cbn [fst snd]. rewrite assoc_obj_set.
    destruct (String.eqb k' k) eqn:Hk.
    + apply String.eqb_eq in Hk. subst k'. split; [tauto|]. intros _. left. discriminate.
    + apply String.eqb_neq in Hk. tauto.
Qed.

Lemma record_types_values :
  forall entries types k ts t,
    assoc k (fold_left record_type entries types) = Some ts ->
    (In t ts <->
     (exists ts0, assoc k types = Some ts0 /\ In t ts0) \/
     (exists v, In (k, v) entries /\ DataProcessor.field_type v = t)).
Proof.
  induction entries as [|[k' v] rest IH]; intros types k ts t H; cbn [fold_left] in H.
  - split.
    + intros Ht. left. now exists ts.
    + intros [(ts0 & H0 & Ht)|(v & [] & _)]. congruence.
  - rewrite (IH _ _ _ t H). unfold record_type. cbn [fst snd]. rewrite assoc_obj_set.
    destruct (String.eqb k' k) eqn:Hk.
    + apply String.eqb_eq in Hk. subst k'. split.
      * intros [(ts0 & H0 & Ht)|(v' & Hin & Hv')].
        -- injection H0 as <-. apply Set_add_In in Ht. destruct Ht as [Ht| ->].
           ++ destruct (assoc k types) as [ts1|]; [|contradiction].
              left. now exists ts1.
           ++ right. exists v. split; [now left | reflexivity].
        -- right. exists v'. split; [now right | assumption].
      * intros [(ts0 & H0 & Ht)|(v' & [Heq|Hin] & Hv')].
        -- left. eexists. split; [reflexivity|]. apply Set_add_In. left.
           now rewrite H0.
        -- injection Heq as <-. left. eexists. split; [reflexivity|].
           apply Set_add_In. now right.
        -- right. now exists v'.
    + apply String.eqb_neq in Hk. split.
      * intros [Hl|(v' & Hin & Hv')]; [now left|].
        right. exists v'. split; [now right | assumption].
      * intros [Hl|(v' & [Heq|Hin] & Hv')]; [now left | congruence |].
        right. now exists v'.
Qed.

Lemma statistics_entries_inherited :
  forall entries fields types,
    (forall k, assoc k types <> None -> inherited k = false) ->
    (exists k, In k (map fst entries) /\ inherited k = true) ->
    is_TypeError (reduceM DataProcessor.statistics_entry entries (fields, types)).
Proof.
  induction entries as [|[k v] rest IH]; intros fields types Htypes (k0 & Hin & Hk0);
    [contradiction|].
  cbn [reduceM]. unfold DataProcessor.statistics_entry at 1. cbn [fst snd].
  destruct (inherited k) eqn:Hk.
  - destruct (assoc k types) eqn:Hassoc.
    + rewrite Htypes in Hk by congruence. discriminate.
    + eexists. reflexivity.
  - assert (Hrest : exists k1, In k1 (map fst rest) /\ inherited k1 = true).
    { destruct Hin as [Heq|Hin]; [simpl in Heq; congruence | now exists k0]. }
    assert (Hnext : forall x k', assoc k' (obj_set types k x) <> None -> inherited k' = false).
    { intros x k' H. rewrite assoc_obj_set in H.
      destruct (String.eqb k k') eqn:Hkk.
      - apply String.eqb_eq in Hkk. now subst.
      - now apply Htypes. }
    destruct (assoc k types); cbn [rbind]; apply IH; try assumption; apply Hnext.
Qed.

Lemma statistics_types_own :
  forall entries types,
    (forall k, assoc k types <> None -> inherited k = false) ->
    (forall k, In k (map fst entries) -> inherited k = false) ->
    forall k, assoc k (fold_left record_type entries types) <> None -> inherited k = false.
Proof.
  intros entries types Htypes Hown k H. apply record_types_keys in H.
  destruct H; auto.
Qed.

Lemma statistics_records_inherited :
  forall records fields types,
    (forall k, assoc k types <> None -> inherited k = false) ->
    (exists r k, In r records /\ In k (map fst (entries_of r)) /\ inherited k = true) ->
    is_TypeError (reduceM DataProcessor.statistics_record records (fields, types)).
Proof.
  induction records as [|r rest IH]; intros fields types Htypes (r0 & k0 & Hin & Hk0 & Hinh);
    [contradiction|].
  cbn [reduceM]. unfold DataProcessor.statistics_record at 1.
  destruct (String.eqb (typeof r) "object" && negb (BaseRule.strict_equals r VNull)) eqn:Hr.
  - rewrite (entries_of_object r Hr). cbn [rbind].
    destruct (existsb inherited (map fst (entries_of r))) eqn:Hany.
    + apply existsb_exists in Hany. destruct Hany as (k & Hk & Hki).
      destruct (statistics_entries_inherited (entries_of r) fields types Htypes
                  (ex_intro _ k (conj Hk Hki))) as [message ->].
      eexists. reflexivity.
    + assert (Hown : forall k, In k (map fst (entries_of r)) -> inherited k = false).
      { intros k Hk. destruct (inherited k) eqn:Hki; [|reflexivity].
        rewrite <- Hany. symmetry. apply existsb_exists. now exists k. }
      rewrite statistics_entries_run by exact Hown. cbn [rbind].
      apply IH; [now apply statistics_types_own|].
      destruct Hin as [<-|Hin]; [rewrite (Hown k0 Hk0) in Hinh; discriminate|].
      now exists r0, k0.
  - cbn [rbind]. apply IH; [assumption|].
    destruct Hin as [<-|Hin]; [rewrite (entries_of_other r Hr) in Hk0; contradiction|].
    now exists r0, k0.
Qed.

Section statistics.
Context {platform : Platform}.

(** X22: the statistics of an array of records.  When no field of a record
    has the name of a member every object inherits ([constructor],
    [toString], ...), [getDataStatistics] returns the number of records, the
    fields, which are the columns of the CSV export in their order, for every
    field the types of the values it has in the records (and for no other
    name), and the first record (or [null]).  When some field has such a name
    it throws a [TypeError].  Data that is not an array gives the object
    [{error}]. *)
Theorem getDataStatistics_fields_and_types :
  forall data,
    (isArray data = false ->
     DataProcessor.getDataStatistics data
     = Ok (VObj [("error", VStr "Data must be an array")])) /\
    (forall records,
        data = VArr records ->
        (forall r k, In r records -> In k (map fst (entries_of r)) -> inherited k = false) ->
        exists fieldTypes,
          DataProcessor.getDataStatistics data
          = Ok (VObj [("totalRecords", VNum (Z.of_nat (List.length records)));
                      ("fields", VArr (map VStr (DataProcessor.collect_fields records)));
                      ("fieldTypes",
                       VObj (map (fun kt => (fst kt, VArr (map VStr (snd kt)))) fieldTypes));
                      ("sampleRecord",
                       match records with
                       | first :: _ => if truthy first then first else VNull
                       | [] => VNull
                       end)]) /\
          (forall k, In k (DataProcessor.collect_fields records)
                     <-> assoc k fieldTypes <> None) /\
          (forall k types t,
              assoc k fieldTypes = Some types ->
              (In t types <->
               exists r v, In r records /\ In (k, v) (entries_of r) /\
                           DataProcessor.field_type v = t))) /\
    (forall records,
        data = VArr records ->
        (exists r k, In r records /\ In k (map fst (entries_of r)) /\ inherited k = true) ->
        is_TypeError (DataProcessor.getDataStatistics data)).
Proof.
  intros data. split; [|split].
  - intros Hdata. destruct data; try discriminate; reflexivity.
  - intros records -> Hown. unfold DataProcessor.getDataStatistics.
    rewrite (statistics_records_run records [] [] Hown). cbn [rbind fst snd].
    exists (fold_left record_type (flat_map entries_of records) []).
    assert (Hfields : fold_left DataProcessor.Set_add
                        (map fst (flat_map entries_of records)) []
                      = DataProcessor.collect_fields records).
    { unfold DataProcessor.collect_fields. now rewrite collect_fields_entries. }
    rewrite Hfields. split; [|split].
    + repeat f_equal. now destruct records.
    + intros k. rewrite <- Hfields, record_types_keys.
      rewrite (proj1 (fold_Set_add (map fst (flat_map entries_of records)) []) k).
      simpl. split; [tauto|]. intros [H|H]; [now contradiction H | tauto].
    + intros k types t Htypes.
      rewrite (record_types_values _ _ _ _ t Htypes). split.
      * intros [(ts0 & H0 & _)|(v & Hin & Hv)]; [discriminate|].
        apply in_flat_map in Hin. destruct Hin as (r & Hr & Hin). now exists r, v.
      * intros (r & v & Hr & Hin & Hv). right. exists v. split; [|assumption].
        apply in_flat_map. now exists r.
  - intros records -> Hinherited. unfold DataProcessor.getDataStatistics.
    destruct (statistics_records_inherited records [] []
                ltac:(intros k H; now contradiction H) Hinherited) as [message ->].
    eexists. reflexivity.
Qed.

End statistics.

(** ** CSV export *)

Lemma mapM_map :
  forall (A B : Type) (f : A -> outcome B) (g : A -> B) l,
    (forall x, In x l -> f x = Ok (g x)) ->
    DataProcessor.mapM f l = Ok (map g l).
Proof.
  intros A B f g. induction l as [|x r IH]; intros H; [reflexivity|].
  cbn [DataProcessor.mapM map]. rewrite (H x (or_introl eq_refl)). cbn [rbind].
  rewrite IH by (intros y Hy; apply H; now right). reflexivity.
Qed.

Lemma csv_cell_defined :
  forall record field,
    is_nullish record = false ->
    DataProcessor.csv_cell record field = Ok (cell_text record field).
Proof.
  intros record field Hrecord. unfold DataProcessor.csv_cell, get_member, cell_text.
  rewrite Hrecord. cbn [rbind]. now destruct (is_nullish (get_prop record field)).
Qed.

Lemma csv_cell_nullish :
  forall record field,
    is_nullish record = true -> is_TypeError (DataProcessor.csv_cell record field).
Proof.
  intros record field Hrecord. unfold DataProcessor.csv_cell, get_member.
  rewrite Hrecord. eexists. reflexivity.
Qed.

Section csv.
Context {platform : Platform}.

(** X23: the CSV of records that are objects (and use no name of an
    inherited member).  The export has one line for
    the header and one line for every record, every line with one cell for
    every column; the columns are the names of the properties that occur in
    some record, each name once; the cell of a record for a column is the
    text of its value between double quotes, the double quotes inside doubled,
    and the empty text between double quotes when the record lacks the property
    or has [null] there. *)
Theorem csv_of_objects :
  forall result records delimiter,
    get_prop result "result" = VArr records ->
    records <> [] ->
    Forall is_object records ->
    names_free (VArr records) = true ->
    let columns := DataProcessor.collect_fields records in
    let lines :=
      map DataProcessor.quoted columns
      :: map (fun record => map (cell_text record) columns) records in
    DataProcessor.convertToCSV (VArr records) delimiter
    = Ok (join newline (map (join delimiter) lines)) /\
    DataProcessor.exportResult result "csv"
    = DataProcessor.convertToCSV (VArr records) "," /\
    List.length lines = S (List.length records) /\
    Forall (fun line => List.length line = List.length columns) lines /\
    NoDup columns /\
    (forall k, In k columns <->
               exists fields, In (VObj fields) records /\ In k (map fst fields)).
Proof.
  intros result records delimiter Hresult Hne Hobjects _ columns lines.
  split; [|split; [|split; [|split; [|split]]]].
  - unfold DataProcessor.convertToCSV.
    destruct records as [|r rest]; [contradiction|].
    cbn [List.length Nat.eqb]. fold columns.
    rewrite (mapM_map _ _ _ (fun record => join delimiter (map (cell_text record) columns))).
    + cbn [rbind]. unfold lines. cbn [map]. now rewrite map_map.
    + intros record Hrecord.
      rewrite (mapM_map _ _ _ (cell_text record)); [reflexivity|].
      intros field _. apply csv_cell_defined.
      rewrite Forall_forall in Hobjects. specialize (Hobjects record Hrecord).
      now destruct record.
  - unfold DataProcessor.exportResult, get_member. cbn [DataProcessor.toLowerCase].
    change (String.eqb _ "json") with false. change (String.eqb _ "csv") with true.
    cbv iota. destruct (is_nullish result) eqn:Hnull.
    + destruct result; discriminate.
    + cbn [rbind]. now rewrite Hresult.
  - unfold lines. simpl. now rewrite length_map.
  - unfold lines. constructor; [apply length_map|].
    apply Forall_forall. intros line Hline. apply in_map_iff in Hline.
    destruct Hline as (record & <- & _). apply length_map.
  - exact (proj1 (collect_fields_union records Hobjects)).
  - exact (proj2 (collect_fields_union records Hobjects)).
Qed.

Lemma mapM_TypeError :
  forall (A B : Type) (f : A -> outcome B) l,
    (forall x, In x l -> (exists y, f x = Ok y) \/ is_TypeError (f x)) ->
    (exists x, In x l /\ is_TypeError (f x)) ->
    is_TypeError (DataProcessor.mapM f l).
Proof.
  intros A B f. induction l as [|x r IH]; intros Hall (x0 & Hin & Hx0); [contradiction|].
  cbn [DataProcessor.mapM].
  destruct (Hall x (or_introl eq_refl)) as [[y Hy]|[message Hm]].
  - rewrite Hy. cbn [rbind].
    assert (Hrest : is_TypeError (DataProcessor.mapM f r)).
    { apply IH; [intros z Hz; apply Hall; now right|].
      destruct Hin as [<-|Hin]; [|now exists x0].
      destruct Hx0 as [message Hm]. congruence. }
    destruct Hrest as [message ->]. eexists. reflexivity.
  - rewrite Hm. eexists. reflexivity.
Qed.

(** X24: a record that is [null] or [undefined] is passed over when the
    columns are collected but not when the rows are written: when some record
    has a property, so that there is a column, the export throws a [TypeError];
    when no record has a property, every line of the export is empty. *)
Theorem csv_of_nullish_record :
  forall records delimiter,
    (In VNull records \/ In VUndefined records ->
     DataProcessor.collect_fields records <> [] ->
     names_free (VArr records) = true ->
     is_TypeError (DataProcessor.convertToCSV (VArr records) delimiter)) /\
    (records <> [] ->
     DataProcessor.collect_fields records = [] ->
     DataProcessor.convertToCSV (VArr records) delimiter
     = Ok (join newline (map (fun _ => ""%string) (VNull :: records)))).
Proof.
  intros records delimiter. split.
  - intros Hnullish Hcolumns _. unfold DataProcessor.convertToCSV.
    destruct records as [|r0 rest] eqn:Hrecords; [destruct Hnullish as [[]|[]]|].
    rewrite <- Hrecords in *. clear Hrecords r0 rest.
    destruct (List.length records =? 0)%nat eqn:Hlen.
    { apply Nat.eqb_eq in Hlen. destruct records; [|discriminate].
      destruct Hnullish as [[]|[]]. }
    set (columns := DataProcessor.collect_fields records) in *.
    assert (Hrows : is_TypeError
              (DataProcessor.mapM
                 (fun record =>
                    rbind (DataProcessor.mapM (DataProcessor.csv_cell record) columns)
                          (fun cells => Ok (join delimiter cells))) records)).
    { apply mapM_TypeError.
      - intros record _. destruct (is_nullish record) eqn:Hrecord.
        + right. destruct columns as [|c cs]; [contradiction|].
          cbn [DataProcessor.mapM].
          destruct (csv_cell_nullish record c Hrecord) as [message ->].
          eexists. reflexivity.
        + left. rewrite (mapM_map _ _ _ (cell_text record));
            [eexists; reflexivity|].
          intros field _. now apply csv_cell_defined.
      - assert (Hex : exists record, In record records /\ is_nullish record = true).
        { destruct Hnullish as [H|H]; eexists; (split; [exact H | reflexivity]). }
        destruct Hex as (record & Hin & Hrecord). exists record. split; [assumption|].
        destruct columns as [|c cs]; [contradiction|].
        cbn [DataProcessor.mapM].
        destruct (csv_cell_nullish record c Hrecord) as [message ->].
        eexists. reflexivity. }
    destruct Hrows as [message ->]. eexists. reflexivity.
  - intros Hne Hcolumns. unfold DataProcessor.convertToCSV.
    destruct records as [|r0 rest] eqn:Hrecords; [contradiction|].
    rewrite <- Hrecords in *. clear Hrecords r0 rest.
    destruct (List.length records =? 0)%nat eqn:Hlen.
    { apply Nat.eqb_eq in Hlen. destruct records; [contradiction | discriminate]. }
    rewrite Hcolumns.
    rewrite (mapM_map _ _ _ (fun _ => ""%string)) by (intros; reflexivity).
    reflexivity.
Qed.

Lemma csv_of_nullish_record_witness :
  is_TypeError
    (DataProcessor.convertToCSV (VArr [VObj [("a", VNum 1)]; VNull]) ",") /\
  DataProcessor.convertToCSV (VArr [VNull; VNum 3]) "," = Ok (newline ++ newline)%string.
Proof.
  split.
  - apply (proj1 (csv_of_nullish_record [VObj [("a", VNum 1)]; VNull] ",")).
    + left. right. now left.
    + discriminate.
    + reflexivity.
  - apply (proj2 (csv_of_nullish_record [VNull; VNum 3] ",")).
    + discriminate.
    + reflexivity.
Defined.

Lemma double_quotes_inj :
  forall a b,
    DataProcessor.double_quotes a = DataProcessor.double_quotes b -> a = b.
Proof.
  induction a as [|c a IH]; intros [|d b] H; simpl in H.
  - reflexivity.
  - destruct (Ascii.eqb d DataProcessor.dquote); discriminate.
  - destruct (Ascii.eqb c DataProcessor.dquote); discriminate.
  - destruct (Ascii.eqb c DataProcessor.dquote) eqn:Hc,
             (Ascii.eqb d DataProcessor.dquote) eqn:Hd.
    + injection H; intros Hab _ Hcd. subst d. f_equal. now apply IH.
    + injection H; intros _ Hcd. subst d. congruence.
    + injection H; intros _ Hcd. subst d. congruence.
    + injection H; intros Hab Hcd. subst d. f_equal. now apply IH.
Qed.

Lemma append_inj_suffix :
  forall s1 s2 t, (s1 ++ t)%string = (s2 ++ t)%string -> s1 = s2.
Proof.
  induction s1 as [|c s1 IH]; intros [|d s2] t H; simpl in H.
  - reflexivity.
  - apply (f_equal String.length) in H. simpl in H. rewrite length_append in H. lia.
  - apply (f_equal String.length) in H. simpl in H. rewrite length_append in H. lia.
  - injection H as -> H. f_equal. now apply (IH s2 t).
Qed.

(** X25: doubling the double quotes loses nothing: two texts have the same
    escaped form only when they are the same text, and so for the cells made
    of them. *)
Theorem double_quotes_injective :
  forall a b,
    (DataProcessor.double_quotes a = DataProcessor.double_quotes b <-> a = b) /\
    (DataProcessor.quoted (DataProcessor.double_quotes a)
     = DataProcessor.quoted (DataProcessor.double_quotes b) <-> a = b).
Proof.
  intros a b. split; split; try (intros ->; reflexivity).
  - apply double_quotes_inj.
  - unfold DataProcessor.quoted. intros H. injection H as H.
    apply append_inj_suffix in H. now apply double_quotes_inj.
Qed.

End csv.

Section export_of_results.
Context {platform : Platform}.

(** X26: what [processData] returns after a failure exports to nothing: for
    a result with an error, [exportResult] in the format csv or tsv, in
    capitals or not, is the empty text. *)
Theorem failed_result_exports_nothing :
  forall rules startTime endTime data condition console r format,
    DataProcessor.processData rules startTime endTime data condition = (console, Ok r) ->
    error (metadata r) <> None ->
    DataProcessor.toLowerCase format = "csv"%string \/
    DataProcessor.toLowerCase format = "tsv"%string ->
    DataProcessor.exportResult (DataProcessor.value_of_result r) format = Ok ""%string.
Proof.
  intros rules startTime endTime data condition console r format Hrun Herror Hformat.
  assert (Hempty : result r = VArr []).
  { destruct (processData_returned rules _ _ _ _ _ _ Hrun) as [Htry | [Hresult _]];
      [|exact Hresult].
    exfalso. apply Herror.
    destruct (processData_try_success rules _ _ _ _ Htry)
      as (records & clone & sorted & _ & _ & _ & _ & _ & _ & Hshape & _).
    now rewrite Hshape. }
  unfold DataProcessor.exportResult.
  destruct Hformat as [-> | ->]; cbn [String.eqb Ascii.eqb Bool.eqb];
    unfold DataProcessor.value_of_result, get_member; cbn [is_nullish rbind get_prop assoc];
    cbn [String.eqb Ascii.eqb Bool.eqb]; rewrite Hempty; reflexivity.
Qed.

End export_of_results.

Lemma failed_result_exports_nothing_witness :
  exists console r,
    @DataProcessor.processData sample_platform (@RuleRegistry.builtin_rules sample_platform) 0 1
      (VStr "invalid") (VObj []) = (console, Ok r) /\
    @DataProcessor.exportResult sample_platform (DataProcessor.value_of_result r) "CSV"
    = Ok ""%string.
Proof.
  eexists. eexists. split; [reflexivity|].
  eapply (@failed_result_exports_nothing sample_platform
            (@RuleRegistry.builtin_rules sample_platform) 0 1 (VStr "invalid") (VObj [])).
  - reflexivity.
  - discriminate.
  - left. reflexivity.
Defined.

Lemma csv_of_objects_witness :
  DataProcessor.convertToCSV
    (VArr [VObj [("a", VNum 1)]; VObj [("b", VStr quote_in_text); ("a", VNull)]]) ","
  = Ok (join newline
          (map (join ",")
             [[DataProcessor.quoted "a"; DataProcessor.quoted "b"];
              [DataProcessor.quoted "1"; DataProcessor.quoted ""];
              [DataProcessor.quoted "";
               DataProcessor.quoted (DataProcessor.double_quotes quote_in_text)]])).
Proof.
  refine (proj1 (@csv_of_objects sample_platform
                   (VObj [("result",
                           VArr [VObj [("a", VNum 1)];
                                 VObj [("b", VStr quote_in_text); ("a", VNull)]])])
                   [VObj [("a", VNum 1)]; VObj [("b", VStr quote_in_text); ("a", VNull)]]
                   "," eq_refl _ _ eq_refl)).
  - discriminate.
  - repeat constructor.
Defined.

Lemma getDataStatistics_fields_and_types_witness :
  exists fieldTypes,
    DataProcessor.getDataStatistics (VArr sampleData)
    = Ok (VObj [("totalRecords", VNum 4);
                ("fields", VArr (map VStr ["name"; "email"; "age"; "status"]%string));
                ("fieldTypes",
                 VObj (map (fun kt => (fst kt, VArr (map VStr (snd kt)))) fieldTypes));
                ("sampleRecord", nth 0 sampleData VNull)]) /\
    (forall k, In k ["name"; "email"; "age"; "status"]%string
               <-> assoc k fieldTypes <> None).
Proof.
  destruct (proj1 (proj2 (getDataStatistics_fields_and_types (VArr sampleData)))
              sampleData eq_refl)
    as (fieldTypes & Hrun & Hkeys & _).
  - intros r k [<-|[<-|[<-|[<-|[]]]]] Hk; simpl in Hk;
      repeat (destruct Hk as [<-|Hk]; [reflexivity|]); contradiction.
  - exists fieldTypes. split; [exact Hrun | exact Hkeys].
Defined.

(** ** setNestedProperty *)

Section nested_writes.
Context {platform : Platform}.

Lemma split_on_not_nil : forall c s, split_on c s <> [].
Proof.
  intros c s. destruct s as [|a r]; simpl; [discriminate|].
  destruct (Ascii.eqb a c); [discriminate|].
  destruct (split_on c r); discriminate.
Qed.

Lemma setNestedProperty_reduce_cons :
  forall current key k2 rest x,
    Utils.setNestedProperty_reduce current (key :: k2 :: rest) x
    = rbind (get_member current key) (fun old =>
      rbind (set_member current key (if truthy old then old else VObj []))
            (fun current' =>
      rbind (Utils.setNestedProperty_reduce (get_prop current' key) (k2 :: rest) x)
            (fun child => set_member current' key child))).
Proof.
  reflexivity.
Qed.

Lemma fold_left_cons :
  forall (A B : Type) (f : A -> B -> A) x l a,
    fold_left f (x :: l) a = fold_left f l (f a x).
Proof.
  reflexivity.
Qed.

Lemma setNestedProperty_reduce_walk :
  forall keys current x d,
    keys <> [] ->
    settable current keys ->
    x <> VUndefined ->
    exists fields,
      Utils.setNestedProperty_reduce current keys x = Ok (VObj fields) /\
      fold_left (FunctionalUtils.getNestedProperty_step d) keys (VObj fields) = x /\
      (forall key, key <> hd ""%string keys ->
                   get_prop (VObj fields) key = get_prop current key).
Proof.
  induction keys as [|key rest IH]; intros current x d Hne Hsettable Hx; [contradiction|].
  destruct current as [| | | | | |fields|]; try contradiction.
  destruct Hsettable as [Hkey Hrest].
  destruct rest as [|k2 rest].
  - exists (obj_set fields key x).
    split; [cbn [Utils.setNestedProperty_reduce]; now apply set_member_plain|]. split.
    + cbn [fold_left]. unfold FunctionalUtils.getNestedProperty_step.
      cbn [truthy get_prop andb]. rewrite assoc_obj_set, String.eqb_refl.
      destruct x; try reflexivity. contradiction.
    + intros key' Hkey'. cbn [hd] in Hkey'. cbn [get_prop].
      rewrite assoc_obj_set. apply not_eq_sym, String.eqb_neq in Hkey'.
      now rewrite Hkey'.
  - rewrite setNestedProperty_reduce_cons.
    unfold get_member at 1. cbn [is_nullish rbind].
    set (old := get_prop (VObj fields) key) in *.
    set (next := if truthy old then old else VObj []) in *.
    rewrite set_member_plain by exact Hkey. cbn [rbind].
    assert (Hnext : get_prop (VObj (obj_set fields key next)) key = next).
    { cbn [get_prop]. now rewrite assoc_obj_set, String.eqb_refl. }
    rewrite Hnext.
    destruct (IH next x d ltac:(discriminate) Hrest Hx) as (child & -> & Hwalk & _).
    cbn [rbind]. rewrite set_member_plain by exact Hkey.
    exists (obj_set (obj_set fields key next) key (VObj child)).
    split; [reflexivity|]. split.
    + rewrite fold_left_cons. unfold FunctionalUtils.getNestedProperty_step at 2.
      cbn [truthy get_prop andb]. rewrite assoc_obj_set, String.eqb_refl.
      cbn [is_undefined negb]. exact Hwalk.
    + intros key' Hkey'. cbn [hd] in Hkey'. cbn [get_prop].
      rewrite !assoc_obj_set. apply not_eq_sym, String.eqb_neq in Hkey'.
      now rewrite Hkey'.
Qed.

(** X27: what [setNestedProperty] sets, [getNestedProperty] gets.  When the
    walk along the path passes through plain objects (a falsy value on the way
    is replaced by a new object) and the value is not [undefined],
    [setNestedProperty] returns an object in which the path leads to the value,
    and whose properties other than the first segment of the path are those of
    the original. *)
Theorem setNestedProperty_then_get :
  forall obj path x d,
    names_free obj = true ->
    settable obj (split_on "."%char path) ->
    x <> VUndefined ->
    exists result,
      Utils.setNestedProperty obj path x = Ok result /\
      FunctionalUtils.getNestedProperty result path d = x /\
      (forall key, key <> hd ""%string (split_on "."%char path) ->
                   get_prop result key = get_prop obj key).
Proof.
  intros obj path x d Hplain Hsettable Hx.
  unfold Utils.setNestedProperty, FunctionalUtils.getNestedProperty.
  cbv zeta. rewrite (deepClone_plain _ Hplain). cbn [rbind].
  destruct (setNestedProperty_reduce_walk (split_on "."%char path) obj x d
              (split_on_not_nil _ _) Hsettable Hx) as (fields & Hrun & Hwalk & Hother).
  exists (VObj fields). auto.
Qed.

Lemma set_member_primitive :
  forall v key x,
    match v with VBool _ | VNum _ | VStr _ => True | _ => False end ->
    is_TypeError (set_member v key x).
Proof.
  intros v key x Hv. destruct v; try contradiction; eexists; reflexivity.
Qed.

Lemma setNestedProperty_reduce_primitive :
  forall keys v x,
    keys <> [] ->
    match v with VBool _ | VNum _ | VStr _ => True | _ => False end ->
    is_TypeError (Utils.setNestedProperty_reduce v keys x).
Proof.
  intros [|key [|k2 rest]] v x Hne Hv; [contradiction| |].
  - now apply set_member_primitive.
  - rewrite setNestedProperty_reduce_cons. unfold get_member.
    assert (Hnull : is_nullish v = false) by (destruct v; try contradiction; reflexivity).
    rewrite Hnull. cbn [rbind].
    destruct (set_member_primitive v key
                (if truthy (get_prop v key) then get_prop v key else VObj []) Hv)
      as [message ->].
    eexists. reflexivity.
Qed.

(** X28: [setNestedProperty] throws a [TypeError] when it cannot write: when
    the object is [null] or [undefined], and when the path leads through a
    property of the object that holds a number other than 0, a text that is not
    empty, or [true], on which no property can be created. *)
Theorem setNestedProperty_cannot_write :
  forall obj path x,
    (is_nullish obj = true -> is_TypeError (Utils.setNestedProperty obj path x)) /\
    (forall fields key k2 rest,
        obj = VObj fields ->
        names_free obj = true ->
        split_on "."%char path = key :: k2 :: rest ->
        truthy_primitive (get_prop obj key) ->
        is_TypeError (Utils.setNestedProperty obj path x)).
Proof.
  intros obj path x. unfold Utils.setNestedProperty. cbv zeta. split.
  - intros Hobj. pose proof (split_on_not_nil "."%char path) as Hne.
    assert (Hclone : FunctionalUtils.deepClone obj = Ok obj)
      by (destruct obj; try discriminate; reflexivity).
    rewrite Hclone. cbn [rbind].
    destruct (split_on "."%char path) as [|key [|k2 rest]]; [contradiction| |].
    + destruct obj; try discriminate; eexists; reflexivity.
    + rewrite setNestedProperty_reduce_cons. unfold get_member. rewrite Hobj.
      eexists. reflexivity.
  - intros fields key k2 rest -> Hplain Hpath [Htruthy Hprimitive]. rewrite Hpath.
    rewrite (deepClone_plain _ Hplain). cbn [rbind].
    assert (Hkey : inherited key = false).
    { destruct (inherited key) eqn:Hkey; [|reflexivity].
      apply (names_free_no_inherited _ Hplain) in Hkey.
      cbn [get_prop] in Htruthy. rewrite Hkey in Htruthy. discriminate Htruthy. }
    rewrite setNestedProperty_reduce_cons. unfold get_member at 1.
    cbn [is_nullish rbind]. rewrite Htruthy.
    rewrite set_member_plain by exact Hkey. cbn [rbind].
    assert (Hnext : get_prop (VObj (obj_set fields key (get_prop (VObj fields) key))) key
                    = get_prop (VObj fields) key).
    { cbn [get_prop]. now rewrite assoc_obj_set, String.eqb_refl. }
    rewrite Hnext.
    destruct (setNestedProperty_reduce_primitive (k2 :: rest) (get_prop (VObj fields) key) x
                ltac:(discriminate) Hprimitive) as [message ->].
    eexists. reflexivity.
Qed.

End nested_writes.

Lemma setNestedProperty_then_get_witness :
  exists result,
    @Utils.setNestedProperty sample_platform
      (VObj [("user", VObj [("name", VStr "John"); ("age", VNum 0)]); ("id", VNum 7)])
      "user.age.years" (VNum 30) = Ok result /\
    FunctionalUtils.getNestedProperty result "user.age.years" VUndefined = VNum 30 /\
    get_prop result "id" = VNum 7.
Proof.
  destruct (@setNestedProperty_then_get sample_platform
              (VObj [("user", VObj [("name", VStr "John"); ("age", VNum 0)]);
                     ("id", VNum 7)])
              "user.age.years" (VNum 30) VUndefined)
    as (result & Hrun & Hget & Hother).
  - reflexivity.
  - simpl. repeat split; reflexivity.
  - discriminate.
  - exists result. split; [exact Hrun|]. split; [exact Hget|].
    apply (Hother "id"%string). discriminate.
Defined.

Lemma setNestedProperty_cannot_write_witness :
  is_TypeError (@Utils.setNestedProperty sample_platform VNull "a" (VNum 1)) /\
  is_TypeError
    (@Utils.setNestedProperty sample_platform (VObj [("a", VNum 5)]) "a.b" (VNum 1)).
Proof.
  split.
  - exact (proj1 (@setNestedProperty_cannot_write sample_platform VNull "a" (VNum 1))
                 eq_refl).
  - refine (proj2 (@setNestedProperty_cannot_write sample_platform
                     (VObj [("a", VNum 5)]) "a.b" (VNum 1))
                  [("a", VNum 5)] "a"%string "b"%string [] eq_refl eq_refl eq_refl _).
    split; [reflexivity | exact I].
Defined.

(** ** groupBy *)

Lemma replace_field_keys :
  forall (A : Type) (fields : list (string * A)) key x,
    map fst (replace_field key x fields) = map fst fields.
Proof.
  intros A. induction fields as [|[k v] r IH]; intros key x; simpl; [reflexivity|].
  destruct (String.eqb k key); simpl; [reflexivity | now rewrite IH].
Qed.

Lemma obj_set_keys_NoDup :
  forall (A : Type) (fields : list (string * A)) key x,
    NoDup (map fst fields) -> NoDup (map fst (obj_set fields key x)).
Proof.
  intros A fields key x Hnd. destruct (assoc key fields) as [v|] eqn:Hassoc.
  - unfold obj_set. rewrite Hassoc. now rewrite replace_field_keys.
  - eapply Permutation_NoDup.
    + apply Permutation_map. exact (obj_set_permutation _ fields key x Hassoc).
    + simpl. constructor; [|assumption]. now apply assoc_None_keys.
Qed.

Section grouping.
Variable keyFn : value -> outcome value.

Lemma groupBy_reducer_plain :
  forall groups item,
    plain_key keyFn item ->
    exists key,
      keyFn item = Ok key /\
      Utils.groupBy_reducer keyFn groups item
      = Ok (obj_set groups (ToString key)
              (match assoc (ToString key) groups with
               | Some members => members ++ [item]
               | None => [item]
               end)).
Proof.
  intros groups item (key & Hkey & _ & _ & Hown). exists key. split; [assumption|].
  unfold Utils.groupBy_reducer. rewrite Hkey. cbn [rbind]. rewrite Hown.
  now destruct (assoc (ToString key) groups).
Qed.

Lemma groupBy_groups :
  forall items groups,
    Forall (plain_key keyFn) items ->
    NoDup (map fst groups) ->
    exists groups',
      reduceM (Utils.groupBy_reducer keyFn) items groups = Ok groups' /\
      NoDup (map fst groups') /\
      forall k,
        assoc k groups'
        = match assoc k groups, filter (key_is keyFn k) items with
          | Some members, new => Some (members ++ new)
          | None, [] => None
          | None, new => Some new
          end.
Proof.
  induction items as [|item rest IH]; intros groups Hplain Hnd.
  - exists groups. split; [reflexivity|]. split; [assumption|].
    intros k. cbn [filter]. destruct (assoc k groups); [now rewrite app_nil_r | reflexivity].
  - inversion Hplain as [|? ? Hitem Hrest]; subst.
    destruct (groupBy_reducer_plain groups item Hitem) as (key & Hkey & Hstep).
    cbn [reduceM]. rewrite Hstep. cbn [rbind].
    set (members := match assoc (ToString key) groups with
                    | Some members => members ++ [item]
                    | None => [item]
                    end) in *.
    destruct (IH (obj_set groups (ToString key) members) Hrest
                (obj_set_keys_NoDup _ groups _ _ Hnd)) as (groups' & -> & Hnd' & Hassoc).
    exists groups'. split; [reflexivity|]. split; [assumption|].
    intros k. rewrite Hassoc, assoc_obj_set. cbn [filter].
    assert (Hitem_key : key_is keyFn k item = String.eqb (ToString key) k)
      by (unfold key_is; now rewrite Hkey).
    rewrite Hitem_key.
    destruct (String.eqb (ToString key) k) eqn:Hk.
    + apply String.eqb_eq in Hk. subst k. unfold members.
      destruct (assoc (ToString key) groups) as [old|].
      * now rewrite <- app_assoc.
      * reflexivity.
    + reflexivity.
Qed.

(** X29: [groupBy] puts every element of the array in the group of its key.
    When [keyFn] returns for every element a key that is not the name of an
    inherited member, the result has one property for every key that occurs,
    each key once, and the group of a key is the array of the elements with
    that key, in the order of the array.  An array that is not one (and has
    no function [reduce]), and a first key that is the name of an inherited
    member ([constructor], [toString], ...), make [groupBy] throw a
    [TypeError]. *)
Theorem groupBy_partitions :
  forall array,
    (forall items,
        array = VArr items ->
        Forall (plain_key keyFn) items ->
        exists groups,
          Utils.groupBy keyFn array
          = Ok (VObj (map (fun kg => (fst kg, VArr (snd kg))) groups)) /\
          NoDup (map fst groups) /\
          forall k,
            assoc k groups
            = match filter (key_is keyFn k) items with
              | [] => None
              | members => Some members
              end) /\
    (isArray array = false ->
     typeof (get_prop array "reduce") <> "function"%string ->
     is_TypeError (Utils.groupBy keyFn array)) /\
    (forall item rest key,
        array = VArr (item :: rest) ->
        keyFn item = Ok key -> inherited (ToString key) = true ->
        is_TypeError (Utils.groupBy keyFn array)).
Proof.
  intros array. split; [|split].
  - intros items -> Hplain.
    destruct (groupBy_groups items [] Hplain (NoDup_nil _)) as (groups & Hrun & Hnd & Hassoc).
    exists groups. unfold Utils.groupBy. rewrite Hrun. split; [reflexivity|].
    split; [assumption|]. intros k. rewrite Hassoc. reflexivity.
  - intros Harray _. destruct array; try discriminate; eexists; reflexivity.
  - intros item rest key -> Hkey Hinherited. unfold Utils.groupBy.
    cbn [reduceM]. unfold Utils.groupBy_reducer at 1. rewrite Hkey. cbn [rbind assoc].
    rewrite Hinherited. eexists. reflexivity.
Qed.

End grouping.

Lemma groupBy_partitions_witness :
  exists groups,
    Utils.groupBy (fun r => Ok (get_prop r "name")) (VArr sampleData)
    = Ok (VObj (map (fun kg => (fst kg, VArr (snd kg))) groups)) /\
    assoc "John" groups = Some (firstn 2 sampleData) /\
    assoc "Ann" groups = None.
Proof.
  destruct (proj1 (groupBy_partitions (fun r => Ok (get_prop r "name")) (VArr sampleData))
              sampleData eq_refl) as (groups & Hrun & _ & Hassoc).
  - apply Forall_forall. intros r [<-|[<-|[<-|[<-|[]]]]];
      eexists; (split; [reflexivity|]); (split; [discriminate|]); split; reflexivity.
  - exists groups. split; [exact Hrun|].
    split; [exact (Hassoc "John"%string) | exact (Hassoc "Ann"%string)].
Defined.

(** ** memoize *)

Section memoizing.
Variable stringify : value -> string.
Variable fn : list value -> outcome value.

Lemma memoized_sound :
  forall calls key r,
    assoc key (cache_after stringify fn calls) = Some r ->
    exists args, In args calls /\ stringify (VArr args) = key /\ fn args = Ok r.
Proof.
  unfold cache_after. intros calls.
  induction calls as [|args calls IH] using rev_ind; intros key r Hassoc.
  - discriminate.
  - rewrite fold_left_app in Hassoc. cbn [fold_left] in Hassoc.
    set (cache := fold_left (fun cache args => fst (Utils.memoized stringify fn cache args))
                            calls []) in *.
    unfold Utils.memoized in Hassoc.
    destruct (assoc (stringify (VArr args)) cache) as [hit|] eqn:Hhit.
    + cbn [fst] in Hassoc. destruct (IH key r Hassoc) as (args' & Hin & Hkey & Hfn).
      exists args'. split; [apply in_or_app; now left | auto].
    + destruct (fn args) as [result|e] eqn:Hfn; cbn [fst] in Hassoc.
      * rewrite (assoc_app_absent _ cache _ key result Hhit) in Hassoc.
        destruct (String.eqb (stringify (VArr args)) key) eqn:Hkey.
        -- injection Hassoc as <-. apply String.eqb_eq in Hkey.
           exists args. split; [apply in_or_app; right; now left | auto].
        -- destruct (IH key r Hassoc) as (args' & Hin & Hkey' & Hfn').
           exists args'. split; [apply in_or_app; now left | auto].
      * destruct (IH key r Hassoc) as (args' & Hin & Hkey' & Hfn').
        exists args'. split; [apply in_or_app; now left | auto].
Qed.

(** X30: a memoized function answers from its cache by the JSON text of the
    arguments.  After any calls, a call returns what [fn] returned for these
    arguments or, when an earlier call had arguments with the same JSON text,
    what [fn] returned then; it throws only what [fn] throws for these
    arguments, and then nothing is stored; a call that returned is answered
    with the same value, and without a change of the cache, when it is
    repeated. *)
Theorem memoize_answers_from_the_cache :
  forall calls args,
    let cache := cache_after stringify fn calls in
    let call := Utils.memoized stringify fn cache args in
    (forall r, snd call = Ok r ->
       (exists args',
           (args' = args \/ In args' calls) /\
           stringify (VArr args') = stringify (VArr args) /\ fn args' = Ok r) /\
       Utils.memoized stringify fn (fst call) args = (fst call, Ok r)) /\
    (forall e, snd call = Throw e -> fn args = Throw e /\ fst call = cache).
Proof.
  intros calls args cache call. unfold call, Utils.memoized.
  destruct (assoc (stringify (VArr args)) cache) as [hit|] eqn:Hhit.
  - cbn [fst snd]. split; [|discriminate].
    intros r Hr. injection Hr as <-. split.
    + destruct (memoized_sound calls _ _ Hhit) as (args' & Hin & Hkey & Hfn).
      exists args'. auto.
    + now rewrite Hhit.
  - destruct (fn args) as [result|e] eqn:Hfn; cbn [fst snd].
    + split; [|discriminate]. intros r Hr. injection Hr as <-. split.
      * exists args. auto.
      * now rewrite (assoc_app_absent _ cache _ _ result Hhit), String.eqb_refl.
    + split; [discriminate|]. intros e' He. injection He as <-. auto.
Qed.

End memoizing.

